(* ===== verification/_CoqProject ===== *)
-Q . S2P
Prelude.v
GoStrings.v
Sql.v
Lifecycle.v
ControlPlane.v
ConfigBus.v
Billing.v
Ledger.v
Plans.v
Redis.v
Quota.v
Fairness.v
Cipher.v
VirtualKey.v
Rbac.v
Sessions.v
AuditLog.v
Portal.v
Member.v
MemberConcurrency.v
TenantScope.v
Isolation.v
Calendar.v
TenantUsage.v
Gateway.v
ModelAccess.v
TenantAuth.v
Routing.v
HttpApi.v
ApiHandlers.v
ApiSpec.v
ApiPublic.v
RequestLog.v
InternalApi.v
Catalog.v
Migrate.v
MigrateSpec.v
TenantSchema.v
Preflight.v
RedisKV.v
Settings.v
Startup.v
DataPlane.v
ProviderKeys.v
Guardrails.v
TenantFunding.v
BusLoops.v
RegistrySchema.v
KeyErrors.v
