(* ===== verification/Prelude.v ===== *)
(** * A verification library for the multi-tenant model service

    ** The program

    MaaS sells access to language models to many tenants.  A control plane
    (cmd/maas-api, internal/httpapi) keeps tenants, members, roles, plans,
    prices, virtual keys and the audit trail in one relational database; a data
    plane (cmd/maas-gateway, plugins/) serves model requests through a
    third-party gateway, whose configuration store and hooks it wraps.  The two
    meet in three places: the configuration bus, which carries every change of a
    key to the gateway's nodes; the billing ledger and the Redis counters, which
    the usage plugin charges; and the tenant_id column with its row-level
    security policies, which keep the tenants' rows apart in the gateway's
    database.

    ** The files

    Foundations.  Prelude: error values, machine integers, instants, tactics.
    GoStrings: Go's strings package on bytes.  Sql: the relational store as an
    interface of tables with laws, programs over it with driver failures
    ([M], [outcome] for any failures, [runs] for none), and the rules of a
    weakest precondition ([wp], [wp_step]) every other proof uses.  Redis: the
    key space and the commands sent to it, as an interface with laws.

    Control plane.
    - Lifecycle (internal/controlplane: tenant.go, lifecycle.go): statuses of a
      tenant and their transitions.
    - ControlPlane (internal/controlplane/store.go): the tenant registry.
    - RegistrySchema (the same file): its migration and the constraint on the
      status of a tenant, over the catalogue.
    - ConfigBus (internal/configbus: outbox.go, redis.go, reconcile.go): the
      outbox, the notifications and a node's fence and reconciliation.  BusLoops:
      the goroutine of a subscription with its channels and its consumer as a
      step relation, and the periodic reconciler over what wakes it.
    - Billing, Ledger, Plans (internal/billing/billing.go): usage events and
      invoices; prepaid accounts and reservations; plans, prices, allowances.
    - Cipher, VirtualKey (internal/virtualkey: cipher.go, store.go,
      projector.go): recoverable secrets, keys and their projection.  KeyErrors:
      what is stored of a projection's error.
    - Rbac, Sessions (internal/rbac, internal/authn): principals, roles,
      permissions; stored sessions.
    - AuditLog (internal/audit/audit.go), Portal (internal/portal), Member
      (internal/member/member.go).  MemberConcurrency: UpdateTx in the phases of
      its transaction, interleaved under read committed and row locks.
    - Routing, HttpApi, ApiHandlers (internal/httpapi): the path parsers and the
      switch of serveHTTP as a function to a route; sessions, authorization and
      answers; one definition per handler and the seeding Migrate does.  ApiSpec
      and ApiPublic hold their theorems.
    - RequestLog (internal/requestlog/requestlog.go): the tenant-safe copy of a
      log entry under a budget of nodes and bytes.

    Data plane.
    - TenantScope (internal/tenant: context.go, keyscope.go, store.go): the
      tenant on a context and the guarded methods of the wrapped store.
    - Isolation (internal/tenant/binding.go, internal/migrate: rlspolicy.go,
      tables.go): policies as expressions in three-valued logic, connections
      with session and transaction settings, the binding of a tenant.
    - TenantAuth (internal/tenantauth/resolver.go, plugins/tenantauth): a
      credential to its tenant, over Isolation's connections and the registry.
    - Quota (internal/quota/counter.go), Fairness
      (internal/fairness/semaphore.go): the scripts on Redis.
    - Calendar, TenantUsage (plugins/tenantusage/plugin.go): months; admission
      and settlement, against an interface of their backends.  Gateway
      (cmd/maas-gateway/main.go) is the instance the gateway builds.
    - ModelAccess (internal/modelaccess/filter.go): the model list of a tenant.
    - DataPlane (internal/bifrostprojection/virtualkey.go): a key brought to the
      gateway's table, in its tenant's transaction, and to the in-process view;
      it is an instance of the target VirtualKey's projector drives.
    - ProviderKeys (internal/bifroststore/provider_keys.go): the writes of shared
      provider settings and keys, in platform mode.
    - Guardrails (plugins/guardrails/plugin.go), TenantFunding
      (internal/governance/tenantstore.go): blocked terms; the tenant's limits.
    - InternalApi (cmd/maas-gateway/main.go): the catalog of models and the
      request logs the control plane asks the gateway for.
    - RedisKV (internal/rediskv): the gateway's key-value store, with the
      client's retries and lost requests and replies.

    The database and the start of the processes.
    - Catalog: columns, indexes, constraints, validated against the rows.
      Migrate, MigrateSpec, TenantSchema (internal/migrate): the migrations and
      their rollbacks; the invariant of a database that only they have changed;
      what a migrated database guarantees.
    - Preflight (internal/rls/preflight.go): the checks before serving.
    - Settings (cmd/maas-gateway/main.go, cmd/maas-api/main.go): what the two
      processes read of their environments.  Startup: the wait for the database,
      wireMaaS with every error path, the consumer of notifications.

    A definition keeps the name of its function or method; a record keeps the
    fields that are read, each with a prefix.  What a handler or a method of a
    store does is a program [M W A] over the state [W] of its component; a
    larger state runs it with [zoom] on a field.  A transaction restores the
    state on an error and may fail at its commit.

    ** What the theorems show

    - Money: a request is metered once and a period invoiced once
      (Billing); the account operations implement a ledger that has no cached
      counter, and conserve funds (Ledger); a price is the exact value rounded
      up, and the allowance is what plan and usage say (Plans); one request is
      charged once in a window (Quota) and settled once (TenantUsage), and the
      two books agree on the amount (Gateway).
    - Tenancy: whatever runs in a tenant's transaction is given only rows the
      tenant may read, removes only such rows and leaves new ones only in its own
      name, on a connection of a pool after any other requests, and the policies
      are exactly the rule of the design (Isolation); the wrapped store
      is never reached without a scope (TenantScope); a credential binds the
      tenant that owns it (TenantAuth); the portal and the request logs stay
      within the principal's tenant (Portal, ApiPublic).  The migrations install
      those policies with the columns, indexes and checks they need, refuse to do
      so exactly over rows nobody owns, and tighten the schema so that no row points at another tenant's (TenantSchema); the
      preflight finds exactly what would exempt the gateway's role (Preflight),
      so a gateway that has come up is bound by them (Startup); platform mode is
      confined to the writes that need it (ProviderKeys).
    - Access: every route lets through only a live session with its permission,
      on its side of the API, with its CSRF token; refusals change nothing;
      every change writes exactly one audit event in its own transaction
      (ApiSpec); no session opens without credentials, a password reset ends
      them all (ApiPublic); authorization is what the tables grant (Rbac); the
      last owner stays where removals of owners do not overlap, and where they do
      it may not (MemberConcurrency); redaction is exact and the trail only grows
      (AuditLog).
    - State machines: the registry keeps its invariant and refines the
      lifecycle (ControlPlane), and the database refuses statuses outside it
      (RegistrySchema); generations are complete and monotone and
      reconciliation converges (ConfigBus), a subscription hands on the valid
      messages in order and is not stuck while it is read, and a periodic pass
      makes up for what was lost or failed just as far as its own reloads
      succeed (BusLoops); keys follow their life, a
      revocation is final and the data plane comes to the published state
      (VirtualKey); what is projected is what a secret is resolved to (DataPlane);
      the semaphore never exceeds its limits (Fairness); a claim of a key is
      won once in its time to live (RedisKV).
    - Disclosure: no secret in a stored error (KeyErrors), in a log entry
      (RequestLog) or in the trail (AuditLog), and each is bounded; terms a
      gateway blocks are blocked, and where they are not (Guardrails).
    - Round trips: sessions, routes, secrets, key creation and reveal, values of
      the key-value store.
    - Defects: theorems that exhibit a run the code does not mean, each named in
      the doc comment of its statement (a migration that creates nothing, a
      membership the preflight misses, a client or a goroutine that is never
      closed, a constraint that is lost, a text cut inside a rune).

    ** Interfaces and their assumptions

    A class states what third-party code promises: [Sql] (documented effect of
    each statement, no order of rows), [Redis] (likewise), [Sha256] (without
    collisions), [Aead] (authenticated encryption), [GoUnicode] and [GoFold]
    (fixed on ASCII), [GoJson] and [ApiJson] (the JSON codec), [GoMail],
    [Bcrypt], [ConfigStore] and [GatewayKeys] (the gateway's tables and
    helpers), [UsageBackends] (what the usage plugin calls), [Target] (what the
    projector drives), [VirtualKeyModel], [BifrostStore] and [GovernanceStore]
    (the gateway's model of a key, its store and its view), [ProviderModels] and
    [ProviderStore], [LLMTypes] (their JSON has no bare HTML characters),
    [Grants], [LogManager], [Migrator] and [MigrationStore] (migrations run in
    order, each once and in a transaction), [KvRuntime].  Each has a concrete
    instance, with which the witnesses evaluate the models; TenantUsage's and
    VirtualKey's interfaces are discharged by Gateway and DataPlane.

    ** Bounds

    Go's int64 is a [Z] with [wrap64] where a result can leave its range, and a
    sum of SQL that leaves it is an error.  Loops of the code are over lists; a
    retry or a renewal loop is a step that the theorems iterate.  Where a
    definition counts down, the count is the code's or the length of the input:
    the attempts of the two waits for the database (30 and 60, and one more step
    for the error after them), the depth of a log entry (12 levels, the code's
    own limit), the bytes of a text (trimming, replacing, mapping runes, of which
    each step takes at least one), the twelve months of a year.  The order in
    which Go walks a map is a parameter.

    ** Not modelled

    - HTTP transport: headers other than those read, CORS, the encoding of
      responses, timeouts; a gateway URL that does not parse.
    - Locks: but for the updates of members (MemberConcurrency), SELECT FOR
      UPDATE and advisory locks do nothing, since programs run one after another;
      an interleaving of two transactions that both read before either writes is
      not visible.  The scripts of Redis are atomic there, too, and interleave
      freely as steps; their numbers are integers, where Lua's are doubles, exact
      up to 2^53 only.
    - More than one gateway node: VirtualKey follows one projector and its view.
    - Nil receivers and, but where a guard for them is the point, nil
      transactions; log lines; the shutdown of the two processes, their flags
      and HTTP servers.  Goroutines but the one of a subscription.
    - The clock stands still within one request or hook unless two readings are
      named.  Timestamps keep their nanoseconds in the database.
    - Table creation by gorm's AutoMigrate in the stores of the control plane:
      one call of a third-party library each.
    - What sits behind the interfaces: Bifrost, its migrator, plugins and stores.
    - internal/rlsspike, an experiment kept beside the code that nothing calls;
      internal/pglock, which only tests use; internal/tenantid, one type. *)
From Stdlib Require Export Ascii ZArith Lia.
From stdpp Require Export base list gmap strings fin_maps sorting pretty.

#[global] Open Scope string_scope.
#[global] Open Scope list_scope.
#[global] Open Scope Z_scope.

Declare Scope maas_scope.
Delimit Scope maas_scope with maas.
#[global] Open Scope maas_scope.

(** ** Go error values

    [errors.New] makes a value, [fmt.Errorf] with a %w verb wraps one (the
    rendered text is not kept, only the format it was rendered from),
    [errors.Join] pairs two.  [Driver] is an error the database driver or the
    network raises on its own. *)
Inductive error :=
| New (msg : string)
| Wrap (ctx : string) (e : error)
| Join (e1 e2 : error)
| Driver (msg : string).

#[export] Instance error_eq_dec : EqDecision error.
Proof. solve_decision. Defined.

(** [errors.Is] for comparable targets. *)
Fixpoint errors_is (e target : error) : bool :=
  bool_decide (e = target) ||
  match e with
  | Wrap _ e' => errors_is e' target
  | Join e1 e2 => errors_is e1 target || errors_is e2 target
  | _ => false
  end.

Lemma errors_is_refl e : errors_is e e = true.
Proof. destruct e; simpl; by rewrite bool_decide_eq_true_2. Qed.

Lemma errors_is_wrap c e t : t <> Wrap c e -> errors_is (Wrap c e) t = errors_is e t.
Proof. intros H. simpl. rewrite bool_decide_eq_false_2; [done|congruence]. Qed.

Lemma errors_is_driver m s : errors_is (Driver m) (New s) = false.
Proof. reflexivity. Qed.

(** ** Machine integers: Go's int and int64 (two's complement) and uint64 *)
Definition wrap64 (z : Z) : Z := (z + 2 ^ 63) mod 2 ^ 64 - 2 ^ 63.
Definition wrapu64 (z : Z) : Z := z mod 2 ^ 64.
Definition int64_range (z : Z) : Prop := - 2 ^ 63 <= z < 2 ^ 63.

Notation "a +64 b" := (wrap64 (a + b)) (at level 50, left associativity) : maas_scope.
Notation "a -64 b" := (wrap64 (a - b)) (at level 50, left associativity) : maas_scope.
Notation "a *64 b" := (wrap64 (a * b)) (at level 40, left associativity) : maas_scope.

Lemma wrap64_id z : int64_range z -> wrap64 z = z.
Proof.
  unfold int64_range, wrap64. intros H.
  rewrite Z.mod_small; lia.
Qed.

Lemma wrap64_range z : int64_range (wrap64 z).
Proof.
  unfold int64_range, wrap64.
  pose proof (Z.mod_pos_bound (z + 2 ^ 63) (2 ^ 64)). lia.
Qed.

Lemma wrap64_add_l a b : wrap64 (wrap64 a + b) = wrap64 (a + b).
Proof.
  unfold wrap64. f_equal.
  replace ((a + 2 ^ 63) mod 2 ^ 64 - 2 ^ 63 + b + 2 ^ 63)
    with ((a + 2 ^ 63) mod 2 ^ 64 + b) by lia.
  rewrite Zplus_mod_idemp_l. f_equal. lia.
Qed.

(** ** Instants and durations

    A [time.Time] is the number of nanoseconds since the Unix epoch, so UTC()
    is the identity; the zero Time is midnight of January 1st of year 1.  A
    [time.Duration] is its number of nanoseconds. *)
Definition zero_time : Z := -62135596800 * 10 ^ 9.
Definition is_zero_time (t : Z) : bool := t =? zero_time.
Definition unix (t : Z) : Z := t / 10 ^ 9.
Definition milliseconds (d : Z) : Z := Z.quot d (10 ^ 6).

(** ** Generic tactics *)

(** Case analysis on the innermost condition of a hypothesis. *)
Ltac case_in H :=
  match type of H with
  | context [ if ?b then _ else _ ] =>
      lazymatch b with context [ if _ then _ else _ ] => fail | _ => let E := fresh "E" in destruct b eqn:E end
  | context [ match ?o with _ => _ end ] =>
      lazymatch o with context [ match _ with _ => _ end ] => fail | _ => let E := fresh "E" in destruct o eqn:E end
  end.

Ltac bools :=
  repeat match goal with
  | H : (_ && _)%bool = true |- _ => apply andb_true_iff in H as [? ?]
  | H : (_ || _)%bool = false |- _ => apply orb_false_iff in H as [? ?]
  | H : negb _ = true |- _ => apply negb_true_iff in H
  | H : negb _ = false |- _ => apply negb_false_iff in H
  | H : bool_decide _ = true |- _ => apply bool_decide_eq_true in H
  | H : bool_decide _ = false |- _ => apply bool_decide_eq_false in H
  | H : (_ <? _) = true |- _ => apply Z.ltb_lt in H
  | H : (_ <? _) = false |- _ => apply Z.ltb_ge in H
  | H : (_ <=? _) = true |- _ => apply Z.leb_le in H
  | H : (_ <=? _) = false |- _ => apply Z.leb_gt in H
  | H : (_ =? _) = true |- _ => apply Z.eqb_eq in H
  | H : (_ =? _) = false |- _ => apply Z.eqb_neq in H
  end.
