(* ===== verification/GoStrings.v ===== *)
(** * Go's [strings] package, as far as the program uses it

    A Go string is a sequence of bytes; a Rocq [string] is one too ([ascii] is
    a byte).  [strings.ToLower] needs the Unicode tables, so it is an interface
    whose law fixes it on ASCII only. *)
From S2P Require Import Prelude.

Fixpoint of_bytes (l : list nat) : string :=
  match l with
  | [] => EmptyString
  | n :: l' => String (Ascii.ascii_of_nat n) (of_bytes l')
  end.

(** The separator the program writes as backslash x00. *)
Definition NUL : string := of_bytes [0%nat].

Fixpoint sdrop (n : nat) (s : string) : string :=
  match n, s with
  | O, _ => s
  | S n', String _ s' => sdrop n' s'
  | S _, EmptyString => EmptyString
  end.

Fixpoint stake (n : nat) (s : string) : string :=
  match n, s with
  | S n', String c s' => String c (stake n' s')
  | _, _ => EmptyString
  end.

Fixpoint srev_app (s acc : string) : string :=
  match s with
  | EmptyString => acc
  | String c s' => srev_app s' (String c acc)
  end.
Definition srev (s : string) : string := srev_app s EmptyString.

Definition has_prefix (s p : string) : bool := String.prefix p s.
Definition has_suffix (s p : string) : bool := String.prefix (srev p) (srev s).

(** [strings.IndexByte]; [None] is -1. *)
Fixpoint index_byte (s : string) (c : ascii) : option nat :=
  match s with
  | EmptyString => None
  | String d s' => if bool_decide (d = c) then Some O else S <$> index_byte s' c
  end.

(** [strings.Contains] and [strings.LastIndex]. *)
Fixpoint contains (s sub : string) : bool :=
  has_prefix s sub ||
  match s with
  | EmptyString => false
  | String _ s' => contains s' sub
  end.

Fixpoint last_index (s sub : string) : option nat :=
  match s with
  | EmptyString => if has_prefix s sub then Some O else None
  | String _ s' =>
      match last_index s' sub with
      | Some n => Some (S n)
      | None => if has_prefix s sub then Some O else None
      end
  end.

Definition contains_any (s : string) (chars : string) : bool :=
  existsb (fun c => match index_byte s c with Some _ => true | None => false end)
          (String.list_ascii_of_string chars).

(** [strings.TrimSuffix] for one suffix. *)
Definition trim_suffix (s p : string) : string :=
  if has_suffix s p then stake (String.length s - String.length p) s else s.

(** [strings.Cut] at a one-byte separator. *)
Definition cut (s : string) (c : ascii) : string * string * bool :=
  match index_byte s c with
  | Some n => (stake n s, sdrop (S n) s, true)
  | None => (s, EmptyString, false)
  end.

(** ** TrimSpace: the UTF-8 encodings of the runes [unicode.IsSpace] accepts. *)
Definition space_encodings : list string :=
  of_bytes <$>
    ([[9]; [10]; [11]; [12]; [13]; [32]; [194; 133]; [194; 160]; [225; 154; 128]]
     ++ ((fun k => [226; 128; k]) <$> [128; 129; 130; 131; 132; 133; 134; 135; 136; 137; 138; 168; 169; 175])
     ++ [[226; 129; 159]; [227; 128; 128]])%nat.

Fixpoint strip_one (encs : list string) (s : string) : option string :=
  match encs with
  | [] => None
  | e :: encs' => if has_prefix s e then Some (sdrop (String.length e) s) else strip_one encs' s
  end.

(** Every encoding is at least one byte, so [length s] rounds are enough. *)
Fixpoint strip_all (fuel : nat) (encs : list string) (s : string) : string :=
  match fuel with
  | O => s
  | S fuel' => match strip_one encs s with
               | Some s' => strip_all fuel' encs s'
               | None => s
               end
  end.

Definition trim_left (s : string) : string := strip_all (String.length s) space_encodings s.
Definition trim_right (s : string) : string :=
  srev (strip_all (String.length s) (srev <$> space_encodings) (srev s)).
Definition trim_space (s : string) : string := trim_right (trim_left s).

Definition is_empty (s : string) : bool := bool_decide (s = EmptyString).
Definition blank (s : string) : bool := is_empty (trim_space s).

(** ** ToLower *)
Definition lower_byte (c : ascii) : ascii :=
  let n := Ascii.nat_of_ascii c in
  if (65 <=? n)%nat && (n <=? 90)%nat then Ascii.ascii_of_nat (n + 32) else c.

Fixpoint ascii_lower (s : string) : string :=
  match s with
  | EmptyString => EmptyString
  | String c s' => String (lower_byte c) (ascii_lower s')
  end.

Fixpoint is_ascii (s : string) : bool :=
  match s with
  | EmptyString => true
  | String c s' => (Ascii.nat_of_ascii c <? 128)%nat && is_ascii s'
  end.

Class GoUnicode := {
  to_lower : string -> string;
  to_lower_ascii : forall s, is_ascii s = true -> to_lower s = ascii_lower s }.

#[refine] Definition ascii_unicode : GoUnicode := {| to_lower := ascii_lower |}.
Proof. done. Defined.

(** ** Facts *)
#[global] Arguments String.append !_ _ : simpl nomatch.

Lemma string_eqb_spec (a b : string) : (a =? b)%string = bool_decide (a = b).
Proof.
  destruct (String.eqb_spec a b); [by rewrite bool_decide_eq_true_2|by rewrite bool_decide_eq_false_2].
Qed.

Lemma sapp_assoc (a b c : string) : ((a +:+ b) +:+ c) = (a +:+ (b +:+ c)).
Proof. induction a as [|x a IH]; simpl; [done|by rewrite IH]. Qed.

Lemma sapp_nil_r (a : string) : a +:+ EmptyString = a.
Proof. induction a as [|x a IH]; simpl; [done|by rewrite IH]. Qed.

Lemma slength_app (a b : string) : String.length (a +:+ b) = (String.length a + String.length b)%nat.
Proof. induction a as [|x a IH]; simpl; [done|by rewrite IH]. Qed.

Lemma sapp_inj_l (a b c : string) : a +:+ b = a +:+ c -> b = c.
Proof. induction a as [|x a IH]; simpl; [done|]. intros [=]; auto. Qed.

(** Two concatenations that agree, with heads of one length, agree piecewise. *)
Lemma sapp_inj (a b c d : string) :
  String.length a = String.length c -> a +:+ b = c +:+ d -> a = c /\ b = d.
Proof.
  revert c; induction a as [|x a IH]; intros [|y c]; simpl; try done.
  intros [= Hl] [= -> Heq]. destruct (IH c Hl Heq) as [-> ->]. done.
Qed.

Lemma sapp_inj_suffix (a b p : string) : a +:+ p = b +:+ p -> a = b.
Proof.
  intros E. pose proof (f_equal String.length E) as El. rewrite !slength_app in El.
  apply (sapp_inj a p b p); [lia|done].
Qed.

Lemma has_prefix_app (p s : string) : has_prefix (p +:+ s) p = true.
Proof.
  unfold has_prefix. induction p as [|c p IH]; simpl; [by destruct s|].
  by destruct (Ascii.ascii_dec c c).
Qed.

Lemma has_prefix_spec (s p : string) : has_prefix s p = true <-> exists r, s = p +:+ r.
Proof.
  unfold has_prefix. split.
  - revert s; induction p as [|c p IH]; intros s H; simpl in *; [by exists s|].
    destruct s as [|d s]; [done|]. simpl in H. revert H.
    destruct (Ascii.ascii_dec c d) as [->|]; [|done]. intros H.
    destruct (IH s H) as [r ->]. by exists r.
  - intros [r ->]. apply has_prefix_app.
Qed.

Lemma srev_app_spec s acc : srev_app s acc = srev s +:+ acc.
Proof.
  unfold srev. revert acc; induction s as [|c s IH]; intros acc; simpl; [done|].
  rewrite (IH (String c acc)), (IH (String c EmptyString)), sapp_assoc. done.
Qed.

Lemma srev_cons c s : srev (String c s) = srev s +:+ String c EmptyString.
Proof. unfold srev at 1. simpl. apply srev_app_spec. Qed.

Lemma srev_sapp a b : srev (a +:+ b) = srev b +:+ srev a.
Proof.
  induction a as [|c a IH]; simpl.
  - by rewrite sapp_nil_r.
  - by rewrite !srev_cons, IH, sapp_assoc.
Qed.

Lemma srev_involutive s : srev (srev s) = s.
Proof.
  induction s as [|c s IH]; [done|].
  rewrite srev_cons, srev_sapp, IH. done.
Qed.

Lemma slength_srev s : String.length (srev s) = String.length s.
Proof.
  induction s as [|c s IH]; [done|].
  rewrite srev_cons, slength_app, IH. simpl. lia.
Qed.

Lemma has_suffix_spec (s p : string) : has_suffix s p = true <-> exists r, s = r +:+ p.
Proof.
  unfold has_suffix. change (has_prefix (srev s) (srev p) = true <-> exists r, s = r +:+ p).
  rewrite has_prefix_spec. split.
  - intros [r Hr]. exists (srev r).
    by rewrite <-(srev_involutive s), Hr, srev_sapp, srev_involutive.
  - intros [r ->]. exists (srev r). apply srev_sapp.
Qed.

Lemma stake_app a b : stake (String.length a) (a +:+ b) = a.
Proof. induction a as [|c a IH]; simpl; [by destruct b|]. by rewrite IH. Qed.

Lemma sdrop_app a b : sdrop (String.length a) (a +:+ b) = b.
Proof. induction a as [|c a IH]; simpl; [done|]. by rewrite IH. Qed.

Lemma trim_suffix_app a p : trim_suffix (a +:+ p) p = a.
Proof.
  unfold trim_suffix. rewrite (proj2 (has_suffix_spec _ _)) by eauto.
  rewrite slength_app, Nat.add_sub. apply stake_app.
Qed.

Lemma index_byte_app a b c :
  index_byte a c = None -> index_byte (a +:+ String c b) c = Some (String.length a).
Proof.
  induction a as [|d a IH]; simpl.
  - intros _. by rewrite bool_decide_eq_true_2.
  - case_bool_decide; [done|]. destruct (index_byte a c); [done|]. intros _. by rewrite IH.
Qed.

Lemma index_byte_split s c n :
  index_byte s c = Some n ->
  s = stake n s +:+ String c (sdrop (S n) s) /\ index_byte (stake n s) c = None.
Proof.
  revert n; induction s as [|d s IH]; intros n; simpl; [done|].
  case_bool_decide as Hd.
  - intros [= <-]. subst. simpl. by destruct s.
  - destruct (index_byte s c) as [k|] eqn:E; [|done]. intros [= <-].
    destruct (IH k eq_refl) as [Hs Hn]. simpl. split.
    + f_equal. exact Hs.
    + by rewrite bool_decide_eq_false_2, Hn.
Qed.

Lemma cut_app a b c : index_byte a c = None -> cut (a +:+ String c b) c = (a, b, true).
Proof.
  intros H. unfold cut. rewrite (index_byte_app _ _ _ H).
  rewrite stake_app.
  replace (sdrop (S (String.length a)) (a +:+ String c b)) with b; [done|].
  clear H. induction a as [|d a IH]; simpl in *; [done|]. exact IH.
Qed.

Lemma index_byte_none_app a b c :
  index_byte (a +:+ b) c = None <-> index_byte a c = None /\ index_byte b c = None.
Proof.
  induction a as [|d a IH]; simpl; [by intuition|].
  case_bool_decide; [split; [done|by intros []]|].
  destruct (index_byte (a +:+ b) c), (index_byte a c); simpl; intuition congruence.
Qed.

(** [strings.Contains] is occurrence. *)
Definition occurs_in (word body : string) : Prop := exists a b, body = a +:+ word +:+ b.

Lemma prefix_occurs s sub : has_prefix s sub = true -> occurs_in sub s.
Proof. intros [r ->]%has_prefix_spec. by exists EmptyString, r. Qed.

Lemma contains_spec s sub : contains s sub = true <-> occurs_in sub s.
Proof.
  split.
  - induction s as [|c s IH]; cbn [contains]; intros [E|E]%orb_true_iff; [by apply prefix_occurs|done|by apply prefix_occurs|].
    destruct (IH E) as (a & b & ->). by exists (String c a), b.
  - intros (a & b & ->). induction a as [|c a IH].
    + change (EmptyString +:+ sub +:+ b) with (sub +:+ b). pose proof (has_prefix_app sub b) as Hp.
      destruct (sub +:+ b); cbn [contains]; by rewrite Hp.
    + change (String c a +:+ sub +:+ b) with (String c (a +:+ sub +:+ b)). cbn [contains]. by rewrite IH, orb_true_r.
Qed.

Lemma index_byte_app_none a b c : index_byte a c = None -> index_byte b c = None -> index_byte (a +:+ b) c = None.
Proof. intros Ha Hb. induction a as [|d a IH]; [done|]. simpl in *. case_bool_decide; [done|]. destruct (index_byte a c); [done|]. by rewrite IH. Qed.

Lemma index_byte_none_srev s c : index_byte s c = None -> index_byte (srev s) c = None.
Proof.
  induction s as [|d s IH]; [done|]. rewrite srev_cons, index_byte_none_app. simpl.
  case_bool_decide; [done|]. destruct (index_byte s c); [done|]. auto.
Qed.

(** The last occurrence of a byte splits a string in one way. *)
Lemma split_last_byte a b a' b' c :
  index_byte b c = None -> index_byte b' c = None ->
  a +:+ String c b = a' +:+ String c b' -> a = a' /\ b = b'.
Proof.
  intros Hb Hb' E. apply (f_equal srev) in E.
  rewrite !srev_sapp, !srev_cons, !sapp_assoc in E. simpl in E.
  apply (f_equal (fun s => cut s c)) in E.
  rewrite !cut_app in E by by apply index_byte_none_srev.
  injection E as E1 E2. split.
  - by rewrite <-(srev_involutive a), E2, srev_involutive.
  - by rewrite <-(srev_involutive b), E1, srev_involutive.
Qed.

(** ** Decimal texts: [strconv.Itoa] and the d verb are [pretty] *)
Definition is_digit (c : ascii) : bool :=
  let n := Ascii.nat_of_ascii c in (48 <=? n)%nat && (n <=? 57)%nat.

Lemma pretty_N_char_digit x : is_digit (pretty_N_char x) = true.
Proof. unfold pretty_N_char. by repeat case_match. Qed.

Lemma pretty_N_go_no_byte c : is_digit c = false ->
  forall x s, index_byte s c = None -> index_byte (pretty_N_go x s) c = None.
Proof.
  intros Hc x. induction (N.lt_wf_0 x) as [x _ IH]; intros s Hs.
  destruct (decide (0 < x)%N).
  - rewrite pretty_N_go_step by done. apply IH; [by apply N.div_lt|]. simpl.
    rewrite bool_decide_eq_false_2, Hs; [done|].
    intros E. pose proof (pretty_N_char_digit (x `mod` 10)) as Hd. by rewrite E, Hc in Hd.
  - assert (x = 0)%N as -> by lia. by rewrite pretty_N_go_0.
Qed.

Lemma pretty_Z_no_byte c (z : Z) :
  is_digit c = false -> c <> "-"%char -> index_byte (pretty z) c = None.
Proof.
  intros Hc Hd.
  assert (HN : forall n, index_byte (pretty_N_go n EmptyString) c = None).
  { intros n. by apply pretty_N_go_no_byte. }
  destruct z as [|p|p]; [| |]; unfold pretty, pretty_Z; simpl.
  - rewrite bool_decide_eq_false_2; [done|]. intros <-. by vm_compute in Hc.
  - apply (HN (N.pos p)).
  - rewrite bool_decide_eq_false_2 by congruence.
    change (pretty p) with (pretty_N_go (N.pos p) EmptyString). by rewrite HN.
Qed.

(** ** Trimming twice is trimming once *)
Lemma strip_one_length encs s s' :
  Forall (fun e => e <> EmptyString) encs -> strip_one encs s = Some s' ->
  (String.length s' < String.length s)%nat /\ exists r, s = r +:+ s'.
Proof.
  induction 1 as [|e encs He _ IH]; simpl; [done|].
  destruct (has_prefix s e) eqn:Ep; [|exact IH]. intros [= <-].
  apply has_prefix_spec in Ep as [r ->]. rewrite sdrop_app, slength_app.
  split; [|by exists e]. destruct e; simpl; [done|lia].
Qed.

Lemma strip_all_done encs n s :
  Forall (fun e => e <> EmptyString) encs -> (String.length s <= n)%nat ->
  strip_one encs (strip_all n encs s) = None /\ exists r, s = r +:+ strip_all n encs s.
Proof.
  intros He. revert s. induction n as [|n IH]; intros s Hn; simpl.
  - destruct (strip_one encs s) as [s'|] eqn:Es; [|by split; [|exists EmptyString]].
    apply strip_one_length in Es as [? _]; [lia|done].
  - destruct (strip_one encs s) as [s'|] eqn:Es; [|by split; [|exists EmptyString]].
    apply strip_one_length in Es as [Hl [r ->]]; [|done].
    destruct (IH s' ltac:(lia)) as [Hd [r' Hr']]. split; [done|].
    exists (r +:+ r'). by rewrite sapp_assoc, <-Hr'.
Qed.

Lemma strip_all_fixed encs n s : strip_one encs s = None -> strip_all n encs s = s.
Proof. destruct n; simpl; [done|]. by intros ->. Qed.

Lemma strip_one_prefix encs a b : strip_one encs (a +:+ b) = None -> strip_one encs a = None.
Proof.
  induction encs as [|e encs IH]; simpl; [done|].
  destruct (has_prefix (a +:+ b) e) eqn:E1; [done|]. destruct (has_prefix a e) eqn:E2; [|exact IH].
  apply has_prefix_spec in E2 as [r ->]. by rewrite sapp_assoc, has_prefix_app in E1.
Qed.

Lemma encodings_nonempty :
  Forall (fun e => e <> EmptyString) space_encodings /\
  Forall (fun e => e <> EmptyString) (srev <$> space_encodings).
Proof. split; repeat (constructor; [done|]); constructor. Qed.

Lemma trim_space_idem s : trim_space (trim_space s) = trim_space s.
Proof.
  destruct encodings_nonempty as [H1 H2]. unfold trim_space. set (t := trim_left s).
  destruct (strip_all_done space_encodings (String.length s) s H1 (le_n _)) as [Ht _].
  change (strip_all _ _ s) with t in Ht.
  destruct (strip_all_done (srev <$> space_encodings) (String.length t) (srev t) H2) as [Hr [r Er]].
  { by rewrite slength_srev. }
  assert (Hx : strip_one space_encodings (trim_right t) = None).
  { apply (strip_one_prefix _ _ (srev r)). unfold trim_right. rewrite <-srev_sapp, <-Er. by rewrite srev_involutive. }
  unfold trim_left at 1. rewrite (strip_all_fixed _ _ _ Hx).
  unfold trim_right at 1. unfold trim_right at 2. rewrite srev_involutive, strip_all_fixed by done. done.
Qed.

(** ** [strconv.ParseInt] in base 10 and 64 bits *)
Definition digit_value (c : ascii) : Z := Z.of_nat (Ascii.nat_of_ascii c) - 48.

Fixpoint parse_digits (acc : Z) (s : string) : option Z :=
  match s with
  | EmptyString => Some acc
  | String c s' => if is_digit c then parse_digits (acc * 10 + digit_value c) s' else None
  end.

Definition parse_int64 (s : string) : option Z :=
  let magnitude := fun s => match s with EmptyString => None | _ => parse_digits 0 s end in
  match (match s with
         | String "-" s' => Z.opp <$> magnitude s'
         | String "+" s' => magnitude s'
         | _ => magnitude s
         end) with
  | Some z => if (- 2 ^ 63 <=? z) && (z <? 2 ^ 63) then Some z else None
  | None => None
  end.

Lemma parse_digits_app acc a b :
  parse_digits acc (a +:+ b) = match parse_digits acc a with Some z => parse_digits z b | None => None end.
Proof. revert acc. induction a as [|c a IH]; intros acc; simpl; [done|]. by destruct (is_digit c). Qed.

Lemma pretty_N_go_app x s : pretty_N_go x s = pretty_N_go x EmptyString +:+ s.
Proof.
  revert s. induction (N.lt_wf_0 x) as [x _ IH]; intros s. destruct (decide (0 < x)%N) as [Hx|Hx].
  - rewrite !(pretty_N_go_step x) by done. assert (x `div` 10 < x)%N by by apply N.div_lt.
    rewrite IH by done. rewrite (IH (x `div` 10)%N ltac:(done) (String _ EmptyString)).
    by rewrite sapp_assoc.
  - assert (x = 0)%N as -> by lia. by rewrite !pretty_N_go_0.
Qed.

Lemma digit_value_char x : (x < 10)%N -> digit_value (pretty_N_char x) = Z.of_N x.
Proof.
  intros Hx. assert (x = 0 \/ x = 1 \/ x = 2 \/ x = 3 \/ x = 4 \/ x = 5 \/ x = 6 \/ x = 7 \/ x = 8 \/ x = 9)%N
    as Hcases by lia. by repeat destruct Hcases as [->|Hcases]; [..|subst].
Qed.

Lemma parse_pretty_N x : parse_digits 0 (pretty_N_go x EmptyString) = Some (Z.of_N x).
Proof.
  induction (N.lt_wf_0 x) as [x _ IH]. destruct (decide (0 < x)%N) as [Hx|Hx].
  - rewrite pretty_N_go_step, pretty_N_go_app, parse_digits_app by done.
    rewrite IH by (by apply N.div_lt). simpl. rewrite pretty_N_char_digit.
    rewrite digit_value_char by (by apply N.mod_lt). f_equal.
    pose proof (N.div_mod x 10 ltac:(done)). lia.
  - by assert (x = 0)%N as -> by lia.
Qed.

Lemma pretty_N_go_head x : exists c s, pretty_N_go (N.pos x) EmptyString = String c s /\ is_digit c = true.
Proof.
  assert (Hd : forall n s, (exists c s', s = String c s' /\ is_digit c = true) ->
            exists c s', pretty_N_go n s = String c s' /\ is_digit c = true).
  { intros n. induction (N.lt_wf_0 n) as [n _ IH]; intros s Hs. destruct (decide (0 < n)%N) as [Hn|Hn].
    - rewrite pretty_N_go_step by done. apply IH; [by apply N.div_lt|].
      eexists _, _. split; [reflexivity|apply pretty_N_char_digit].
    - assert (n = 0)%N as -> by lia. by rewrite pretty_N_go_0. }
  rewrite pretty_N_go_step by lia. apply Hd. eexists _, _. split; [reflexivity|apply pretty_N_char_digit].
Qed.

Lemma parse_int64_pretty (z : Z) : int64_range z -> parse_int64 (pretty z) = Some z.
Proof.
  intros Hz. assert (Hr : (- 2 ^ 63 <=? z) && (z <? 2 ^ 63) = true) by (unfold int64_range in Hz; lia).
  destruct z as [|p|p]; [done| |].
  - change (pretty (Z.pos p)) with (pretty_N_go (N.pos p) EmptyString).
    destruct (pretty_N_go_head p) as (c & s & E & Hc). pose proof (parse_pretty_N (N.pos p)) as Hp.
    unfold parse_int64. rewrite E in *. rewrite Hp.
    assert (Hm : match String c s with
         | String "-" s' => Z.opp <$> match s' with EmptyString => None | _ => parse_digits 0 s' end
         | String "+" s' => match s' with EmptyString => None | _ => parse_digits 0 s' end
         | _ => Some (Z.of_N (N.pos p)) end = Some (Z.pos p)).
    { destruct c as [[] [] [] [] [] [] [] []]; done. }
    rewrite Hm. by rewrite Hr.
  - change (pretty (Z.neg p)) with (String "-" (pretty_N_go (N.pos p) EmptyString)).
    destruct (pretty_N_go_head p) as (c & s & E & Hc). pose proof (parse_pretty_N (N.pos p)) as Hp.
    unfold parse_int64. rewrite E in *. rewrite Hp.
    change ((if (- 2 ^ 63 <=? Z.neg p) && (Z.neg p <? 2 ^ 63) then Some (Z.neg p) else None) = Some (Z.neg p)).
    by rewrite Hr.
Qed.

(** ** [hex.EncodeToString] *)
Definition hex_char (n : nat) : ascii :=
  if (n <? 10)%nat then Ascii.ascii_of_nat (48 + n) else Ascii.ascii_of_nat (87 + n).

Definition hex_hi (c : ascii) : ascii := hex_char (Ascii.nat_of_ascii c / 16).
Definition hex_lo (c : ascii) : ascii := hex_char (Ascii.nat_of_ascii c mod 16).

Fixpoint hex_encode (s : string) : string :=
  match s with
  | EmptyString => EmptyString
  | String c s' => String (hex_hi c) (String (hex_lo c) (hex_encode s'))
  end.

Definition unhex_char (c : ascii) : nat :=
  let n := Ascii.nat_of_ascii c in if (n <? 58)%nat then (n - 48)%nat else (n - 87)%nat.

Lemma hex_byte_inverse c :
  Ascii.ascii_of_nat (16 * unhex_char (hex_hi c) + unhex_char (hex_lo c)) = c.
Proof. by destruct c as [[] [] [] [] [] [] [] []]. Qed.

Lemma hex_encode_inj a b : hex_encode a = hex_encode b -> a = b.
Proof.
  revert b. induction a as [|c a IH]; intros [|d b]; cbn [hex_encode]; [done..|].
  intros [= E1 E2 E3]. f_equal; [|by apply IH].
  by rewrite <-(hex_byte_inverse c), <-(hex_byte_inverse d), E1, E2.
Qed.

(** ** Text without spaces: every byte printable ASCII *)
Definition graphic (c : ascii) : bool :=
  let n := Ascii.nat_of_ascii c in ((33 <=? n) && (n <=? 126))%nat.

Fixpoint all_graphic (s : string) : bool :=
  match s with EmptyString => true | String c s' => graphic c && all_graphic s' end.

Lemma all_graphic_app a b : all_graphic (a +:+ b) = all_graphic a && all_graphic b.
Proof. induction a as [|c a IH]; [done|]. cbn [all_graphic String.append]. by rewrite IH, andb_assoc. Qed.

Lemma all_graphic_srev s : all_graphic (srev s) = all_graphic s.
Proof.
  induction s as [|c s IH]; [done|].
  rewrite srev_cons, all_graphic_app, IH. cbn [all_graphic]. by rewrite andb_true_r, andb_comm.
Qed.

Lemma all_graphic_hex s : all_graphic (hex_encode s) = true.
Proof.
  induction s as [|c s IH]; [done|]. cbn [hex_encode all_graphic]. rewrite IH.
  by destruct c as [[] [] [] [] [] [] [] []].
Qed.

Lemma strip_one_graphic encs s :
  Forall (fun e => all_graphic e = false) encs -> all_graphic s = true -> strip_one encs s = None.
Proof.
  intros He Hs. induction He as [|e encs He _ IH]; [done|]. simpl.
  destruct (has_prefix s e) eqn:Ep; [|exact IH].
  apply has_prefix_spec in Ep as [r ->]. rewrite all_graphic_app, He in Hs. done.
Qed.

Lemma trim_space_graphic s : all_graphic s = true -> trim_space s = s.
Proof.
  intros Hs. unfold trim_space, trim_right, trim_left.
  rewrite (strip_all_fixed space_encodings) by (apply strip_one_graphic; [repeat (constructor; [done|]); constructor|done]).
  rewrite strip_all_fixed; [by rewrite srev_involutive|].
  apply strip_one_graphic; [repeat (constructor; [done|]); constructor|by rewrite all_graphic_srev].
Qed.

(** A text with a byte of no space encoding is not blank. *)
Lemma strip_one_keeps encs c s s' :
  Forall (fun e => index_byte e c = None) encs -> strip_one encs s = Some s' ->
  index_byte s' c = None -> index_byte s c = None.
Proof.
  induction 1 as [|e encs He _ IH]; simpl; [done|]. destruct (has_prefix s e) eqn:E; [|exact IH].
  intros [= <-]. apply has_prefix_spec in E as [r ->]. rewrite sdrop_app. intros Hn. by apply index_byte_none_app.
Qed.

Lemma strip_all_keeps n encs c s :
  Forall (fun e => index_byte e c = None) encs -> index_byte (strip_all n encs s) c = None -> index_byte s c = None.
Proof.
  intros He. revert s. induction n as [|n IH]; intros s; simpl; [done|].
  destruct (strip_one encs s) as [s'|] eqn:Es; [|done]. intros Hn%IH. by eapply strip_one_keeps.
Qed.

Lemma not_blank_byte c s :
  Forall (fun e => index_byte e c = None) space_encodings -> index_byte s c <> None -> blank s = false.
Proof.
  intros He Hs. unfold blank, is_empty. apply bool_decide_eq_false_2. intros E. apply Hs.
  apply (strip_all_keeps (String.length s) space_encodings); [done|]. change (strip_all _ _ s) with (trim_left s).
  rewrite <-(srev_involutive (trim_left s)). apply index_byte_none_srev.
  apply (strip_all_keeps (String.length (trim_left s)) (srev <$> space_encodings)).
  - apply Forall_fmap. eapply Forall_impl; [exact He|]. intros e. apply index_byte_none_srev.
  - apply (f_equal srev) in E. unfold trim_space, trim_right in E. rewrite srev_involutive in E. by rewrite E.
Qed.

(** ** The order of [sort.Strings]: bytes, lexicographically *)
Definition string_le (a b : string) : Prop := String.leb a b = true.
#[export] Instance string_le_dec : RelDecision string_le.
Proof. intros a b. unfold string_le. apply _. Defined.

#[export] Instance string_le_total : Total string_le.
Proof. intros a b. apply String.leb_total. Qed.

#[export] Instance string_le_antisym : AntiSymm (=) string_le.
Proof. intros a b. apply String.leb_antisym. Qed.

Lemma string_le_cons c a d b :
  string_le (String c a) (String d b) <->
  (N_of_ascii c < N_of_ascii d)%N \/ (c = d /\ string_le a b).
Proof.
  unfold string_le, String.leb. simpl. unfold Ascii.compare.
  destruct (N.compare_spec (N_of_ascii c) (N_of_ascii d)) as [E|E|E].
  - assert (c = d) as -> by (rewrite <-(ascii_N_embedding c), <-(ascii_N_embedding d); by f_equal).
    split; [by right|]. intros [?|[_ ?]]; [lia|done].
  - split; [by left|done].
  - split; [done|]. intros [?|[-> _]]; lia.
Qed.

#[export] Instance string_le_trans : Transitive string_le.
Proof.
  intros a. induction a as [|c a IH]; intros [|d b] [|e f]; try done.
  rewrite !string_le_cons. intros [?|[-> ?]] [?|[-> ?]]; [left; lia|left; done|left; done|right].
  split; [done|]. by eapply IH.
Qed.

Lemma string_ltb_le a b : String.ltb a b = true <-> string_le a b /\ a <> b.
Proof.
  unfold string_le, String.ltb, String.leb. destruct (a ?= b)%string eqn:E; split; try done.
  - intros [_ []]. by apply String.compare_eq_iff.
  - intros _. split; [done|]. intros ->. pose proof (String.compare_antisym b b) as E'.
    rewrite E in E'. done.
  - intros [? _]. done.
Qed.

Definition sort_strings : list string -> list string := merge_sort string_le.
