(* ===== verification/Sql.v ===== *)
(** * The relational store, as the program reaches it through gorm

    The database is not part of the repository: a table is an abstract type
    with an observable content, the statements the program sends are the
    operations of an interface, and the laws of the interface are the
    documented effect of those statements.  Rows come back in no particular
    order unless the statement sorts them.  [map_sql] is one store that obeys
    the laws, used to evaluate the models on concrete inputs.

    Programs over the store are functions of the database and of the list of
    driver outcomes still to come (an empty list: no more failures). *)
From S2P Require Import Prelude.

(** ** The store interface *)
Class Sql := {
  table : forall (K : Type) `{Countable K} (R : Type), Type;
  rows : forall {K} `{Countable K} {R}, table K R -> gmap K R;
  empty_table : forall {K} `{Countable K} {R}, table K R;
  (** SELECT * ... WHERE p *)
  where_ : forall {K} `{Countable K} {R}, (R -> bool) -> table K R -> list R;
  (** INSERT of a row under its primary key, no constraint in the way *)
  insert_row : forall {K} `{Countable K} {R}, K -> R -> table K R -> table K R;
  (** UPDATE ... SET g WHERE p, the primary key unchanged *)
  update_rows : forall {K} `{Countable K} {R}, (R -> bool) -> (R -> R) -> table K R -> table K R;
  (** DELETE ... WHERE p *)
  delete_rows : forall {K} `{Countable K} {R}, (R -> bool) -> table K R -> table K R;

  (** the next value of an auto-increment key *)
  next_id : forall {R}, table Z R -> Z;
  (** the collation ORDER BY sorts text with *)
  text_le : string -> string -> bool;

  rows_empty : forall {K} `{Countable K} {R}, rows (@empty_table K _ _ R) = ∅;
  where_perm : forall {K} `{Countable K} {R} (p : R -> bool) (t : table K R),
    where_ p t ≡ₚ filter (fun r => p r = true) (map_to_list (rows t)).*2;
  rows_insert : forall {K} `{Countable K} {R} (k : K) (r : R) t,
    rows (insert_row k r t) = <[k := r]> (rows t);
  rows_update : forall {K} `{Countable K} {R} (p : R -> bool) g (t : table K R),
    rows (update_rows p g t) = (fun r => if p r then g r else r) <$> rows t;
  rows_delete : forall {K} `{Countable K} {R} (p : R -> bool) (t : table K R),
    rows (delete_rows p t) = filter (fun kr => p kr.2 = false) (rows t);
  next_id_fresh : forall {R} (t : table Z R),
    0 < next_id t /\ forall k, is_Some (rows t !! k) -> k < next_id t;
  text_le_total : forall a b, text_le a b = true \/ text_le b a = true }.

(** ** A store that obeys the laws *)
Lemma max_key_bound {R} (t : gmap Z R) k :
  is_Some (t !! k) -> k <= map_fold (fun k _ acc => Z.max k acc) 0 t.
Proof.
  revert k. apply (map_fold_weak_ind (fun m (t : gmap Z R) => forall k, is_Some (t !! k) -> k <= m)).
  - intros k [x Hx]. by rewrite lookup_empty in Hx.
  - intros i x m r Hi IH k [y Hy]. destruct (decide (i = k)) as [->|Hne]; [lia|].
    rewrite lookup_insert_ne in Hy by done. specialize (IH k (mk_is_Some _ _ Hy)). lia.
Qed.

#[refine] Definition map_sql : Sql := {|
  table := fun K _ _ R => gmap K R;
  rows := fun K _ _ R t => t;
  empty_table := fun K _ _ R => ∅;
  where_ := fun K _ _ R p t => filter (fun r => p r = true) (map_to_list t).*2;
  insert_row := fun K _ _ R k r (t : gmap K R) => <[k := r]> t;
  update_rows := fun K _ _ R p g t => fmap (M := gmap K) (fun r => if p r then g r else r) t;
  delete_rows := fun K _ _ R p (t : gmap K R) => filter (fun kr => p kr.2 = false) t;
  next_id := fun R (t : gmap Z R) => 1 + Z.max 0 (map_fold (fun k _ acc => Z.max k acc) 0 t);
  text_le := fun a b => match String.compare a b with Gt => false | _ => true end |}.
Proof.
  1-5: intros; reflexivity.
  - intros R t. split; [lia|]. intros k Hk%max_key_bound. lia.
  - intros a b. rewrite (String.compare_antisym b a). destruct (String.compare a b); simpl; auto.
Defined.

(** ** Facts about tables *)
Section Tables.
  Context `{Sql} {K : Type} `{Countable K} {R : Type}.
  Implicit Types (t : table K R) (p : R -> bool).

Lemma elem_of_where p t r :
  r ∈ where_ p t <-> exists k, rows t !! k = Some r /\ p r = true.
Proof.
  rewrite where_perm, list_elem_of_filter, list_elem_of_fmap. split.
  - intros [Hp ([k r'] & -> & Hin)]. exists k. by rewrite elem_of_map_to_list in Hin.
  - intros (k & Hk & Hp). split; [done|]. exists (k, r). by rewrite elem_of_map_to_list.
Qed.

Lemma where_nil p t :
  where_ p t = [] <-> forall k r, rows t !! k = Some r -> p r = false.
Proof.
  split.
  - intros Hn k r Hk. destruct (p r) eqn:Hp; [|done].
    assert (Hin : r ∈ where_ p t) by (apply elem_of_where; eauto).
    rewrite Hn in Hin. by apply elem_of_nil in Hin.
  - intros Hall. destruct (where_ p t) as [|r l] eqn:E; [done|].
    assert (Hin : r ∈ where_ p t) by (rewrite E; left).
    apply elem_of_where in Hin as (k & Hk & Hp). by rewrite (Hall k r Hk) in Hp.
Qed.

Lemma where_head p t r l :
  where_ p t = r :: l -> exists k, rows t !! k = Some r /\ p r = true.
Proof. intros E. apply elem_of_where. rewrite E. left. Qed.

Lemma where_none p t k :
  rows t !! k = None -> (forall k' r', rows t !! k' = Some r' -> p r' = true -> k' = k) ->
  where_ p t = [].
Proof.
  intros Hk Hu. apply where_nil. intros k' r' Hk'.
  destruct (p r') eqn:Hp; [|done]. rewrite (Hu k' r' Hk' Hp) in Hk'. congruence.
Qed.

(** A predicate met under one key only selects that row. *)
Lemma where_unique p t k r :
  rows t !! k = Some r -> p r = true ->
  (forall k' r', rows t !! k' = Some r' -> p r' = true -> k' = k) ->
  where_ p t = [r].
Proof.
  intros Hk Hp Hu. apply Permutation_singleton_r. rewrite where_perm.
  rewrite <-(insert_delete_id _ _ _ Hk), map_to_list_insert by apply lookup_delete_eq.
  rewrite fmap_cons, filter_cons_True by done. simpl.
  replace (filter _ _) with (@nil R); [done|].
  symmetry. apply elem_of_nil_inv. intros x.
  rewrite list_elem_of_filter, list_elem_of_fmap. intros (Hx & [k' r'] & -> & Hin).
  apply elem_of_map_to_list in Hin. simpl in Hx.
  apply lookup_delete_Some in Hin as [Hne Hin].
  by rewrite (Hu _ _ Hin Hx) in Hne.
Qed.

(** Sums over the selected rows (SELECT COALESCE(SUM(f), 0) WHERE p). *)
Definition sum_list (f : R -> Z) (l : list R) : Z := foldr (fun r acc => f r + acc) 0 l.

Definition sum_where (f : R -> Z) p t : Z := sum_list f (where_ p t).

Lemma sum_list_perm f l1 l2 : l1 ≡ₚ l2 -> sum_list f l1 = sum_list f l2.
Proof. induction 1; simpl; lia. Qed.

Lemma sum_where_rows f p t :
  sum_where f p t = sum_list (fun r => if p r then f r else 0) (map_to_list (rows t)).*2.
Proof.
  unfold sum_where.
  rewrite (sum_list_perm f _ _ (where_perm p t)).
  induction (map_to_list (rows t)).*2 as [|r l IH]; [done|]. simpl.
  destruct (p r) eqn:E.
  - rewrite filter_cons_True by done. simpl. by rewrite IH.
  - rewrite filter_cons_False by congruence. by rewrite IH.
Qed.

Lemma sum_where_congr f p t1 t2 : rows t1 = rows t2 -> sum_where f p t1 = sum_where f p t2.
Proof. intros E. by rewrite !sum_where_rows, E. Qed.

Lemma sum_where_insert f p t k r :
  rows t !! k = None ->
  sum_where f p (insert_row k r t) = (if p r then f r else 0) + sum_where f p t.
Proof.
  intros Hk. rewrite !sum_where_rows, rows_insert.
  rewrite (sum_list_perm _ _ ((map_to_list (rows t)).*2 ++ [r])).
  - unfold sum_list. rewrite foldr_app. simpl.
    rewrite Z.add_0_r. generalize (if p r then f r else 0) as z. intros z.
    induction (map_to_list (rows t)).*2 as [|x l IH]; simpl; lia.
  - rewrite map_to_list_insert by done. simpl. apply Permutation_cons_append.
Qed.

Lemma sum_where_replace f p t t' k r r' :
  rows t !! k = Some r -> rows t' = <[k := r']> (rows t) ->
  sum_where f p t' = sum_where f p t - (if p r then f r else 0) + (if p r' then f r' else 0).
Proof.
  intros Hk Ht'. set (t0 := delete_rows (fun _ => true) t).
  set (base := foldr (fun kr acc => insert_row kr.1 kr.2 acc) t0
                 (map_to_list (delete k (rows t)))).
  assert (Hb : rows base = delete k (rows t)).
  { unfold base. rewrite <-(list_to_map_to_list (delete k (rows t))) at 2.
    induction (map_to_list (delete k (rows t))) as [|kr l IH]; simpl.
    - unfold t0. rewrite rows_delete. apply map_eq. intros i.
      rewrite lookup_empty. apply map_lookup_filter_None. right. by intros x _.
    - by rewrite rows_insert, IH. }
  assert (Hn : rows base !! k = None) by (rewrite Hb; apply lookup_delete_eq).
  rewrite (sum_where_congr f p t (insert_row k r base)).
  2: { rewrite rows_insert, Hb, insert_delete_eq. by rewrite insert_id. }
  rewrite (sum_where_congr f p t' (insert_row k r' base)).
  2: { rewrite rows_insert, Hb, Ht'. by rewrite insert_delete_eq. }
  rewrite !sum_where_insert by done. lia.
Qed.

Lemma sum_where_ext f p q t :
  (forall k r, rows t !! k = Some r -> p r = q r) -> sum_where f p t = sum_where f q t.
Proof.
  intros Hpq. rewrite !sum_where_rows.
  assert (Hin : forall r, r ∈ (map_to_list (rows t)).*2 -> p r = q r).
  { intros r (kr & -> & Hkr)%list_elem_of_fmap. destruct kr as [k r].
    apply elem_of_map_to_list in Hkr. eauto. }
  induction (map_to_list (rows t)).*2 as [|r l IH]; simpl; [done|].
  rewrite (Hin r) by left. rewrite IH; [done|]. intros x Hx. apply Hin. by right.
Qed.

Lemma sum_where_nonneg f p t :
  (forall k r, rows t !! k = Some r -> p r = true -> 0 <= f r) -> 0 <= sum_where f p t.
Proof.
  intros Hf. unfold sum_where, sum_list.
  assert (Hall : forall r, r ∈ where_ p t -> 0 <= f r)
    by (intros r (k & Hk & Hp)%elem_of_where; eauto).
  induction (where_ p t) as [|r l IH]; simpl; [lia|].
  pose proof (Hall r ltac:(left)). specialize (IH ltac:(intros x Hx; apply Hall; by right)). lia.
Qed.

Lemma rows_update_unique p g t k r :
  rows t !! k = Some r -> p r = true ->
  (forall k' r', rows t !! k' = Some r' -> p r' = true -> k' = k) ->
  rows (update_rows p g t) = <[k := g r]> (rows t).
Proof.
  intros Hk Hp Hu. rewrite rows_update. apply map_eq. intros k'.
  rewrite lookup_fmap. destruct (decide (k = k')) as [<-|Hne].
  - by rewrite lookup_insert_eq, Hk; simpl; rewrite Hp.
  - rewrite lookup_insert_ne by done.
    destruct (rows t !! k') as [r'|] eqn:E; [|done]. simpl.
    destruct (p r') eqn:Hp'; [|done]. by rewrite (Hu _ _ E Hp') in Hne.
Qed.

Lemma lookup_deleted p t k r :
  rows (delete_rows p t) !! k = Some r <-> rows t !! k = Some r /\ p r = false.
Proof. by rewrite rows_delete, map_lookup_filter_Some. Qed.

End Tables.

(** ** Programs over the store *)
Definition schedule := list (option string).
Definition M (W A : Type) : Type := W -> schedule -> (error + A) * W * schedule.

#[export] Instance M_ret W : MRet (M W) := fun A a w sc => (inr a, w, sc).
#[export] Instance M_bind W : MBind (M W) := fun A B k m w sc =>
  match m w sc with
  | (inl e, w', sc') => (inl e, w', sc')
  | (inr a, w', sc') => k a w' sc'
  end.

Definition throw {W A} (e : error) : M W A := fun w sc => (inl e, w, sc).

Definition of_result {W A} (r : error + A) : M W A :=
  match r with inl e => throw e | inr a => mret a end.

(** [v, err := stmt] with the error inspected by the caller. *)
Definition attempt {W A} (m : M W A) : M W (error + A) := fun w sc =>
  match m w sc with (r, w', sc') => (inr r, w', sc') end.

(** A statement: the driver may fail before it takes effect. *)
Definition sql {W A} (f : W -> (error + A) * W) : M W A := fun w sc =>
  match sc with
  | Some msg :: sc' => (inl (Driver msg), w, sc')
  | _ => match f w with (r, w') => (r, w', tail sc) end
  end.

(** [db.Transaction(fn)]: rolled back when [fn] or the commit fails. *)
Definition transaction {W A} (m : M W A) : M W A := fun w sc =>
  match m w sc with
  | (inl e, _, sc') => (inl e, w, sc')
  | (inr a, w', sc') =>
      match sc' with
      | Some msg :: sc'' => (inl (Driver msg), w, sc'')
      | _ => (inr a, w', tail sc')
      end
  end.

(** A component of a larger state, and a program of the component run there. *)
Record field (W T : Type) := Field { fget : W -> T; fset : T -> W -> W }.
Arguments Field {W T}.
Arguments fget {W T}.
Arguments fset {W T}.

Definition zoom {W T A} (f : field W T) (m : M T A) : M W A := fun w sc =>
  match m (fget f w) sc with (r, t', sc') => (r, fset f t' w, sc') end.

(** The whole state as a component of itself. *)
Definition whole {W} : field W W := Field (fun w => w) (fun w _ => w).

(** A transaction on the component [f] of a state whose other components are
    outside the database: only [f] is rolled back. *)
Definition transaction_of {W T A} (f : field W T) (m : M W A) : M W A := fun w sc =>
  match m w sc with
  | (inl e, w', sc') => (inl e, fset f (fget f w) w', sc')
  | (inr a, w', sc') =>
      match sc' with
      | Some msg :: sc'' => (inl (Driver msg), fset f (fget f w) w', sc'')
      | _ => (inr a, w', tail sc')
      end
  end.

(** A step that is not a statement: it cannot be failed by the driver. *)
Definition effect {W A} (f : W -> A * W) : M W A := fun w sc =>
  match f w with (a, w') => (inr a, w', sc) end.

(** [if err != nil { return fmt.Errorf(ctx, err) }] *)
Definition wrapping {W A} (ctx : string) (m : M W A) : M W A := fun w sc =>
  match m w sc with
  | (inl e, w', sc') => (inl (Wrap ctx e), w', sc')
  | (inr a, w', sc') => (inr a, w', sc')
  end.

Definition ErrRecordNotFound : error := New "record not found".
Definition ErrDuplicateKey : error := Driver "duplicate key value violates unique constraint".

(** SUM(f), scanned into an int64: a total outside its range is an error. *)
Definition int64_rangeb (z : Z) : bool := (- 2 ^ 63 <=? z) && (z <? 2 ^ 63).
Definition int64_sum {R} (f : R -> Z) (l : list R) : error + Z :=
  if int64_rangeb (sum_list f l) then inr (sum_list f l) else inl (Driver "value out of range").

Section Statements.
  Context `{Sql} {W K : Type} `{Countable K} {R : Type} (f : field W (table K R)).

(** Find: every row of the condition, in no particular order. *)
Definition find (p : R -> bool) : M W (list R) := sql (fun w => (inr (where_ p (fget f w)), w)).

(** First and Take on a condition at most one row meets. *)
Definition take_row (p : R -> bool) : M W R := sql (fun w =>
  match where_ p (fget f w) with
  | [] => (inl ErrRecordNotFound, w)
  | r :: _ => (inr r, w)
  end).

Definition count (p : R -> bool) : M W Z := sql (fun w =>
  (inr (Z.of_nat (length (where_ p (fget f w)))), w)).

(** An aggregate of the selected rows, in one statement. *)
Definition aggregate {A} (agg : list R -> error + A) (p : R -> bool) : M W A := sql (fun w =>
  (agg (where_ p (fget f w)), w)).

(** Create: [clash] holds of the rows a unique constraint forbids beside the new one. *)
Definition create (clash : R -> bool) (k : K) (r : R) : M W unit := sql (fun w =>
  match where_ clash (fget f w) with
  | [] => (inr tt, fset f (insert_row k r (fget f w)) w)
  | _ :: _ => (inl ErrDuplicateKey, w)
  end).

(** Create with ON CONFLICT (target) DO NOTHING: a row that meets [target] is
    kept, another clash is an error. *)
Definition create_or_ignore (target clash : R -> bool) (k : K) (r : R) : M W unit := sql (fun w =>
  match where_ target (fget f w) with
  | _ :: _ => (inr tt, w)
  | [] => match where_ clash (fget f w) with
          | [] => (inr tt, fset f (insert_row k r (fget f w)) w)
          | _ :: _ => (inl ErrDuplicateKey, w)
          end
  end).

(** Create with ON CONFLICT (target) DO UPDATE SET merge. *)
Definition upsert (target clash : R -> bool) (merge : R -> R) (k : K) (r : R) : M W unit := sql (fun w =>
  match where_ target (fget f w) with
  | _ :: _ => (inr tt, fset f (update_rows target merge (fget f w)) w)
  | [] => match where_ clash (fget f w) with
          | [] => (inr tt, fset f (insert_row k r (fget f w)) w)
          | _ :: _ => (inl ErrDuplicateKey, w)
          end
  end).

(** The same with RETURNING: the row as it stands after the statement. *)
Definition upsert_returning (target clash : R -> bool) (merge : R -> R) (k : K) (r : R) : M W R :=
  sql (fun w =>
  match where_ target (fget f w) with
  | r0 :: _ => (inr (merge r0), fset f (update_rows target merge (fget f w)) w)
  | [] => match where_ clash (fget f w) with
          | [] => (inr r, fset f (insert_row k r (fget f w)) w)
          | _ :: _ => (inl ErrDuplicateKey, w)
          end
  end).

(** Updates: the number of rows affected. *)
Definition update (p : R -> bool) (g : R -> R) : M W Z := sql (fun w =>
  (inr (Z.of_nat (length (where_ p (fget f w)))), fset f (update_rows p g (fget f w)) w)).

Definition delete_where (p : R -> bool) : M W unit := sql (fun w =>
  (inr tt, fset f (delete_rows p (fget f w)) w)).

End Statements.

(** Create of a row whose key the database allocates; the row with its key. *)
Definition create_auto `{Sql} {W R : Type} (f : field W (table Z R)) (clash : R -> bool)
    (mk : Z -> R) : M W R := sql (fun w =>
  match where_ clash (fget f w) with
  | [] => let k := next_id (fget f w) in (inr (mk k), fset f (insert_row k (mk k) (fget f w)) w)
  | _ :: _ => (inl ErrDuplicateKey, w)
  end).

(** ** Reasoning: what a program may do, whatever the driver does

    [wp false m w Q]: under every schedule of driver failures [m] started in
    [w] ends in a result and a state that meet [Q].  [wp true m w Q]: the same
    when the driver does not fail. *)
Definition wp {W A} (healthy : bool) (m : M W A) (w : W) (Q : error + A -> W -> Prop) : Prop :=
  forall sc, (healthy = true -> sc = []) ->
  match m w sc with (r, w', sc') => (healthy = true -> sc' = []) /\ Q r w' end.

(** [runs]: the outcome when the driver never fails.  [outcome]: the outcome
    under some schedule. *)
Definition runs {W A} (m : M W A) (w : W) (r : error + A) (w' : W) : Prop := m w [] = (r, w', []).
Definition outcome {W A} (m : M W A) (w : W) (r : error + A) (w' : W) : Prop :=
  exists sc sc', m w sc = (r, w', sc').

(** The healthy run of a program on a concrete state. *)
Definition result {W A} (m : M W A) (w : W) : error + A := (m w []).1.1.
Definition after {W A} (m : M W A) (w : W) : W := (m w []).1.2.

Lemma outcome_after {W A} (m : M W A) w : outcome m w (result m w) (after m w).
Proof. unfold result, after. exists [], (m w []).2. by destruct (m w []) as [[r w'] sc']. Qed.

Section Wp.
  Context {W : Type}.

Lemma wp_outcome {A} (m : M W A) w Q r w' : wp false m w Q -> outcome m w r w' -> Q r w'.
Proof.
  intros Hwp (sc & sc' & E). specialize (Hwp sc ltac:(done)). rewrite E in Hwp. by destruct Hwp.
Qed.

Lemma wp_ok {A} (m : M W A) w a w' (Q : A -> W -> Prop) :
  outcome m w (inr a) w' -> wp false m w (fun r w' => match r with inl _ => True | inr a => Q a w' end) -> Q a w'.
Proof. intros Hout Hwp. exact (wp_outcome _ _ _ _ _ Hwp Hout). Qed.

Lemma wp_runs {A} (m : M W A) w Q : wp true m w Q -> exists r w', runs m w r w' /\ Q r w'.
Proof.
  intros Hwp. specialize (Hwp [] ltac:(done)). unfold runs.
  destruct (m w []) as [[r w'] sc']. destruct Hwp as [Hsc HQ]. exists r, w'.
  by rewrite Hsc.
Qed.

Lemma wp_runs_eq {A} (m : M W A) w r0 w0 : wp true m w (fun r w' => r = r0 /\ w' = w0) -> runs m w r0 w0.
Proof. intros (r & w' & Hr & -> & ->)%wp_runs. exact Hr. Qed.

Lemma runs_wp {A} (m : M W A) w r w' (Q : error + A -> W -> Prop) : runs m w r w' -> Q r w' -> wp true m w Q.
Proof. intros Hr HQ sc Hsc. rewrite Hsc by done. rewrite Hr. by split. Qed.

(** Nothing is claimed, and everything the outcome relation knows. *)
Lemma wp_any {A} (m : M W A) w (Q : error + A -> W -> Prop) : (forall r w', Q r w') -> wp false m w Q.
Proof. intros HQ sc _. destruct (m w sc) as [[r w'] sc']. by split. Qed.

Lemma wp_self {A} (m : M W A) w : wp false m w (fun r w' => outcome m w r w').
Proof. intros sc _. destruct (m w sc) as [[r w'] sc'] eqn:E. split; [done|]. by exists sc, sc'. Qed.

Lemma wp_mono {A} h (m : M W A) w (P Q : error + A -> W -> Prop) :
  wp h m w P -> (forall r w', P r w' -> Q r w') -> wp h m w Q.
Proof.
  intros Hwp HPQ sc Hsc. specialize (Hwp sc Hsc).
  destruct (m w sc) as [[r w'] sc']. destruct Hwp. eauto.
Qed.

Lemma wp_ret {A} h (a : A) w (Q : error + A -> W -> Prop) : Q (inr a) w -> wp h (mret a) w Q.
Proof. intros HQ sc Hsc. by split. Qed.

Lemma wp_throw {A} h e w (Q : error + A -> W -> Prop) : Q (inl e) w -> wp h (throw e) w Q.
Proof. intros HQ sc Hsc. by split. Qed.

Lemma wp_bind {A B} h (m : M W A) (k : A -> M W B) w Q :
  wp h m w (fun r w' => match r with inl e => Q (inl e) w' | inr a => wp h (k a) w' Q end) ->
  wp h (m ≫= k) w Q.
Proof.
  intros Hwp sc Hsc. specialize (Hwp sc Hsc). unfold mbind, M_bind.
  destruct (m w sc) as [[[e|a] w'] sc']; destruct Hwp as [Hsc' Hwp]; [done|].
  exact (Hwp sc' Hsc').
Qed.

Lemma wp_attempt {A} h (m : M W A) w Q :
  wp h m w (fun r w' => Q (inr r) w') -> wp h (attempt m) w Q.
Proof.
  intros Hwp sc Hsc. specialize (Hwp sc Hsc). unfold attempt.
  by destruct (m w sc) as [[r w'] sc'].
Qed.

Lemma wp_wrapping {A} h ctx (m : M W A) w (Q : error + A -> W -> Prop) :
  wp h m w (fun r w' => match r with inl e => Q (inl (Wrap ctx e)) w' | inr a => Q (inr a) w' end) ->
  wp h (wrapping ctx m) w Q.
Proof.
  intros Hwp sc Hsc. specialize (Hwp sc Hsc). unfold wrapping.
  by destruct (m w sc) as [[[e|a] w'] sc'].
Qed.

Lemma wp_sql {A} h (f : W -> (error + A) * W) w (Q : error + A -> W -> Prop) :
  (h = false -> forall msg, Q (inl (Driver msg)) w) -> Q (f w).1 (f w).2 -> wp h (sql f) w Q.
Proof.
  intros Hf HQ sc Hsc. unfold sql. destruct sc as [|[msg|] sc].
  - destruct (f w) as [r w']. by split.
  - split; [intros Hh; by specialize (Hsc Hh)|].
    destruct h; [by specialize (Hsc eq_refl)|by apply Hf].
  - destruct (f w) as [r w']. split; [intros Hh; by specialize (Hsc Hh)|done].
Qed.

Lemma wp_transaction {A} h (m : M W A) w Q :
  wp h m w (fun r w' => match r with
    | inl e => Q (inl e) w
    | inr a => (h = false -> forall msg, Q (inl (Driver msg)) w) /\ Q (inr a) w' end) ->
  wp h (transaction m) w Q.
Proof.
  intros Hwp sc Hsc. specialize (Hwp sc Hsc). unfold transaction.
  destruct (m w sc) as [[[e|a] w'] sc']; destruct Hwp as [Hsc' HQ]; [done|].
  destruct HQ as [Hf HQ]. destruct sc' as [|[msg|] sc'']; simpl.
  - done.
  - destruct h; [by specialize (Hsc' eq_refl)|]. split; [done|by apply Hf].
  - destruct h; [by specialize (Hsc' eq_refl)|]. by split.
Qed.

Lemma wp_transaction_of {T A} h (f : field W T) (m : M W A) w Q :
  wp h m w (fun r w' => match r with
    | inl e => Q (inl e) (fset f (fget f w) w')
    | inr a => (h = false -> forall msg, Q (inl (Driver msg)) (fset f (fget f w) w')) /\ Q (inr a) w' end) ->
  wp h (transaction_of f m) w Q.
Proof.
  intros Hwp sc Hsc. specialize (Hwp sc Hsc). unfold transaction_of.
  destruct (m w sc) as [[[e|a] w'] sc']; destruct Hwp as [Hsc' HQ]; [done|].
  destruct HQ as [Hf HQ]. destruct sc' as [|[msg|] sc'']; simpl.
  - done.
  - destruct h; [by specialize (Hsc' eq_refl)|]. split; [done|by apply Hf].
  - destruct h; [by specialize (Hsc' eq_refl)|]. by split.
Qed.

Lemma wp_effect {A} h (f : W -> A * W) w (Q : error + A -> W -> Prop) :
  Q (inr (f w).1) (f w).2 -> wp h (effect f) w Q.
Proof. intros HQ sc Hsc. unfold effect. destruct (f w). by split. Qed.

(** A transaction that reports an error changed nothing. *)
Lemma transaction_atomic {A} (m : M W A) w e w' : outcome (transaction m) w (inl e) w' -> w' = w.
Proof.
  intros (sc & sc' & E). unfold transaction in E.
  destruct (m w sc) as [[[e1|a] w1] sc1]; [by simplify_eq|].
  destruct sc1 as [|[msg|] sc1]; by simplify_eq.
Qed.

Lemma wp_zoom {T A} h (f : field W T) (m : M T A) w Q :
  wp h m (fget f w) (fun r t' => Q r (fset f t' w)) -> wp h (zoom f m) w Q.
Proof.
  intros Hwp sc Hsc. specialize (Hwp sc Hsc). unfold zoom.
  by destruct (m (fget f w) sc) as [[r t'] sc'].
Qed.

Lemma wp_if {A} h (b : bool) (m1 m2 : M W A) w Q :
  (b = true -> wp h m1 w Q) -> (b = false -> wp h m2 w Q) -> wp h (if b then m1 else m2) w Q.
Proof. destruct b; auto. Qed.

(** A loop whose body keeps an invariant and does not fail but with the driver. *)
Lemma wp_mapM {A B} h (g : A -> M W B) (l : list A) w (I : list A -> list B -> W -> Prop)
    (Q : error + list B -> W -> Prop) :
  I [] [] w ->
  (forall done a rest acc w', l = done ++ a :: rest -> I done acc w' ->
     wp h (g a) w' (fun r w'' => match r with
       | inl e => Q (inl e) w'' | inr b => I (done ++ [a]) (acc ++ [b]) w'' end)) ->
  (forall acc w', I l acc w' -> Q (inr acc) w') ->
  wp h (mapM g l) w Q.
Proof.
  intros H0 Hstep Hend.
  enough (Hgen : forall rest done acc w', l = done ++ rest -> I done acc w' ->
    wp h (mapM g rest) w' (fun r w'' => match r with
       | inl e => Q (inl e) w'' | inr bs => I l (acc ++ bs) w'' end)).
  { eapply wp_mono; [apply (Hgen l [] [] w); auto|]. intros [e|bs] w' Hr; [done|]. by apply Hend. }
  induction rest as [|a rest IH]; intros done acc w' Hl HI; simpl.
  - apply wp_ret. rewrite !app_nil_r in *. by subst.
  - apply wp_bind. eapply wp_mono; [by eapply Hstep|]. intros [e|b] w'' Hr; [done|].
    apply wp_bind. eapply wp_mono.
    + apply (IH (done ++ [a]) (acc ++ [b]) w''); [by rewrite Hl, <-app_assoc|done].
    + intros [e|bs] w3 H3; [done|]. apply wp_ret. by rewrite <-app_assoc in H3.
Qed.

End Wp.

(** The statement rules: what the driver and the table make of each. *)
Section StatementRules.
  Context `{Sql} {W K : Type} `{Countable K} {R : Type} (f : field W (table K R)).

Lemma wp_find h p w (Q : error + list R -> W -> Prop) :
  (h = false -> forall msg, Q (inl (Driver msg)) w) ->
  Q (inr (where_ p (fget f w))) w -> wp h (find f p) w Q.
Proof. intros. by apply wp_sql. Qed.

Lemma wp_take h p w (Q : error + R -> W -> Prop) :
  (h = false -> forall msg, Q (inl (Driver msg)) w) ->
  ((forall k r, rows (fget f w) !! k = Some r -> p r = false) -> Q (inl ErrRecordNotFound) w) ->
  (forall k r, rows (fget f w) !! k = Some r -> p r = true -> Q (inr r) w) ->
  wp h (take_row f p) w Q.
Proof.
  intros Hf Hn Hs. apply wp_sql; [done|].
  destruct (where_ p (fget f w)) as [|r l] eqn:E; simpl.
  - apply Hn. by apply where_nil.
  - destruct (where_head _ _ _ _ E) as (k & Hk & Hp). eauto.
Qed.

Lemma wp_count h p w (Q : error + Z -> W -> Prop) :
  (h = false -> forall msg, Q (inl (Driver msg)) w) ->
  Q (inr (Z.of_nat (length (where_ p (fget f w))))) w -> wp h (count f p) w Q.
Proof. intros. by apply wp_sql. Qed.

Lemma wp_aggregate {A} h (agg : list R -> error + A) p w (Q : error + A -> W -> Prop) :
  (h = false -> forall msg, Q (inl (Driver msg)) w) ->
  Q (agg (where_ p (fget f w))) w -> wp h (aggregate f agg p) w Q.
Proof. intros. by apply wp_sql. Qed.

Lemma wp_create h clash k r w (Q : error + unit -> W -> Prop) :
  (h = false -> forall msg, Q (inl (Driver msg)) w) ->
  ((exists k' r', rows (fget f w) !! k' = Some r' /\ clash r' = true) -> Q (inl ErrDuplicateKey) w) ->
  ((forall k' r', rows (fget f w) !! k' = Some r' -> clash r' = false) ->
    Q (inr tt) (fset f (insert_row k r (fget f w)) w)) ->
  wp h (create f clash k r) w Q.
Proof.
  intros Hf Hdup Hok. apply wp_sql; [done|].
  destruct (where_ clash (fget f w)) as [|r' l] eqn:E; simpl.
  - apply Hok. by apply where_nil.
  - apply Hdup. apply where_head in E as (k' & ? & ?). eauto.
Qed.

Lemma wp_create_or_ignore h target clash k r w (Q : error + unit -> W -> Prop) :
  (h = false -> forall msg, Q (inl (Driver msg)) w) ->
  ((exists k' r', rows (fget f w) !! k' = Some r' /\ target r' = true) -> Q (inr tt) w) ->
  ((forall k' r', rows (fget f w) !! k' = Some r' -> target r' = false) ->
   (exists k' r', rows (fget f w) !! k' = Some r' /\ clash r' = true) -> Q (inl ErrDuplicateKey) w) ->
  ((forall k' r', rows (fget f w) !! k' = Some r' -> target r' = false) ->
   (forall k' r', rows (fget f w) !! k' = Some r' -> clash r' = false) ->
    Q (inr tt) (fset f (insert_row k r (fget f w)) w)) ->
  wp h (create_or_ignore f target clash k r) w Q.
Proof.
  intros Hf Ht Hdup Hok. apply wp_sql; [done|].
  destruct (where_ target (fget f w)) as [|r' l] eqn:E; simpl.
  2: { apply Ht. apply where_head in E as (k' & ? & ?). eauto. }
  rewrite where_nil in E.
  destruct (where_ clash (fget f w)) as [|r' l] eqn:E'; simpl.
  - apply Hok; [done|]. by apply where_nil.
  - apply Hdup; [done|]. apply where_head in E' as (k' & ? & ?). eauto.
Qed.

Lemma wp_upsert h target clash merge k r w (Q : error + unit -> W -> Prop) :
  (h = false -> forall msg, Q (inl (Driver msg)) w) ->
  ((exists k' r', rows (fget f w) !! k' = Some r' /\ target r' = true) ->
    Q (inr tt) (fset f (update_rows target merge (fget f w)) w)) ->
  ((forall k' r', rows (fget f w) !! k' = Some r' -> target r' = false) ->
   (exists k' r', rows (fget f w) !! k' = Some r' /\ clash r' = true) -> Q (inl ErrDuplicateKey) w) ->
  ((forall k' r', rows (fget f w) !! k' = Some r' -> target r' = false) ->
   (forall k' r', rows (fget f w) !! k' = Some r' -> clash r' = false) ->
    Q (inr tt) (fset f (insert_row k r (fget f w)) w)) ->
  wp h (upsert f target clash merge k r) w Q.
Proof.
  intros Hf Ht Hdup Hok. apply wp_sql; [done|].
  destruct (where_ target (fget f w)) as [|r' l] eqn:E; simpl.
  2: { apply Ht. apply where_head in E as (k' & ? & ?). eauto. }
  rewrite where_nil in E.
  destruct (where_ clash (fget f w)) as [|r' l] eqn:E'; simpl.
  - apply Hok; [done|]. by apply where_nil.
  - apply Hdup; [done|]. apply where_head in E' as (k' & ? & ?). eauto.
Qed.

Lemma wp_upsert_returning h target clash merge k r w (Q : error + R -> W -> Prop) :
  (h = false -> forall msg, Q (inl (Driver msg)) w) ->
  (forall k0 r0, rows (fget f w) !! k0 = Some r0 -> target r0 = true ->
    Q (inr (merge r0)) (fset f (update_rows target merge (fget f w)) w)) ->
  ((forall k' r', rows (fget f w) !! k' = Some r' -> target r' = false) ->
   (exists k' r', rows (fget f w) !! k' = Some r' /\ clash r' = true) -> Q (inl ErrDuplicateKey) w) ->
  ((forall k' r', rows (fget f w) !! k' = Some r' -> target r' = false) ->
   (forall k' r', rows (fget f w) !! k' = Some r' -> clash r' = false) ->
    Q (inr r) (fset f (insert_row k r (fget f w)) w)) ->
  wp h (upsert_returning f target clash merge k r) w Q.
Proof.
  intros Hf Ht Hdup Hok. apply wp_sql; [done|].
  destruct (where_ target (fget f w)) as [|r' l] eqn:E; simpl.
  2: { apply where_head in E as (k' & ? & ?). eauto. }
  rewrite where_nil in E.
  destruct (where_ clash (fget f w)) as [|r' l] eqn:E'; simpl.
  - apply Hok; [done|]. by apply where_nil.
  - apply Hdup; [done|]. apply where_head in E' as (k' & ? & ?). eauto.
Qed.

Lemma wp_update h p g w (Q : error + Z -> W -> Prop) :
  (h = false -> forall msg, Q (inl (Driver msg)) w) ->
  Q (inr (Z.of_nat (length (where_ p (fget f w))))) (fset f (update_rows p g (fget f w)) w) ->
  wp h (update f p g) w Q.
Proof. intros. by apply wp_sql. Qed.

Lemma wp_delete h p w (Q : error + unit -> W -> Prop) :
  (h = false -> forall msg, Q (inl (Driver msg)) w) ->
  Q (inr tt) (fset f (delete_rows p (fget f w)) w) -> wp h (delete_where f p) w Q.
Proof. intros. by apply wp_sql. Qed.

End StatementRules.

Lemma wp_create_auto `{Sql} {W R : Type} (f : field W (table Z R)) h clash mk w
    (Q : error + R -> W -> Prop) :
  (h = false -> forall msg, Q (inl (Driver msg)) w) ->
  ((exists k' r', rows (fget f w) !! k' = Some r' /\ clash r' = true) -> Q (inl ErrDuplicateKey) w) ->
  (forall k, 0 < k -> (forall k', is_Some (rows (fget f w) !! k') -> k' < k) ->
    (forall k' r', rows (fget f w) !! k' = Some r' -> clash r' = false) ->
    Q (inr (mk k)) (fset f (insert_row k (mk k) (fget f w)) w)) ->
  wp h (create_auto f clash mk) w Q.
Proof.
  intros Hf Hdup Hok. apply wp_sql; [done|].
  destruct (where_ clash (fget f w)) as [|r' l] eqn:E; simpl.
  - destruct (next_id_fresh (fget f w)) as [Hpos Hfresh].
    apply Hok; [done..|]. by apply where_nil.
  - apply Hdup. apply where_head in E as (k' & ? & ?). eauto.
Qed.

(** One step of symbolic execution. *)
Ltac wp_step :=
  lazymatch goal with
  | |- wp _ (_ ≫= _) _ _ => apply wp_bind
  | |- wp _ (mret _) _ _ => apply wp_ret
  | |- wp _ (throw _) _ _ => apply wp_throw
  | |- wp _ (attempt _) _ _ => apply wp_attempt
  | |- wp _ (wrapping _ _) _ _ => apply wp_wrapping
  | |- wp _ (transaction _) _ _ => apply wp_transaction
  | |- wp _ (transaction_of _ _) _ _ => apply wp_transaction_of
  | |- wp _ (effect _) _ _ => apply wp_effect
  | |- wp _ (zoom _ _) _ _ => apply wp_zoom
  | |- wp _ (if ?b then _ else _) _ _ => let E := fresh "E" in destruct b eqn:E
  | |- wp _ (find _ _) _ _ => apply wp_find
  | |- wp _ (take_row _ _) _ _ => apply wp_take
  | |- wp _ (count _ _) _ _ => apply wp_count
  | |- wp _ (aggregate _ _ _) _ _ => apply wp_aggregate
  | |- wp _ (create _ _ _ _) _ _ => apply wp_create
  | |- wp _ (create_or_ignore _ _ _ _ _) _ _ => apply wp_create_or_ignore
  | |- wp _ (upsert _ _ _ _ _ _) _ _ => apply wp_upsert
  | |- wp _ (upsert_returning _ _ _ _ _ _) _ _ => apply wp_upsert_returning
  | |- wp _ (create_auto _ _ _) _ _ => apply wp_create_auto
  | |- wp _ (update _ _ _) _ _ => apply wp_update
  | |- wp _ (delete_where _ _) _ _ => apply wp_delete
  end; simpl.

Create Rewrite HintDb sql.
#[export] Hint Rewrite @rows_empty @rows_insert @rows_delete : sql.
