(* ===== verification/Lifecycle.v ===== *)
(** * Tenant lifecycle (internal/controlplane: tenant.go, lifecycle.go)

    The tenant record, the traffic predicates and the status machine. *)
From S2P Require Import Prelude.

(** [Status] is a Go string type: a row may hold any text. *)
Abbreviation Status := string (only parsing).
Definition StatusRegistered : Status := "registered".
Definition StatusTrial : Status := "trial".
Definition StatusActive : Status := "active".
Definition StatusSuspended : Status := "suspended".
Definition StatusDeregistered : Status := "deregistered".

Definition AllStatuses : list Status :=
  [StatusRegistered; StatusTrial; StatusActive; StatusSuspended; StatusDeregistered].

Definition Status_Valid (s : Status) : bool :=
  bool_decide (s = StatusRegistered) || bool_decide (s = StatusTrial) || bool_decide (s = StatusActive)
  || bool_decide (s = StatusSuspended) || bool_decide (s = StatusDeregistered).

Definition servesTraffic (s : Status) : bool :=
  bool_decide (s = StatusTrial) || bool_decide (s = StatusActive).

Record Tenant := mkTenant {
  tn_ID : string;
  tn_Slug : string;
  tn_Name : string;
  tn_Status : Status;
  tn_TrialEndsAt : option Z;
  tn_StatusChangedAt : Z;
  tn_CreatedAt : Z;
  tn_UpdatedAt : Z }.

(** [None] is the nil receiver. *)
Definition CanServeTraffic (t : option Tenant) (now : Z) : bool :=
  match t with
  | None => false
  | Some t =>
      if negb (Status_Valid (tn_Status t)) || negb (servesTraffic (tn_Status t)) then false
      else if bool_decide (tn_Status t = StatusTrial) then
        match tn_TrialEndsAt t with
        | None => false
        | Some ends => now <? ends
        end
      else true
  end.

Definition TrialExpired (t : option Tenant) (now : Z) : bool :=
  match t with
  | None => false
  | Some t =>
      if bool_decide (tn_Status t <> StatusTrial) then false
      else match tn_TrialEndsAt t with
           | None => false
           | Some ends => negb (now <? ends)
           end
  end.

Definition ErrUnknownStatus : error := New "controlplane: unknown tenant status".
Definition ErrInvalidTransition : error := New "controlplane: invalid tenant status transition".
Definition ErrSameStatus : error := New "controlplane: tenant is already in the requested status".

Definition allowedTransitions : list (Status * list Status) :=
  [ (StatusRegistered, [StatusTrial; StatusActive; StatusDeregistered]);
    (StatusTrial, [StatusActive; StatusSuspended; StatusDeregistered]);
    (StatusActive, [StatusSuspended; StatusDeregistered]);
    (StatusSuspended, [StatusActive; StatusDeregistered]);
    (StatusDeregistered, []) ].

(** The inner map of a status; a missing row reads as the empty map. *)
Definition transitions_from (s : Status) : list Status :=
  match List.find (fun row => bool_decide (row.1 = s)) allowedTransitions with
  | Some (_, targets) => targets
  | None => []
  end.

(** [None] is the nil error. *)
Definition CanTransition (from to : Status) : option error :=
  if negb (Status_Valid from) then Some (Wrap "%w: %q (current)" ErrUnknownStatus)
  else if negb (Status_Valid to) then Some (Wrap "%w: %q (requested)" ErrUnknownStatus)
  else if bool_decide (from = to) then Some (Wrap "%w: %q" ErrSameStatus)
  else if bool_decide (to ∈ transitions_from from) then None
  else Some (Wrap "%w: %s to %s" ErrInvalidTransition).

Definition TerminalStatus (s : Status) : bool :=
  Status_Valid s && (length (transitions_from s) =? 0)%nat.

(** ** The machine as a step relation *)
Inductive moves : Status -> Status -> Prop :=
| moves_edge from to : CanTransition from to = None -> moves from to.

Lemma valid_cases s : Status_Valid s = true -> s ∈ AllStatuses.
Proof.
  unfold Status_Valid, AllStatuses. intros H.
  repeat (apply orb_true_iff in H as [H|H]); apply bool_decide_eq_true in H; subst; set_solver.
Qed.

Lemma moves_valid from to : moves from to -> from ∈ AllStatuses /\ to ∈ AllStatuses.
Proof.
  intros [f t H]. unfold CanTransition in H.
  destruct (Status_Valid f) eqn:Ef; [|done]. destruct (Status_Valid t) eqn:Et; [|done].
  split; by apply valid_cases.
Qed.

Lemma moves_can from to : moves from to -> CanTransition from to = None.
Proof. by intros []. Qed.

(** Case analysis on the statuses of an edge. *)
Ltac enum_status H :=
  unfold AllStatuses in H;
  repeat (apply elem_of_cons in H as [->|H]; [|]); try (by apply elem_of_nil in H).

Ltac enum_edge H :=
  let Hf := fresh in let Ht := fresh in
  destruct (moves_valid _ _ H) as [Hf Ht]; apply moves_can in H; revert H;
  enum_status Hf; enum_status Ht; vm_compute; intros H; try discriminate H; clear H.

Lemma deregistered_stuck s : ~ moves StatusDeregistered s.
Proof.
  intros H. destruct (moves_valid _ _ H) as [_ Ht]. apply moves_can in H. revert H.
  enum_status Ht; vm_compute; intros; discriminate.
Qed.

Lemma into_trial s : moves s StatusTrial -> s = StatusRegistered.
Proof.
  intros H. destruct (moves_valid _ _ H) as [Hf _]. apply moves_can in H. revert H.
  enum_status Hf; vm_compute; intros; (discriminate || done).
Qed.

Lemma into_registered s : ~ moves s StatusRegistered.
Proof.
  intros H. destruct (moves_valid _ _ H) as [Hf _]. apply moves_can in H. revert H.
  enum_status Hf; vm_compute; intros; discriminate.
Qed.

Lemma out_of_valid s : Status_Valid s = true -> s <> StatusDeregistered -> moves s StatusDeregistered.
Proof.
  intros Hv Hne. apply valid_cases in Hv. constructor. enum_status Hv; done.
Qed.

(** Reachability in the tenant lifecycle: deregistration is final and can
    always be reached; nobody returns to registered; a tenant is on trial only
    as its first state after registration, so no history has two trials. *)
Theorem lifecycle_reachability (s s' : Status) :
  rtc moves s s' ->
  (s = StatusDeregistered -> s' = StatusDeregistered) /\
  (s' = StatusRegistered -> s = StatusRegistered) /\
  (s' = StatusTrial -> s = StatusTrial \/ s = StatusRegistered) /\
  (Status_Valid s = true -> Status_Valid s' = true /\ rtc moves s' StatusDeregistered).
Proof.
  intros Hr. split_and!.
  - intros ->. inversion Hr as [|? y ? Hm]; [done|]. by apply deregistered_stuck in Hm.
  - intros ->. apply rtc_inv_r in Hr as [->|(y & _ & Hm)]; [done|]. by apply into_registered in Hm.
  - intros ->. apply rtc_inv_r in Hr as [->|(y & Hr & Hm)]; [by left|].
    apply into_trial in Hm as ->. right.
    apply rtc_inv_r in Hr as [->|(z & _ & Hm)]; [done|]. by apply into_registered in Hm.
  - intros Hv.
    assert (Hv' : Status_Valid s' = true).
    { induction Hr as [x|x y z Hm _ IH]; [done|]. apply IH.
      destruct (moves_valid _ _ Hm) as [_ Hy]. by enum_status Hy. }
    split; [done|]. destruct (decide (s' = StatusDeregistered)) as [->|Hne]; [done|].
    apply rtc_once. by apply out_of_valid.
Qed.

Lemma lifecycle_reachability_witness :
  rtc moves StatusRegistered StatusSuspended /\
  (StatusSuspended = StatusRegistered -> StatusRegistered = StatusRegistered).
Proof.
  assert (Hr : rtc moves StatusRegistered StatusSuspended).
  { eapply rtc_l; [by apply (moves_edge StatusRegistered StatusTrial)|].
    apply rtc_once. by apply (moves_edge StatusTrial StatusSuspended). }
  split; [exact Hr|]. exact (proj1 (proj2 (lifecycle_reachability _ _ Hr))).
Defined.

(** [CanTransition] reports exactly one of: nil, on a listed edge between
    two different known statuses; ErrUnknownStatus when either status is
    unknown; ErrSameStatus when they are equal; ErrInvalidTransition for a
    missing edge.  The three errors are told apart by [errors.Is]. *)
Theorem can_transition_classifies (from to : Status) :
  let known := Status_Valid from && Status_Valid to in
  match CanTransition from to with
  | None => known = true /\ from <> to /\ to ∈ transitions_from from
  | Some e =>
      errors_is e ErrUnknownStatus = negb known /\
      errors_is e ErrSameStatus = known && bool_decide (from = to) /\
      errors_is e ErrInvalidTransition =
        known && bool_decide (from <> to) && bool_decide (to ∉ transitions_from from)
  end.
Proof.
  unfold CanTransition.
  destruct (Status_Valid from), (Status_Valid to); simpl; try by split_and!; vm_compute.
  destruct (bool_decide (from = to)) eqn:E1.
  - apply bool_decide_eq_true in E1. rewrite (bool_decide_eq_false_2 (from <> to)) by auto.
    by split_and!; vm_compute.
  - apply bool_decide_eq_false in E1. rewrite (bool_decide_eq_true_2 (from <> to)) by auto.
    destruct (bool_decide (to ∈ transitions_from from)) eqn:E2.
    + by apply bool_decide_eq_true in E2.
    + apply bool_decide_eq_false in E2.
      rewrite (bool_decide_eq_true_2 (to ∉ transitions_from from)) by auto.
      by split_and!; vm_compute.
Qed.

Lemma terminal_iff s : TerminalStatus s = true <-> s = StatusDeregistered.
Proof.
  split.
  - unfold TerminalStatus. intros H. bools. apply valid_cases in H.
    enum_status H; done.
  - by intros ->.
Qed.

(** The traffic gate: a tenant serves exactly when it is active, or on a
    trial whose end date exists and has not come; an unknown status, a nil
    tenant or a trial without end date never serves.  On a dated trial the gate
    is the complement of the expiry test, and once closed it stays closed. *)
Theorem can_serve_traffic_iff (t : Tenant) (now : Z) :
  (CanServeTraffic (Some t) now = true <->
     tn_Status t = StatusActive \/
     tn_Status t = StatusTrial /\ exists ends, tn_TrialEndsAt t = Some ends /\ now < ends) /\
  CanServeTraffic None now = false /\
  (forall ends, tn_Status t = StatusTrial -> tn_TrialEndsAt t = Some ends ->
     CanServeTraffic (Some t) now = negb (TrialExpired (Some t) now)) /\
  (forall later, now <= later -> CanServeTraffic (Some t) now = false ->
     CanServeTraffic (Some t) later = false).
Proof.
  assert (Hiff : forall n, CanServeTraffic (Some t) n = true <->
     tn_Status t = StatusActive \/
     tn_Status t = StatusTrial /\ exists ends, tn_TrialEndsAt t = Some ends /\ n < ends).
  { intros n. unfold CanServeTraffic, servesTraffic. destruct t as [id sl nm st te ch cr up]; simpl.
    destruct (decide (st = StatusActive)) as [->|Ha].
    - vm_compute. split; auto.
    - destruct (decide (st = StatusTrial)) as [->|Ht].
      + simpl. destruct te as [e|]; simpl.
        * rewrite Z.ltb_lt. split; [intros; right; eauto|]. intros [H|[_ (? & [= <-] & ?)]]; done.
        * split; [done|]. intros [H|[_ (? & ? & _)]]; done.
      + rewrite (bool_decide_eq_false_2 _ Ht), (bool_decide_eq_false_2 _ Ha). simpl.
        rewrite orb_true_r. split; [done|]. intros [?|[? _]]; done. }
  split_and!; [apply Hiff|done| |].
  - intros ends Hs He. destruct t as [id sl nm st te ch cr up]; simpl in *; subst.
    simpl. by rewrite negb_involutive.
  - intros later Hle Hno. apply not_true_is_false. rewrite Hiff. intros Hs.
    apply (not_true_iff_false _) in Hno. apply Hno. rewrite Hiff.
    destruct Hs as [?|(? & e & ? & ?)]; [by left|right]. split; [done|]. exists e. split; [done|lia].
Qed.
