(* ===== verification/ControlPlane.v ===== *)
(** * The tenant registry (internal/controlplane: store.go)

    The [tenants] table and the operations of [Store].  [now] is what
    [time.Now().UTC()] returns, [stamp] the clock gorm reads for the created_at
    and updated_at columns.  The nil receiver and the nil transaction have no
    counterpart. *)
From S2P Require Import Prelude GoStrings Sql Lifecycle.

Definition ErrTenantNotFound : error := New "controlplane: tenant not found".
Definition ErrTenantSlugRequired : error := New "controlplane: tenant slug is required".
Definition ErrTenantSlugConflict : error := New "controlplane: tenant slug is already in use".
Definition ErrTrialNeedsEndDate : error :=
  New "controlplane: entering trial requires an end date; use StartTrial".
Definition ErrTenantIDRequired : error := New "controlplane: tenant id is required".
Definition ErrTrialEndRequired : error := New "controlplane: trial end date is required".

(** Column updates. *)
Definition set_status (s : Status) (changed : Z) (ends : option Z) (upd : Z) (t : Tenant) : Tenant :=
  mkTenant (tn_ID t) (tn_Slug t) (tn_Name t) s ends changed (tn_CreatedAt t) upd.
Definition set_profile (slug name : string) (upd : Z) (t : Tenant) : Tenant :=
  mkTenant (tn_ID t) slug name (tn_Status t) (tn_TrialEndsAt t) (tn_StatusChangedAt t)
           (tn_CreatedAt t) upd.

Section Store.
  Context `{Sql}.
  (** LOWER(...) of the database. *)
  Variable sql_lower : string -> string.
  Abbreviation Registry := (table string Tenant).

Definition has_id (id : string) (r : Tenant) : bool := bool_decide (tn_ID r = id).

(** Primary key and the unique index on slug. *)
Definition tenant_clash (t r : Tenant) : bool :=
  bool_decide (tn_ID r = tn_ID t) || bool_decide (tn_Slug r = tn_Slug t).

Definition lookup_tenant (ctx : string) (id : string) : M Registry Tenant :=
  r ← attempt (take_row whole (has_id id));
  match r with
  | inl e => if errors_is e ErrRecordNotFound then throw (Wrap "%w: %s" ErrTenantNotFound)
             else throw (Wrap ctx e)
  | inr t => mret t
  end.

Definition lockTenant (id : string) : M Registry Tenant :=
  lookup_tenant "controlplane: lock tenant %s: %w" id.

Definition Get (id : string) : M Registry Tenant :=
  lookup_tenant "controlplane: get tenant %s: %w" id.

Definition GetTx (id : string) : M Registry Tenant := lockTenant id.

Definition CreateTx (id slug name : string) (now stamp : Z) : M Registry Tenant :=
  if is_empty id then throw ErrTenantIDRequired else
  let slug := trim_space slug in
  let name := trim_space name in
  if is_empty slug then throw ErrTenantSlugRequired else
  let t := mkTenant id slug name StatusRegistered None now stamp stamp in
  wrapping "controlplane: create tenant %s: %w" (create whole (tenant_clash t) id t);;
  mret t.

Definition Create (id slug name : string) (now stamp : Z) : M Registry Tenant :=
  if is_empty id then throw ErrTenantIDRequired else
  if blank slug then throw ErrTenantSlugRequired else
  transaction (CreateTx id slug name now stamp).

Definition UpdateProfileTx (id slug name : string) (now : Z) : M Registry Tenant :=
  let slug := trim_space slug in
  let name := trim_space name in
  if is_empty slug then throw ErrTenantSlugRequired else
  t ← lockTenant id;
  conflicts ← wrapping "controlplane: check tenant slug %q: %w"
    (count whole (fun r => bool_decide (sql_lower (tn_Slug r) = sql_lower slug) && negb (has_id id r)));
  if negb (conflicts =? 0) then throw ErrTenantSlugConflict else
  wrapping "controlplane: update tenant %s: %w"
    (update whole (has_id id) (set_profile slug name now));;
  mret (set_profile slug name now t).

Definition TransitionTx (id : string) (to : Status) (now stamp : Z) : M Registry Tenant :=
  if bool_decide (to = StatusTrial) then throw ErrTrialNeedsEndDate else
  t ← lockTenant id;
  match CanTransition (tn_Status t) to with
  | Some e => throw e
  | None =>
      wrapping "controlplane: transition tenant %s to %s: %w"
        (update whole (has_id id) (set_status to now None stamp));;
      mret (set_status to now None (tn_UpdatedAt t) t)
  end.

Definition Transition (id : string) (to : Status) (now stamp : Z) : M Registry Tenant :=
  transaction (TransitionTx id to now stamp).

Definition StartTrial (id : string) (endsAt : Z) (now stamp : Z) : M Registry Tenant :=
  if is_zero_time endsAt then throw ErrTrialEndRequired else
  transaction (
    t ← lockTenant id;
    match CanTransition (tn_Status t) StatusTrial with
    | Some e => throw e
    | None =>
        wrapping "controlplane: start trial for tenant %s: %w"
          (update whole (has_id id) (set_status StatusTrial now (Some endsAt) stamp));;
        mret (set_status StatusTrial now (Some endsAt) (tn_UpdatedAt t) t)
    end).

(** The clamp of the [limit] parameter. *)
Definition list_limit (limit : Z) : Z :=
  if (limit <=? 0) || (1000 <? limit) then 100 else limit.

Definition newer (a b : Tenant) : Prop := tn_CreatedAt b <= tn_CreatedAt a.
#[local] Instance newer_dec : RelDecision newer.
Proof. intros a b. unfold newer. apply _. Defined.

Definition List (limit : Z) : M Registry (list Tenant) :=
  out ← wrapping "controlplane: list tenants: %w" (find whole (fun _ => true));
  mret (take (Z.to_nat (list_limit limit)) (merge_sort newer out)).

Definition trial_end (t : Tenant) : Z := default 0 (tn_TrialEndsAt t).
Definition ends_first (a b : Tenant) : Prop := trial_end a <= trial_end b.
#[local] Instance ends_first_dec : RelDecision ends_first.
Proof. intros a b. unfold ends_first. apply _. Defined.

(** status = 'trial' AND trial_ends_at IS NOT NULL AND trial_ends_at <= now *)
Definition expired_where (now : Z) (r : Tenant) : bool :=
  bool_decide (tn_Status r = StatusTrial) &&
  match tn_TrialEndsAt r with None => false | Some e => e <=? now end.

Definition ListExpiredTrials (now : Z) : M Registry (list Tenant) :=
  out ← wrapping "controlplane: list expired trials: %w" (find whole (expired_where now));
  mret (merge_sort ends_first out).

(** ** Invariant of the registry *)
Record registry_ok (w : Registry) : Prop := {
  ok_keyed : forall k r, rows w !! k = Some r -> tn_ID r = k;
  ok_valid : forall k r, rows w !! k = Some r -> Status_Valid (tn_Status r) = true;
  ok_trial : forall k r, rows w !! k = Some r ->
    (tn_Status r = StatusTrial <-> is_Some (tn_TrialEndsAt r));
  ok_slug : forall k r, rows w !! k = Some r -> tn_Slug r <> EmptyString;
  ok_unique : forall k1 k2 r1 r2, rows w !! k1 = Some r1 -> rows w !! k2 = Some r2 ->
    tn_Slug r1 = tn_Slug r2 -> k1 = k2 }.

(** A row fit to be written under [k]. *)
Record row_ok (w : Registry) (k : string) (t : Tenant) : Prop := {
  row_keyed : tn_ID t = k;
  row_valid : Status_Valid (tn_Status t) = true;
  row_trial : tn_Status t = StatusTrial <-> is_Some (tn_TrialEndsAt t);
  row_slug : tn_Slug t <> EmptyString;
  row_unique : forall k' r', rows w !! k' = Some r' -> tn_Slug r' = tn_Slug t -> k' = k }.

Lemma registry_ok_empty w : rows w = ∅ -> registry_ok w.
Proof. intros E. by split; rewrite E. Qed.

Lemma registry_ok_congr w w' : registry_ok w -> rows w' = rows w -> registry_ok w'.
Proof. intros [] E. by split; rewrite E. Qed.

Lemma registry_ok_row w k t : registry_ok w -> rows w !! k = Some t -> row_ok w k t.
Proof. intros [] Hk. split; eauto. Qed.

Lemma registry_ok_write w w' k t :
  registry_ok w -> row_ok w k t -> rows w' = <[k := t]> (rows w) -> registry_ok w'.
Proof.
  intros Hw Ht E.
  assert (Hrow : forall k' r, rows w' !! k' = Some r ->
            (k' = k /\ r = t) \/ (k' <> k /\ rows w !! k' = Some r)).
  { intros k' r. rewrite E. destruct (decide (k' = k)) as [->|Hne].
    - rewrite lookup_insert_eq. intros [= <-]. by left.
    - rewrite lookup_insert_ne by done. by right. }
  destruct Hw, Ht.
  split; intros k' r; [..|intros r1 r2]; intros Hk'; destruct (Hrow _ _ Hk') as [[-> ->]|[Hne Hr]]; eauto.
  - intros Hk2 Hs. destruct (Hrow _ _ Hk2) as [[-> ->]|[Hne2 Hr2]]; [done|]. symmetry. eauto.
  - intros Hk2 Hs. destruct (Hrow _ _ Hk2) as [[-> ->]|[Hne2 Hr2]]; eauto.
Qed.

(** The update of the row of one id. *)
Lemma update_by_id w id g t :
  registry_ok w -> rows w !! id = Some t ->
  rows (update_rows (has_id id) g w) = <[id := g t]> (rows w).
Proof.
  intros Hw Hk. apply rows_update_unique; [done| |].
  - apply bool_decide_eq_true_2. by eapply ok_keyed.
  - intros k' r' Hk' Hp. apply bool_decide_eq_true in Hp.
    by rewrite <-(ok_keyed w Hw _ _ Hk').
Qed.

Lemma wp_lookup h ctx id w (Q : error + Tenant -> Registry -> Prop) :
  registry_ok w ->
  (h = false -> forall msg, Q (inl (Wrap ctx (Driver msg))) w) ->
  (rows w !! id = None -> Q (inl (Wrap "%w: %s" ErrTenantNotFound)) w) ->
  (forall t, rows w !! id = Some t -> Q (inr t) w) ->
  wp h (lookup_tenant ctx id) w Q.
Proof.
  intros Hw Hd Hn Hs. unfold lookup_tenant. repeat wp_step.
  - intros Hh msg. wp_step. auto.
  - intros Hnone. wp_step. apply Hn. destruct (rows w !! id) as [t|] eqn:E; [|done].
    specialize (Hnone _ _ E). unfold has_id in Hnone. bools.
    by rewrite (ok_keyed w Hw _ _ E) in Hnone.
  - intros k r Hk Hp. wp_step. apply Hs. unfold has_id in Hp. bools.
    by rewrite <-Hp, (ok_keyed w Hw _ _ Hk).
Qed.

(** ** What each operation does *)

(** Why a move is refused, as a function of the registry. *)
Definition transition_refusal (w : Registry) (id : string) (to : Status) : option error :=
  if bool_decide (to = StatusTrial) then Some ErrTrialNeedsEndDate else
  match rows w !! id with
  | None => Some (Wrap "%w: %s" ErrTenantNotFound)
  | Some t => CanTransition (tn_Status t) to
  end.

Lemma wp_TransitionTx h w id to now stamp :
  registry_ok w ->
  wp h (TransitionTx id to now stamp) w (fun r w' => match r with
    | inl e => w' = w /\ (h = true -> transition_refusal w id to = Some e)
    | inr t' => exists t, rows w !! id = Some t /\ to <> StatusTrial /\
        CanTransition (tn_Status t) to = None /\
        rows w' = <[id := set_status to now None stamp t]> (rows w) /\
        t' = set_status to now None (tn_UpdatedAt t) t
    end).
Proof.
  intros Hw. unfold TransitionTx, transition_refusal.
  destruct (bool_decide (to = StatusTrial)) eqn:Et; [by wp_step|]. bools.
  wp_step. apply wp_lookup; [done|by intros ->|by intros ->|].
  intros t Ht. rewrite Ht. destruct (CanTransition (tn_Status t) to) as [e|] eqn:Ec; [by wp_step|].
  repeat wp_step; [by intros ->|].
  exists t. split_and!; try done. by apply update_by_id.
Qed.

Lemma wp_Transition h w id to now stamp :
  registry_ok w ->
  wp h (Transition id to now stamp) w (fun r w' => match r with
    | inl e => w' = w /\ (h = true -> transition_refusal w id to = Some e)
    | inr t' => exists t, rows w !! id = Some t /\ to <> StatusTrial /\
        CanTransition (tn_Status t) to = None /\
        rows w' = <[id := set_status to now None stamp t]> (rows w) /\
        t' = set_status to now None (tn_UpdatedAt t) t
    end).
Proof.
  intros Hw. unfold Transition. wp_step. eapply wp_mono; [by apply wp_TransitionTx|].
  intros [e|t'] w' HQ; simpl.
  - split; [done|by destruct HQ].
  - split; [by intros ->|done].
Qed.

Lemma wp_StartTrial h w id endsAt now stamp :
  registry_ok w ->
  wp h (StartTrial id endsAt now stamp) w (fun r w' => match r with
    | inl e => w' = w
    | inr t' => exists t, rows w !! id = Some t /\ CanTransition (tn_Status t) StatusTrial = None /\
        rows w' = <[id := set_status StatusTrial now (Some endsAt) stamp t]> (rows w) /\
        t' = set_status StatusTrial now (Some endsAt) (tn_UpdatedAt t) t
    end).
Proof.
  intros Hw. unfold StartTrial. repeat wp_step; [done|].
  apply wp_lookup; [done..|]. intros t Ht.
  destruct (CanTransition (tn_Status t) StatusTrial) as [e|] eqn:Ec; [by wp_step|].
  repeat wp_step; [done|]. split; [done|]. exists t. split_and!; try done. by apply update_by_id.
Qed.

Lemma wp_UpdateProfileTx h w id slug name now :
  registry_ok w ->
  wp h (UpdateProfileTx id slug name now) w (fun r w' => match r with
    | inl e => w' = w
    | inr t' => exists t, rows w !! id = Some t /\ trim_space slug <> EmptyString /\
        (forall k' r', rows w !! k' = Some r' ->
           sql_lower (tn_Slug r') = sql_lower (trim_space slug) -> k' = id) /\
        rows w' = <[id := set_profile (trim_space slug) (trim_space name) now t]> (rows w) /\
        t' = set_profile (trim_space slug) (trim_space name) now t
    end).
Proof.
  intros Hw. unfold UpdateProfileTx. wp_step; [by wp_step|].
  wp_step. apply wp_lookup; [done..|]. intros t Ht.
  repeat wp_step; [done|done|done|]. unfold is_empty in E. bools.
  exists t. split_and!; try done; [|by apply update_by_id].
  intros k' r' Hk' Hs. assert (En : where_ (fun r => bool_decide (sql_lower (tn_Slug r) =
      sql_lower (trim_space slug)) && negb (has_id id r)) w = []).
  { apply length_zero_iff_nil. lia. }
  rewrite where_nil in En. specialize (En _ _ Hk').
  rewrite bool_decide_eq_true_2 in En by done. simpl in En. unfold has_id in En. bools.
  by rewrite <-En, (ok_keyed w Hw _ _ Hk').
Qed.

Lemma wp_CreateTx h w id slug name now stamp :
  registry_ok w ->
  wp h (CreateTx id slug name now stamp) w (fun r w' => match r with
    | inl e => w' = w
    | inr t => t = mkTenant id (trim_space slug) (trim_space name) StatusRegistered None now stamp stamp /\
        id <> EmptyString /\ trim_space slug <> EmptyString /\ rows w !! id = None /\
        (forall k' r', rows w !! k' = Some r' -> tn_Slug r' <> trim_space slug) /\
        rows w' = <[id := t]> (rows w)
    end).
Proof.
  intros Hw. unfold CreateTx. repeat wp_step; [done..|].
  unfold is_empty in *. bools. intros Hno. wp_step. split_and!; try done.
  - destruct (rows w !! id) as [r|] eqn:Er; [|done]. specialize (Hno _ _ Er).
    unfold tenant_clash in Hno. simpl in Hno. bools. by rewrite (ok_keyed w Hw _ _ Er) in *.
  - intros k' r' Hk' Hs. specialize (Hno _ _ Hk'). unfold tenant_clash in Hno. simpl in Hno. by bools.
  - by rewrite rows_insert.
Qed.

Lemma wp_Create h w id slug name now stamp :
  registry_ok w ->
  wp h (Create id slug name now stamp) w (fun r w' => match r with
    | inl e => w' = w
    | inr t => t = mkTenant id (trim_space slug) (trim_space name) StatusRegistered None now stamp stamp /\
        id <> EmptyString /\ trim_space slug <> EmptyString /\ rows w !! id = None /\
        (forall k' r', rows w !! k' = Some r' -> tn_Slug r' <> trim_space slug) /\
        rows w' = <[id := t]> (rows w)
    end).
Proof.
  intros Hw. unfold Create. repeat wp_step; [done..|].
  eapply wp_mono; [by apply wp_CreateTx|]. by intros [e|t] w' HQ.
Qed.

(** ** The registry implements the lifecycle *)
Inductive registry_call :=
| CallCreate (id slug name : string) (now stamp : Z)
| CallProfile (id slug name : string) (now : Z)
| CallTransition (id : string) (to : Status) (now stamp : Z)
| CallStartTrial (id : string) (endsAt now stamp : Z).

Definition run_call (c : registry_call) : M Registry Tenant :=
  match c with
  | CallCreate id slug name now stamp => Create id slug name now stamp
  | CallProfile id slug name now => transaction (UpdateProfileTx id slug name now)
  | CallTransition id to now stamp => Transition id to now stamp
  | CallStartTrial id endsAt now stamp => StartTrial id endsAt now stamp
  end.

(** One call, with whatever the driver does during it. *)
Inductive registry_step : Registry -> Registry -> Prop :=
| registry_step_call c r w w' : outcome (run_call c) w r w' -> registry_step w w'.

(** A call writes at most one row: a new registered tenant, or the next state
    of an existing one. *)
Definition writes_one (w w' : Registry) : Prop :=
  rows w' = rows w \/
  (exists k t, rows w' = <[k := t]> (rows w) /\ rows w !! k = None /\
     tn_Status t = StatusRegistered /\ row_ok w k t) \/
  (exists k t t', rows w' = <[k := t']> (rows w) /\ rows w !! k = Some t /\
     rtc moves (tn_Status t) (tn_Status t') /\ tn_CreatedAt t' = tn_CreatedAt t /\ row_ok w k t').

Lemma CanTransition_valid from to : CanTransition from to = None -> Status_Valid to = true.
Proof.
  unfold CanTransition. destruct (Status_Valid from); [|done]. by destruct (Status_Valid to).
Qed.

Lemma run_call_writes_one h c w :
  registry_ok w -> wp h (run_call c) w (fun _ w' => writes_one w w').
Proof.
  intros Hw. destruct c as [id slug name now stamp|id slug name now|id to now stamp|id e now stamp]; simpl.
  - eapply wp_mono; [by apply wp_Create|]. intros [e|t] w'; [intros ->; by left|].
    intros (-> & Hid & Hs & Hk & Hu & E). right; left.
    do 2 eexists. split_and!; [exact E|done|done|].
    split; simpl; try done. intros k' r' Hk' Hs'. by destruct (Hu _ _ Hk').
  - wp_step. eapply wp_mono; [by apply wp_UpdateProfileTx|].
    intros [e|t'] w'; [intros ->; by left|]. intros (t & Hk & Hs & Hu & E & _). split; [by left|].
    right; right.
    do 3 eexists. split_and!; [exact E|exact Hk|done|done|].
    destruct (registry_ok_row _ _ _ Hw Hk). split; try done. simpl. intros k' r' Hk' Hs'.
    apply (Hu _ _ Hk'). by rewrite Hs'.
  - eapply wp_mono; [by apply wp_Transition|]. intros [er|t'] w'; [intros [-> _]; by left|].
    intros (t & Hk & Hto & Hc & E & _). right; right.
    do 3 eexists. split_and!; [exact E|exact Hk| |done|].
    + apply rtc_once. by constructor.
    + destruct (registry_ok_row _ _ _ Hw Hk). split; try done; simpl.
      * by apply CanTransition_valid in Hc.
      * split; [done|intros [? [=]]].
  - eapply wp_mono; [by apply wp_StartTrial|]. intros [er|t'] w'; [intros ->; by left|].
    intros (t & Hk & Hc & E & _). right; right.
    do 3 eexists. split_and!; [exact E|exact Hk| |done|].
    + apply rtc_once. by constructor.
    + destruct (registry_ok_row _ _ _ Hw Hk). by split.
Qed.

Lemma registry_step_writes_one w w' : registry_ok w -> registry_step w w' -> writes_one w w'.
Proof.
  intros Hw Hs. destruct Hs as [c r w1 w2 Ho].
  exact (wp_outcome _ _ (fun _ w' => writes_one w1 w') r w2 (run_call_writes_one false c w1 Hw) Ho).
Qed.

Lemma registry_step_ok w w' : registry_ok w -> registry_step w w' -> registry_ok w'.
Proof.
  intros Hw [E|[(k & t & E & _ & _ & Ht)|(k & t & t' & E & _ & _ & _ & Ht)]]%registry_step_writes_one;
    [by eapply registry_ok_congr|by eapply registry_ok_write..|done].
Qed.

(** C16. Every registry reachable from an empty one by any calls, with driver
    failures anywhere, is well formed: each row sits under its own id, its
    status is known, it has a trial end date exactly while on trial, its slug
    is not empty and no two tenants share a slug. *)
Theorem registry_invariant (w0 w : Registry) :
  rows w0 = ∅ -> rtc registry_step w0 w -> registry_ok w.
Proof.
  intros E Hr. apply registry_ok_empty in E.
  induction Hr as [|x y z Hs _ IH]; [done|]. by eapply IH, registry_step_ok.
Qed.

(** C25. Refinement of the lifecycle: along any sequence of calls no tenant
    disappears, its creation time is stable and its status only follows edges of the status
    machine. *)
Theorem registry_refines_lifecycle (w w' : Registry) :
  registry_ok w -> rtc registry_step w w' ->
  forall k t, rows w !! k = Some t ->
  exists t', rows w' !! k = Some t' /\ tn_ID t' = tn_ID t /\ tn_CreatedAt t' = tn_CreatedAt t /\
             rtc moves (tn_Status t) (tn_Status t').
Proof.
  intros Hw Hr. induction Hr as [x|x y z Hs Hr IH]; intros k t Hk; [by exists t|].
  assert (Hy : registry_ok y) by by eapply registry_step_ok.
  assert (exists t1, rows y !! k = Some t1 /\ tn_ID t1 = tn_ID t /\ tn_CreatedAt t1 = tn_CreatedAt t /\
            rtc moves (tn_Status t) (tn_Status t1)) as (t1 & Hk1 & Hid & Hcr & Hm).
  { destruct (registry_step_writes_one _ _ Hw Hs)
      as [E|[(k' & t' & E & Hn & _)|(k' & t0 & t' & E & Hk' & Hm & Hc & Ht')]];
      rewrite E; [by exists t| |].
    - exists t. rewrite lookup_insert_ne by congruence. done.
    - destruct (decide (k' = k)) as [->|Hne].
      + rewrite Hk in Hk'. simplify_eq. exists t'. rewrite lookup_insert_eq.
        split_and!; try done. rewrite (ok_keyed x Hw _ _ Hk). by apply row_keyed in Ht'.
      + exists t. by rewrite lookup_insert_ne. }
  destruct (IH Hy k t1 Hk1) as (t2 & Hk2 & Hid2 & Hc2 & Hm2).
  exists t2. split_and!; [done|congruence|congruence|by etrans].
Qed.

(** [Transition] on every branch: it reports exactly the refusal of the
    specification and then leaves the registry alone, or it moves the row along
    an edge, clears the trial end date and returns the row it wrote. *)
Theorem transition_spec (w : Registry) (id : string) (to : Status) (now stamp : Z) :
  registry_ok w ->
  exists w', match transition_refusal w id to with
    | Some e => runs (Transition id to now stamp) w (inl e) w' /\ w' = w
    | None => exists t, rows w !! id = Some t /\
        runs (Transition id to now stamp) w (inr (set_status to now None (tn_UpdatedAt t) t)) w' /\
        rows w' = <[id := set_status to now None stamp t]> (rows w)
    end.
Proof.
  intros Hw. destruct (wp_runs _ _ _ (wp_Transition true w id to now stamp Hw)) as (r & w' & Hr & HQ).
  exists w'. destruct r as [e|t'].
  - destruct HQ as [-> HQ]. by rewrite HQ.
  - destruct HQ as (t & Hk & Hto & Hc & E & ->). unfold transition_refusal.
    rewrite bool_decide_eq_false_2, Hk, Hc by done. by exists t.
Qed.

(** The work queue of the expiry job is exactly the tenants the Go
    predicate [TrialExpired] holds of, oldest end date first: the SQL condition
    and the predicate agree. *)
Theorem expired_trials_exact (w : Registry) (now : Z) :
  exists l, runs (ListExpiredTrials now) w (inr l) w /\
    Sorted ends_first l /\
    (forall t, t ∈ l <-> exists k, rows w !! k = Some t /\ TrialExpired (Some t) now = true).
Proof.
  eexists. split; [reflexivity|]. split.
  - apply Sorted_merge_sort. intros a b. unfold ends_first. lia.
  - intros t. rewrite merge_sort_Permutation. simpl. rewrite elem_of_where.
    apply exist_proper. intros k. unfold expired_where, TrialExpired. simpl.
    destruct (decide (tn_Status t = StatusTrial)) as [Hs|Hs].
    + rewrite bool_decide_eq_true_2, bool_decide_eq_false_2 by auto. simpl.
      destruct (tn_TrialEndsAt t); [|done]. by rewrite Z.leb_antisym.
    + rewrite bool_decide_eq_false_2, bool_decide_eq_true_2 by auto. done.
Qed.

Lemma wp_Create_fresh w id slug name now stamp :
  registry_ok w -> id <> EmptyString -> rows w !! id = None -> trim_space slug <> EmptyString ->
  (forall k r, rows w !! k = Some r -> tn_Slug r <> trim_space slug) ->
  wp true (Create id slug name now stamp) w (fun r w' =>
    exists t, r = inr t /\ tn_Slug t = trim_space slug /\ registry_ok w' /\ rows w' = <[id := t]> (rows w)).
Proof.
  intros Hw Hid Hk Hs Hu. unfold Create, CreateTx, blank, is_empty.
  rewrite !bool_decide_eq_false_2 by done. repeat wp_step; [done|..].
  - intros (k' & r' & Hk' & Hc). exfalso. unfold tenant_clash in Hc. simpl in Hc.
    apply orb_true_iff in Hc as [Hc|Hc]; bools; [|by destruct (Hu _ _ Hk')].
    rewrite (ok_keyed w Hw _ _ Hk') in Hc. congruence.
  - intros _. wp_step. split; [done|]. eexists. split_and!; [done|done| |apply rows_insert].
    eapply registry_ok_write; [exact Hw| |apply rows_insert]. split; simpl; try done.
    intros k' r' Hk' Hs'. by destruct (Hu _ _ Hk').
Qed.

(** [Create] and [UpdateProfileTx] disagree on which slugs are taken:
    creation only looks at the exact text, so a slug that differs from another
    tenant's in case only is accepted, and the profile update then refuses the
    very slug the tenant was created with. *)
Theorem create_slug_case_gap (w : Registry) (id slug name : string) (now stamp : Z)
    (k0 : string) (r0 : Tenant) :
  registry_ok w -> id <> EmptyString -> rows w !! id = None -> trim_space slug <> EmptyString ->
  (forall k r, rows w !! k = Some r -> tn_Slug r <> trim_space slug) ->
  rows w !! k0 = Some r0 -> sql_lower (tn_Slug r0) = sql_lower (trim_space slug) ->
  exists t w', runs (Create id slug name now stamp) w (inr t) w' /\
    runs (transaction (UpdateProfileTx id slug name now)) w' (inl ErrTenantSlugConflict) w'.
Proof.
  intros Hw Hid Hk Hs Hu Hk0 Hl.
  destruct (wp_runs _ _ _ (wp_Create_fresh w id slug name now stamp Hw Hid Hk Hs Hu))
    as (r & w' & Hr & t & -> & Ht & Hw' & E).
  exists t, w'. split; [exact Hr|].
  assert (Hwp : wp true (transaction (UpdateProfileTx id slug name now)) w'
            (fun r w2 => r = inl ErrTenantSlugConflict /\ w2 = w')).
  { unfold UpdateProfileTx, is_empty. rewrite bool_decide_eq_false_2 by done.
    do 2 wp_step. apply wp_lookup; [done|done| |].
    - rewrite E, lookup_insert_eq. intros [=].
    - intros t' _. repeat wp_step; try done. bools. exfalso.
      apply (f_equal Z.to_nat) in E0. rewrite Nat2Z.id in E0. apply length_zero_iff_nil in E0.
      rewrite where_nil in E0. assert (Hne : id <> k0) by congruence.
      specialize (E0 k0 r0). rewrite E, lookup_insert_ne in E0 by done. specialize (E0 Hk0).
      rewrite Hl, bool_decide_eq_true_2 in E0 by done. unfold has_id in E0. simpl in E0. bools.
      by rewrite (ok_keyed w Hw _ _ Hk0) in E0. }
  destruct (wp_runs _ _ _ Hwp) as (r & w2 & Hr2 & -> & ->). exact Hr2.
Qed.

End Store.

(** ** Concrete runs *)
Definition demo_tenant : Tenant :=
  mkTenant "t1" "acme" "Acme" StatusActive None 5 1 5.
Definition demo_registry : gmap string Tenant := {[ "t1" := demo_tenant ]}.

Lemma demo_registry_ok : @registry_ok map_sql demo_registry.
Proof.
  eapply (@registry_ok_write map_sql ∅ demo_registry "t1" demo_tenant); [| |reflexivity].
  - by apply (@registry_ok_empty map_sql).
  - split; [done|done| |done|].
    + split; [intros [=]|intros [? [=]]].
    + intros k r Hk _. exfalso. change ((∅ : gmap string Tenant) !! k = Some r) in Hk.
      by rewrite lookup_empty in Hk.
Qed.

Lemma registry_invariant_witness :
  exists w, rows (Sql := map_sql) w !! "t1" = Some demo_tenant /\ @registry_ok map_sql w.
Proof.
  set (c1 := CallCreate "t1" " acme " "Acme" 1 1). set (c2 := CallTransition "t1" StatusActive 5 5).
  set (r1 := @run_call map_sql ascii_lower c1 ∅ []).
  set (w1 := r1.1.2). set (r2 := @run_call map_sql ascii_lower c2 w1 [Some "driver: bad connection"]).
  set (r3 := @run_call map_sql ascii_lower c2 r2.1.2 []).
  exists r3.1.2. split; [vm_compute; reflexivity|].
  apply (@registry_invariant map_sql ascii_lower ∅ _ eq_refl).
  eapply rtc_l; [apply (@registry_step_call map_sql ascii_lower c1 r1.1.1 ∅ w1); exists []; by eexists|].
  eapply rtc_l; [apply (@registry_step_call map_sql ascii_lower c2 r2.1.1 w1 r2.1.2); by exists [Some "driver: bad connection"], []|].
  apply rtc_once, (@registry_step_call map_sql ascii_lower c2 r3.1.1 r2.1.2 r3.1.2). by exists [], [].
Defined.

Lemma registry_refines_lifecycle_witness :
  exists w', (exists sc, (@run_call map_sql ascii_lower (CallTransition "t1" StatusDeregistered 9 9)
                            demo_registry sc).1.2 = w') /\
    exists t', w' !! "t1" = Some t' /\ rtc moves StatusActive (tn_Status t').
Proof.
  set (c := CallTransition "t1" StatusDeregistered 9 9).
  set (r := @run_call map_sql ascii_lower c demo_registry []).
  exists r.1.2. split; [by exists []|].
  destruct (@registry_refines_lifecycle map_sql ascii_lower demo_registry r.1.2 demo_registry_ok)
    with (k := "t1") (t := demo_tenant) as (t' & Ht' & _ & _ & Hm); [|done|by exists t'].
  apply rtc_once, (@registry_step_call map_sql ascii_lower c r.1.1 demo_registry r.1.2). by exists [], [].
Defined.

Lemma transition_spec_witness :
  @transition_refusal map_sql demo_registry "t1" StatusRegistered
    = Some (Wrap "%w: %s to %s" ErrInvalidTransition) /\
  exists w', runs (@Transition map_sql "t1" StatusSuspended 7 8) demo_registry
               (inr (set_status StatusSuspended 7 None 5 demo_tenant)) w'.
Proof.
  split; [vm_compute; reflexivity|].
  destruct (@transition_spec map_sql demo_registry "t1" StatusSuspended 7 8 demo_registry_ok)
    as (w' & t & Ht & Hr & _).
  exists w'. vm_compute in Ht. injection Ht as <-. exact Hr.
Defined.

Lemma create_slug_case_gap_witness :
  exists t w', runs (@Create map_sql "t2" "ACME" "Other" 7 7) demo_registry (inr t) w' /\
    runs (transaction (@UpdateProfileTx map_sql ascii_lower "t2" "ACME" "Other" 7)) w'
      (inl ErrTenantSlugConflict) w'.
Proof.
  apply (@create_slug_case_gap map_sql ascii_lower demo_registry "t2" "ACME" "Other" 7 7 "t1" demo_tenant);
    [exact demo_registry_ok|discriminate|vm_compute; reflexivity|vm_compute; discriminate| |
     vm_compute; reflexivity|vm_compute; reflexivity].
  intros k r Hk. change (({[ "t1" := demo_tenant ]} : gmap string Tenant) !! k = Some r) in Hk.
  apply lookup_singleton_Some in Hk as [_ <-]. vm_compute. discriminate.
Defined.
