(* ===== verification/ConfigBus.v ===== *)
(** * The configuration bus (internal/configbus: outbox.go, redis.go, reconcile.go)

    The control plane allocates a generation per tenant and records a durable
    change in one transaction; a data-plane node keeps a fence per tenant and
    reloads when a notification or the periodic pass is ahead of it. *)
From S2P Require Import Prelude GoStrings Sql.

Definition ErrTenantRequired : error := New "configbus: tenant id is required".
Definition ErrEntityRequired : error := New "configbus: entity is required".

Record Generation := mkGeneration {
  gn_TenantID : string;
  gn_Generation : Z;
  gn_UpdatedAt : Z }.

Record Change := mkChange {
  ch_ID : Z;
  ch_TenantID : string;
  ch_Generation : Z;
  ch_Entity : string;
  ch_CreatedAt : Z;
  ch_PublishedAt : option Z }.

(** [Notifier.Publish], with what it reports. *)
Definition Notifier := Change -> option error.

Definition validateChange (id entity : string) : option error :=
  if blank id then Some ErrTenantRequired
  else if blank entity then Some ErrEntityRequired
  else None.

Section Store.
  Context `{Sql}.

Record Bus := mkBus {
  config_generations : table string Generation;
  config_change_outbox : table Z Change }.

Definition generations : field Bus (table string Generation) :=
  Field config_generations (fun t w => mkBus t (config_change_outbox w)).
Definition outbox : field Bus (table Z Change) :=
  Field config_change_outbox (fun t w => mkBus (config_generations w) t).

Definition of_tenant (id : string) (r : Generation) : bool := bool_decide (gn_TenantID r = id).

(** The unique index idx_config_outbox_generation_entity. *)
Definition same_event (id : string) (g : Z) (entity : string) (r : Change) : bool :=
  bool_decide (ch_TenantID r = id) && (ch_Generation r =? g) && bool_decide (ch_Entity r = entity).

Definition PublishTx (id entity : string) (now : Z) : M Bus Change :=
  match validateChange id entity with
  | Some e => throw e
  | None =>
      row ← wrapping "configbus: allocate generation for %s: %w"
        (upsert_returning generations (of_tenant id) (of_tenant id)
           (fun r => mkGeneration (gn_TenantID r) (gn_Generation r + 1) now)
           id (mkGeneration id 1 now));
      let entity := trim_space entity in
      wrapping "configbus: write outbox change for %s: %w"
        (create_auto outbox (same_event id (gn_Generation row) entity)
           (fun k => mkChange k id (gn_Generation row) entity now None))
  end.

Definition Publish (id entity : string) (now : Z) : M Bus Change :=
  match validateChange id entity with
  | Some e => throw e
  | None => transaction (PublishTx id entity now)
  end.

(** The change and the notification error, which both reach the caller. *)
Definition PublishAndNotify (id entity : string) (now : Z) (notifier : option Notifier)
    : M Bus (Change * option error) :=
  change ← Publish id entity now;
  match notifier with
  | Some publish =>
      match publish change with
      | Some e => mret (change, Some (Wrap "configbus: durable change %d committed but notification failed: %w" e))
      | None => mret (change, None)
      end
  | None => mret (change, None)
  end.

Definition Current (id : string) : M Bus Z :=
  if blank id then throw ErrTenantRequired else
  r ← attempt (take_row generations (of_tenant id));
  match r with
  | inl e => if errors_is e ErrRecordNotFound then mret 0
             else throw (Wrap "configbus: read generation for %s: %w" e)
  | inr row => mret (gn_Generation row)
  end.

Definition tenant_asc (a b : Generation) : Prop := text_le (gn_TenantID a) (gn_TenantID b) = true.
#[global] Instance tenant_asc_dec : RelDecision tenant_asc.
Proof. intros a b. unfold tenant_asc. apply _. Defined.

Definition ListGenerations : M Bus (list Generation) :=
  rows ← wrapping "configbus: list generations: %w" (find generations (fun _ => true));
  mret (merge_sort tenant_asc rows).

Definition id_asc (a b : Change) : Prop := ch_ID a <= ch_ID b.
#[global] Instance id_asc_dec : RelDecision id_asc.
Proof. intros a b. unfold id_asc. apply _. Defined.

Definition ListChanges (afterID : Z) (limit : Z) : M Bus (list Change) :=
  let limit := if limit <=? 0 then 100 else limit in
  rows ← wrapping "configbus: list outbox: %w" (find outbox (fun r => afterID <? ch_ID r));
  mret (take (Z.to_nat limit) (merge_sort id_asc rows)).

Definition MarkPublished (id : Z) (now : Z) : M Bus unit :=
  wrapping "configbus: mark outbox %d published: %w"
    (update outbox (fun r => ch_ID r =? id)
       (fun r => mkChange (ch_ID r) (ch_TenantID r) (ch_Generation r) (ch_Entity r)
                          (ch_CreatedAt r) (Some now)));;
  mret tt.

End Store.

(** ** Notifications over Redis

    [publish] is what the client reports for PUBLISH of the encoded
    notification. *)
Record Notification := mkNotification { nt_TenantID : string; nt_Generation : Z }.

Definition RedisNotifier_Publish (publish : Notification -> option error) : Notifier := fun change =>
  match publish (mkNotification (ch_TenantID change) (ch_Generation change)) with
  | Some e => Some (Wrap "configbus: publish notification: %w" e)
  | None => None
  end.

(** One turn of the receiver: the decoded message, or the decoding error.  The
    first component is what is forwarded, the second what is offered to the
    one-slot error channel. *)
Definition receive (msg : error + Notification) : option Notification * option error :=
  match msg with
  | inl e => (None, Some (Wrap "configbus: invalid notification: %w" e))
  | inr n =>
      if is_empty (nt_TenantID n) || (nt_Generation n =? 0)
      then (None, Some (Wrap "configbus: invalid notification: %w"
                          (New "tenant_id and generation are required")))
      else (Some n, None)
  end.

(** ** The reconciler of a node

    [E] is the state the reload callback works on. *)
Section Reconciler.
  Context {E : Type}.
  Variable reload : E -> string -> Z -> option error * E.

Record Reconciler := mkReconciler { rc_current : gmap string Z; rc_env : E }.

Definition Generation_of (r : Reconciler) (id : string) : Z := default 0 (rc_current r !! id).

Definition Observe (r : Reconciler) (id : string) (generation : Z) : option error * Reconciler :=
  if is_empty id || (generation =? 0)
  then (Some (New "configbus: invalid notification (%q, %d)"), r)
  else if generation <=? Generation_of r id then (None, r)
  else match reload (rc_env r) id generation with
       | (Some e, env) => (Some e, mkReconciler (rc_current r) env)
       | (None, env) => (None, mkReconciler (<[id := generation]> (rc_current r)) env)
       end.

(** [errors.Join] of an accumulated error and a new one; nil is dropped. *)
Definition join_err (joined err : option error) : option error :=
  match joined, err with
  | None, e => e
  | j, None => j
  | Some a, Some b => Some (Join a b)
  end.

Fixpoint observe_all (r : Reconciler) (joined : option error) (rows : list Generation)
    : option error * Reconciler :=
  match rows with
  | [] => (joined, r)
  | row :: rest =>
      match Observe r (gn_TenantID row) (gn_Generation row) with
      | (err, r') => observe_all r' (join_err joined err) rest
      end
  end.

(** [listed] is what [source.ListGenerations] returned. *)
Definition Reconcile (r : Reconciler) (listed : error + list Generation) : option error * Reconciler :=
  match listed with
  | inl e => (Some e, r)
  | inr rows => observe_all r None rows
  end.

End Reconciler.
Arguments mkReconciler {E}.
Arguments rc_current {E}.
Arguments rc_env {E}.
Arguments Generation_of {E}.

(** ** Invariant of the bus *)
Section BusInvariant.
  Context `{Sql}.
  Implicit Types (w : Bus) (c : Change).

Definition current_of w (id : string) : Z :=
  match rows (config_generations w) !! id with Some r => gn_Generation r | None => 0 end.

Record bus_ok w : Prop := {
  bus_generation : forall k r, rows (config_generations w) !! k = Some r ->
    gn_TenantID r = k /\ 1 <= gn_Generation r /\ blank k = false;
  bus_key : forall k c, rows (config_change_outbox w) !! k = Some c -> ch_ID c = k /\ 0 < k;
  bus_range : forall k c, rows (config_change_outbox w) !! k = Some c ->
    1 <= ch_Generation c <= current_of w (ch_TenantID c);
  bus_ordered : forall k1 k2 c1 c2, rows (config_change_outbox w) !! k1 = Some c1 ->
    rows (config_change_outbox w) !! k2 = Some c2 -> ch_TenantID c1 = ch_TenantID c2 ->
    k1 < k2 -> ch_Generation c1 < ch_Generation c2;
  bus_complete : forall id g, 1 <= g <= current_of w id ->
    exists k c, rows (config_change_outbox w) !! k = Some c /\ ch_TenantID c = id /\ ch_Generation c = g }.

Lemma bus_ok_empty w :
  rows (config_generations w) = ∅ -> rows (config_change_outbox w) = ∅ -> bus_ok w.
Proof.
  intros E1 E2. split; unfold current_of; try by (rewrite ?E1, ?E2; intros *; rewrite lookup_empty).
  intros id g. rewrite E1, lookup_empty. lia.
Qed.

(** What a committed publication did. *)
Definition published w w' (id entity : string) (now : Z) (c : Change) : Prop :=
  blank id = false /\
  c = mkChange (ch_ID c) id (current_of w id + 1) (trim_space entity) now None /\
  0 < ch_ID c /\ (forall k, is_Some (rows (config_change_outbox w) !! k) -> k < ch_ID c) /\
  rows (config_generations w') =
    <[id := mkGeneration id (current_of w id + 1) now]> (rows (config_generations w)) /\
  rows (config_change_outbox w') = <[ch_ID c := c]> (rows (config_change_outbox w)).

Lemma published_current w w' id entity now c :
  published w w' id entity now c ->
  current_of w' id = current_of w id + 1 /\ forall j, j <> id -> current_of w' j = current_of w j.
Proof.
  intros (_ & _ & _ & _ & E & _). unfold current_of. rewrite E. split.
  - by rewrite lookup_insert_eq.
  - intros j Hj. by rewrite lookup_insert_ne.
Qed.

Lemma current_nonneg w id : bus_ok w -> 0 <= current_of w id.
Proof.
  intros Hw. unfold current_of. destruct (rows _ !! id) as [r|] eqn:E; [|lia].
  destruct (bus_generation w Hw _ _ E) as (_ & ? & _). lia.
Qed.

Lemma published_ok w w' id entity now c :
  bus_ok w -> published w w' id entity now c -> bus_ok w'.
Proof.
  intros Hw Hp. pose proof (published_current _ _ _ _ _ _ Hp) as [Hcur Hoth].
  pose proof (current_nonneg w id Hw) as Hnn.
  destruct Hp as (Hb & Hc & Hpos & Hfresh & Eg & Eo).
  assert (Hle : forall j, current_of w j <= current_of w' j).
  { intros j. destruct (decide (j = id)) as [->|Hj]; [lia|]. by rewrite Hoth. }
  assert (Hrow : forall k x, rows (config_change_outbox w') !! k = Some x ->
            (k = ch_ID c /\ x = c) \/ (k < ch_ID c /\ rows (config_change_outbox w) !! k = Some x)).
  { intros k x. rewrite Eo, lookup_insert. case_decide; [intros [= <-]; by left|].
    intros Hx. right. split; [|done]. apply Hfresh. by eexists. }
  split.
  - intros k r. rewrite Eg, lookup_insert. case_decide as Hk; [intros [= <-]; simpl; subst; split_and!; [done|lia|done]|].
    apply (bus_generation w Hw).
  - intros k x [[-> ->]|[_ Hx]]%Hrow; [done|by apply (bus_key w Hw)].
  - intros k x [[-> ->]|[_ Hx]]%Hrow.
    + rewrite Hc; simpl. rewrite Hcur. lia.
    + pose proof (bus_range w Hw _ _ Hx). specialize (Hle (ch_TenantID x)). lia.
  - intros k1 k2 c1 c2 [[-> ->]|[Hk1 H1]]%Hrow [[-> ->]|[Hk2 H2]]%Hrow Ht Hk; [lia|lia| |].
    + pose proof (bus_range w Hw _ _ H1) as Hr. rewrite Ht in Hr. rewrite Hc in *; simpl in *. lia.
    + by eapply (bus_ordered w Hw).
  - intros j g Hg. destruct (decide (j = id /\ g = current_of w id + 1)) as [[-> ->]|Hne].
    + exists (ch_ID c), c. rewrite Eo, lookup_insert_eq. rewrite Hc; simpl. done.
    + destruct (bus_complete w Hw j g) as (k & x & Hk & Ht & Hx).
      { destruct (decide (j = id)) as [Hj|Hj]; [|rewrite <-Hoth by done; lia].
        subst j. rewrite Hcur in Hg.
        destruct (decide (g = current_of w id + 1)) as [Heq|]; [by destruct Hne|lia]. }
      exists k, x. rewrite Eo, lookup_insert_ne; [done|].
      assert (k < ch_ID c) by (apply Hfresh; by eexists). lia.
Qed.

Lemma wp_PublishTx h w id entity now :
  bus_ok w ->
  wp h (PublishTx id entity now) w (fun r w' => match r with
    | inl e => h = true -> validateChange id entity = Some e
    | inr c => validateChange id entity = None /\ published w w' id entity now c
    end).
Proof.
  intros Hw. unfold PublishTx.
  destruct (validateChange id entity) as [e|] eqn:Ev; [by wp_step|].
  assert (Hblank : blank id = false).
  { unfold validateChange in Ev. by destruct (blank id). }
  assert (Hnoclash : forall k c, rows (config_change_outbox w) !! k = Some c ->
            same_event id (current_of w id + 1) (trim_space entity) c = false).
  { intros k c Hk. unfold same_event. destruct (decide (ch_TenantID c = id)) as [Ht|Ht].
    - pose proof (bus_range w Hw _ _ Hk) as Hr. rewrite Ht in Hr.
      rewrite (proj2 (Z.eqb_neq _ _)) by lia. by rewrite andb_false_r.
    - by rewrite bool_decide_eq_false_2. }
  assert (Hfin : forall w1 g, g = current_of w id + 1 ->
     config_change_outbox w1 = config_change_outbox w ->
     rows (config_generations w1) =
       <[id := mkGeneration id (current_of w id + 1) now]> (rows (config_generations w)) ->
     wp h (wrapping "configbus: write outbox change for %s: %w"
        (create_auto outbox (same_event id g (trim_space entity))
           (fun k => mkChange k id g (trim_space entity) now None))) w1
       (fun r w' => match r with
        | inl e => h = true -> @None error = Some e
        | inr c => @None error = None /\ published w w' id entity now c end)).
  { intros w1 g -> Eo Eg. repeat wp_step.
    - by intros ->.
    - rewrite Eo. intros (k' & r' & Hk' & Hc'). by rewrite (Hnoclash _ _ Hk') in Hc'.
    - rewrite Eo. intros k Hpos Hfresh _. split; [done|].
      unfold published; simpl. by rewrite rows_insert. }
  repeat wp_step.
  - by intros ->.
  - unfold of_tenant. intros k0 r0 Hk0 Ht. bools.
    destruct (bus_generation w Hw _ _ Hk0) as [Hid _].
    assert (Hcur : current_of w id = gn_Generation r0) by (unfold current_of; by rewrite <-Ht, Hid, Hk0).
    apply Hfin; simpl; [lia|done|]. rewrite (rows_update_unique _ _ _ k0 r0 Hk0).
    + by rewrite Hcur, <-Hid, Ht.
    + by apply bool_decide_eq_true_2.
    + intros k' r' Hk' Hp. bools. destruct (bus_generation w Hw _ _ Hk') as [<- _]. congruence.
  - intros Hn (k' & r' & Hk' & Hc). by rewrite (Hn _ _ Hk') in Hc.
  - intros Hn _. assert (Hcur : current_of w id = 0).
    { unfold current_of. destruct (rows (config_generations w) !! id) as [r|] eqn:Er; [|done].
      specialize (Hn _ _ Er). unfold of_tenant in Hn. bools.
      by destruct (bus_generation w Hw _ _ Er) as [? _]. }
    apply Hfin; simpl; [by rewrite Hcur|done|]. by rewrite rows_insert, Hcur.
Qed.

Lemma wp_Publish h w id entity now :
  bus_ok w ->
  wp h (Publish id entity now) w (fun r w' => match r with
    | inl e => w' = w /\ (h = true -> validateChange id entity = Some e)
    | inr c => validateChange id entity = None /\ published w w' id entity now c
    end).
Proof.
  intros Hw. unfold Publish. destruct (validateChange id entity) as [e|] eqn:Ev; [by wp_step|].
  wp_step. eapply wp_mono; [by apply wp_PublishTx|]. intros [e|c] w' HQ.
  - split; [done|]. intros Hh. rewrite <-Ev. by apply HQ.
  - destruct HQ as [_ Hp]. split; [|done]. by intros ->.
Qed.

(** ** Calls on the bus *)
Inductive bus_call :=
| CallPublish (id entity : string) (now : Z)
| CallMarkPublished (id now : Z).

Definition run_bus (b : bus_call) : M Bus unit :=
  match b with
  | CallPublish id entity now => Publish id entity now;; mret tt
  | CallMarkPublished id now => MarkPublished id now
  end.

Inductive bus_step : Bus -> Bus -> Prop :=
| bus_step_call b r w w' : outcome (run_bus b) w r w' -> bus_step w w'.

Lemma MarkPublished_ok h w id now : bus_ok w -> wp h (MarkPublished id now) w (fun _ w' => bus_ok w').
Proof.
  intros Hw. unfold MarkPublished. repeat wp_step; [done|].
  set (g := fun r => mkChange _ _ _ _ _ _).
  assert (Hin : forall k c, rows (update_rows (fun r => ch_ID r =? id) g (config_change_outbox w)) !! k = Some c ->
    exists c0, rows (config_change_outbox w) !! k = Some c0 /\ ch_ID c = ch_ID c0 /\
      ch_TenantID c = ch_TenantID c0 /\ ch_Generation c = ch_Generation c0).
  { intros k c. rewrite rows_update, lookup_fmap.
    destruct (rows (config_change_outbox w) !! k) as [c0|]; [|done]. simpl. intros [= <-].
    exists c0. by destruct (ch_ID c0 =? id). }
  split; simpl; unfold current_of; simpl.
  - apply (bus_generation w Hw).
  - intros k c (c0 & Hc0 & E1 & _)%Hin. rewrite E1. by apply (bus_key w Hw).
  - intros k c (c0 & Hc0 & _ & E2 & E3)%Hin. rewrite E2, E3. by apply (bus_range w Hw k).
  - intros k1 k2 c1 c2 (a & Ha & _ & A2 & A3)%Hin (b & Hb & _ & B2 & B3)%Hin.
    rewrite A2, B2, A3, B3. by apply (bus_ordered w Hw).
  - intros j n Hn. destruct (bus_complete w Hw j n Hn) as (k & c & Hk & Ht & Hg).
    exists k, (if ch_ID c =? id then g c else c). rewrite rows_update, lookup_fmap, Hk. simpl.
    by destruct (ch_ID c =? id).
Qed.

(** C15. The outbox is a complete and ordered log: in every state reachable from
    an empty database, under any driver failures, the generations 1 to the
    current one of a tenant are each announced by exactly one durable change,
    and change ids grow with the generations. *)
Theorem outbox_complete (w0 w : Bus) (id : string) (g : Z) :
  rows (config_generations w0) = ∅ -> rows (config_change_outbox w0) = ∅ ->
  rtc bus_step w0 w ->
  (1 <= g <= current_of w id <->
     exists k c, rows (config_change_outbox w) !! k = Some c /\ ch_TenantID c = id /\ ch_Generation c = g) /\
  (forall k1 k2 c1 c2, rows (config_change_outbox w) !! k1 = Some c1 ->
     rows (config_change_outbox w) !! k2 = Some c2 -> ch_TenantID c1 = ch_TenantID c2 ->
     (k1 < k2 <-> ch_Generation c1 < ch_Generation c2)).
Proof.
  intros E1 E2 Hr.
  assert (Hw : bus_ok w).
  { assert (H0 : bus_ok w0) by by apply bus_ok_empty. clear E1 E2.
    induction Hr as [|x y z Hs _ IH]; [done|]. apply IH. destruct Hs as [b r x y Ho].
    eapply (wp_outcome _ _ (fun _ w' => bus_ok w')); [|exact Ho].
    destruct b as [j e now|k now]; simpl; [|by apply MarkPublished_ok].
    wp_step. eapply wp_mono; [by apply wp_Publish|].
    intros [er|c] w' HQ; [by destruct HQ as [-> _]|]. wp_step. by eapply published_ok, HQ. }
  split.
  - split; [apply (bus_complete w Hw)|]. intros (k & c & Hk & <- & <-). by apply (bus_range w Hw k).
  - intros k1 k2 c1 c2 H1 H2 Ht. split; [by eapply (bus_ordered w Hw)|].
    intros Hg. destruct (Z.lt_trichotomy k1 k2) as [|[->|Hlt]]; [done| |].
    + rewrite H1 in H2. simplify_eq. lia.
    + pose proof (bus_ordered w Hw k2 k1 c2 c1 H2 H1 (eq_sym Ht) Hlt). lia.
Qed.

(** [Publish] on every branch: a blank tenant or entity is refused and
    nothing is written; otherwise, when the driver does not fail, it commits the
    next generation of that tenant together with one new change that carries
    it, and touches no other tenant's generation. *)
Theorem publish_spec (w : Bus) (id entity : string) (now : Z) :
  bus_ok w ->
  match validateChange id entity with
  | Some e => runs (Publish id entity now) w (inl e) w
  | None => exists c w', runs (Publish id entity now) w (inr c) w' /\
      published w w' id entity now c /\
      current_of w' id = current_of w id + 1 /\
      forall j, j <> id -> current_of w' j = current_of w j
  end.
Proof.
  intros Hw. destruct (wp_runs _ _ _ (wp_Publish true w id entity now Hw)) as (r & w' & Hr & HQ).
  destruct r as [e|c].
  - destruct HQ as [-> HQ]. by rewrite HQ.
  - destruct HQ as [-> HQ]. exists c, w'. split_and!; [done..| |]; by eapply published_current.
Qed.

End BusInvariant.

(** ** The fence of a node *)
Section Fence.
  Context {E : Type}.
  Variable reload : E -> string -> Z -> option error * E.

(** The same callback, with a log of the generations it has loaded. *)
Definition logged (s : E * list (string * Z)) (id : string) (g : Z)
    : option error * (E * list (string * Z)) :=
  match reload s.1 id g with
  | (Some e, env) => (Some e, (env, s.2))
  | (None, env) => (None, (env, s.2 ++ [(id, g)]))
  end.

(** The generations of one tenant in a log. *)
Definition loads_of (id : string) (log : list (string * Z)) : list Z :=
  (filter (fun p => p.1 = id) log).*2.

Definition fenced (r : @Reconciler (E * list (string * Z))) : Prop := forall id,
  StronglySorted Z.lt (loads_of id (rc_env r).2) /\
  last (0 :: loads_of id (rc_env r).2) = Some (Generation_of r id) /\
  Forall (fun g => 0 < g <= Generation_of r id) (loads_of id (rc_env r).2).

Lemma StronglySorted_snoc (l : list Z) x :
  StronglySorted Z.lt l -> Forall (fun y => y < x) l -> StronglySorted Z.lt (l ++ [x]).
Proof.
  induction 1 as [|a l Hs IH Ha]; intros Hx; simpl; [by repeat constructor|].
  apply Forall_cons in Hx as [Hx1 Hx2]. constructor; [by apply IH|].
  apply Forall_app. split; [done|by repeat constructor].
Qed.

Lemma observe_fenced r id g err r' :
  fenced r -> Observe logged r id g = (err, r') ->
  fenced r' /\ forall j, Generation_of r j <= Generation_of r' j.
Proof.
  intros Hf Ho. unfold Observe in Ho.
  destruct (is_empty id || (g =? 0)); [simplify_eq; split; [done|lia]|].
  destruct (g <=? Generation_of r id) eqn:Eg; [simplify_eq; split; [done|lia]|]. bools.
  unfold logged in Ho. destruct (reload (rc_env r).1 id g) as [[e|] env]; simplify_eq.
  { split; [exact Hf|]. unfold Generation_of; simpl. lia. }
  assert (Hgen : forall j, Generation_of (mkReconciler (<[id := g]> (rc_current r)) (env, (rc_env r).2 ++ [(id, g)])) j
            = if decide (id = j) then g else Generation_of r j).
  { intros j. unfold Generation_of. simpl. rewrite lookup_insert. by case_decide. }
  split.
  - intros j. rewrite Hgen. simpl. unfold loads_of. rewrite filter_app. destruct (Hf j) as (Hs & Hl & Hall).
    destruct (decide (id = j)) as [->|Hne].
    + rewrite filter_cons_True by done. rewrite fmap_app. simpl. split_and!.
      * apply StronglySorted_snoc; [done|]. eapply Forall_impl; [exact Hall|]. simpl. lia.
      * change (last ((0 :: loads_of j (rc_env r).2) ++ [g]) = Some g). apply last_snoc.
      * apply Forall_app. assert (0 <= Generation_of r j).
        { apply last_Some_elem_of in Hl. apply elem_of_cons in Hl as [->|Hl]; [lia|].
          rewrite Forall_forall in Hall. specialize (Hall _ Hl). lia. }
        split; [|repeat constructor; lia].
        eapply Forall_impl; [exact Hall|]. simpl. lia.
    + rewrite filter_cons_False by done. rewrite filter_nil, app_nil_r. done.
  - intros j. rewrite Hgen. case_decide; [subst; lia|lia].
Qed.

Lemma observe_all_fenced notes : forall err r, fenced r ->
  fenced (observe_all logged r err notes).2 /\
  forall id, Generation_of r id <= Generation_of (observe_all logged r err notes).2 id.
Proof.
  induction notes as [|n ns IH]; intros err r Hf; simpl; [split; [done|lia]|].
  destruct (Observe logged r (gn_TenantID n) (gn_Generation n)) as [er r1] eqn:Ho.
  destruct (observe_fenced _ _ _ _ _ Hf Ho) as [Hf1 Hle1].
  destruct (IH (join_err err er) r1 Hf1) as [Hf2 Hle2]. split; [done|].
  intros id. specialize (Hle1 id). specialize (Hle2 id). lia.
Qed.

Lemma fenced_fresh (e0 : E) : fenced (mkReconciler ∅ (e0, [])).
Proof. intros id. unfold Generation_of. simpl. rewrite lookup_empty. split_and!; [constructor|done|constructor]. Qed.

(** Fencing: whatever notifications a node receives, in whatever order,
    repeated or stale, and whichever reloads fail, the generations it loads for
    a tenant are strictly increasing, its fence is the last one loaded (0
    before the first), and observing more never moves a fence back. *)
Theorem fence_monotone (e0 : E) (notes more : list Generation) (err0 : option error) :
  let r := (observe_all logged (mkReconciler ∅ (e0, [])) None notes).2 in
  let r' := (observe_all logged r err0 more).2 in
  fenced r /\ forall id, Generation_of r id <= Generation_of r' id.
Proof.
  destruct (observe_all_fenced notes None _ (fenced_fresh e0)) as [Hf _]. split; [exact Hf|].
  by apply observe_all_fenced.
Qed.

(** ** Convergence of one pass

    [ok id]: the reload of that tenant succeeds during the pass. *)
Variable ok : string -> bool.
Hypothesis reload_ok : forall e id g, (reload e id g).1 = None <-> ok id = true.

Lemma observe_one r id g :
  is_empty id = false -> 0 < g ->
  exists r', Observe reload r id g = (if (g <=? Generation_of r id) || ok id then None else (reload (rc_env r) id g).1, r') /\
    Generation_of r' id = (if ok id then Z.max (Generation_of r id) g else Generation_of r id) /\
    forall j, j <> id -> Generation_of r' j = Generation_of r j.
Proof.
  intros Hid Hg. unfold Observe. rewrite Hid. simpl. rewrite (proj2 (Z.eqb_neq g 0)) by lia.
  destruct (g <=? Generation_of r id) eqn:Eg; simpl; bools.
  { exists r. split_and!; [done| |done]. destruct (ok id); lia. }
  pose proof (reload_ok (rc_env r) id g) as Hr.
  destruct (reload (rc_env r) id g) as [[e|] env]; simpl in *.
  - destruct (ok id); [by destruct Hr as [_ Hr]; specialize (Hr eq_refl)|]. eexists. split_and!; [done|done|done].
  - rewrite (proj1 Hr eq_refl). eexists. split_and!; [done| |].
    + unfold Generation_of at 1; simpl. rewrite lookup_insert_eq. simpl. lia.
    + intros j Hj. unfold Generation_of; simpl. by rewrite lookup_insert_ne.
Qed.

Lemma join_err_none a b : join_err a b = None <-> a = None /\ b = None.
Proof. destruct a, b; simpl; split; solve [done | by intros []]. Qed.

Lemma observe_all_converges r err rows :
  NoDup (gn_TenantID <$> rows) ->
  Forall (fun n => is_empty (gn_TenantID n) = false /\ 0 < gn_Generation n) rows ->
  let out := observe_all reload r err rows in
  (forall n, n ∈ rows -> Generation_of out.2 (gn_TenantID n) =
     if ok (gn_TenantID n) then Z.max (Generation_of r (gn_TenantID n)) (gn_Generation n)
     else Generation_of r (gn_TenantID n)) /\
  (forall j, j ∉ gn_TenantID <$> rows -> Generation_of out.2 j = Generation_of r j) /\
  (out.1 = None <-> err = None /\ forall n, n ∈ rows ->
     gn_Generation n <= Generation_of r (gn_TenantID n) \/ ok (gn_TenantID n) = true).
Proof.
  revert r err. induction rows as [|n ns IH]; intros r err Hnd Hall; simpl.
  { split_and!; [intros ? H; by apply elem_of_nil in H|done|].
    split; [intros ->; split; [done|intros ? H; by apply elem_of_nil in H]|by intros []]. }
  apply NoDup_cons in Hnd as [Hn Hnd]. apply Forall_cons in Hall as [[Hid Hg] Hall].
  destruct (observe_one r (gn_TenantID n) (gn_Generation n) Hid Hg) as (r1 & -> & Hr1 & Hoth).
  destruct (IH r1 (join_err err (if (gn_Generation n <=? Generation_of r (gn_TenantID n)) || ok (gn_TenantID n)
     then None else (reload (rc_env r) (gn_TenantID n) (gn_Generation n)).1)) Hnd Hall) as (H1 & H2 & H3).
  assert (Hne : forall m, m ∈ ns -> gn_TenantID m <> gn_TenantID n).
  { intros m Hm Heq. apply Hn. rewrite <-Heq. by apply list_elem_of_fmap_2. }
  split_and!.
  - intros m [->|Hm]%elem_of_cons; [by rewrite H2|]. by rewrite H1, Hoth by auto.
  - intros j [Hj1 Hj2]%not_elem_of_cons. rewrite H2 by done. by apply Hoth.
  - rewrite H3, join_err_none. split.
    + intros [[-> Hok] Hm]. split; [done|]. intros m [->|Hin]%elem_of_cons.
      * destruct ((gn_Generation n <=? Generation_of r (gn_TenantID n)) || ok (gn_TenantID n)) eqn:Eb.
        -- apply orb_true_iff in Eb as [Eb|Eb]; bools; auto.
        -- apply reload_ok in Hok. auto.
      * specialize (Hm m Hin). by rewrite Hoth in Hm by auto.
    + intros [-> Hm]. split_and!; [done| |].
      * destruct (Hm n ltac:(left)) as [Hle|Hk].
        -- by rewrite (proj2 (Z.leb_le _ _) Hle).
        -- by rewrite Hk, orb_true_r.
      * intros m Hin. rewrite Hoth by auto. apply Hm. by right.
Qed.

End Fence.

Section EndToEnd.
  Context `{Sql} {E : Type}.
  Variables (reload : E -> string -> Z -> option error * E) (ok : string -> bool).

Lemma filter_all {A} (p : A -> bool) (l : list A) :
  (forall x, p x = true) -> filter (fun x => p x = true) l = l.
Proof.
  intros Hp. induction l as [|x l IH]; [done|]. by rewrite filter_cons_True, IH.
Qed.

Lemma list_generations_rows (w : Bus) :
  bus_ok w ->
  exists l, runs ListGenerations w (inr l) w /\ NoDup (gn_TenantID <$> l) /\
    Forall (fun n => is_empty (gn_TenantID n) = false /\ 0 < gn_Generation n) l /\
    (forall n, n ∈ l <-> rows (config_generations w) !! gn_TenantID n = Some n).
Proof.
  intros Hw. eexists. split; [reflexivity|].
  assert (Hin : forall n, n ∈ merge_sort tenant_asc (where_ (fun _ => true) (config_generations w)) <->
     rows (config_generations w) !! gn_TenantID n = Some n).
  { intros n. rewrite merge_sort_Permutation, elem_of_where. split; [|eauto].
    intros (k & Hk & _). by destruct (bus_generation w Hw _ _ Hk) as [-> _]. }
  split_and!; [| |exact Hin].
  - rewrite merge_sort_Permutation, where_perm.
    rewrite filter_all by done.
    rewrite <-list_fmap_compose.
    replace ((gn_TenantID ∘ snd) <$> map_to_list (rows (config_generations w)))
      with (map_to_list (rows (config_generations w))).*1; [apply NoDup_fst_map_to_list|].
    apply list_fmap_ext. intros i [k n] Hi. simpl.
    apply list_elem_of_lookup_2, elem_of_map_to_list in Hi.
    by destruct (bus_generation w Hw _ _ Hi) as [<- _].
  - apply Forall_forall. intros n Hn. rewrite Hin in Hn.
    destruct (bus_generation w Hw _ _ Hn) as (_ & ? & Hb). split; [|lia].
    unfold is_empty. apply bool_decide_eq_false_2. intros Heq. rewrite Heq in Hb. by vm_compute in Hb.
Qed.

(** Convergence: one reconciliation pass over the committed generations
    brings the fence of every tenant whose reload succeeds to the control
    plane's current generation (or leaves it, if it was ahead), does not touch
    the others, so one bad tenant stops nobody else, and reports an error
    exactly when a reload that was needed failed. *)
Theorem reconcile_converges (w : Bus) (r : @Reconciler E) :
  bus_ok w ->
  (forall (e : E) id g, (reload e id g).1 = None <-> ok id = true) ->
  (forall id, 0 <= Generation_of r id) ->
  exists l, runs ListGenerations w (inr l) w /\
    (forall id, Generation_of (Reconcile reload r (inr l)).2 id =
       if ok id then Z.max (Generation_of r id) (current_of w id) else Generation_of r id) /\
    ((Reconcile reload r (inr l)).1 = None <->
       forall id, current_of w id <= Generation_of r id \/ ok id = true).
Proof.
  intros Hw Hok Hnn. destruct (list_generations_rows w Hw) as (l & Hrun & Hnd & Hall & Hin).
  exists l. split; [done|].
  destruct (observe_all_converges reload ok Hok r None l Hnd Hall) as (H1 & H2 & H3).
  assert (Hcur : forall n, n ∈ l -> current_of w (gn_TenantID n) = gn_Generation n).
  { intros n Hn. unfold current_of. by rewrite (proj1 (Hin n) Hn). }
  assert (Hmiss : forall id, id ∉ gn_TenantID <$> l -> current_of w id = 0).
  { intros id Hid. unfold current_of. destruct (rows _ !! id) as [n|] eqn:En; [|done].
    destruct Hid. destruct (bus_generation w Hw _ _ En) as [Ht _]. rewrite <-Ht in *.
    apply list_elem_of_fmap_2. by apply Hin. }
  split.
  - intros id. simpl. destruct (decide (id ∈ gn_TenantID <$> l)) as [Hid|Hid].
    + apply list_elem_of_fmap in Hid as (n & -> & Hn). by rewrite H1, Hcur.
    + rewrite H2, Hmiss by done. specialize (Hnn id). destruct (ok id); lia.
  - simpl. rewrite H3. split.
    + intros [_ Hn] id. destruct (decide (id ∈ gn_TenantID <$> l)) as [Hid|Hid].
      * apply list_elem_of_fmap in Hid as (n & -> & Hin'). rewrite Hcur by done. auto.
      * left. by rewrite Hmiss.
    + intros Hid. split; [done|]. intros n Hn. rewrite <-Hcur by done. auto.
Qed.

End EndToEnd.

(** ** Concrete instances *)
Definition demo_generation : Generation := mkGeneration "t1" 1 5.
Definition demo_change : Change := mkChange 1 "t1" 1 "plan" 5 None.
Definition empty_bus : @Bus map_sql := @mkBus map_sql ∅ ∅.
Definition demo_bus : @Bus map_sql :=
  @mkBus map_sql {["t1" := demo_generation]} {[1 := demo_change]}.

Lemma empty_bus_ok : @bus_ok map_sql empty_bus.
Proof. by apply bus_ok_empty. Qed.

Lemma demo_bus_step : @bus_step map_sql empty_bus demo_bus.
Proof. apply (bus_step_call (CallPublish "t1" " plan " 5) (inr tt)). exists [], []. vm_compute. reflexivity. Qed.

Lemma demo_bus_ok : @bus_ok map_sql demo_bus.
Proof.
  eapply (published_ok empty_bus demo_bus "t1" " plan " 5 demo_change); [apply empty_bus_ok|].
  unfold published. split_and!; try (vm_compute; reflexivity).
  intros k Hk. change (is_Some ((∅ : gmap Z Change) !! k)) in Hk.
  rewrite lookup_empty in Hk. by destruct Hk.
Qed.

Lemma outbox_complete_witness :
  1 <= 1 <= current_of demo_bus "t1" <->
    exists k c, (rows (config_change_outbox demo_bus) !! k : option Change) = Some c /\
      ch_TenantID c = "t1" /\ ch_Generation c = 1.
Proof.
  refine (proj1 (@outbox_complete map_sql empty_bus demo_bus "t1" 1 _ _ _));
    [reflexivity|reflexivity|]. apply rtc_once, demo_bus_step.
Defined.

Lemma publish_spec_witness :
  exists c w', runs (Publish "t1" "model" 6) demo_bus (inr c) w' /\ ch_Generation c = 2.
Proof.
  destruct (@publish_spec map_sql demo_bus "t1" "model" 6 demo_bus_ok)
    as (c & w' & Hr & (_ & Hc & _) & _).
  exists c, w'. split; [exact Hr|]. rewrite Hc. reflexivity.
Defined.

(** A node whose reload fails for one tenant. *)
Definition picky (e : unit) (id : string) (g : Z) : option error * unit :=
  (if bool_decide (id = "bad") then Some (New "reload failed") else None, e).

Lemma reconcile_converges_witness :
  exists l, runs ListGenerations demo_bus (inr l) demo_bus /\
    Generation_of (Reconcile picky (mkReconciler ∅ tt) (inr l)).2 "t1" = 1.
Proof.
  destruct (@reconcile_converges map_sql unit picky (fun id => negb (bool_decide (id = "bad")))
              demo_bus (mkReconciler ∅ tt) demo_bus_ok) as (l & Hr & Hg & _).
  - intros e id g. unfold picky. simpl. by case_bool_decide.
  - intros id. unfold Generation_of. simpl. by rewrite lookup_empty.
  - exists l. split; [exact Hr|]. rewrite Hg. reflexivity.
Defined.
