(* ===== verification/Billing.v ===== *)
(** * Usage metering and invoices (internal/billing/billing.go)

    The billing database, usage events and invoice periods.  Money is a number
    of micros in an int64; a total that leaves int64 wraps in Go and is an
    error in SQL. *)
From S2P Require Import Prelude GoStrings Sql.

Definition KeyOwnershipPlatformPool : string := "platform_pool".
Definition KeyOwnershipBYOK : string := "tenant_byok".
Definition UsageStatusUnknown : string := "unknown".
Definition UsageStatusSuccess : string := "success".
Definition UsageStatusFailed : string := "failed".

Definition ErrInvalidUsage : error := New "billing: invalid usage".
Definition ErrUsageConflict : error := New "billing: idempotency key belongs to another tenant".
Definition ErrInsufficientBalance : error := New "billing: insufficient available balance".
Definition ErrReservationState : error := New "billing: invalid reservation state".

Record UsageEvent := mkUsageEvent {
  ue_ID : string;
  ue_TenantID : string;
  ue_IdempotencyKey : string;
  ue_GatewayLogID : string;
  ue_Attempt : Z;
  ue_PeriodStart : Z;
  ue_KeyOwnership : string;
  ue_Model : string;
  ue_Status : string;
  ue_DurationMS : option Z;
  ue_PromptTokens : Z;
  ue_CompletionTokens : Z;
  ue_TotalTokens : Z;
  ue_ProviderCostMicros : Z;
  ue_MarkupMicros : Z;
  ue_ServiceFeeMicros : Z;
  ue_AmountMicros : Z;
  ue_CreatedAt : Z }.

Record UsageInput := mkUsageInput {
  ui_ID : string;
  ui_IdempotencyKey : string;
  ui_GatewayLogID : string;
  ui_Attempt : Z;
  ui_TenantID : string;
  ui_PeriodStart : Z;
  ui_KeyOwnership : string;
  ui_Model : string;
  ui_Status : string;
  ui_DurationMS : option Z;
  ui_PromptTokens : Z;
  ui_CompletionTokens : Z;
  ui_ProviderCostMicros : Z;
  ui_MarkupMicros : Z;
  ui_ServiceFeeMicros : Z }.

Record UsageListFilter := mkUsageListFilter {
  uf_Model : string; uf_Status : string; uf_Limit : Z; uf_Offset : Z }.

Record UsagePage := mkUsagePage {
  up_Events : list UsageEvent; up_TotalCount : Z; up_Models : list string }.

Record InvoicePeriod := mkInvoicePeriod {
  ip_ID : string; ip_TenantID : string; ip_StartsAt : Z; ip_EndsAt : Z;
  ip_Status : string; ip_CreatedAt : Z; ip_ClosedAt : option Z }.

Record Invoice := mkInvoice {
  iv_ID : string; iv_TenantID : string; iv_PeriodID : string; iv_Currency : string;
  iv_PlatformCostMicros : Z; iv_TenantSubtotalMicros : Z; iv_Status : string;
  iv_IssuedAt : option Z; iv_CreatedAt : Z }.

Record Account := mkAccount {
  ac_TenantID : string; ac_Currency : string; ac_BalanceMicros : Z; ac_ReservedMicros : Z;
  ac_UpdatedAt : Z }.

Record Reservation := mkReservation {
  rv_ID : string; rv_TenantID : string; rv_IdempotencyKey : string; rv_AmountMicros : Z;
  rv_Status : string; rv_CreatedAt : Z; rv_UpdatedAt : Z }.

Record Plan := mkPlan {
  pl_ID : string; pl_Name : string; pl_Currency : string; pl_MonthlyMicros : Z;
  pl_IncludedCreditMicros : Z; pl_MaxConcurrent : Z; pl_OveragePolicy : string;
  pl_CreatedAt : Z }.

Record SKU := mkSKU {
  sk_ID : string; sk_Name : string; sk_PromptMicrosPer1M : Z; sk_CompletionMicrosPer1M : Z;
  sk_LegacyPromptPer1K : Z; sk_LegacyCompletionPer1K : Z; sk_CreatedAt : Z }.

Record PlanQuota := mkPlanQuota {
  pq_PlanID : string; pq_SKU : string; pq_IncludedTokens : Z; pq_MaxConcurrent : Z; pq_Priority : Z }.

Record PlanModel := mkPlanModel { pm_PlanID : string; pm_ModelID : string }.

Record TenantPlan := mkTenantPlan {
  tp_TenantID : string; tp_PlanID : string; tp_StartsAt : Z; tp_EndsAt : option Z }.

Record UsageSummary := mkUsageSummary {
  us_PromptTokens : Z; us_CompletionTokens : Z; us_TotalTokens : Z; us_AmountMicros : Z;
  us_Requests : Z }.

Definition validUsageStatus (status : string) (allowEmpty : bool) : bool :=
  (allowEmpty && is_empty status) || bool_decide (status = UsageStatusUnknown) ||
  bool_decide (status = UsageStatusSuccess) || bool_decide (status = UsageStatusFailed).

(** The guard RecordUsage opens with. *)
Definition usage_rejected (inp : UsageInput) : bool :=
  is_empty (ui_TenantID inp) || blank (ui_IdempotencyKey inp) || is_zero_time (ui_PeriodStart inp) ||
  (negb (bool_decide (ui_KeyOwnership inp = KeyOwnershipPlatformPool)) &&
   negb (bool_decide (ui_KeyOwnership inp = KeyOwnershipBYOK))) ||
  (ui_PromptTokens inp <? 0) || (ui_CompletionTokens inp <? 0) ||
  (ui_ProviderCostMicros inp <? 0) || (ui_MarkupMicros inp <? 0) || (ui_ServiceFeeMicros inp <? 0) ||
  match ui_DurationMS inp with Some d => d <? 0 | None => false end ||
  negb (validUsageStatus (ui_Status inp) true).

(** The row RecordUsage writes for an accepted input. *)
Definition usage_row (inp : UsageInput) (now : Z) : UsageEvent :=
  let id := if is_empty (ui_ID inp) then ui_IdempotencyKey inp else ui_ID inp in
  let status := if is_empty (ui_Status inp) then UsageStatusUnknown else ui_Status inp in
  let total := ui_PromptTokens inp +64 ui_CompletionTokens inp in
  let amount := if bool_decide (ui_KeyOwnership inp = KeyOwnershipPlatformPool)
                then ui_ProviderCostMicros inp +64 ui_MarkupMicros inp
                else ui_ServiceFeeMicros inp in
  mkUsageEvent id (ui_TenantID inp) (ui_IdempotencyKey inp) (trim_space (ui_GatewayLogID inp))
    (ui_Attempt inp) (ui_PeriodStart inp) (ui_KeyOwnership inp) (ui_Model inp) status
    (ui_DurationMS inp) (ui_PromptTokens inp) (ui_CompletionTokens inp) total
    (ui_ProviderCostMicros inp) (ui_MarkupMicros inp) (ui_ServiceFeeMicros inp) amount now.

(** [UsageEvent.EffectiveGatewayLogID] *)
Definition EffectiveGatewayLogID (u : UsageEvent) : string :=
  let value := trim_space (ue_GatewayLogID u) in
  if negb (is_empty value) then value
  else match last_index (ue_ID u) ":attempt:" with
       | Some (S _ as index) => stake index (ue_ID u)
       | _ => trim_space (ue_ID u)
       end.

(** The interval condition of the usage queries. *)
Definition in_window (tenantID : string) (from to : Z) (r : UsageEvent) : bool :=
  bool_decide (ue_TenantID r = tenantID) && (from <=? ue_PeriodStart r) && (ue_PeriodStart r <? to).

Definition bad_window (tenantID : string) (from to : Z) : bool :=
  is_empty tenantID || is_zero_time from || is_zero_time to || negb (from <? to).

Definition newest_first (a b : UsageEvent) : Prop := ue_PeriodStart b <= ue_PeriodStart a.
#[export] Instance newest_first_dec : RelDecision newest_first.
Proof. intros a b. unfold newest_first. apply _. Defined.

Definition usage_limit (limit : Z) : Z := if (limit <=? 0) || (10000 <? limit) then 1000 else limit.
Definition page_limit (limit : Z) : Z := if (limit <=? 0) || (100 <? limit) then 20 else limit.

Definition page_filter (filter : UsageListFilter) (r : UsageEvent) : bool :=
  let model := trim_space (uf_Model filter) in
  (is_empty model || bool_decide (ue_Model r = model)) &&
  (is_empty (uf_Status filter) || bool_decide (ue_Status r = uf_Status filter)).

Definition period_totals (l : list UsageEvent) : error + Z * Z :=
  match int64_sum ue_AmountMicros l,
        int64_sum (fun r => if bool_decide (ue_KeyOwnership r = KeyOwnershipPlatformPool)
                            then ue_ProviderCostMicros r else 0) l with
  | inr subtotal, inr platform => inr (subtotal, platform)
  | inl e, _ | _, inl e => inl e
  end.

Definition summary_of (l : list UsageEvent) : error + UsageSummary :=
  match int64_sum ue_PromptTokens l, int64_sum ue_CompletionTokens l,
        int64_sum ue_TotalTokens l, int64_sum ue_AmountMicros l with
  | inr p, inr c, inr t, inr a => inr (mkUsageSummary p c t a (Z.of_nat (length l)))
  | inl e, _, _, _ | _, inl e, _, _ | _, _, inl e, _ | _, _, _, inl e => inl e
  end.

(** ** The database *)
Section Store.
  Context `{Sql}.

Record Billing := mkBilling {
  billing_usage_events : table string UsageEvent;
  billing_periods : table string InvoicePeriod;
  billing_invoices : table string Invoice;
  billing_accounts : table string Account;
  billing_reservations : table string Reservation;
  billing_plans : table string Plan;
  billing_skus : table string SKU;
  billing_plan_quotas : table (string * string) PlanQuota;
  billing_plan_models : table (string * string) PlanModel;
  billing_tenant_plans : table string TenantPlan }.

Definition usage_events : field Billing (table string UsageEvent) :=
  Field billing_usage_events (fun t w => mkBilling
    t (billing_periods w) (billing_invoices w) (billing_accounts w) (billing_reservations w)
    (billing_plans w) (billing_skus w) (billing_plan_quotas w) (billing_plan_models w) (billing_tenant_plans w)).
Definition periods : field Billing (table string InvoicePeriod) :=
  Field billing_periods (fun t w => mkBilling
    (billing_usage_events w) t (billing_invoices w) (billing_accounts w) (billing_reservations w)
    (billing_plans w) (billing_skus w) (billing_plan_quotas w) (billing_plan_models w) (billing_tenant_plans w)).
Definition invoices : field Billing (table string Invoice) :=
  Field billing_invoices (fun t w => mkBilling
    (billing_usage_events w) (billing_periods w) t (billing_accounts w) (billing_reservations w)
    (billing_plans w) (billing_skus w) (billing_plan_quotas w) (billing_plan_models w) (billing_tenant_plans w)).
Definition accounts : field Billing (table string Account) :=
  Field billing_accounts (fun t w => mkBilling
    (billing_usage_events w) (billing_periods w) (billing_invoices w) t (billing_reservations w)
    (billing_plans w) (billing_skus w) (billing_plan_quotas w) (billing_plan_models w) (billing_tenant_plans w)).
Definition reservations : field Billing (table string Reservation) :=
  Field billing_reservations (fun t w => mkBilling
    (billing_usage_events w) (billing_periods w) (billing_invoices w) (billing_accounts w) t
    (billing_plans w) (billing_skus w) (billing_plan_quotas w) (billing_plan_models w) (billing_tenant_plans w)).
Definition plans : field Billing (table string Plan) :=
  Field billing_plans (fun t w => mkBilling
    (billing_usage_events w) (billing_periods w) (billing_invoices w) (billing_accounts w) (billing_reservations w)
    t (billing_skus w) (billing_plan_quotas w) (billing_plan_models w) (billing_tenant_plans w)).
Definition skus : field Billing (table string SKU) :=
  Field billing_skus (fun t w => mkBilling
    (billing_usage_events w) (billing_periods w) (billing_invoices w) (billing_accounts w) (billing_reservations w)
    (billing_plans w) t (billing_plan_quotas w) (billing_plan_models w) (billing_tenant_plans w)).
Definition plan_quotas : field Billing (table (string * string) PlanQuota) :=
  Field billing_plan_quotas (fun t w => mkBilling
    (billing_usage_events w) (billing_periods w) (billing_invoices w) (billing_accounts w) (billing_reservations w)
    (billing_plans w) (billing_skus w) t (billing_plan_models w) (billing_tenant_plans w)).
Definition plan_models : field Billing (table (string * string) PlanModel) :=
  Field billing_plan_models (fun t w => mkBilling
    (billing_usage_events w) (billing_periods w) (billing_invoices w) (billing_accounts w) (billing_reservations w)
    (billing_plans w) (billing_skus w) (billing_plan_quotas w) t (billing_tenant_plans w)).
Definition tenant_plans : field Billing (table string TenantPlan) :=
  Field billing_tenant_plans (fun t w => mkBilling
    (billing_usage_events w) (billing_periods w) (billing_invoices w) (billing_accounts w) (billing_reservations w)
    (billing_plans w) (billing_skus w) (billing_plan_quotas w) (billing_plan_models w) t).

(** ** Usage events *)
Definition by_key (key : string) (r : UsageEvent) : bool := bool_decide (ue_IdempotencyKey r = key).

(** The primary key and the unique index on idempotency_key. *)
Definition usage_clash (row r : UsageEvent) : bool :=
  bool_decide (ue_ID r = ue_ID row) || by_key (ue_IdempotencyKey row) r.

Definition RecordUsage (inp : UsageInput) (now : Z) : M Billing UsageEvent :=
  if usage_rejected inp then throw ErrInvalidUsage else
  let key := ui_IdempotencyKey inp in
  wrapping "billing: record usage: %w" (transaction (
    r ← attempt (take_row usage_events (by_key key));
    match r with
    | inr existing =>
        if negb (bool_decide (ue_TenantID existing = ui_TenantID inp)) then throw ErrUsageConflict
        else mret existing
    | inl e =>
        if negb (errors_is e ErrRecordNotFound) then throw e else
        let row := usage_row inp now in
        create_or_ignore usage_events (by_key key) (usage_clash row) (ue_ID row) row;;
        take_row usage_events (by_key key)
    end)).

Definition ListUsage (tenantID : string) (from to limit : Z) : M Billing (list UsageEvent) :=
  if bad_window tenantID from to then throw ErrInvalidUsage else
  l ← wrapping "billing: list usage: %w" (find usage_events (in_window tenantID from to));
  mret (take (Z.to_nat (usage_limit limit)) (merge_sort newest_first l)).

(** [ORDER BY model ASC] in the database's collation. *)
Definition text_asc (a b : string) : Prop := text_le a b = true.
#[global] Instance text_asc_dec : RelDecision text_asc.
Proof. intros a b. unfold text_asc. apply _. Defined.

Definition ListUsagePage (tenantID : string) (from to : Z) (filter : UsageListFilter)
    : M Billing UsagePage :=
  if bad_window tenantID from to || (uf_Offset filter <? 0) || negb (validUsageStatus (uf_Status filter) true)
  then throw ErrInvalidUsage else
  let query := fun r => in_window tenantID from to r && page_filter filter r in
  total ← wrapping "billing: count usage: %w" (count usage_events query);
  l ← wrapping "billing: list usage page: %w" (find usage_events query);
  let events := take (Z.to_nat (page_limit (uf_Limit filter)))
                  (drop (Z.to_nat (uf_Offset filter)) (merge_sort newest_first l)) in
  m ← wrapping "billing: list usage models: %w"
        (find usage_events (fun r => in_window tenantID from to r && negb (is_empty (ue_Model r))));
  mret (mkUsagePage events total (merge_sort text_asc (remove_dups (ue_Model <$> m)))).

Definition GetUsage (tenantID id : string) : M Billing UsageEvent :=
  if is_empty tenantID || blank id then throw ErrInvalidUsage else
  take_row usage_events (fun r => bool_decide (ue_TenantID r = tenantID) &&
                                  bool_decide (ue_ID r = trim_space id)).

Definition SummarizeUsage (tenantID : string) (from to : Z) : M Billing UsageSummary :=
  if bad_window tenantID from to then throw ErrInvalidUsage else
  aggregate usage_events summary_of (in_window tenantID from to).

(** ** Periods and invoices *)
Definition same_period (tenantID : string) (starts : Z) (r : InvoicePeriod) : bool :=
  bool_decide (ip_TenantID r = tenantID) && (ip_StartsAt r =? starts).

(** The final read goes through the struct that was to be inserted, whose
    primary key gorm adds to the condition. *)
Definition EnsurePeriod (tenantID : string) (starts ends now : Z) : M Billing InvoicePeriod :=
  if is_empty tenantID || is_zero_time starts || is_zero_time ends || negb (starts <? ends)
  then throw ErrInvalidUsage else
  let id := tenantID +:+ ":" +:+ pretty (unix starts) in
  let row := mkInvoicePeriod id tenantID starts ends "open" now None in
  create_or_ignore periods (same_period tenantID starts)
    (fun r => bool_decide (ip_ID r = id) || same_period tenantID starts r) id row;;
  take_row periods (fun r => same_period tenantID starts r && bool_decide (ip_ID r = id)).

Definition invoice_clash (row r : Invoice) : bool :=
  bool_decide (iv_ID r = iv_ID row) || bool_decide (iv_PeriodID r = iv_PeriodID row).

Definition IssueInvoice (periodID : string) (now : Z) : M Billing Invoice :=
  if blank periodID then throw ErrInvalidUsage else
  wrapping "billing: issue invoice: %w" (transaction (
    period ← take_row periods (fun r => bool_decide (ip_ID r = periodID));
    r ← attempt (take_row invoices (fun r => bool_decide (iv_PeriodID r = periodID)));
    match r with
    | inr out => mret out
    | inl e =>
        if negb (errors_is e ErrRecordNotFound) then throw e else
        totals ← aggregate usage_events period_totals
          (in_window (ip_TenantID period) (ip_StartsAt period) (ip_EndsAt period));
        let out := mkInvoice (periodID +:+ ":invoice") (ip_TenantID period) periodID "USD"
                     totals.2 totals.1 "issued" (Some now) now in
        create invoices (invoice_clash out) (iv_ID out) out;;
        update periods (fun r => bool_decide (ip_ID r = ip_ID period))
          (fun r => mkInvoicePeriod (ip_ID r) (ip_TenantID r) (ip_StartsAt r) (ip_EndsAt r)
                      "closed" (ip_CreatedAt r) (Some now));;
        mret out
    end)).

End Store.

(** ** The metering invariant *)
Section Metering.
  Context `{Sql}.
  Implicit Types (w : Billing) (inp : UsageInput).

(** What a recorded event owes to its ownership snapshot: a pooled key bills
    provider cost and markup, a tenant's own key the service fee only. *)
Definition event_priced (r : UsageEvent) : Prop :=
  ue_TotalTokens r = ue_PromptTokens r +64 ue_CompletionTokens r /\
  0 <= ue_PromptTokens r /\ 0 <= ue_CompletionTokens r /\
  ((ue_KeyOwnership r = KeyOwnershipPlatformPool /\
      ue_AmountMicros r = ue_ProviderCostMicros r +64 ue_MarkupMicros r) \/
   (ue_KeyOwnership r = KeyOwnershipBYOK /\ ue_AmountMicros r = ue_ServiceFeeMicros r)).

Definition period_id (tenantID : string) (starts : Z) : string :=
  tenantID +:+ ":" +:+ pretty (unix starts).

Record metering_ok w : Prop := {
  mo_usage_key : forall k r, rows (billing_usage_events w) !! k = Some r -> ue_ID r = k;
  mo_usage_unique : forall k1 k2 r1 r2, rows (billing_usage_events w) !! k1 = Some r1 ->
    rows (billing_usage_events w) !! k2 = Some r2 ->
    ue_IdempotencyKey r1 = ue_IdempotencyKey r2 -> k1 = k2;
  mo_usage_priced : forall k r, rows (billing_usage_events w) !! k = Some r -> event_priced r;
  mo_period_key : forall k r, rows (billing_periods w) !! k = Some r -> ip_ID r = k;
  mo_period_id : forall k r, rows (billing_periods w) !! k = Some r ->
    k = period_id (ip_TenantID r) (ip_StartsAt r);
  mo_invoice_key : forall k r, rows (billing_invoices w) !! k = Some r ->
    iv_ID r = k /\ k = iv_PeriodID r +:+ ":invoice" }.

Lemma usage_row_priced inp now : usage_rejected inp = false -> event_priced (usage_row inp now).
Proof.
  unfold usage_rejected, event_priced, usage_row. intros Hr. simpl. bools.
  split_and!; [done|lia|lia|].
  destruct (decide (ui_KeyOwnership inp = KeyOwnershipPlatformPool)) as [Ep|Ep].
  - left. rewrite Ep. split; [done|]. by rewrite bool_decide_eq_true_2.
  - right. rewrite (bool_decide_eq_false_2 _ Ep). split; [|done].
    destruct (decide (ui_KeyOwnership inp = KeyOwnershipBYOK)) as [|Eb]; [done|].
    by rewrite !bool_decide_eq_false_2 in * by done.
Qed.

Lemma invoice_unique w k1 k2 r1 r2 :
  metering_ok w -> rows (billing_invoices w) !! k1 = Some r1 -> rows (billing_invoices w) !! k2 = Some r2 ->
  iv_PeriodID r1 = iv_PeriodID r2 -> k1 = k2.
Proof.
  intros Hw H1 H2 E. destruct (mo_invoice_key w Hw _ _ H1) as [_ ->].
  destruct (mo_invoice_key w Hw _ _ H2) as [_ ->]. by rewrite E.
Qed.

(** What later calls keep of a database: events and invoices for good, a
    period but for its closing. *)
Definition meter_le w w' : Prop :=
  (forall k r, rows (billing_usage_events w) !! k = Some r -> rows (billing_usage_events w') !! k = Some r) /\
  (forall k r, rows (billing_invoices w) !! k = Some r -> rows (billing_invoices w') !! k = Some r) /\
  (forall k r, rows (billing_periods w) !! k = Some r -> exists r',
     rows (billing_periods w') !! k = Some r' /\ ip_TenantID r' = ip_TenantID r /\
     ip_StartsAt r' = ip_StartsAt r /\ ip_EndsAt r' = ip_EndsAt r).

Lemma meter_le_refl w : meter_le w w.
Proof. split_and!; eauto 10. Qed.

Lemma meter_le_trans w1 w2 w3 : meter_le w1 w2 -> meter_le w2 w3 -> meter_le w1 w3.
Proof.
  intros (A1 & A2 & A3) (B1 & B2 & B3). split_and!; [by auto..|].
  intros k r (r' & Hr' & E1 & E2 & E3)%A3. destruct (B3 _ _ Hr') as (r'' & Hr'' & F1 & F2 & F3).
  exists r''. split_and!; [done|congruence..].
Qed.

(** *** RecordUsage *)
Definition usage_inserted w (row : UsageEvent) : Billing :=
  fset usage_events (insert_row (ue_ID row) row (billing_usage_events w)) w.

Definition key_free w (key : string) : Prop :=
  forall k r, rows (billing_usage_events w) !! k = Some r -> ue_IdempotencyKey r <> key.

Lemma usage_inserted_rows w row :
  rows (billing_usage_events (usage_inserted w row)) = <[ue_ID row := row]> (rows (billing_usage_events w)) /\
  billing_periods (usage_inserted w row) = billing_periods w /\
  billing_invoices (usage_inserted w row) = billing_invoices w.
Proof. simpl. by rewrite rows_insert. Qed.

Lemma usage_inserted_ok w inp now :
  let row := usage_row inp now in
  metering_ok w -> usage_rejected inp = false -> key_free w (ui_IdempotencyKey inp) ->
  rows (billing_usage_events w) !! ue_ID row = None ->
  metering_ok (usage_inserted w row) /\ meter_le w (usage_inserted w row).
Proof.
  intros row Hw Hrej Hkey Hid. destruct (usage_inserted_rows w row) as (Eu & Ep & Ei).
  assert (Hrow : forall k r, rows (billing_usage_events (usage_inserted w row)) !! k = Some r ->
            (k = ue_ID row /\ r = row) \/ (k <> ue_ID row /\ rows (billing_usage_events w) !! k = Some r)).
  { intros k r. rewrite Eu, lookup_insert. case_decide; [intros [= <-]; by left|by right]. }
  split; [split|].
  - intros k r [[-> ->]|[_ Hr]]%Hrow; [done|by apply (mo_usage_key w Hw)].
  - intros k1 k2 r1 r2 [[-> ->]|[_ H1]]%Hrow [[-> ->]|[_ H2]]%Hrow; [done| | |].
    + intros E. by destruct (Hkey _ _ H2).
    + intros E. by destruct (Hkey _ _ H1).
    + by apply (mo_usage_unique w Hw).
  - intros k r [[-> ->]|[_ Hr]]%Hrow; [by apply usage_row_priced|by eapply (mo_usage_priced w Hw)].
  - rewrite Ep. apply (mo_period_key w Hw).
  - rewrite Ep. apply (mo_period_id w Hw).
  - rewrite Ei. apply (mo_invoice_key w Hw).
  - split_and!.
    + intros k r Hr. rewrite Eu, lookup_insert_ne; congruence.
    + by rewrite Ei.
    + rewrite Ep. eauto 10.
Qed.

(** What RecordUsage promises for a database, an input and an instant. *)
Definition record_usage_post (healthy : bool) w inp now (r : error + UsageEvent) w' : Prop :=
  match r with
  | inl e => w' = w /\ (healthy = true ->
      (usage_rejected inp = true /\ e = ErrInvalidUsage) \/
      (usage_rejected inp = false /\ exists k r, rows (billing_usage_events w) !! k = Some r /\
         ((ue_IdempotencyKey r = ui_IdempotencyKey inp /\ ue_TenantID r <> ui_TenantID inp /\
             e = Wrap "billing: record usage: %w" ErrUsageConflict) \/
          (key_free w (ui_IdempotencyKey inp) /\ k = ue_ID (usage_row inp now) /\
             e = Wrap "billing: record usage: %w" ErrDuplicateKey))))
  | inr out => usage_rejected inp = false /\ ue_TenantID out = ui_TenantID inp /\
      ue_IdempotencyKey out = ui_IdempotencyKey inp /\
      ((w' = w /\ rows (billing_usage_events w) !! ue_ID out = Some out) \/
       (key_free w (ui_IdempotencyKey inp) /\ out = usage_row inp now /\
        rows (billing_usage_events w) !! ue_ID out = None /\ w' = usage_inserted w out))
  end.

Lemma wp_RecordUsage h w inp now :
  metering_ok w -> wp h (RecordUsage inp now) w (record_usage_post h w inp now).
Proof.
  intros Hw. unfold RecordUsage. destruct (usage_rejected inp) eqn:Erej.
  { wp_step. unfold record_usage_post. split; [done|]. intros _. by left. }
  repeat wp_step; unfold by_key in *.
  - intros -> msg. wp_step. by split.
  - intros Hn. assert (Hfree : key_free w (ui_IdempotencyKey inp)).
    { intros k r Hr E. specialize (Hn _ _ Hr). by rewrite bool_decide_eq_true_2 in Hn. }
    destruct (usage_inserted_rows w (usage_row inp now)) as (Eu & _).
    repeat wp_step.
    + intros ->. by split.
    + intros (k & r & Hr & E). by rewrite (Hn _ _ Hr) in E.
    + intros _ (k & r & Hr & E). split; [done|]. intros _. right. split; [done|].
      exists k, r. split; [done|]. right. split_and!; [done| |done].
      unfold usage_clash, by_key in E.
      apply orb_true_iff in E as [E|E]; bools; [|by destruct (Hfree _ _ Hr)].
      by rewrite <-(mo_usage_key w Hw _ _ Hr).
    + intros _ Hc. assert (Hid : rows (billing_usage_events w) !! ue_ID (usage_row inp now) = None).
      { destruct (rows _ !! _) as [r|] eqn:Er; [|done]. specialize (Hc _ _ Er).
        unfold usage_clash in Hc. bools. by rewrite (mo_usage_key w Hw _ _ Er) in *. }
      change (mkBilling _ _ _ _ _ _ _ _ _ _) with (usage_inserted w (usage_row inp now)).
      apply wp_take.
      * intros ->. by split.
      * intros Hnone. specialize (Hnone (ue_ID (usage_row inp now)) (usage_row inp now)).
        change (fget usage_events) with billing_usage_events in Hnone.
        rewrite Eu, lookup_insert_eq in Hnone. specialize (Hnone eq_refl). simpl in Hnone.
        by rewrite bool_decide_eq_true_2 in Hnone.
      * intros k r. change (fget usage_events) with billing_usage_events. rewrite Eu, lookup_insert.
        case_decide as Ek; [intros [= <-] _|intros Hr E; bools; by destruct (Hfree _ _ Hr)].
        assert (Hpost : record_usage_post h w inp now (inr (usage_row inp now))
                  (usage_inserted w (usage_row inp now))).
        { split_and!; [done..|]. right. done. }
        split; [intros -> msg; by split|exact Hpost].
  - intros k r Hr E. bools. destruct (decide (ue_TenantID r = ui_TenantID inp)) as [Et|Et].
    + rewrite bool_decide_eq_true_2 by done. simpl. wp_step.
      split; [intros -> msg; by split|]. split_and!; [done..|]. left. split; [done|].
      by rewrite (mo_usage_key w Hw _ _ Hr).
    + rewrite bool_decide_eq_false_2 by done. simpl. wp_step. split; [done|]. intros _. right.
      split; [done|]. exists k, r. split; [done|]. by left.
Qed.

(** *** IssueInvoice *)
Definition platform_cost (r : UsageEvent) : Z :=
  if bool_decide (ue_KeyOwnership r = KeyOwnershipPlatformPool) then ue_ProviderCostMicros r else 0.

Definition period_subtotal w (p : InvoicePeriod) : Z :=
  sum_where ue_AmountMicros (in_window (ip_TenantID p) (ip_StartsAt p) (ip_EndsAt p)) (billing_usage_events w).
Definition period_platform w (p : InvoicePeriod) : Z :=
  sum_where platform_cost (in_window (ip_TenantID p) (ip_StartsAt p) (ip_EndsAt p)) (billing_usage_events w).

Definition invoice_of w (p : InvoicePeriod) (now : Z) : Invoice :=
  mkInvoice (ip_ID p +:+ ":invoice") (ip_TenantID p) (ip_ID p) "USD"
    (period_platform w p) (period_subtotal w p) "issued" (Some now) now.

Definition closed (now : Z) (r : InvoicePeriod) : InvoicePeriod :=
  mkInvoicePeriod (ip_ID r) (ip_TenantID r) (ip_StartsAt r) (ip_EndsAt r) "closed" (ip_CreatedAt r) (Some now).

Definition invoiced w (p : InvoicePeriod) now : Billing :=
  let out := invoice_of w p now in
  fset periods (update_rows (fun r => bool_decide (ip_ID r = ip_ID p)) (closed now) (billing_periods w))
    (fset invoices (insert_row (iv_ID out) out (billing_invoices w)) w).

Lemma invoiced_rows w p now :
  metering_ok w -> rows (billing_periods w) !! ip_ID p = Some p ->
  rows (billing_periods (invoiced w p now)) = <[ip_ID p := closed now p]> (rows (billing_periods w)) /\
  rows (billing_invoices (invoiced w p now)) =
    <[ip_ID p +:+ ":invoice" := invoice_of w p now]> (rows (billing_invoices w)) /\
  billing_usage_events (invoiced w p now) = billing_usage_events w.
Proof.
  intros Hw Hp. simpl. split_and!; [|by rewrite rows_insert|done].
  rewrite (rows_update_unique _ _ _ (ip_ID p) p Hp); [done|by apply bool_decide_eq_true_2|].
  intros k r Hr E. bools. by rewrite <-(mo_period_key w Hw _ _ Hr).
Qed.

Lemma invoiced_ok w p now :
  metering_ok w -> rows (billing_periods w) !! ip_ID p = Some p ->
  rows (billing_invoices w) !! (ip_ID p +:+ ":invoice") = None ->
  metering_ok (invoiced w p now) /\ meter_le w (invoiced w p now).
Proof.
  intros Hw Hp Hi. destruct (invoiced_rows w p now Hw Hp) as (Ep & Ei & Eu).
  assert (Hper : forall k r, rows (billing_periods (invoiced w p now)) !! k = Some r ->
            exists r0, rows (billing_periods w) !! k = Some r0 /\ ip_ID r = ip_ID r0 /\
              ip_TenantID r = ip_TenantID r0 /\ ip_StartsAt r = ip_StartsAt r0).
  { intros k r. rewrite Ep, lookup_insert. case_decide as Ek; [intros [= <-]; subst; eauto|eauto]. }
  split; [split|].
  - rewrite Eu. apply (mo_usage_key w Hw).
  - rewrite Eu. apply (mo_usage_unique w Hw).
  - rewrite Eu. apply (mo_usage_priced w Hw).
  - intros k r (r0 & Hr & -> & _)%Hper. by apply (mo_period_key w Hw).
  - intros k r (r0 & Hr & _ & -> & ->)%Hper. by apply (mo_period_id w Hw).
  - intros k r. rewrite Ei, lookup_insert. case_decide as Ek; [|apply (mo_invoice_key w Hw)].
    intros [= <-]. by subst.
  - split_and!.
    + by rewrite Eu.
    + intros k r Hr. rewrite Ei, lookup_insert_ne; [done|congruence].
    + intros k r Hr. rewrite Ep, lookup_insert. case_decide as Ek; [|eauto].
      rewrite <-Ek, Hp in Hr. injection Hr as <-. by exists (closed now p).
Qed.

(** What IssueInvoice promises. *)
Definition issue_post (healthy : bool) w pid now (r : error + Invoice) w' : Prop :=
  match r with
  | inl e => w' = w /\ (healthy = true ->
      (blank pid = true /\ e = ErrInvalidUsage) \/
      (blank pid = false /\ rows (billing_periods w) !! pid = None /\
         e = Wrap "billing: issue invoice: %w" ErrRecordNotFound) \/
      (blank pid = false /\ exists p, rows (billing_periods w) !! pid = Some p /\
         rows (billing_invoices w) !! (pid +:+ ":invoice") = None /\
         ~ (int64_range (period_subtotal w p) /\ int64_range (period_platform w p)) /\
         e = Wrap "billing: issue invoice: %w" (Driver "value out of range")))
  | inr out => blank pid = false /\ exists p, rows (billing_periods w) !! pid = Some p /\
      ((w' = w /\ rows (billing_invoices w) !! (pid +:+ ":invoice") = Some out) \/
       (rows (billing_invoices w) !! (pid +:+ ":invoice") = None /\
        int64_range (period_subtotal w p) /\ int64_range (period_platform w p) /\
        out = invoice_of w p now /\ w' = invoiced w p now))
  end.

Lemma int64_sum_spec {R} (f : R -> Z) l :
  int64_sum f l = if int64_rangeb (sum_list f l) then inr (sum_list f l) else inl (Driver "value out of range").
Proof. done. Qed.

Lemma int64_rangeb_spec z : int64_rangeb z = true <-> int64_range z.
Proof. unfold int64_rangeb, int64_range. rewrite andb_true_iff, Z.leb_le, Z.ltb_lt. done. Qed.

Lemma period_totals_spec w p :
  period_totals (where_ (in_window (ip_TenantID p) (ip_StartsAt p) (ip_EndsAt p)) (billing_usage_events w)) =
  if int64_rangeb (period_subtotal w p) && int64_rangeb (period_platform w p)
  then inr (period_subtotal w p, period_platform w p) else inl (Driver "value out of range").
Proof.
  unfold period_totals. rewrite !int64_sum_spec.
  change (sum_list ue_AmountMicros (where_ _ _)) with (period_subtotal w p).
  change (sum_list _ (where_ _ _)) with (period_platform w p).
  by destruct (int64_rangeb (period_subtotal w p)), (int64_rangeb (period_platform w p)).
Qed.

Lemma wp_IssueInvoice h w pid now :
  metering_ok w -> wp h (IssueInvoice pid now) w (issue_post h w pid now).
Proof.
  intros Hw. unfold IssueInvoice. destruct (blank pid) eqn:Eb.
  { wp_step. split; [done|]. by left. }
  repeat wp_step.
  - intros ->. by split.
  - intros Hn. split; [done|]. intros _. right. left. split_and!; [done| |done].
    destruct (rows _ !! pid) as [p|] eqn:Ep; [|done]. specialize (Hn _ _ Ep). bools.
    by rewrite (mo_period_key w Hw _ _ Ep) in Hn.
  - intros k p Hp E. bools. pose proof (mo_period_key w Hw _ _ Hp) as Hk. subst.
    repeat wp_step.
    + intros -> msg. wp_step. by split.
    + intros Hn. repeat wp_step; [by intros ->|].
      assert (Hi : rows (billing_invoices w) !! (ip_ID p +:+ ":invoice") = None).
      { destruct (rows (billing_invoices w) !! _) as [i|] eqn:Ei; [|done]. specialize (Hn _ _ Ei). bools.
        destruct (mo_invoice_key w Hw _ _ Ei) as [_ Ek].
        assert (String.length (ip_ID p +:+ ":invoice") = String.length (iv_PeriodID i +:+ ":invoice")) as El
          by by rewrite Ek. rewrite !slength_app in El.
        apply sapp_inj in Ek as [Ek _]; [by destruct Hn|lia]. }
      change (fget usage_events w) with (billing_usage_events w). rewrite period_totals_spec.
      destruct (int64_rangeb (period_subtotal w p) && int64_rangeb (period_platform w p)) eqn:Er; simpl.
      * apply andb_true_iff in Er as [Er1%int64_rangeb_spec Er2%int64_rangeb_spec].
        repeat wp_step.
        -- by intros ->.
        -- intros (k & i & Hki & E). unfold invoice_clash in E. simpl in E.
           apply orb_true_iff in E as [E|E]; bools.
           ++ destruct (mo_invoice_key w Hw _ _ Hki) as [Ek _]. rewrite <-Ek, E in Hki. by rewrite Hi in Hki.
           ++ specialize (Hn _ _ Hki). by rewrite bool_decide_eq_true_2 in Hn.
        -- intros _. repeat wp_step; [by intros ->|]. split; [by intros ->|]. split; [done|].
           exists p. split; [done|]. right. done.
      * split; [done|]. intros _. right. right. split; [done|]. exists p. split_and!; [done..| |done].
        intros [H1%int64_rangeb_spec H2%int64_rangeb_spec]. by rewrite H1, H2 in Er.
    + intros k i Hki E. bools. wp_step. split; [by intros ->|]. split; [done|].
      exists p. split; [done|]. left. split; [done|].
      destruct (mo_invoice_key w Hw _ _ Hki) as [_ Ek]. by rewrite <-E, <-Ek.
Qed.

(** *** EnsurePeriod *)
Lemma period_id_inj t1 s1 t2 s2 :
  period_id t1 s1 = period_id t2 s2 -> t1 = t2 /\ unix s1 = unix s2.
Proof.
  intros E. apply (split_last_byte _ _ _ _ ":"%char) in E as [-> E];
    [|by apply pretty_Z_no_byte..]. split; [done|]. by apply (inj pretty) in E.
Qed.

Definition period_rejected (tenantID : string) (starts ends : Z) : bool :=
  is_empty tenantID || is_zero_time starts || is_zero_time ends || negb (starts <? ends).

Definition new_period (tenantID : string) (starts ends now : Z) : InvoicePeriod :=
  mkInvoicePeriod (period_id tenantID starts) tenantID starts ends "open" now None.

Definition period_inserted w (row : InvoicePeriod) : Billing :=
  fset periods (insert_row (ip_ID row) row (billing_periods w)) w.

Lemma period_inserted_ok w tenantID starts ends now :
  let row := new_period tenantID starts ends now in
  metering_ok w -> rows (billing_periods w) !! ip_ID row = None ->
  metering_ok (period_inserted w row) /\ meter_le w (period_inserted w row).
Proof.
  intros row Hw Hid.
  assert (Ep : rows (billing_periods (period_inserted w row)) = <[ip_ID row := row]> (rows (billing_periods w)))
    by apply rows_insert.
  split; [split|].
  - apply (mo_usage_key w Hw).
  - apply (mo_usage_unique w Hw).
  - apply (mo_usage_priced w Hw).
  - intros k r. rewrite Ep, lookup_insert. case_decide as Ek; [by intros [= <-]|apply (mo_period_key w Hw)].
  - intros k r. rewrite Ep, lookup_insert. case_decide as Ek; [by intros [= <-]|apply (mo_period_id w Hw)].
  - apply (mo_invoice_key w Hw).
  - split_and!; [done..|]. intros k r Hr. exists r. rewrite Ep, lookup_insert_ne; [done|congruence].
Qed.

(** The outcome of EnsurePeriod: the stored period, an error for another start
    within the same second, and after a driver failure possibly the new row. *)
Definition ensure_post (healthy : bool) w tenantID starts ends now (r : error + InvoicePeriod) w' : Prop :=
  let row := new_period tenantID starts ends now in
  (w' = w \/ period_rejected tenantID starts ends = false /\
     rows (billing_periods w) !! ip_ID row = None /\ w' = period_inserted w row) /\
  match r with
  | inl e => healthy = true -> w' = w /\
      ((period_rejected tenantID starts ends = true /\ e = ErrInvalidUsage) \/
       (period_rejected tenantID starts ends = false /\ e = ErrDuplicateKey /\
        exists r, rows (billing_periods w) !! period_id tenantID starts = Some r /\
          ip_TenantID r = tenantID /\ ip_StartsAt r <> starts /\ unix (ip_StartsAt r) = unix starts))
  | inr out => period_rejected tenantID starts ends = false /\
      rows (billing_periods w') !! period_id tenantID starts = Some out /\
      ip_TenantID out = tenantID /\ ip_StartsAt out = starts /\
      (rows (billing_periods w) !! period_id tenantID starts = None -> out = row)
  end.

Lemma same_period_key w k r tenantID starts :
  metering_ok w -> rows (billing_periods w) !! k = Some r -> same_period tenantID starts r = true ->
  k = period_id tenantID starts /\ ip_TenantID r = tenantID /\ ip_StartsAt r = starts.
Proof.
  intros Hw Hr E. unfold same_period in E. bools. subst. by rewrite (mo_period_id w Hw _ _ Hr).
Qed.

Lemma wp_EnsurePeriod h w tenantID starts ends now :
  metering_ok w ->
  wp h (EnsurePeriod tenantID starts ends now) w (ensure_post h w tenantID starts ends now).
Proof.
  intros Hw. unfold EnsurePeriod. fold (period_rejected tenantID starts ends).
  change (tenantID +:+ ":" +:+ pretty (unix starts)) with (period_id tenantID starts).
  destruct (period_rejected tenantID starts ends) eqn:Erej.
  { wp_step. split; [by left|]. intros _. split; [done|]. by left. }
  set (row := new_period tenantID starts ends now).
  assert (Hsame : same_period tenantID starts row = true).
  { unfold same_period; simpl. rewrite Z.eqb_refl. by rewrite bool_decide_eq_true_2. }
  repeat wp_step.
  - intros ->. split; [by left|done].
  - intros (k & r & Hr & E). destruct (same_period_key w k r _ _ Hw Hr E) as (-> & Et & Es).
    wp_step.
    + intros ->. split; [by left|done].
    + intros Hn. specialize (Hn _ _ Hr). simpl in Hn.
      by rewrite E, (mo_period_key w Hw _ _ Hr), bool_decide_eq_true_2 in Hn.
    + intros k' r' Hr' E'. bools. pose proof (mo_period_key w Hw _ _ Hr') as Hk'.
      assert (r' = r) as -> by congruence.
      split; [by left|]. split_and!; [done..|]. by rewrite Hr.
  - intros Hn (k & r & Hr & E). split; [by left|]. intros _. split; [done|]. right.
    split_and!; [done..|]. rewrite (Hn _ _ Hr), orb_false_r in E. bools.
    assert (Hr' : rows (billing_periods w) !! period_id tenantID starts = Some r)
      by (rewrite <-E; by rewrite (mo_period_key w Hw _ _ Hr)).
    exists r. pose proof (mo_period_id w Hw _ _ Hr') as Hid. apply period_id_inj in Hid as [Et Es].
    split_and!; [done..| |done]. intros Es'. specialize (Hn _ _ Hr). unfold same_period in Hn.
    by rewrite <-Et, Es', Z.eqb_refl, bool_decide_eq_true_2 in Hn.
  - intros Hn Hc. fold row. fold row in Hc.
    assert (Hid : rows (billing_periods w) !! ip_ID row = None).
    { destruct (rows _ !! ip_ID row) as [r|] eqn:Er; [|done]. specialize (Hc _ _ Er). bools.
      by rewrite (mo_period_key w Hw _ _ Er) in *. }
    assert (Ep : rows (billing_periods (period_inserted w row)) = <[ip_ID row := row]> (rows (billing_periods w)))
      by apply rows_insert.
    change (mkBilling _ _ _ _ _ _ _ _ _ _) with (period_inserted w row).
    assert (Hst : period_inserted w row = w \/ false = false /\
      rows (billing_periods w) !! ip_ID row = None /\ period_inserted w row = period_inserted w row)
      by by right.
    unfold ensure_post. rewrite Erej. fold row.
    apply wp_take; change (fget periods) with billing_periods.
    + intros ->. by split.
    + intros Hnone. specialize (Hnone (ip_ID row) row). rewrite Ep, lookup_insert_eq in Hnone.
      specialize (Hnone eq_refl). by rewrite Hsame, bool_decide_eq_true_2 in Hnone.
    + intros k r. rewrite Ep, lookup_insert. case_decide as Ek.
      * intros [= <-] _. split; [done|]. split_and!; [done| |done..].
        change (period_id tenantID starts) with (ip_ID row). by rewrite lookup_insert_eq.
      * intros Hr E. bools. by rewrite (Hn _ _ Hr) in *.
Qed.

End Metering.

(** ** Metering calls and what any sequence of them keeps *)
Section MeteringCalls.
  Context `{Sql}.
  Implicit Types (w : Billing) (inp : UsageInput).

Inductive metering_call :=
| CallRecordUsage (inp : UsageInput) (now : Z)
| CallEnsurePeriod (tenantID : string) (starts ends now : Z)
| CallIssueInvoice (periodID : string) (now : Z).

Definition run_metering (c : metering_call) : M Billing unit :=
  match c with
  | CallRecordUsage inp now => RecordUsage inp now;; mret tt
  | CallEnsurePeriod t starts ends now => EnsurePeriod t starts ends now;; mret tt
  | CallIssueInvoice pid now => IssueInvoice pid now;; mret tt
  end.

Inductive metering_step : Billing -> Billing -> Prop :=
| metering_step_call c r w w' : outcome (run_metering c) w r w' -> metering_step w w'.

Lemma wp_discard {A} h (m : M Billing A) w (Q : Billing -> Prop) :
  wp h m w (fun _ w' => Q w') -> wp h (m;; mret tt) w (fun _ w' => Q w').
Proof.
  intros Hm. wp_step. eapply wp_mono; [exact Hm|]. intros [e|a] w' HQ; [done|]. by wp_step.
Qed.

Lemma record_usage_post_ok h w inp now r w' :
  metering_ok w -> record_usage_post h w inp now r w' -> metering_ok w' /\ meter_le w w'.
Proof.
  intros Hw. destruct r as [e|out]; [intros [-> _]; auto using meter_le_refl|].
  intros (Hrej & _ & _ & [[-> _]|(Hk & -> & Hid & ->)]); [auto using meter_le_refl|].
  by apply usage_inserted_ok.
Qed.

Lemma issue_post_ok h w pid now r w' :
  metering_ok w -> issue_post h w pid now r w' -> metering_ok w' /\ meter_le w w'.
Proof.
  intros Hw. destruct r as [e|out]; [intros [-> _]; auto using meter_le_refl|].
  intros (_ & p & Hp & [[-> _]|(Hi & _ & _ & -> & ->)]); [auto using meter_le_refl|].
  pose proof (mo_period_key w Hw _ _ Hp) as Hk. subst. by apply invoiced_ok.
Qed.

Lemma metering_step_ok w w' : metering_ok w -> metering_step w w' -> metering_ok w' /\ meter_le w w'.
Proof.
  intros Hw Hs. revert Hw. destruct Hs as [c r x y Ho]. intros Hw.
  refine (wp_outcome _ _ (fun _ w' => metering_ok w' /\ meter_le x w') _ _ _ Ho).
  destruct c as [inp now|t starts ends now|pid now]; simpl; apply wp_discard; eapply wp_mono.
  - by apply wp_RecordUsage.
  - intros ? ? HQ. by eapply record_usage_post_ok.
  - by apply wp_EnsurePeriod.
  - intros ? ? [[->|(_ & Hid & ->)] _]; [auto using meter_le_refl|by apply period_inserted_ok].
  - by apply wp_IssueInvoice.
  - intros ? ? HQ. by eapply issue_post_ok.
Qed.

Lemma metering_steps_ok w w' : metering_ok w -> rtc metering_step w w' -> metering_ok w' /\ meter_le w w'.
Proof.
  intros Hw Hr. induction Hr as [w|w w1 w2 Hs _ IH]; [auto using meter_le_refl|].
  destruct (metering_step_ok _ _ Hw Hs) as [Hw1 Hle1]. destruct (IH Hw1) as [Hw2 Hle2].
  split; [done|]. by eapply meter_le_trans.
Qed.

Lemma metering_ok_empty w :
  rows (billing_usage_events w) = ∅ -> rows (billing_periods w) = ∅ -> rows (billing_invoices w) = ∅ ->
  metering_ok w.
Proof. intros E1 E2 E3. split; rewrite ?E1, ?E2, ?E3; intros *; by rewrite lookup_empty. Qed.

Lemma period_lookup_le w w' pid p :
  metering_ok w -> metering_ok w' -> meter_le w w' -> rows (billing_periods w) !! pid = Some p ->
  exists p', rows (billing_periods w') !! pid = Some p'.
Proof. intros _ _ (_ & _ & Hp) Hr. destruct (Hp _ _ Hr) as (p' & ? & _). eauto. Qed.

(** C1. Usage is recorded exactly once: once RecordUsage has returned an event
    for a key, then after any further metering calls under any driver
    failures every accepted replay of the key returns that same event and
    writes nothing, and the key is refused to every other tenant. *)
Theorem record_usage_exactly_once w w1 w2 inp inp' now now' (ev : UsageEvent) :
  metering_ok w -> outcome (RecordUsage inp now) w (inr ev) w1 -> rtc metering_step w1 w2 ->
  usage_rejected inp' = false -> ui_IdempotencyKey inp' = ui_IdempotencyKey inp ->
  if bool_decide (ui_TenantID inp' = ui_TenantID inp)
  then runs (RecordUsage inp' now') w2 (inr ev) w2
  else runs (RecordUsage inp' now') w2 (inl (Wrap "billing: record usage: %w" ErrUsageConflict)) w2.
Proof.
  intros Hw Ho Hs Hrej Hkey.
  pose proof (wp_outcome _ _ _ _ _ (wp_RecordUsage false w inp now Hw) Ho) as HQ.
  destruct (record_usage_post_ok _ _ _ _ _ _ Hw HQ) as [Hw1 _].
  destruct (metering_steps_ok _ _ Hw1 Hs) as [Hw2 (Hev & _)].
  assert (Hin : rows (billing_usage_events w2) !! ue_ID ev = Some ev).
  { apply Hev. destruct HQ as (_ & _ & _ & [[-> HQ]|(_ & -> & _ & ->)]); [done|].
    destruct (usage_inserted_rows w (usage_row inp now)) as (-> & _). apply lookup_insert_eq. }
  destruct HQ as (_ & Et & Ek & _).
  destruct (wp_runs _ _ _ (wp_RecordUsage true w2 inp' now' Hw2)) as (r & w3 & Hrun & HQ).
  assert (Huni : forall k r', rows (billing_usage_events w2) !! k = Some r' ->
            ue_IdempotencyKey r' = ui_IdempotencyKey inp' -> r' = ev).
  { intros k r' Hr' E. assert (k = ue_ID ev) as ->; [|congruence].
    eapply (mo_usage_unique w2 Hw2); [done..|congruence]. }
  assert (Hnfree : ~ key_free w2 (ui_IdempotencyKey inp')).
  { intros Hf. destruct (Hf _ _ Hin). congruence. }
  destruct r as [e|out].
  - destruct HQ as [-> HQ]. destruct (HQ eq_refl) as [[E _]|(_ & k & r' & Hr' & [(E1 & E2 & ->)|(Hf & _)])];
      [congruence| |done].
    rewrite (Huni _ _ Hr' E1) in E2. rewrite bool_decide_eq_false_2; [done|congruence].
  - destruct HQ as (_ & Et' & Ek' & [[-> Hout]|(Hf & _)]); [|done].
    rewrite (Huni _ _ Hout Ek') in *. rewrite bool_decide_eq_true_2; [done|congruence].
Qed.

(** C2. A period is invoiced exactly once: the invoice that IssueInvoice first
    returns bills the events of the period as they were then, and after any
    further metering calls, late events of the period and driver failures
    included, it is what every later call for the period returns, and that
    call writes nothing. *)
Theorem invoice_exactly_once w w1 w2 pid now now' (inv : Invoice) :
  metering_ok w -> outcome (IssueInvoice pid now) w (inr inv) w1 -> rtc metering_step w1 w2 ->
  runs (IssueInvoice pid now') w2 (inr inv) w2 /\
  (rows (billing_invoices w) !! (pid +:+ ":invoice") = None -> exists p,
     rows (billing_periods w) !! pid = Some p /\ rows (billing_periods w1) !! pid = Some (closed now p) /\
     iv_TenantSubtotalMicros inv = period_subtotal w p /\ iv_PlatformCostMicros inv = period_platform w p).
Proof.
  intros Hw Ho Hs.
  pose proof (wp_outcome _ _ _ _ _ (wp_IssueInvoice false w pid now Hw) Ho) as HQ.
  destruct (issue_post_ok _ _ _ _ _ _ Hw HQ) as [Hw1 Hle].
  destruct (metering_steps_ok _ _ Hw1 Hs) as [Hw2 (_ & Hinv & Hper)].
  destruct HQ as (Hb & p & Hp & HQ). pose proof (mo_period_key w Hw _ _ Hp) as Hk. subst.
  assert (Hin : rows (billing_invoices w2) !! (ip_ID p +:+ ":invoice") = Some inv).
  { apply Hinv. destruct HQ as [[-> HQ]|(_ & _ & _ & -> & ->)]; [done|].
    destruct (invoiced_rows w p now Hw Hp) as (_ & -> & _). apply lookup_insert_eq. }
  split.
  - destruct Hle as (_ & _ & Hle). destruct (Hle _ _ Hp) as (p1 & Hp1 & _).
    destruct (Hper _ _ Hp1) as (p2 & Hp2 & _).
    destruct (wp_runs _ _ _ (wp_IssueInvoice true w2 (ip_ID p) now' Hw2)) as (r & w3 & Hrun & HQ2).
    destruct r as [e|out].
    + destruct HQ2 as [_ HQ2]. destruct (HQ2 eq_refl) as [[E _]|[(_ & E & _)|(_ & _ & _ & E & _)]]; congruence.
    + destruct HQ2 as (_ & p3 & _ & [[-> Hout]|(E & _)]); [|congruence].
      assert (out = inv) as -> by congruence. done.
  - intros Hnone. exists p. destruct HQ as [[-> HQ]|(_ & _ & _ & -> & ->)]; [congruence|].
    split_and!; [done| |done..].
    destruct (invoiced_rows w p now Hw Hp) as (-> & _). apply lookup_insert_eq.
Qed.

(** The metering invariant: from an empty database, under any sequence of
    metering calls and any driver failures, identifiers and idempotency keys
    are unique, every event is priced by its ownership snapshot, and a period
    has one invoice. *)
Theorem metering_invariant w0 w :
  rows (billing_usage_events w0) = ∅ -> rows (billing_periods w0) = ∅ -> rows (billing_invoices w0) = ∅ ->
  rtc metering_step w0 w ->
  metering_ok w /\
  forall k1 k2 r1 r2, rows (billing_invoices w) !! k1 = Some r1 -> rows (billing_invoices w) !! k2 = Some r2 ->
    iv_PeriodID r1 = iv_PeriodID r2 -> r1 = r2.
Proof.
  intros E1 E2 E3 Hr.
  destruct (metering_steps_ok _ _ (metering_ok_empty _ E1 E2 E3) Hr) as [Hw _]. split; [done|].
  intros k1 k2 r1 r2 H1 H2 E. pose proof (invoice_unique w _ _ _ _ Hw H1 H2 E). congruence.
Qed.

(** [RecordUsage] when the driver does not fail, on every branch: refused
    inputs, a replay, a key of another tenant, an event id already taken, and
    the insertion of the priced row. *)
Theorem record_usage_spec w inp now :
  metering_ok w ->
  exists r w', runs (RecordUsage inp now) w r w' /\ record_usage_post true w inp now r w'.
Proof. intros Hw. by apply wp_runs, wp_RecordUsage. Qed.

(** [EnsurePeriod] when the driver does not fail: it stores the period once
    and returns the stored row from then on; the only failure of an accepted
    call is a period of the same tenant that starts at another instant of the
    same second. *)
Theorem ensure_period_spec w tenantID starts ends now :
  metering_ok w ->
  exists r w', runs (EnsurePeriod tenantID starts ends now) w r w' /\
    ensure_post true w tenantID starts ends now r w'.
Proof. intros Hw. by apply wp_runs, wp_EnsurePeriod. Qed.

End MeteringCalls.

(** ** Usage reports *)
Section Reports.
  Context `{Sql}.
  Implicit Types (w : Billing).

Definition window_events w (tenantID : string) (from to : Z) : list UsageEvent :=
  where_ (in_window tenantID from to) (billing_usage_events w).

(** A page of usage, on accepted arguments: the events are the wanted slice
    of the tenant's matching events of the window, newest first, never more
    than 100; the total counts all of them whatever the slice; the models are
    the distinct non-empty ones of the window, sorted. *)
Theorem usage_page_spec w tenantID from to (filter : UsageListFilter) :
  bad_window tenantID from to = false -> 0 <= uf_Offset filter ->
  validUsageStatus (uf_Status filter) true = true ->
  exists page, runs (ListUsagePage tenantID from to filter) w (inr page) w /\
    exists all, (forall r, r ∈ all <->
        exists k, rows (billing_usage_events w) !! k = Some r /\
          in_window tenantID from to r = true /\ page_filter filter r = true) /\
      Sorted newest_first all /\
      up_TotalCount page = Z.of_nat (length all) /\
      up_Events page = take (Z.to_nat (page_limit (uf_Limit filter))) (drop (Z.to_nat (uf_Offset filter)) all) /\
      Z.of_nat (length (up_Events page)) <= 100 /\
      Sorted text_asc (up_Models page) /\ NoDup (up_Models page) /\
      forall m, m ∈ up_Models page <-> m <> EmptyString /\ exists k r,
        rows (billing_usage_events w) !! k = Some r /\ in_window tenantID from to r = true /\ ue_Model r = m.
Proof.
  intros Hwin Hoff Hst. unfold ListUsagePage. rewrite Hwin, Hst, (proj2 (Z.ltb_ge _ _) Hoff). simpl.
  eexists. split; [reflexivity|]. cbv zeta.
  set (q := fun r => in_window tenantID from to r && page_filter filter r).
  exists (merge_sort newest_first (where_ q (billing_usage_events w))). simpl. split_and!.
  - intros r. rewrite merge_sort_Permutation, elem_of_where. unfold q.
    split; intros (k & Hk & Hq); exists k; by rewrite andb_true_iff in *.
  - apply Sorted_merge_sort; intros a b; unfold newest_first; lia.
  - by rewrite merge_sort_Permutation.
  - done.
  - rewrite length_take.
    assert (0 < page_limit (uf_Limit filter) <= 100); [|lia].
    unfold page_limit. destruct ((uf_Limit filter <=? 0) || (100 <? uf_Limit filter)) eqn:El; bools; lia.
  - apply Sorted_merge_sort; intros a b; unfold text_asc; apply text_le_total.
  - rewrite merge_sort_Permutation. apply NoDup_remove_dups.
  - intros m. rewrite merge_sort_Permutation, elem_of_remove_dups, list_elem_of_fmap.
    split.
    + intros (r & -> & Hr). apply elem_of_where in Hr as (k & Hk & Hq). bools.
      unfold is_empty in *. bools. eauto 10.
    + intros (Hm & k & r & Hk & Hq & <-). exists r. split; [done|]. apply elem_of_where. exists k.
      split; [done|]. unfold is_empty. by rewrite Hq, bool_decide_eq_false_2.
Qed.

(** The reports of a window agree: the summary counts the events a page
    counts, and its amount is what the invoice of that window would charge. *)
Theorem usage_reports_agree w tenantID (p : InvoicePeriod) (s : UsageSummary) w' limit :
  ip_TenantID p = tenantID ->
  runs (SummarizeUsage tenantID (ip_StartsAt p) (ip_EndsAt p)) w (inr s) w' ->
  w' = w /\ us_AmountMicros s = period_subtotal w p /\
  us_Requests s = Z.of_nat (length (window_events w tenantID (ip_StartsAt p) (ip_EndsAt p))) /\
  exists l, runs (ListUsage tenantID (ip_StartsAt p) (ip_EndsAt p) limit) w (inr l) w /\
    (us_Requests s <= usage_limit limit -> l ≡ₚ window_events w tenantID (ip_StartsAt p) (ip_EndsAt p)).
Proof.
  intros <- Hs. unfold SummarizeUsage in Hs. unfold ListUsage.
  destruct (bad_window _ _ _) eqn:Hb; [done|]. unfold runs, aggregate, sql in Hs. simpl in Hs.
  change (where_ _ _) with (window_events w (ip_TenantID p) (ip_StartsAt p) (ip_EndsAt p)) in Hs.
  unfold summary_of in Hs. rewrite !int64_sum_spec in Hs.
  repeat case_in Hs; simplify_eq. split; [done|]. split; [done|]. split; [done|].
  eexists. split; [reflexivity|]. simpl. intros Hle. rewrite take_ge.
  - apply merge_sort_Permutation.
  - rewrite merge_sort_Permutation. unfold window_events in Hle. lia.
Qed.

End Reports.

(** ** Concrete instances *)
Definition empty_billing : @Billing map_sql := @mkBilling map_sql ∅ ∅ ∅ ∅ ∅ ∅ ∅ ∅ ∅ ∅.

Definition demo_input : UsageInput :=
  mkUsageInput "" "req-1" "" 0 "t1" (5 * 10 ^ 9) KeyOwnershipPlatformPool "openai/gpt" "success"
    (Some 12) 10 20 100 7 0.
Definition demo_usage : UsageEvent := usage_row demo_input 9.

(** A database after a period, an event and its invoice. *)
Definition demo_metered : @Billing map_sql :=
  after (EnsurePeriod "t1" (10 ^ 9) (100 * 10 ^ 9) 8) (after (RecordUsage demo_input 9) empty_billing).
Definition demo_invoiced : @Billing map_sql := after (IssueInvoice "t1:1" 10) demo_metered.
Definition demo_invoice : Invoice :=
  mkInvoice "t1:1:invoice" "t1" "t1:1" "USD" 100 107 "issued" (Some 10) 10.

Lemma step_after `{Sql} (w : Billing) c : metering_step w (after (run_metering c) w).
Proof. apply (metering_step_call c (result (run_metering c) w)), outcome_after. Qed.

Lemma after_discard `{Sql} {A} (m : M Billing A) w : after (m;; mret tt) w = after m w.
Proof. unfold after, mbind, M_bind. by destruct (m w []) as [[[e|a] w'] sc']. Qed.

Lemma demo_metered_steps : rtc (@metering_step map_sql) empty_billing demo_metered.
Proof.
  eapply rtc_l; [apply (step_after _ (CallRecordUsage demo_input 9))|].
  eapply rtc_l; [apply (step_after _ (CallEnsurePeriod "t1" (10 ^ 9) (100 * 10 ^ 9) 8))|].
  simpl. rewrite !after_discard. apply rtc_refl.
Qed.

Lemma demo_metered_ok : @metering_ok map_sql demo_metered.
Proof.
  eapply metering_steps_ok; [|apply demo_metered_steps]. by apply metering_ok_empty.
Qed.

Lemma empty_billing_ok : @metering_ok map_sql empty_billing.
Proof. by apply metering_ok_empty. Qed.

Lemma record_usage_exactly_once_witness :
  runs (RecordUsage demo_input 77) demo_metered (inr demo_usage) demo_metered.
Proof.
  apply (@record_usage_exactly_once map_sql empty_billing (after (RecordUsage demo_input 9) empty_billing)
           demo_metered demo_input demo_input 9 77 demo_usage empty_billing_ok).
  - exists [], []. vm_compute. reflexivity.
  - apply rtc_once. pose proof (step_after (after (RecordUsage demo_input 9) empty_billing)
      (CallEnsurePeriod "t1" (10 ^ 9) (100 * 10 ^ 9) 8)) as Hs.
    simpl in Hs. rewrite after_discard in Hs. exact Hs.
  - reflexivity.
  - reflexivity.
Defined.

Lemma invoice_exactly_once_witness :
  runs (IssueInvoice "t1:1" 99) demo_invoiced (inr demo_invoice) demo_invoiced /\
  period_subtotal demo_metered (mkInvoicePeriod "t1:1" "t1" (10 ^ 9) (100 * 10 ^ 9) "open" 8 None) = 107.
Proof.
  destruct (@invoice_exactly_once map_sql demo_metered demo_invoiced demo_invoiced "t1:1" 10 99
              demo_invoice demo_metered_ok) as [Hr Hs].
  - exists [], []. vm_compute. reflexivity.
  - apply rtc_refl.
  - split; [exact Hr|]. vm_compute. reflexivity.
Defined.

Lemma metering_invariant_witness : @metering_ok map_sql demo_metered.
Proof.
  apply (@metering_invariant map_sql empty_billing demo_metered); [reflexivity..|apply demo_metered_steps].
Defined.

Lemma record_usage_spec_witness :
  exists r w', runs (RecordUsage demo_input 9) empty_billing r w' /\
    record_usage_post true empty_billing demo_input 9 r w'.
Proof. apply (@record_usage_spec map_sql empty_billing demo_input 9), empty_billing_ok. Defined.

Lemma ensure_period_spec_witness :
  exists r w', runs (EnsurePeriod "t1" (10 ^ 9 + 1) (5 * 10 ^ 9) 8) demo_metered r w' /\
    ensure_post true demo_metered "t1" (10 ^ 9 + 1) (5 * 10 ^ 9) 8 r w'.
Proof. apply (@ensure_period_spec map_sql demo_metered "t1"), demo_metered_ok. Defined.

Lemma usage_page_spec_witness :
  exists page, runs (ListUsagePage "t1" (10 ^ 9) (100 * 10 ^ 9) (mkUsageListFilter "" "" 0 0))
    demo_metered (inr page) demo_metered.
Proof.
  destruct (@usage_page_spec map_sql demo_metered "t1" (10 ^ 9) (100 * 10 ^ 9) (mkUsageListFilter "" "" 0 0))
    as (page & Hr & _); [reflexivity|simpl; lia|reflexivity|].
  exists page. exact Hr.
Defined.

Lemma usage_reports_agree_witness :
  us_AmountMicros (mkUsageSummary 10 20 30 107 1) =
  period_subtotal demo_metered (mkInvoicePeriod "t1:1" "t1" (10 ^ 9) (100 * 10 ^ 9) "open" 8 None).
Proof.
  apply (@usage_reports_agree map_sql demo_metered "t1" _ _ demo_metered 10).
  - reflexivity.
  - vm_compute. reflexivity.
Defined.
