(* ===== verification/Ledger.v ===== *)
(** * Prepaid balances (internal/billing/billing.go: Reserve, Release, Capture, UpsertAccount)

    An account holds a balance and a counter of what open reservations hold of
    it.  The counter is a cache: the specification is a ledger without it. *)
From S2P Require Import Prelude GoStrings Sql Billing.

Section Store.
  Context `{Sql}.

Definition account_of (tenantID : string) (r : Account) : bool := bool_decide (ac_TenantID r = tenantID).

Definition Reserve (tenantID idempotency : string) (amount now : Z) : M Billing Reservation :=
  if is_empty tenantID || blank idempotency || (amount <=? 0) then throw ErrInvalidUsage else
  wrapping "billing: reserve: %w" (transaction (
    r ← attempt (take_row reservations (fun r => bool_decide (rv_IdempotencyKey r = idempotency)));
    match r with
    | inr out =>
        if negb (bool_decide (rv_TenantID out = tenantID)) || negb (rv_AmountMicros out =? amount)
        then throw ErrReservationState else mret out
    | inl e =>
        if negb (errors_is e ErrRecordNotFound) then throw e else
        account ← take_row accounts (account_of tenantID);
        if (ac_BalanceMicros account -64 ac_ReservedMicros account) <? amount
        then throw ErrInsufficientBalance else
        update accounts (account_of (ac_TenantID account))
          (fun r => mkAccount (ac_TenantID r) (ac_Currency r) (ac_BalanceMicros r)
                      (ac_ReservedMicros account +64 amount) now);;
        let out := mkReservation idempotency tenantID idempotency amount "reserved" now now in
        create reservations
          (fun r => bool_decide (rv_ID r = idempotency) || bool_decide (rv_IdempotencyKey r = idempotency))
          idempotency out;;
        mret out
    end)).

Definition transitionReservation (id from to : string) (capture : bool) (now stamp : Z) : M Billing unit :=
  if is_empty id then throw ErrInvalidUsage else
  transaction (
    r ← take_row reservations (fun r => bool_decide (rv_ID r = id));
    if negb (bool_decide (rv_Status r = from)) then
      if bool_decide (rv_Status r = to) then mret tt else throw ErrReservationState
    else
    account ← take_row accounts (account_of (rv_TenantID r));
    let reserved := ac_ReservedMicros account -64 rv_AmountMicros r in
    let balance := ac_BalanceMicros account -64 rv_AmountMicros r in
    if (ac_ReservedMicros account <? rv_AmountMicros r) ||
       (capture && (ac_BalanceMicros account <? rv_AmountMicros r))
    then throw ErrReservationState else
    update accounts (account_of (ac_TenantID account))
      (fun a => mkAccount (ac_TenantID a) (ac_Currency a)
                  (if capture then balance else ac_BalanceMicros a) reserved now);;
    update reservations (fun x => bool_decide (rv_ID x = rv_ID r))
      (fun x => mkReservation (rv_ID x) (rv_TenantID x) (rv_IdempotencyKey x) (rv_AmountMicros x)
                  to (rv_CreatedAt x) stamp);;
    mret tt).

Definition Release (id : string) (now stamp : Z) : M Billing unit :=
  transitionReservation id "reserved" "released" false now stamp.
Definition Capture (id : string) (now stamp : Z) : M Billing unit :=
  transitionReservation id "reserved" "captured" true now stamp.

Definition UpsertAccount (account : Account) (now : Z) : M Billing unit :=
  if is_empty (ac_TenantID account) || (ac_BalanceMicros account <? 0) ||
     (ac_ReservedMicros account <? 0) || (ac_BalanceMicros account <? ac_ReservedMicros account)
  then throw ErrInvalidUsage else
  let currency := if is_empty (ac_Currency account) then "USD" else ac_Currency account in
  let row := mkAccount (ac_TenantID account) currency (ac_BalanceMicros account)
               (ac_ReservedMicros account) now in
  upsert accounts (account_of (ac_TenantID row)) (account_of (ac_TenantID row))
    (fun r => mkAccount (ac_TenantID r) currency (ac_BalanceMicros row) (ac_ReservedMicros row) now)
    (ac_TenantID row) row.

End Store.

(** ** The specification: a ledger of funds and holds *)
Inductive HoldState := Held | Released | Captured.
#[export] Instance hold_state_eq_dec : EqDecision HoldState.
Proof. solve_decision. Defined.

Record Hold := mkHold { hd_Tenant : string; hd_Amount : Z; hd_State : HoldState }.

Record LedgerSpec := mkLedger { funds : gmap string Z; holds : gmap string Hold }.

Definition amounts_in (st : HoldState) (tenantID : string) (hs : gmap string Hold) : Z :=
  sum_list (fun h => if bool_decide (hd_Tenant h = tenantID) && bool_decide (hd_State h = st)
                     then hd_Amount h else 0) (map_to_list hs).*2.

Definition available (L : LedgerSpec) (tenantID : string) (balance : Z) : Z :=
  balance - amounts_in Held tenantID (holds L).

(** Put [amount] of a tenant's available funds on hold under a key. *)
Definition spec_reserve (tenantID key : string) (amount : Z) (L : LedgerSpec) : option error * LedgerSpec :=
  match holds L !! key with
  | Some h => if bool_decide (hd_Tenant h = tenantID) && (hd_Amount h =? amount)
              then (None, L) else (Some ErrReservationState, L)
  | None =>
      match funds L !! tenantID with
      | None => (Some ErrRecordNotFound, L)
      | Some balance =>
          if available L tenantID balance <? amount then (Some ErrInsufficientBalance, L)
          else (None, mkLedger (funds L) (<[key := mkHold tenantID amount Held]> (holds L)))
      end
  end.

(** End a hold: give it back, or spend it. *)
Definition spec_settle (key : string) (to : HoldState) (L : LedgerSpec) : option error * LedgerSpec :=
  match holds L !! key with
  | None => (Some ErrRecordNotFound, L)
  | Some h =>
      match hd_State h with
      | Held => (None, mkLedger (if decide (to = Captured)
                                 then alter (fun b => b - hd_Amount h) (hd_Tenant h) (funds L)
                                 else funds L)
                          (<[key := mkHold (hd_Tenant h) (hd_Amount h) to]> (holds L)))
      | st => if bool_decide (st = to) then (None, L) else (Some ErrReservationState, L)
      end
  end.

Inductive ledger_call :=
| CallReserve (tenantID key : string) (amount now : Z)
| CallRelease (id : string) (now stamp : Z)
| CallCapture (id : string) (now stamp : Z).

(** Arguments the store refuses outright. *)
Definition call_rejected (c : ledger_call) : bool :=
  match c with
  | CallReserve t k a _ => is_empty t || blank k || (a <=? 0)
  | CallRelease id _ _ | CallCapture id _ _ => is_empty id
  end.

Definition spec_step (c : ledger_call) (L : LedgerSpec) : option error * LedgerSpec :=
  match c with
  | CallReserve t k a _ => spec_reserve t k a L
  | CallRelease id _ _ => spec_settle id Released L
  | CallCapture id _ _ => spec_settle id Captured L
  end.

(** What the store reports for an error of the specification. *)
Definition reported (c : ledger_call) (e : error) : error :=
  match c with CallReserve _ _ _ _ => Wrap "billing: reserve: %w" e | _ => e end.

(** ** Sums over holds *)
Lemma amounts_in_insert_new st t hs k h :
  hs !! k = None ->
  amounts_in st t (<[k := h]> hs) =
  (if bool_decide (hd_Tenant h = t) && bool_decide (hd_State h = st) then hd_Amount h else 0) + amounts_in st t hs.
Proof.
  intros Hk. unfold amounts_in.
  by rewrite (sum_list_perm _ _ ((k, h) :: map_to_list hs).*2) by (by rewrite map_to_list_insert).
Qed.

Lemma amounts_in_lookup st t hs k h :
  hs !! k = Some h ->
  amounts_in st t hs =
  (if bool_decide (hd_Tenant h = t) && bool_decide (hd_State h = st) then hd_Amount h else 0) +
  amounts_in st t (delete k hs).
Proof.
  intros Hk. rewrite <-(insert_delete_id _ _ _ Hk) at 1.
  by rewrite amounts_in_insert_new by apply lookup_delete_eq.
Qed.

Lemma amounts_in_replace st t hs k h h' :
  hs !! k = Some h ->
  amounts_in st t (<[k := h']> hs) = amounts_in st t hs
  - (if bool_decide (hd_Tenant h = t) && bool_decide (hd_State h = st) then hd_Amount h else 0)
  + (if bool_decide (hd_Tenant h' = t) && bool_decide (hd_State h' = st) then hd_Amount h' else 0).
Proof.
  intros Hk. rewrite <-insert_delete_eq, amounts_in_insert_new by apply lookup_delete_eq.
  rewrite (amounts_in_lookup st t hs k h Hk). lia.
Qed.

Lemma amounts_in_nonneg st t hs :
  (forall k h, hs !! k = Some h -> 0 <= hd_Amount h) -> 0 <= amounts_in st t hs.
Proof.
  induction hs as [|k h hs Hk IH] using map_ind; intros Hpos; [done|].
  rewrite amounts_in_insert_new by done.
  assert (0 <= hd_Amount h) by (eapply (Hpos k); by rewrite lookup_insert_eq).
  assert (0 <= amounts_in st t hs).
  { apply IH. intros k' h' Hh'. apply (Hpos k'). rewrite lookup_insert_ne; [done|]. intros ->. congruence. }
  destruct (_ && _); lia.
Qed.

Lemma amounts_in_at_least st t hs k h :
  (forall k h, hs !! k = Some h -> 0 <= hd_Amount h) ->
  hs !! k = Some h -> hd_Tenant h = t -> hd_State h = st -> hd_Amount h <= amounts_in st t hs.
Proof.
  intros Hpos Hk Ht Hs. rewrite (amounts_in_lookup _ _ _ _ _ Hk).
  rewrite !bool_decide_eq_true_2 by done. simpl.
  assert (0 <= amounts_in st t (delete k hs)); [|lia].
  apply amounts_in_nonneg. intros k' h' [_ Hh']%lookup_delete_Some. eauto.
Qed.

(** ** The store implements the ledger *)
Definition state_of (status : string) : HoldState :=
  if bool_decide (status = "reserved") then Held
  else if bool_decide (status = "released") then Released else Captured.

Definition hold_of (r : Reservation) : Hold :=
  mkHold (rv_TenantID r) (rv_AmountMicros r) (state_of (rv_Status r)).

Section Refinement.
  Context `{Sql}.
  Implicit Types (w : Billing).

Definition abs w : LedgerSpec :=
  mkLedger (ac_BalanceMicros <$> rows (billing_accounts w)) (hold_of <$> rows (billing_reservations w)).

Definition held w (tenantID : string) : Z := amounts_in Held tenantID (holds (abs w)).

Record ledger_ok w : Prop := {
  lo_account : forall k a, rows (billing_accounts w) !! k = Some a ->
    ac_TenantID a = k /\ 0 <= ac_ReservedMicros a <= ac_BalanceMicros a /\ ac_BalanceMicros a < 2 ^ 63;
  lo_cache : forall k a, rows (billing_accounts w) !! k = Some a -> ac_ReservedMicros a = held w k;
  lo_reservation : forall k r, rows (billing_reservations w) !! k = Some r ->
    rv_ID r = k /\ rv_IdempotencyKey r = k /\ 0 < rv_AmountMicros r /\
    rv_Status r ∈ ["reserved"; "released"; "captured"] /\
    is_Some (rows (billing_accounts w) !! rv_TenantID r) }.

Lemma holds_pos w k h : ledger_ok w -> holds (abs w) !! k = Some h -> 0 <= hd_Amount h.
Proof.
  intros Hw. simpl. rewrite lookup_fmap. destruct (rows _ !! k) as [r|] eqn:Er; [|done].
  intros [= <-]. destruct (lo_reservation w Hw _ _ Er) as (_ & _ & ? & _). simpl. lia.
Qed.

(** The database after an account and a reservation row are written. *)
Definition ledger_written w w' (ka : string) (a : Account) (kr : string) (r : Reservation) : Prop :=
  rows (billing_accounts w') = <[ka := a]> (rows (billing_accounts w)) /\
  rows (billing_reservations w') = <[kr := r]> (rows (billing_reservations w)).

Lemma abs_written w w' ka a kr r :
  ledger_written w w' ka a kr r ->
  abs w' = mkLedger (<[ka := ac_BalanceMicros a]> (funds (abs w))) (<[kr := hold_of r]> (holds (abs w))).
Proof. intros [Ea Er]. unfold abs. simpl. by rewrite Ea, Er, !fmap_insert. Qed.

Lemma written_ok w w' ka a kr r a0 :
  ledger_ok w -> ledger_written w w' ka a kr r ->
  rows (billing_accounts w) !! ka = Some a0 ->
  ac_TenantID a = ka -> 0 <= ac_ReservedMicros a <= ac_BalanceMicros a -> ac_BalanceMicros a < 2 ^ 63 ->
  rv_ID r = kr -> rv_IdempotencyKey r = kr -> 0 < rv_AmountMicros r ->
  rv_Status r ∈ ["reserved"; "released"; "captured"] -> rv_TenantID r = ka ->
  ac_ReservedMicros a = held w' ka -> (forall t, t <> ka -> held w' t = held w t) ->
  ledger_ok w'.
Proof.
  intros Hw [Ea Er] Ha0 Hta Hra Hba Hid Hkey Hpos Hst Htr Hcache Hoth. split.
  - intros k x. rewrite Ea, lookup_insert. case_decide as Ek; [|apply (lo_account w Hw)].
    intros [= <-]. by subst.
  - intros k x. rewrite Ea, lookup_insert. case_decide as Ek.
    + intros [= <-]. by subst.
    + intros Hx. rewrite Hoth by done. by apply (lo_cache w Hw).
  - intros k x. rewrite Er, Ea, !lookup_insert. case_decide as Ek.
    + intros [= <-]. subst. split_and!; [done..|]. by rewrite decide_True.
    + intros Hx. destruct (lo_reservation w Hw _ _ Hx) as (? & ? & ? & ? & ?).
      split_and!; [done..|]. case_decide; [done|done].
Qed.

Lemma update_account w (t : string) a g :
  ledger_ok w -> rows (billing_accounts w) !! t = Some a ->
  rows (update_rows (account_of (ac_TenantID a)) g (billing_accounts w)) = <[t := g a]> (rows (billing_accounts w)).
Proof.
  intros Hw Ha. destruct (lo_account w Hw _ _ Ha) as [<- _]. unfold account_of.
  apply rows_update_unique; [done|by apply bool_decide_eq_true_2|].
  intros k x Hx E. bools. by destruct (lo_account w Hw _ _ Hx) as [<- _].
Qed.

Lemma reserve_written w t k amount now a :
  ledger_ok w -> rows (billing_accounts w) !! t = Some a ->
  rows (billing_reservations w) !! k = None -> 0 < amount ->
  amount <= ac_BalanceMicros a - ac_ReservedMicros a ->
  forall w', ledger_written w w' t
    (mkAccount (ac_TenantID a) (ac_Currency a) (ac_BalanceMicros a) (ac_ReservedMicros a +64 amount) now)
    k (mkReservation k t k amount "reserved" now now) ->
  ledger_ok w' /\ spec_reserve t k amount (abs w) = (None, abs w').
Proof.
  intros Hw Ha Hk Hpos Hle w' Hwr.
  destruct (lo_account w Hw _ _ Ha) as (Ht & Hr & Hb).
  assert (E64 : ac_ReservedMicros a +64 amount = ac_ReservedMicros a + amount)
    by (apply wrap64_id; unfold int64_range; lia).
  pose proof (abs_written _ _ _ _ _ _ Hwr) as Habs.
  assert (Hnone : holds (abs w) !! k = None) by (simpl; by rewrite lookup_fmap, Hk).
  assert (Hheld : forall j, held w' j = held w j + if bool_decide (t = j) then amount else 0).
  { intros j. unfold held. rewrite Habs. cbn [holds]. rewrite amounts_in_insert_new by done. simpl.
    rewrite andb_true_r. case_bool_decide; lia. }
  split.
  - eapply written_ok; [done|done|done|simpl; try done..].
    + rewrite E64. lia.
    + left.
    + rewrite Hheld, E64, bool_decide_eq_true_2, (lo_cache w Hw _ _ Ha) by done. done.
    + intros j Hj. rewrite Hheld, bool_decide_eq_false_2 by done. lia.
  - unfold spec_reserve. rewrite Hnone. simpl. rewrite lookup_fmap, Ha. simpl.
    unfold available. change (amounts_in Held t (holds (abs w))) with (held w t).
    rewrite <-(lo_cache w Hw _ _ Ha), (proj2 (Z.ltb_ge _ _)) by lia.
    rewrite Habs. simpl. f_equal. f_equal. symmetry. apply insert_id. by rewrite lookup_fmap, Ha.
Qed.

Definition settled (st : string) (capture : bool) (a : Account) (r : Reservation) now stamp : Account * Reservation :=
  (mkAccount (ac_TenantID a) (ac_Currency a)
     (if capture then ac_BalanceMicros a -64 rv_AmountMicros r else ac_BalanceMicros a)
     (ac_ReservedMicros a -64 rv_AmountMicros r) now,
   mkReservation (rv_ID r) (rv_TenantID r) (rv_IdempotencyKey r) (rv_AmountMicros r) st (rv_CreatedAt r) stamp).

Lemma settle_written w k r a (st : string) (capture : bool) now stamp :
  ledger_ok w -> rows (billing_reservations w) !! k = Some r -> rv_Status r = "reserved" ->
  rows (billing_accounts w) !! rv_TenantID r = Some a ->
  st = (if capture then "captured" else "released") ->
  forall w', ledger_written w w' (rv_TenantID r) (settled st capture a r now stamp).1 k
               (settled st capture a r now stamp).2 ->
  ledger_ok w' /\ spec_settle k (state_of st) (abs w) = (None, abs w').
Proof.
  intros Hw Hk Hst Ha Hto w' Hwr.
  destruct (lo_account w Hw _ _ Ha) as (Ht & Hr & Hb).
  destruct (lo_reservation w Hw _ _ Hk) as (Hid & Hkey & Hpos & _ & _).
  assert (Hhk : holds (abs w) !! k = Some (hold_of r)) by (simpl; by rewrite lookup_fmap, Hk).
  assert (Hs0 : hd_State (hold_of r) = Held) by (simpl; by rewrite Hst).
  assert (Hge : rv_AmountMicros r <= ac_ReservedMicros a).
  { rewrite (lo_cache w Hw _ _ Ha). eapply (amounts_in_at_least Held _ _ k (hold_of r)); [|done..].
    intros k0 h0 Hh0. by apply (holds_pos w k0 h0). }
  assert (E1 : ac_ReservedMicros a -64 rv_AmountMicros r = ac_ReservedMicros a - rv_AmountMicros r)
    by (apply wrap64_id; unfold int64_range; lia).
  assert (E2 : ac_BalanceMicros a -64 rv_AmountMicros r = ac_BalanceMicros a - rv_AmountMicros r)
    by (apply wrap64_id; unfold int64_range; lia).
  assert (Hne : state_of st <> Held) by (subst st; by destruct capture).
  pose proof (abs_written _ _ _ _ _ _ Hwr) as Habs.
  assert (Hheld : forall j, held w' j = held w j - if bool_decide (rv_TenantID r = j) then rv_AmountMicros r else 0).
  { intros j. unfold held. rewrite Habs. cbn [holds]. rewrite (amounts_in_replace _ _ _ _ _ _ Hhk), Hs0. simpl.
    rewrite (bool_decide_eq_false_2 (state_of st = Held)) by done.
    rewrite andb_true_r, andb_false_r. case_bool_decide; lia. }
  split.
  - eapply written_ok; [done|done|done|simpl; rewrite ?E1, ?E2; try done..].
    + destruct capture; lia.
    + destruct capture; lia.
    + subst st. destruct capture; set_solver.
    + rewrite Hheld, bool_decide_eq_true_2, (lo_cache w Hw _ _ Ha) by done. done.
    + intros j Hj. rewrite Hheld, bool_decide_eq_false_2 by done. lia.
  - unfold spec_settle. rewrite Hhk, Hs0, Habs. simpl. rewrite E2. f_equal. f_equal.
    subst st. destruct capture; simpl.
    + apply map_eq. intros j. rewrite lookup_insert, !lookup_fmap.
      destruct (decide (rv_TenantID r = j)) as [<-|Hj].
      * by rewrite lookup_alter_eq, lookup_fmap, Ha.
      * by rewrite lookup_alter_ne, lookup_fmap by done.
    + symmetry. apply insert_id. by rewrite lookup_fmap, Ha.
Qed.

End Refinement.

(** ** The calls *)
Section Calls.
  Context `{Sql}.
  Implicit Types (w : Billing) (c : ledger_call).

Definition run_ledger c : M Billing unit :=
  match c with
  | CallReserve t k a now => Reserve t k a now;; mret tt
  | CallRelease id now stamp => Release id now stamp
  | CallCapture id now stamp => Capture id now stamp
  end.

Definition ledger_post (healthy : bool) w c (r : error + unit) w' : Prop :=
  match r with
  | inl e => w' = w /\ (healthy = true ->
      (call_rejected c = true /\ e = ErrInvalidUsage) \/
      (call_rejected c = false /\ exists e0, spec_step c (abs w) = (Some e0, abs w) /\ e = reported c e0))
  | inr _ => call_rejected c = false /\ ledger_ok w' /\ spec_step c (abs w) = (None, abs w')
  end.

Lemma no_reservation w k :
  ledger_ok w -> (forall k' r, rows (billing_reservations w) !! k' = Some r ->
    bool_decide (rv_IdempotencyKey r = k) = false) -> rows (billing_reservations w) !! k = None.
Proof.
  intros Hw Hn. destruct (rows _ !! k) as [r|] eqn:Er; [|done]. specialize (Hn _ _ Er). bools.
  by destruct (lo_reservation w Hw _ _ Er) as (_ & ? & _).
Qed.

Lemma wp_Reserve h w t k amount now :
  ledger_ok w ->
  wp h (Reserve t k amount now;; mret tt) w (ledger_post h w (CallReserve t k amount now)).
Proof.
  intros Hw. wp_step. unfold Reserve, ledger_post. simpl.
  destruct (is_empty t || blank k || (amount <=? 0)) eqn:Erej.
  { wp_step. split; [done|]. intros _. by left. }
  apply orb_false_iff in Erej as [_ Hpos]. bools.
  assert (Hrefuse : forall (e0 : error), spec_reserve t k amount (abs w) = (Some e0, abs w) ->
    w = w /\ (h = true -> false = true /\ Wrap "billing: reserve: %w" e0 = ErrInvalidUsage \/
      false = false /\ exists e1, spec_reserve t k amount (abs w) = (Some e1, abs w) /\
        Wrap "billing: reserve: %w" e0 = Wrap "billing: reserve: %w" e1)).
  { intros e0 He0. split; [done|]. intros _. right. split; [done|]. by exists e0. }
  repeat wp_step.
  - intros -> msg. wp_step. by split.
  - intros Hn. pose proof (no_reservation w k Hw Hn) as Hk.
    assert (Hspec : holds (abs w) !! k = None) by (simpl; by rewrite lookup_fmap, Hk).
    repeat wp_step.
    + by intros ->.
    + intros Hna. apply Hrefuse. unfold spec_reserve. rewrite Hspec. simpl. rewrite lookup_fmap.
      destruct (rows (billing_accounts w) !! t) as [a|] eqn:Ea; [|done]. specialize (Hna _ _ Ea).
      unfold account_of in Hna. bools. by destruct (lo_account w Hw _ _ Ea) as [<- _].
    + intros ka a Ha Et. unfold account_of in Et. bools. destruct (lo_account w Hw _ _ Ha) as (Eka & Hra & Hba).
      assert (ka = t) as -> by congruence.
      rewrite wrap64_id by (unfold int64_range; lia).
      repeat wp_step.
      * apply Hrefuse. unfold spec_reserve. rewrite Hspec. simpl. rewrite lookup_fmap, Ha. simpl.
        unfold available. change (amounts_in Held t (holds (abs w))) with (held w t).
        rewrite <-(lo_cache w Hw _ _ Ha). by rewrite E.
      * by intros ->.
      * by intros ->.
      * intros (k' & r' & Hr' & Ec). exfalso. rewrite (Hn _ _ Hr'), orb_false_r in Ec. bools.
        destruct (lo_reservation w Hw _ _ Hr') as (Hid & _). congruence.
      * intros _. wp_step. split; [by intros ->|]. wp_step. split; [done|]. bools.
        eapply (reserve_written w t k amount now a); [done..|lia|lia|].
        split; simpl; [|apply rows_insert]. by apply update_account.
  - intros k' r Hr Ek. bools. destruct (lo_reservation w Hw _ _ Hr) as (_ & Ek' & _).
    assert (Hspec : holds (abs w) !! k = Some (hold_of r)) by (simpl; by rewrite lookup_fmap, <-Ek, Ek', Hr).
    destruct (negb (bool_decide (rv_TenantID r = t)) || negb (rv_AmountMicros r =? amount)) eqn:E.
    + wp_step. apply Hrefuse. unfold spec_reserve. rewrite Hspec. simpl.
      by rewrite <-negb_andb, negb_true_iff in E; rewrite E.
    + wp_step. split; [by intros ->|]. wp_step. split_and!; [done..|].
      unfold spec_reserve. rewrite Hspec. simpl. by rewrite <-negb_andb, negb_false_iff in E; rewrite E.
Qed.

Lemma wp_settle h w id (capture : bool) to now stamp :
  ledger_ok w -> to = (if capture then "captured" else "released") ->
  wp h (transitionReservation id "reserved" to capture now stamp) w (fun r w' =>
    match r with
    | inl e => w' = w /\ (h = true -> (is_empty id = true /\ e = ErrInvalidUsage) \/
        (is_empty id = false /\ spec_settle id (state_of to) (abs w) = (Some e, abs w)))
    | inr _ => is_empty id = false /\ ledger_ok w' /\ spec_settle id (state_of to) (abs w) = (None, abs w')
    end).
Proof.
  intros Hw Hto. unfold transitionReservation. destruct (is_empty id) eqn:Eid.
  { wp_step. split; [done|]. by left. }
  repeat wp_step.
  - intros ->. by split.
  - intros Hn. split; [done|]. intros _. right. split; [done|]. unfold spec_settle. simpl. rewrite lookup_fmap.
    destruct (rows (billing_reservations w) !! id) as [r|] eqn:Er; [|done]. specialize (Hn _ _ Er). bools.
    by destruct (lo_reservation w Hw _ _ Er) as (? & _).
  - intros k r Hr Ek. bools. destruct (lo_reservation w Hw _ _ Hr) as (Eid' & _ & Hpos & Hst & [a Ha]).
    assert (k = id) as -> by congruence.
    assert (Hspec : holds (abs w) !! id = Some (hold_of r)) by (simpl; by rewrite lookup_fmap, Hr).
    assert (Hstate : state_of (rv_Status r) = Held <-> rv_Status r = "reserved").
    { unfold state_of. repeat case_bool_decide; naive_solver. }
    destruct (decide (rv_Status r = "reserved")) as [Es|Es].
    + rewrite (bool_decide_eq_true_2 _ Es). simpl. repeat wp_step.
      * by intros ->.
      * intros Hn. specialize (Hn _ _ Ha). unfold account_of in Hn. bools.
        by destruct (lo_account w Hw _ _ Ha).
      * intros ka a' Ha' Et. unfold account_of in Et. bools.
        destruct (lo_account w Hw _ _ Ha') as (Eka & Hra & Hba).
        assert (ka = rv_TenantID r) as -> by congruence. assert (a' = a) as -> by congruence.
        assert (Hge : rv_AmountMicros r <= ac_ReservedMicros a).
        { rewrite (lo_cache w Hw _ _ Ha). eapply (amounts_in_at_least Held _ _ id (hold_of r)); [|done|done|].
          - intros k0 h0 Hh0. by apply (holds_pos w k0 h0).
          - by apply Hstate. }
        rewrite (proj2 (Z.ltb_ge (ac_ReservedMicros a) _)), (proj2 (Z.ltb_ge (ac_BalanceMicros a) _)) by lia.
        rewrite andb_false_r. simpl. repeat wp_step; [by intros ->..|].
        split; [by intros ->|]. split; [done|].
        eapply (settle_written w id r a to capture now stamp); [done..|].
        split; simpl.
        -- by apply update_account.
        -- rewrite (rows_update_unique _ _ _ id r Hr); [done|by apply bool_decide_eq_true_2|].
           intros k' r' Hr' E'. bools. destruct (lo_reservation w Hw _ _ Hr') as (? & _). congruence.
    + rewrite (bool_decide_eq_false_2 _ Es). simpl.
      assert (Hto' : rv_Status r = to <-> state_of (rv_Status r) = state_of to).
      { clear -Hst Hto Es. apply list_elem_of_In in Hst. simpl in Hst. subst to.
        destruct Hst as [E|[E|[E|[]]]]; rewrite <-E in *; destruct capture; try done; by vm_compute. }
      assert (Hs2 : spec_settle id (state_of to) (abs w) =
        if bool_decide (state_of (rv_Status r) = state_of to) then (None, abs w) else (Some ErrReservationState, abs w)).
      { unfold spec_settle. rewrite Hspec. simpl.
        destruct (state_of (rv_Status r)) eqn:E; [by destruct Es; apply Hstate|done..]. }
      destruct (decide (rv_Status r = to)) as [Et|Et].
      * rewrite (bool_decide_eq_true_2 _ Et). wp_step. split; [by intros ->|]. split_and!; [done..|].
        by rewrite Hs2, bool_decide_eq_true_2 by by apply Hto'.
      * rewrite (bool_decide_eq_false_2 _ Et). wp_step. split; [done|]. intros _. right. split; [done|].
        rewrite Hs2, bool_decide_eq_false_2; [done|]. by rewrite <-Hto'.
Qed.

Lemma wp_run_ledger h w c : ledger_ok w -> wp h (run_ledger c) w (ledger_post h w c).
Proof.
  intros Hw. destruct c as [t k a now|id now stamp|id now stamp]; simpl.
  - by apply wp_Reserve.
  - eapply wp_mono; [by apply (wp_settle h w id false "released")|].
    intros [e|u] w' HQ; [|done]. destruct HQ as [-> HQ]. split; [done|].
    intros Hh. destruct (HQ Hh) as [?|[? Hs]]; [by left|right]. split; [done|]. by exists e.
  - eapply wp_mono; [by apply (wp_settle h w id true "captured")|].
    intros [e|u] w' HQ; [|done]. destruct HQ as [-> HQ]. split; [done|].
    intros Hh. destruct (HQ Hh) as [?|[? Hs]]; [by left|right]. split; [done|]. by exists e.
Qed.

End Calls.

(** ** Properties *)

(** A hold always belongs to a funded tenant. *)
Definition backed (L : LedgerSpec) : Prop :=
  forall k h, holds L !! k = Some h -> is_Some (funds L !! hd_Tenant h).

Lemma spec_reserve_captured t k a L L' tenantID :
  spec_reserve t k a L = (None, L') ->
  funds L' = funds L /\ amounts_in Captured tenantID (holds L') = amounts_in Captured tenantID (holds L).
Proof.
  unfold spec_reserve. intros Hs. repeat case_in Hs; simplify_eq; try done. simpl. split; [done|].
  rewrite amounts_in_insert_new by done. simpl. rewrite andb_false_r. lia.
Qed.

Lemma spec_settle_captured k to L L' tenantID :
  backed L -> to <> Held -> spec_settle k to L = (None, L') ->
  default 0 (funds L' !! tenantID) + amounts_in Captured tenantID (holds L') =
  default 0 (funds L !! tenantID) + amounts_in Captured tenantID (holds L).
Proof.
  intros Hb Hto. unfold spec_settle. destruct (holds L !! k) as [h|] eqn:Eh; [|done].
  destruct (hd_State h) eqn:Es.
  2,3: case_bool_decide; intros; by simplify_eq.
  intros [= <-]. simpl. rewrite (amounts_in_replace _ _ _ _ _ _ Eh), Es. simpl.
  rewrite andb_false_r.
  destruct (Hb _ _ Eh) as [b Hbal]. destruct (decide (to = Captured)) as [->|Hc].
  - rewrite (bool_decide_eq_true_2 (Captured = Captured)), andb_true_r by done.
    destruct (decide (hd_Tenant h = tenantID)) as [<-|Hne].
    + rewrite lookup_alter_eq, Hbal, bool_decide_eq_true_2 by done. simpl. lia.
    + rewrite lookup_alter_ne, bool_decide_eq_false_2 by done. lia.
  - rewrite (bool_decide_eq_false_2 (to = Captured)), andb_false_r by done. lia.
Qed.

Section Properties.
  Context `{Sql}.
  Implicit Types (w : Billing) (c : ledger_call).

(** C13. Refinement: on a sound database, when the driver does not fail, each
    of Reserve, Release and Capture does what the ledger specification does,
    which computes the available funds from the holds themselves: it accepts
    exactly the calls the specification accepts, reports its error for the
    others and leaves them without effect, and stays sound. *)
Theorem ledger_refines w c :
  ledger_ok w ->
  exists r w', runs (run_ledger c) w r w' /\
    match r with
    | inr _ => call_rejected c = false /\ ledger_ok w' /\ spec_step c (abs w) = (None, abs w')
    | inl e => w' = w /\ ((call_rejected c = true /\ e = ErrInvalidUsage) \/
        (call_rejected c = false /\ exists e0, spec_step c (abs w) = (Some e0, abs w) /\ e = reported c e0))
    end.
Proof.
  intros Hw. destruct (wp_runs _ _ _ (wp_run_ledger true w c Hw)) as (r & w' & Hr & HQ).
  exists r, w'. split; [done|]. destruct r as [e|u]; [|done]. destruct HQ as [-> HQ]. auto.
Qed.

Inductive ledger_step : Billing -> Billing -> Prop :=
| ledger_step_call c r w w' : outcome (run_ledger c) w r w' -> ledger_step w w'.

Lemma backed_abs w : ledger_ok w -> backed (abs w).
Proof.
  intros Hw k h. simpl. rewrite !lookup_fmap. destruct (rows (billing_reservations w) !! k) as [r|] eqn:Er; [|done].
  intros [= <-]. destruct (lo_reservation w Hw _ _ Er) as (_ & _ & _ & _ & [a Ha]). simpl.
  rewrite Ha. by eexists.
Qed.

Lemma spec_step_conserves w c L' tenantID :
  ledger_ok w -> spec_step c (abs w) = (None, L') ->
  default 0 (funds L' !! tenantID) + amounts_in Captured tenantID (holds L') =
  default 0 (funds (abs w) !! tenantID) + amounts_in Captured tenantID (holds (abs w)).
Proof.
  intros Hw Hs. destruct c as [t k a now|id now stamp|id now stamp].
  - by destruct (spec_reserve_captured _ _ _ _ _ tenantID Hs) as [-> ->].
  - by eapply spec_settle_captured; [apply backed_abs| |exact Hs].
  - by eapply spec_settle_captured; [apply backed_abs| |exact Hs].
Qed.

Lemma ledger_step_ok w w' tenantID :
  ledger_ok w -> ledger_step w w' ->
  ledger_ok w' /\
  default 0 (funds (abs w') !! tenantID) + amounts_in Captured tenantID (holds (abs w')) =
  default 0 (funds (abs w) !! tenantID) + amounts_in Captured tenantID (holds (abs w)).
Proof.
  intros Hw Hs. revert Hw. destruct Hs as [c r x y Ho]. intros Hw.
  pose proof (wp_outcome _ _ _ _ _ (wp_run_ledger false x c Hw) Ho) as HQ.
  destruct r as [e|u]; [by destruct HQ as [-> _]|].
  destruct HQ as (_ & Hy & Hspec). split; [done|]. by eapply spec_step_conserves.
Qed.

(** C14. Money is conserved: under any calls and any driver failures, what a
    tenant has left plus what was captured of it never changes, every account
    keeps 0 <= reserved <= balance, and its reserved counter is what the open
    reservations hold, so an overdraft is impossible. *)
Theorem funds_conserved w0 w tenantID :
  ledger_ok w0 -> rtc ledger_step w0 w ->
  default 0 (funds (abs w) !! tenantID) + amounts_in Captured tenantID (holds (abs w)) =
  default 0 (funds (abs w0) !! tenantID) + amounts_in Captured tenantID (holds (abs w0)) /\
  forall a, rows (billing_accounts w) !! tenantID = Some a ->
    0 <= ac_ReservedMicros a <= ac_BalanceMicros a /\ ac_ReservedMicros a = held w tenantID.
Proof.
  intros Hw Hr. enough (Hgen : ledger_ok w /\
    default 0 (funds (abs w) !! tenantID) + amounts_in Captured tenantID (holds (abs w)) =
    default 0 (funds (abs w0) !! tenantID) + amounts_in Captured tenantID (holds (abs w0))).
  { destruct Hgen as [Hok E]. split; [done|]. intros a Ha.
    split; [apply (lo_account w Hok _ _ Ha)|by apply (lo_cache w Hok)]. }
  induction Hr as [w|w w1 w2 Hs _ IH]; [done|].
  destruct (ledger_step_ok w w1 tenantID Hw Hs) as [Hw1 E]. destruct (IH Hw1) as [Hw2 E2].
  split; [done|]. by rewrite E2.
Qed.

(** [UpsertAccount] is accepted exactly for 0 <= reserved <= balance and a
    tenant, writes that account only, and keeps the ledger sound exactly when
    the counter it is given is what the tenant's open reservations hold. *)
Theorem upsert_account_spec w (account : Account) now :
  ledger_ok w -> ac_BalanceMicros account < 2 ^ 63 ->
  let t := ac_TenantID account in
  if negb (is_empty t) && (0 <=? ac_ReservedMicros account) && (ac_ReservedMicros account <=? ac_BalanceMicros account)
  then exists w', runs (UpsertAccount account now) w (inr tt) w' /\
    (forall j, j <> t -> rows (billing_accounts w') !! j = rows (billing_accounts w) !! j) /\
    rows (billing_reservations w') = rows (billing_reservations w) /\
    (exists a, rows (billing_accounts w') !! t = Some a /\ ac_TenantID a = t /\
       ac_BalanceMicros a = ac_BalanceMicros account /\ ac_ReservedMicros a = ac_ReservedMicros account /\
       ac_Currency a = (if is_empty (ac_Currency account) then "USD" else ac_Currency account)) /\
    (ledger_ok w' <-> ac_ReservedMicros account = held w t)
  else runs (UpsertAccount account now) w (inl ErrInvalidUsage) w.
Proof.
  intros Hw Hmax t. unfold UpsertAccount. fold t.
  assert (Hguard : is_empty t || (ac_BalanceMicros account <? 0) || (ac_ReservedMicros account <? 0) ||
     (ac_BalanceMicros account <? ac_ReservedMicros account) =
     negb (negb (is_empty t) && (0 <=? ac_ReservedMicros account) && (ac_ReservedMicros account <=? ac_BalanceMicros account))).
  { destruct (is_empty t); simpl; [done|]. lia. }
  rewrite Hguard. destruct (negb (is_empty t) && _ && _) eqn:E; simpl; [|done]. bools.
  set (cur := if is_empty (ac_Currency account) then "USD" else ac_Currency account).
  set (row := mkAccount t cur (ac_BalanceMicros account) (ac_ReservedMicros account) now).
  eassert (Hwp : wp true (upsert accounts (account_of t) (account_of t) _ t row) w (fun r w' =>
    r = inr tt /\ rows (billing_accounts w') = <[t := row]> (rows (billing_accounts w)) /\
    rows (billing_reservations w') = rows (billing_reservations w))).
  { apply (wp_upsert accounts true (account_of t) (account_of t)
      (fun r => mkAccount (ac_TenantID r) cur (ac_BalanceMicros row) (ac_ReservedMicros row) now)).
    - done.
    - intros (k & a & Ha & Et). unfold account_of in Et. bools.
      destruct (lo_account w Hw _ _ Ha) as [Ek _]. assert (k = t) as -> by congruence.
      split_and!; [done| |done]. simpl. rewrite <-Et at 1. rewrite (update_account w t a _ Hw Ha).
      unfold row. by rewrite Et.
    - intros Hn (k & a & Ha & Et). by rewrite (Hn _ _ Ha) in Et.
    - intros _ _. split_and!; [done| |done]. simpl. by rewrite rows_insert. }
  destruct (wp_runs _ _ _ Hwp) as (r & w' & Hrun & -> & Ea & Er). exists w'. split; [exact Hrun|].
  assert (Hheld : forall j, held w' j = held w j) by (intros j; unfold held, abs; simpl; by rewrite Er).
  split_and!.
  - intros j Hj. by rewrite Ea, lookup_insert_ne.
  - done.
  - exists row. by rewrite Ea, lookup_insert_eq.
  - split.
    + intros Hw'. rewrite <-Hheld. by apply (lo_cache w' Hw' t row); rewrite Ea, lookup_insert_eq.
    + intros Hc. split.
      * intros k a. rewrite Ea, lookup_insert. case_decide as Ek; [|apply (lo_account w Hw)].
        intros [= <-]. split; [done|]. simpl. lia.
      * intros k a. rewrite Ea, lookup_insert, Hheld. case_decide as Ek; [|apply (lo_cache w Hw)].
        intros [= <-]. by subst.
      * intros k x. rewrite Er, Ea, lookup_insert. intros Hx.
        destruct (lo_reservation w Hw _ _ Hx) as (? & ? & ? & ? & ?). split_and!; [done..|].
        by case_decide.
Qed.

End Properties.

(** ** Concrete instances *)
Definition demo_account : Account := mkAccount "t1" "USD" 100 0 1.
Definition funded : @Billing map_sql :=
  @mkBilling map_sql ∅ ∅ ∅ {["t1" := demo_account]} ∅ ∅ ∅ ∅ ∅ ∅.
Definition reserved_60 : @Billing map_sql := after (Reserve "t1" "r1" 60 2) funded.

Lemma funded_ok : @ledger_ok map_sql funded.
Proof.
  split.
  - intros k a Ha. change (({["t1" := demo_account]} : gmap string Account) !! k = Some a) in Ha.
    apply lookup_singleton_Some in Ha as [<- <-]. simpl. split_and!; [done|lia..].
  - intros k a Ha. change (({["t1" := demo_account]} : gmap string Account) !! k = Some a) in Ha.
    apply lookup_singleton_Some in Ha as [<- <-]. reflexivity.
  - intros k r Hr. change ((∅ : gmap string Reservation) !! k = Some r) in Hr. by rewrite lookup_empty in Hr.
Qed.

Lemma reserved_step : @ledger_step map_sql funded reserved_60.
Proof.
  apply (ledger_step_call (CallReserve "t1" "r1" 60 2) (inr tt)). exists [], []. vm_compute. reflexivity.
Qed.

(** 60 of 100 are held: 50 more are refused, the capture of the 60 is paid. *)
Lemma ledger_refines_witness :
  exists r w', runs (run_ledger (CallReserve "t1" "r2" 50 3)) funded r w' /\ r = inr tt.
Proof.
  destruct (@ledger_refines map_sql funded (CallReserve "t1" "r2" 50 3) funded_ok) as (r & w' & Hr & HQ).
  exists r, w'. split; [exact Hr|]. destruct r as [e|[]]; [|reflexivity].
  destruct HQ as [_ [[HQ _]|(_ & e0 & HQ & _)]]; exfalso; vm_compute in HQ; discriminate HQ.
Defined.

Lemma funds_conserved_witness :
  default 0 (funds (abs reserved_60) !! "t1") = 100 /\ held reserved_60 "t1" = 60.
Proof.
  destruct (@funds_conserved map_sql funded reserved_60 "t1" funded_ok) as [E Ha].
  - apply rtc_once, reserved_step.
  - split; [vm_compute; reflexivity|].
    rewrite <-(proj2 (Ha (mkAccount "t1" "USD" 100 60 2) ltac:(vm_compute; reflexivity))). reflexivity.
Defined.

Lemma upsert_account_spec_witness :
  exists w', runs (UpsertAccount (mkAccount "t1" "" 70 0 0) 5) funded (inr tt) w' /\ ledger_ok w'.
Proof.
  destruct (@upsert_account_spec map_sql funded (mkAccount "t1" "" 70 0 0) 5 funded_ok ltac:(simpl; lia))
    as (w' & Hr & _ & _ & _ & Hok).
  exists w'. split; [exact Hr|]. apply Hok. reflexivity.
Defined.
