(* ===== verification/Plans.v ===== *)
(** * Plans, prices and allowances (internal/billing/billing.go)

    The plan catalogue with its model allow-lists, the price list, and the
    decisions the gateway takes from them. *)
From S2P Require Import Prelude GoStrings Sql Billing.

Record PlanDetails := mkPlanDetails { pd_Plan : Plan; pd_Models : list string }.

Record AllowanceStatus := mkAllowanceStatus {
  as_PlanID : string; as_Model : string; as_ModelAllowed : bool; as_PricingConfigured : bool;
  as_IncludedCreditMicros : Z; as_UsedCreditMicros : Z; as_RemainingCreditMicros : Z;
  as_MaxConcurrent : Z; as_OveragePolicy : string; as_Allowed : bool }.

Record TenantPlanDetails := mkTenantPlanDetails {
  td_Assignment : TenantPlan; td_Plan : Plan; td_Models : list string; td_Credit : AllowanceStatus }.

Record ModelPolicy := mkModelPolicy {
  mp_PlanID : string; mp_PlanModels : list string; mp_PricedModels : list string }.

(** ** Model identifiers *)
Definition skuCandidates (model : string) : list string :=
  let model := trim_space model in
  [model] ++
  (match index_byte model "/"%char with
   | Some (S _ as slash) => if (slash + 1 <? String.length model)%nat then [sdrop (slash + 1) model] else []
   | _ => []
   end) ++
  (if negb (bool_decide (model = "*")) then ["*"] else []).

Definition modelIDMatches (configured : list string) (model : string) : bool :=
  match configured with
  | [] => false
  | _ => let candidates := skuCandidates model in
         existsb (fun configuredModel =>
           existsb (fun candidate => bool_decide (configuredModel = candidate)) candidates) configured
  end.

Definition ModelAllowed (p : ModelPolicy) (model : string) : bool := modelIDMatches (mp_PlanModels p) model.
Definition PricingConfigured (p : ModelPolicy) (model : string) : bool := modelIDMatches (mp_PricedModels p) model.
Definition Allows (p : ModelPolicy) (model : string) : bool := ModelAllowed p model && PricingConfigured p model.

Definition model_spaces : string := of_bytes [32; 9; 13; 10]%nat.

Definition validModelID (model : string) : bool :=
  bool_decide (model = "*") ||
  match index_byte model "/"%char with
  | Some (S _ as slash) => (slash <? String.length model - 1)%nat && negb (contains_any model model_spaces)
  | _ => false
  end.

Fixpoint valid_models (seen : list string) (models : list string) : bool :=
  match models with
  | [] => true
  | raw :: rest =>
      let model := trim_space raw in
      validModelID model && negb (bool_decide (model ∈ seen)) && valid_models (model :: seen) rest
  end.

Definition validPlan (p : Plan) (models : list string) : bool :=
  negb (blank (pl_ID p) || blank (pl_Name p) || (pl_MonthlyMicros p <? 0) ||
        (pl_IncludedCreditMicros p <? 0) || (pl_MaxConcurrent p <=? 0) ||
        match models with [] => true | _ => false end ||
        (negb (is_empty (pl_OveragePolicy p)) && negb (bool_decide (pl_OveragePolicy p = "reject")) &&
         negb (bool_decide (pl_OveragePolicy p = "allow")))) &&
  valid_models [] models.

Definition normalizeModels (models : list string) : list string := trim_space <$> models.

(** The price of one side of a request: rounded up to a micro. *)
Definition price (tokens rate : Z) : Z :=
  if (tokens =? 0) || (rate =? 0) then 0
  else Z.quot ((tokens *64 rate) +64 999999) 1000000.

(** The defaults a stored plan gets for its empty terms. *)
Definition with_defaults (p : Plan) : Plan :=
  mkPlan (pl_ID p) (pl_Name p) (if is_empty (pl_Currency p) then "USD" else pl_Currency p)
    (pl_MonthlyMicros p) (pl_IncludedCreditMicros p) (pl_MaxConcurrent p)
    (if is_empty (pl_OveragePolicy p) then "reject" else pl_OveragePolicy p) (pl_CreatedAt p).

Definition trimmed_plan (p : Plan) : Plan :=
  mkPlan (trim_space (pl_ID p)) (trim_space (pl_Name p)) (pl_Currency p) (pl_MonthlyMicros p)
    (pl_IncludedCreditMicros p) (pl_MaxConcurrent p) (pl_OveragePolicy p) (pl_CreatedAt p).

Definition set_created (now : Z) (p : Plan) : Plan :=
  mkPlan (pl_ID p) (pl_Name p) (pl_Currency p) (pl_MonthlyMicros p) (pl_IncludedCreditMicros p)
    (pl_MaxConcurrent p) (pl_OveragePolicy p) now.

(** The columns an update of [p] assigns to a stored row. *)
Definition assign_terms (p r : Plan) : Plan :=
  mkPlan (pl_ID r) (pl_Name p) (pl_Currency p) (pl_MonthlyMicros p) (pl_IncludedCreditMicros p)
    (pl_MaxConcurrent p) (pl_OveragePolicy p) (pl_CreatedAt r).

Definition cheapest_first `{Sql} (a b : Plan) : Prop :=
  pl_MonthlyMicros a < pl_MonthlyMicros b \/
  (pl_MonthlyMicros a = pl_MonthlyMicros b /\ text_le (pl_ID a) (pl_ID b) = true).
#[export] Instance cheapest_first_dec `{Sql} : RelDecision cheapest_first.
Proof. intros a b. unfold cheapest_first. apply _. Defined.

Definition model_asc `{Sql} (a b : PlanModel) : Prop := text_le (pm_ModelID a) (pm_ModelID b) = true.
#[export] Instance model_asc_dec `{Sql} : RelDecision model_asc.
Proof. intros a b. unfold model_asc. apply _. Defined.

Definition sku_asc `{Sql} (a b : SKU) : Prop := text_le (sk_ID a) (sk_ID b) = true.
#[export] Instance sku_asc_dec `{Sql} : RelDecision sku_asc.
Proof. intros a b. unfold sku_asc. apply _. Defined.

Section Store.
  Context `{Sql}.

Definition plan_is (id : string) (r : Plan) : bool := bool_decide (pl_ID r = id).

(** ** Assignments *)
Definition SetTenantPlanTx (tenantID planID : string) (starts : Z) : M Billing unit :=
  if is_empty tenantID || blank planID || is_zero_time starts then throw ErrInvalidUsage else
  take_row plans (plan_is planID);;
  let row := mkTenantPlan tenantID planID starts None in
  upsert tenant_plans (fun r => bool_decide (tp_TenantID r = tenantID))
    (fun r => bool_decide (tp_TenantID r = tenantID))
    (fun r => mkTenantPlan (tp_TenantID r) planID starts None) tenantID row.

Definition SetTenantPlan (tenantID planID : string) (starts : Z) : M Billing unit :=
  transaction (SetTenantPlanTx tenantID planID starts).

Definition active_at (tenantID : string) (at_ : Z) (r : TenantPlan) : bool :=
  bool_decide (tp_TenantID r = tenantID) && (tp_StartsAt r <=? at_) &&
  match tp_EndsAt r with None => true | Some e => at_ <? e end.

Definition listPlanModels (planID : string) : M Billing (list string) :=
  l ← find plan_models (fun r => bool_decide (pm_PlanID r = planID));
  mret (pm_ModelID <$> merge_sort model_asc l).

Definition ListPlans : M Billing (list PlanDetails) :=
  l ← find plans (fun _ => true);
  mapM (fun plan => models ← listPlanModels (pl_ID plan); mret (mkPlanDetails plan models))
       (merge_sort cheapest_first l).

(** ** Allowances *)
Definition allowanceStatus (tenantID planID : string) (plan : Plan) (model : string)
    (from to additionalMicros : Z) : M Billing AllowanceStatus :=
  flags ← (if negb (is_empty model) then
      m1 ← count plan_models (fun r => bool_decide (pm_PlanID r = planID) &&
                                       bool_decide (pm_ModelID r ∈ skuCandidates model));
      m2 ← count skus (fun r => bool_decide (sk_ID r ∈ skuCandidates model));
      mret (0 <? m1, 0 <? m2)
    else mret (true, true));
  used ← aggregate usage_events (int64_sum ue_AmountMicros) (in_window tenantID from to);
  let remaining := pl_IncludedCreditMicros plan -64 used in
  let remaining := if remaining <? 0 then 0 else remaining in
  let creditAllowed :=
    if bool_decide (pl_OveragePolicy plan = "reject") then
      if 0 <? additionalMicros then (used +64 additionalMicros) <=? pl_IncludedCreditMicros plan
      else used <? pl_IncludedCreditMicros plan
    else true in
  mret (mkAllowanceStatus planID model flags.1 flags.2 (pl_IncludedCreditMicros plan) used remaining
          (pl_MaxConcurrent plan) (pl_OveragePolicy plan) (flags.1 && flags.2 && creditAllowed)).

Definition CheckAllowance (tenantID model : string) (at_ from to additionalMicros : Z)
    : M Billing AllowanceStatus :=
  if is_empty tenantID || blank model || is_zero_time at_ || is_zero_time from || is_zero_time to ||
     negb (from <? to) || (additionalMicros <? 0) then throw ErrInvalidUsage else
  assignment ← take_row tenant_plans (active_at tenantID at_);
  plan ← take_row plans (plan_is (tp_PlanID assignment));
  allowanceStatus tenantID (tp_PlanID assignment) plan (trim_space model) from to additionalMicros.

Definition CurrentTenantPlan (tenantID : string) (at_ from to : Z) : M Billing TenantPlanDetails :=
  if is_empty tenantID || is_zero_time at_ || is_zero_time from || is_zero_time to || negb (from <? to)
  then throw ErrInvalidUsage else
  assignment ← take_row tenant_plans (active_at tenantID at_);
  plan ← take_row plans (plan_is (tp_PlanID assignment));
  models ← listPlanModels (pl_ID plan);
  credit ← allowanceStatus tenantID (tp_PlanID assignment) plan EmptyString from to 0;
  mret (mkTenantPlanDetails assignment plan models credit).

Definition ListSKUs : M Billing (list SKU) :=
  l ← find skus (fun _ => true);
  mret (merge_sort sku_asc l).

Definition CurrentModelPolicy (tenantID : string) (at_ : Z) : M Billing ModelPolicy :=
  if is_empty tenantID || is_zero_time at_ then throw ErrInvalidUsage else
  assignment ← take_row tenant_plans (active_at tenantID at_);
  models ← listPlanModels (tp_PlanID assignment);
  l ← find skus (fun _ => true);
  mret (mkModelPolicy (tp_PlanID assignment) models (sk_ID <$> merge_sort sku_asc l)).

(** ** Prices *)
Definition sku_is (id : string) (r : SKU) : bool := bool_decide (sk_ID r = id).

Definition UpsertSKUTx (sku : SKU) (now : Z) : M Billing unit :=
  if blank (sk_ID sku) || blank (sk_Name sku) || (sk_PromptMicrosPer1M sku <? 0) ||
     (sk_CompletionMicrosPer1M sku <? 0) then throw ErrInvalidUsage else
  let row := mkSKU (trim_space (sk_ID sku)) (trim_space (sk_Name sku)) (sk_PromptMicrosPer1M sku)
    (sk_CompletionMicrosPer1M sku) (Z.quot (sk_PromptMicrosPer1M sku) 1000)
    (Z.quot (sk_CompletionMicrosPer1M sku) 1000)
    (if is_zero_time (sk_CreatedAt sku) then now else sk_CreatedAt sku) in
  upsert skus (sku_is (sk_ID row)) (sku_is (sk_ID row))
    (fun r => mkSKU (sk_ID r) (sk_Name row) (sk_PromptMicrosPer1M row) (sk_CompletionMicrosPer1M row)
                (sk_LegacyPromptPer1K row) (sk_LegacyCompletionPer1K row) (sk_CreatedAt r))
    (sk_ID row) row.

Definition UpsertSKU (sku : SKU) (now : Z) : M Billing unit := transaction (UpsertSKUTx sku now).

Definition zero_sku : SKU := mkSKU EmptyString EmptyString 0 0 0 0 zero_time.

(** The candidate loop: the first candidate the price list has. *)
Fixpoint first_sku (candidates : list string) : M Billing SKU :=
  match candidates with
  | [] => mret zero_sku
  | candidate :: rest =>
      r ← attempt (take_row skus (sku_is candidate));
      match r with
      | inr sku => mret sku
      | inl e =>
          if negb (errors_is e ErrRecordNotFound) then throw e else
          match rest with [] => throw e | _ => first_sku rest end
      end
  end.

Definition PriceUsage (model : string) (promptTokens completionTokens : Z) : M Billing Z :=
  if blank model || (promptTokens <? 0) || (completionTokens <? 0) then throw ErrInvalidUsage else
  sku ← first_sku (skuCandidates model);
  mret (price promptTokens (sk_PromptMicrosPer1M sku) +64
        price completionTokens (sk_CompletionMicrosPer1M sku)).

(** ** Writing plans *)
Definition model_key (planID model : string) (r : PlanModel) : bool :=
  bool_decide (pm_PlanID r = planID) && bool_decide (pm_ModelID r = model).

Definition create_models (planID : string) (models : list string) : M Billing unit :=
  mapM (fun model => create plan_models (model_key planID model) (planID, model) (mkPlanModel planID model))
       (normalizeModels models);;
  mret tt.

Definition CreatePlanTx (p : Plan) (models : list string) (now : Z) : M Billing unit :=
  if negb (validPlan p models) then throw ErrInvalidUsage else
  let p := with_defaults (set_created now (trimmed_plan p)) in
  create plans (plan_is (pl_ID p)) (pl_ID p) p;;
  create_models (pl_ID p) models.

Definition CreatePlan (p : Plan) (models : list string) (now : Z) : M Billing unit :=
  transaction (CreatePlanTx p models now).

Definition UpdatePlanTx (p : Plan) (models : list string) : M Billing unit :=
  if negb (validPlan p models) then throw ErrInvalidUsage else
  let p := with_defaults (trimmed_plan p) in
  n ← update plans (plan_is (pl_ID p)) (assign_terms p);
  if n =? 0 then throw ErrRecordNotFound else
  delete_where plan_models (fun r => bool_decide (pm_PlanID r = pl_ID p));;
  create_models (pl_ID p) models.

Definition EnsurePlan (p : Plan) (models : list string) (now : Z) : M Billing unit :=
  if negb (validPlan p models) then throw ErrInvalidUsage else
  let p := with_defaults p in
  let p := if is_zero_time (pl_CreatedAt p) then set_created now p else p in
  transaction (
    upsert plans (plan_is (pl_ID p)) (plan_is (pl_ID p)) (assign_terms p) (pl_ID p) p;;
    let normalized := normalizeModels models in
    delete_where plan_models (fun r => bool_decide (pm_PlanID r = pl_ID p) &&
                                       negb (bool_decide (pm_ModelID r ∈ normalized)));;
    mapM (fun model => create_or_ignore plan_models (model_key (pl_ID p) model) (model_key (pl_ID p) model)
                         (pl_ID p, model) (mkPlanModel (pl_ID p) model)) normalized;;
    mret tt).

(** ** Migrations of older catalogues *)
Definition migrateLegacySKUPrices (hadPromptPer1M hadCompletionPer1M hadPromptPer1K hadCompletionPer1K : bool)
    : M Billing unit :=
  transaction (
    (if negb hadPromptPer1M && hadPromptPer1K then
       update skus (fun _ => true) (fun r => mkSKU (sk_ID r) (sk_Name r) (sk_LegacyPromptPer1K r * 1000)
         (sk_CompletionMicrosPer1M r) (sk_LegacyPromptPer1K r) (sk_LegacyCompletionPer1K r) (sk_CreatedAt r))
     else mret 0);;
    (if negb hadCompletionPer1M && hadCompletionPer1K then
       update skus (fun _ => true) (fun r => mkSKU (sk_ID r) (sk_Name r) (sk_PromptMicrosPer1M r)
         (sk_LegacyCompletionPer1K r * 1000) (sk_LegacyPromptPer1K r) (sk_LegacyCompletionPer1K r) (sk_CreatedAt r))
     else mret 0);;
    mret tt).

Definition max_concurrent_of (l : list PlanQuota) : error + Z :=
  inr (foldr (fun q acc => Z.max (pq_MaxConcurrent q) acc)
         (match l with [] => 0 | q :: _ => pq_MaxConcurrent q end) l).

Definition migrateLegacyPlanConfig (hadCreditColumn hadConcurrencyColumn : bool) : M Billing unit :=
  quotas ← find plan_quotas (fun _ => true);
  transaction (
    mapM (fun quota => create_or_ignore plan_models (model_key (pq_PlanID quota) (pq_SKU quota))
            (model_key (pq_PlanID quota) (pq_SKU quota)) (pq_PlanID quota, pq_SKU quota)
            (mkPlanModel (pq_PlanID quota) (pq_SKU quota))) quotas;;
    (if negb hadCreditColumn then
       update plans (fun r => (pl_IncludedCreditMicros r =? 0) && (0 <? pl_MonthlyMicros r))
         (fun r => mkPlan (pl_ID r) (pl_Name r) (pl_Currency r) (pl_MonthlyMicros r) (pl_MonthlyMicros r)
                     (pl_MaxConcurrent r) (pl_OveragePolicy r) (pl_CreatedAt r))
     else mret 0);;
    (if negb hadConcurrencyColumn then
       all ← find plans (fun _ => true);
       mapM (fun plan =>
         maxConcurrent ← aggregate plan_quotas max_concurrent_of (fun r => bool_decide (pq_PlanID r = pl_ID plan));
         if 0 <? maxConcurrent then
           update plans (plan_is (pl_ID plan))
             (fun r => mkPlan (pl_ID r) (pl_Name r) (pl_Currency r) (pl_MonthlyMicros r)
                (pl_IncludedCreditMicros r) maxConcurrent (pl_OveragePolicy r) (pl_CreatedAt r))
         else mret 0) all
     else mret []);;
    mret tt).

End Store.

(** ** Facts about model identifiers *)
Lemma modelIDMatches_spec configured model :
  modelIDMatches configured model = true <-> exists m, m ∈ configured /\ m ∈ skuCandidates model.
Proof.
  unfold modelIDMatches.
  assert (Hb : existsb (fun c => existsb (fun d => bool_decide (c = d)) (skuCandidates model)) configured = true <->
               exists m, m ∈ configured /\ m ∈ skuCandidates model).
  { rewrite existsb_exists. setoid_rewrite existsb_exists. setoid_rewrite <-list_elem_of_In.
    split; [intros (m & Hm & c & Hc & E); bools; subst; eauto|].
    intros (m & Hm & Hc). exists m. split; [done|]. exists m. by rewrite bool_decide_eq_true_2. }
  destruct configured as [|c l]; [|exact Hb]. split; [done|]. intros (m & Hm & _). by apply elem_of_nil in Hm.
Qed.

Lemma valid_models_spec seen models :
  valid_models seen models = true ->
  NoDup (normalizeModels models) /\
  forall m, m ∈ normalizeModels models -> m ∉ seen /\ validModelID m = true.
Proof.
  revert seen. induction models as [|raw rest IH]; intros seen; simpl.
  { intros _. split; [constructor|]. intros m Hm. by apply elem_of_nil in Hm. }
  intros Hv. bools. destruct (IH (trim_space raw :: seen)) as [Hnd Hin]; [done|]. split.
  - apply NoDup_cons. split; [|done]. intros Hm. destruct (Hin _ Hm) as [Hn _]. apply Hn. by left.
  - intros m [->|Hm]%elem_of_cons; [done|]. destruct (Hin _ Hm) as [Hn ?].
    split; [|done]. intros Hs. apply Hn. by right.
Qed.

Lemma validPlan_models p models : validPlan p models = true -> NoDup (normalizeModels models).
Proof. intros Hv. unfold validPlan in Hv. bools. by eapply valid_models_spec. Qed.

(** ** The catalogue *)
Section Catalog.
  Context `{Sql}.
  Implicit Types (w : Billing).

Record catalog_ok w : Prop := {
  co_plan : forall k r, rows (billing_plans w) !! k = Some r -> pl_ID r = k;
  co_sku : forall k r, rows (billing_skus w) !! k = Some r -> sk_ID r = k;
  co_model : forall k r, rows (billing_plan_models w) !! k = Some r -> k = (pm_PlanID r, pm_ModelID r);
  co_assignment : forall k r, rows (billing_tenant_plans w) !! k = Some r -> tp_TenantID r = k }.

(** The allow-list rows after the models [ms] were added to a plan. *)
Definition models_added w (planID : string) (ms : list string) (t : table (string * string) PlanModel) : Prop :=
  forall p m, rows t !! (p, m) =
    if decide (p = planID /\ m ∈ ms) then Some (mkPlanModel p m) else rows (billing_plan_models w) !! (p, m).

Lemma models_added_step w planID ms m t :
  models_added w planID ms t -> models_added w planID (ms ++ [m]) (insert_row (planID, m) (mkPlanModel planID m) t).
Proof.
  intros Ht p x. rewrite rows_insert, lookup_insert, Ht.
  destruct (decide ((planID, m) = (p, x))) as [E|E].
  - injection E as <- <-. rewrite decide_True; [done|]. split; [done|]. set_solver.
  - destruct (decide (p = planID /\ x ∈ ms)) as [[-> Hx]|Hn].
    + rewrite decide_True; [done|]. set_solver.
    + rewrite decide_False; [done|]. intros [-> Hx]. apply elem_of_app in Hx as [Hx|Hx]; [by apply Hn|].
      apply list_elem_of_singleton in Hx. congruence.
Qed.

Lemma model_key_lookup w planID m ms t k r :
  catalog_ok w -> models_added w planID ms t -> rows t !! k = Some r -> model_key planID m r = true ->
  k = (planID, m).
Proof.
  intros Hw Ht Hr E. unfold model_key in E. bools. destruct k as [p x]. rewrite Ht in Hr.
  case_decide; [simplify_eq; simpl in *; congruence|]. rewrite (co_model w Hw _ _ Hr). congruence.
Qed.

Lemma wp_create_models h w planID models :
  catalog_ok w -> NoDup (normalizeModels models) ->
  (forall m, m ∈ normalizeModels models -> rows (billing_plan_models w) !! (planID, m) = None) ->
  wp h (create_models planID models) w (fun r w' => match r with
    | inl _ => h = false
    | inr _ => exists t, w' = fset plan_models t w /\ models_added w planID (normalizeModels models) t
    end).
Proof.
  intros Hw Hnd Hfree. unfold create_models. wp_step.
  apply wp_mapM with (I := fun done _ w' => exists t, w' = fset plan_models t w /\ models_added w planID done t).
  - exists (billing_plan_models w). split; [by destruct w|]. intros p m.
    rewrite decide_False; [done|]. intros [_ Hm]. by apply elem_of_nil in Hm.
  - intros ms m rest acc w' Hl (t & -> & Ht). apply wp_create; simpl.
    + by intros ->.
    + intros (k & r & Hr & E). exfalso. pose proof (model_key_lookup _ _ _ _ _ _ _ Hw Ht Hr E) as ->.
      rewrite Ht in Hr. case_decide as Hd.
      * destruct Hd as [_ Hin]. rewrite Hl in Hnd. apply NoDup_app in Hnd as (_ & Hnd & _).
        apply (Hnd m Hin). by left.
      * rewrite Hfree in Hr; [done|]. rewrite Hl. set_solver.
    + intros _. exists (insert_row (planID, m) (mkPlanModel planID m) t). split; [done|].
      by apply models_added_step.
  - intros acc w' Ht. by wp_step.
Qed.

Lemma wp_ensure_models h w planID ms :
  catalog_ok w ->
  wp h (mapM (fun model => create_or_ignore plan_models (model_key planID model) (model_key planID model)
                         (planID, model) (mkPlanModel planID model)) ms) w (fun r w' => match r with
    | inl _ => h = false
    | inr _ => exists t, w' = fset plan_models t w /\ models_added w planID ms t
    end).
Proof.
  intros Hw.
  apply wp_mapM with (I := fun done _ w' => exists t, w' = fset plan_models t w /\ models_added w planID done t).
  - exists (billing_plan_models w). split; [by destruct w|]. intros p m.
    rewrite decide_False; [done|]. intros [_ Hm]. by apply elem_of_nil in Hm.
  - intros done m rest acc w' Hl (t & -> & Ht). apply wp_create_or_ignore; simpl.
    + by intros ->.
    + intros (k & r & Hr & E). exists t. split; [done|].
      pose proof (model_key_lookup _ _ _ _ _ _ _ Hw Ht Hr E) as ->.
      assert (Hrow : r = mkPlanModel planID m).
      { unfold model_key in E. bools. destruct r; simpl in *. congruence. }
      intros p x. rewrite Ht. destruct (decide (p = planID /\ x ∈ done)) as [[-> Hx]|Hn].
      * rewrite decide_True; [done|]. set_solver.
      * destruct (decide (p = planID /\ x ∈ done ++ [m])) as [[-> Hx]|]; [|done].
        apply elem_of_app in Hx as [Hx|Hx]; [by destruct Hn|]. apply list_elem_of_singleton in Hx as ->.
        rewrite Ht in Hr. rewrite decide_False in Hr by done. by rewrite Hr, Hrow.
    + intros Hn (k & r & Hr & E). by rewrite (Hn _ _ Hr) in E.
    + intros _ _. exists (insert_row (planID, m) (mkPlanModel planID m) t). split; [done|].
      by apply models_added_step.
  - done.
Qed.

(** What writing a plan leaves: the row under its id, exactly the trimmed models
    on its allow-list, everything else as it was. *)
Definition plan_written w w' (row : Plan) (models : list string) : Prop :=
  rows (billing_plans w') = <[pl_ID row := row]> (rows (billing_plans w)) /\
  (forall p m, rows (billing_plan_models w') !! (p, m) =
     if decide (p = pl_ID row) then
       if decide (m ∈ normalizeModels models) then Some (mkPlanModel p m) else None
     else rows (billing_plan_models w) !! (p, m)) /\
  w' = fset plan_models (billing_plan_models w') (fset plans (billing_plans w') w).

Lemma plan_written_ok w w' row models : catalog_ok w -> plan_written w w' row models -> catalog_ok w'.
Proof.
  intros Hw (Ep & Em & ->). simpl in *. split; simpl.
  - intros k r. rewrite Ep, lookup_insert. case_decide; [by intros [= <-]|apply (co_plan w Hw)].
  - apply (co_sku w Hw).
  - intros [p m] r. rewrite Em. case_decide; [case_decide; [by intros [= <-]|done]|apply (co_model w Hw)].
  - apply (co_assignment w Hw).
Qed.

Lemma plan_is_key w k r id : catalog_ok w -> rows (billing_plans w) !! k = Some r -> plan_is id r = true -> k = id.
Proof. intros Hw Hr E. unfold plan_is in E. bools. by rewrite <-(co_plan w Hw _ _ Hr). Qed.

Lemma update_plan_rows w g id r :
  catalog_ok w -> rows (billing_plans w) !! id = Some r ->
  rows (update_rows (plan_is id) g (billing_plans w)) = <[id := g r]> (rows (billing_plans w)).
Proof.
  intros Hw Hr. apply rows_update_unique; [done| |].
  - unfold plan_is. rewrite (co_plan w Hw _ _ Hr). by apply bool_decide_eq_true_2.
  - intros k r' Hr' E. by eapply plan_is_key.
Qed.

Lemma where_plan w id r :
  catalog_ok w -> rows (billing_plans w) !! id = Some r -> where_ (plan_is id) (billing_plans w) = [r].
Proof.
  intros Hw Hr. eapply where_unique; [done| |].
  - unfold plan_is. rewrite (co_plan w Hw _ _ Hr). by apply bool_decide_eq_true_2.
  - intros k r' Hr' E. by eapply plan_is_key.
Qed.

Lemma where_no_plan w id :
  catalog_ok w -> rows (billing_plans w) !! id = None -> where_ (plan_is id) (billing_plans w) = [].
Proof. intros Hw Hr. eapply where_none; [done|]. intros k r' Hr' E. by eapply plan_is_key. Qed.

(** The catalogue between the update of a plan and its new allow-list. *)
Definition cleared w (id : string) (g : Plan -> Plan) (drop : PlanModel -> bool) : Billing :=
  fset plan_models (delete_rows drop (billing_plan_models w))
    (fset plans (update_rows (plan_is id) g (billing_plans w)) w).

Lemma cleared_ok w id g drop :
  catalog_ok w -> (forall r, pl_ID (g r) = pl_ID r) -> catalog_ok (cleared w id g drop).
Proof.
  intros Hw Hg. split; simpl.
  - intros k x. rewrite rows_update, lookup_fmap. destruct (rows (billing_plans w) !! k) as [y|] eqn:Ey; [|done].
    intros [= <-]. rewrite <-(co_plan w Hw _ _ Ey). by destruct (plan_is _ y).
  - apply (co_sku w Hw).
  - intros k y. rewrite rows_delete. intros [Hy _]%map_lookup_filter_Some. by apply (co_model w Hw).
  - apply (co_assignment w Hw).
Qed.

Lemma dropped_lookup w (drop : PlanModel -> bool) x m :
  catalog_ok w ->
  rows (delete_rows drop (billing_plan_models w)) !! (x, m) =
    if drop (mkPlanModel x m) then None else rows (billing_plan_models w) !! (x, m).
Proof.
  intros Hw. rewrite rows_delete, map_lookup_filter.
  destruct (rows (billing_plan_models w) !! (x, m)) as [pm|] eqn:E; simpl.
  - pose proof (co_model w Hw _ _ E) as Ek. injection Ek as -> ->. destruct pm as [x m]; simpl.
    destruct (drop (mkPlanModel x m)); [by rewrite option_guard_False|by rewrite option_guard_True].
  - by destruct (drop _).
Qed.

Lemma wp_UpdatePlanTx h w p models r :
  catalog_ok w -> validPlan p models = true -> rows (billing_plans w) !! trim_space (pl_ID p) = Some r ->
  wp h (UpdatePlanTx p models) w (fun r0 w' => match r0 with
    | inl _ => h = false
    | inr _ => plan_written w w' (assign_terms (with_defaults (trimmed_plan p)) r) models
    end).
Proof.
  intros Hw Ev Hr. unfold UpdatePlanTx. rewrite Ev. simpl negb. cbv iota zeta.
  set (terms := with_defaults (trimmed_plan p)). set (id := pl_ID terms).
  wp_step. apply wp_update; [by intros ->|].
  change (fget plans w) with (billing_plans w). rewrite (where_plan w id r Hw Hr). simpl length. wp_step; [done|].
  wp_step. apply wp_delete; [by intros ->|].
  change (wp h (create_models id models) (cleared w id (assign_terms terms) (fun r => bool_decide (pm_PlanID r = id)))
    (fun r0 w' => match r0 with inl _ => h = false | inr _ => plan_written w w' (assign_terms terms r) models end)).
  eapply wp_mono.
  - apply wp_create_models; [by apply cleared_ok|by eapply validPlan_models|].
    intros m _. simpl. rewrite dropped_lookup by done. simpl. by rewrite bool_decide_eq_true_2.
  - intros [e|[]] w' HQ; [done|]. destruct HQ as (t & -> & Ht).
    pose proof (co_plan w Hw _ _ Hr) as Hid. split_and!; [|simpl|done].
    + simpl. rewrite (update_plan_rows w _ id r Hw Hr). by rewrite Hid.
    + intros x m. rewrite Ht, Hid. change (trim_space (pl_ID p)) with id. simpl. rewrite dropped_lookup by done. simpl.
      destruct (decide (x = id)) as [->|Hx].
      * rewrite bool_decide_eq_true_2 by done.
        destruct (decide (m ∈ normalizeModels models)) as [Hm|Hm].
        -- by rewrite decide_True.
        -- by rewrite decide_False by (by intros [_ ?]).
      * rewrite bool_decide_eq_false_2 by done. by rewrite decide_False by (by intros [? _]).
Qed.

(** [UpdatePlanTx] in its transaction, when the driver does not fail: an
    invalid plan or model list is refused, an unknown plan is not found, and
    otherwise the commercial terms are replaced, the identity and the creation
    time kept, and the allow-list becomes exactly the trimmed models. *)
Theorem update_plan_spec w (p : Plan) (models : list string) :
  catalog_ok w ->
  if validPlan p models then
    match rows (billing_plans w) !! trim_space (pl_ID p) with
    | None => runs (transaction (UpdatePlanTx p models)) w (inl ErrRecordNotFound) w
    | Some r => exists w', runs (transaction (UpdatePlanTx p models)) w (inr tt) w' /\
        plan_written w w' (assign_terms (with_defaults (trimmed_plan p)) r) models
    end
  else runs (transaction (UpdatePlanTx p models)) w (inl ErrInvalidUsage) w.
Proof.
  intros Hw. destruct (validPlan p models) eqn:Ev; [|unfold UpdatePlanTx; by rewrite Ev].
  destruct (rows (billing_plans w) !! trim_space (pl_ID p)) as [r|] eqn:Er.
  - assert (Hwp : wp true (transaction (UpdatePlanTx p models)) w (fun r0 w' =>
      r0 = inr tt /\ plan_written w w' (assign_terms (with_defaults (trimmed_plan p)) r) models)).
    { wp_step. eapply wp_mono; [by apply wp_UpdatePlanTx|]. intros [e|[]] w' HQ; [done|]. by split. }
    destruct (wp_runs _ _ _ Hwp) as (r0 & w' & Hrun & -> & HQ). by exists w'.
  - unfold UpdatePlanTx. rewrite Ev. simpl negb. cbv iota zeta.
    unfold runs, transaction, update, sql, mbind, M_bind. simpl.
    by rewrite (where_no_plan w _ Hw Er).
Qed.

(** [EnsurePlan] writes its row under the id as given. *)
Definition seed_row (p : Plan) (now : Z) : Plan :=
  let p := with_defaults p in
  if is_zero_time (pl_CreatedAt p) then set_created now p else p.

Definition ensured_row w (p : Plan) (now : Z) : Plan :=
  match rows (billing_plans w) !! pl_ID p with
  | Some r => assign_terms (seed_row p now) r
  | None => seed_row p now
  end.

Lemma seed_row_id p now : pl_ID (seed_row p now) = pl_ID p.
Proof. unfold seed_row. by destruct (is_zero_time _). Qed.

Lemma seed_row_terms p now r : assign_terms (seed_row p now) r = assign_terms (with_defaults p) r.
Proof. unfold seed_row. by destruct (is_zero_time _). Qed.

Lemma ensured_row_id w p now : catalog_ok w -> pl_ID (ensured_row w p now) = pl_ID p.
Proof.
  intros Hw. unfold ensured_row. destruct (rows (billing_plans w) !! pl_ID p) as [r|] eqn:Er.
  - simpl. apply (co_plan w Hw _ _ Er).
  - apply seed_row_id.
Qed.

Lemma wp_EnsurePlan h w p models now :
  catalog_ok w -> validPlan p models = true ->
  wp h (EnsurePlan p models now) w (fun r w' => match r with
    | inl _ => h = false /\ w' = w
    | inr _ => plan_written w w' (ensured_row w p now) models
    end).
Proof.
  intros Hw Ev. unfold EnsurePlan. rewrite Ev. simpl negb. cbv iota zeta.
  change (if is_zero_time _ then _ else _) with (seed_row p now).
  set (row := seed_row p now). set (id := pl_ID row). set (final := ensured_row w p now).
  assert (Hid : id = pl_ID p) by apply seed_row_id.
  assert (Hfinal : pl_ID final = id) by (rewrite Hid; by apply ensured_row_id).
  assert (Hmid : forall t, rows t = <[id := final]> (rows (billing_plans w)) ->
    wp h (delete_where plan_models (fun r => bool_decide (pm_PlanID r = id) &&
                                       negb (bool_decide (pm_ModelID r ∈ normalizeModels models)));;
      mapM (fun model => create_or_ignore plan_models (model_key id model) (model_key id model)
                         (id, model) (mkPlanModel id model)) (normalizeModels models);; mret tt)
      (fset plans t w)
      (fun r w' => match r with inl _ => h = false /\ w = w | inr a =>
         (h = false -> forall msg : string, h = false /\ w = w) /\ plan_written w w' final models end)).
  { intros t Ht. wp_step. apply wp_delete; [by intros ->|]. wp_step.
    eapply wp_mono; [apply wp_ensure_models|].
    - split; simpl.
      + intros k r. rewrite Ht, lookup_insert. case_decide; [intros [= <-]; congruence|apply (co_plan w Hw)].
      + apply (co_sku w Hw).
      + intros k y. rewrite rows_delete. intros [Hy _]%map_lookup_filter_Some. by apply (co_model w Hw).
      + apply (co_assignment w Hw).
    - intros [e|l] w' HQ; [done|]. destruct HQ as (t' & -> & Ht'). wp_step. split; [done|].
      split_and!; [by rewrite Hfinal|simpl|done].
      intros x m. rewrite Ht', Hfinal. simpl. rewrite dropped_lookup by done. simpl.
      destruct (decide (x = id)) as [->|Hx].
      + rewrite (bool_decide_eq_true_2 (id = id)) by done.
        destruct (decide (m ∈ normalizeModels models)) as [Hm|Hm].
        * by rewrite decide_True.
        * rewrite decide_False by (by intros [_ ?]). by rewrite bool_decide_eq_false_2.
      + rewrite (bool_decide_eq_false_2 (x = id)) by done. by rewrite decide_False by (by intros [? _]). }
  wp_step. wp_step. apply wp_upsert; change (fget plans w) with (billing_plans w).
  - by intros ->.
  - intros (k & r & Hr & E). pose proof (plan_is_key _ _ _ _ Hw Hr E) as ->. apply Hmid.
    rewrite (update_plan_rows w _ id r Hw Hr). unfold final, ensured_row. by rewrite <-Hid, Hr.
  - intros Hn (k & r & Hr & E). by rewrite (Hn _ _ Hr) in E.
  - intros Hn _. apply Hmid. rewrite rows_insert. unfold final, ensured_row. rewrite <-Hid.
    destruct (rows (billing_plans w) !! id) as [r|] eqn:Er; [|done]. specialize (Hn _ _ Er).
    unfold plan_is in Hn. by rewrite (co_plan w Hw _ _ Er), bool_decide_eq_true_2 in Hn.
Qed.

(** [EnsurePlan] is idempotent seeding: a valid plan is created, or its
    terms and allow-list brought to the given ones, whatever was there; doing
    it again changes nothing, and a driver failure changes nothing. *)
Theorem ensure_plan_spec w (p : Plan) (models : list string) now now' :
  catalog_ok w -> validPlan p models = true ->
  exists w', runs (EnsurePlan p models now) w (inr tt) w' /\
    plan_written w w' (ensured_row w p now) models /\ catalog_ok w' /\
    exists w'', runs (EnsurePlan p models now') w' (inr tt) w'' /\
      rows (billing_plans w'') = rows (billing_plans w') /\
      rows (billing_plan_models w'') = rows (billing_plan_models w').
Proof.
  intros Hw Ev.
  assert (Hrun : forall w now, catalog_ok w -> exists w', runs (EnsurePlan p models now) w (inr tt) w' /\
            plan_written w w' (ensured_row w p now) models).
  { intros w0 now0 Hw0. destruct (wp_runs _ _ _ (wp_EnsurePlan true w0 p models now0 Hw0 Ev)) as (r & w' & Hr & HQ).
    destruct r as [e|[]]; [by destruct HQ|]. by exists w'. }
  destruct (Hrun w now Hw) as (w' & Hr1 & Hp1). exists w'. split; [done|]. split; [done|].
  pose proof (plan_written_ok _ _ _ _ Hw Hp1) as Hw'. split; [done|].
  destruct (Hrun w' now' Hw') as (w'' & Hr2 & Hp2). exists w''. split; [done|].
  destruct Hp1 as (E1 & M1 & _), Hp2 as (E2 & M2 & _).
  split.
  - rewrite E2, ensured_row_id by done. apply insert_id. rewrite E1, ensured_row_id, lookup_insert_eq by done.
    f_equal. unfold ensured_row at 2. rewrite E1, ensured_row_id, lookup_insert_eq, seed_row_terms by done.
    unfold ensured_row. destruct (rows (billing_plans w) !! pl_ID p); [by rewrite seed_row_terms|].
    unfold seed_row. by destruct (is_zero_time _).
  - apply map_eq. intros [x m]. rewrite M2, M1, !ensured_row_id by done. by repeat case_decide.
Qed.

End Catalog.

(** ** Prices *)
Lemma price_exact tokens rate :
  0 <= tokens -> 0 <= rate -> tokens * rate + 999999 < 2 ^ 63 ->
  tokens * rate <= price tokens rate * 1000000 < tokens * rate + 1000000 /\
  (price tokens rate = 0 <-> tokens * rate = 0).
Proof.
  intros Ht Hr Hb. unfold price.
  destruct ((tokens =? 0) || (rate =? 0)) eqn:E.
  - assert (tokens * rate = 0) as -> by (apply orb_true_iff in E as [E|E]; bools; subst; lia). lia.
  - bools. assert (0 < tokens * rate) by (apply Z.mul_pos_pos; lia).
    rewrite (wrap64_id (tokens * rate)) by (unfold int64_range; lia).
    rewrite wrap64_id by (unfold int64_range; lia).
    rewrite Z.quot_div_nonneg by lia.
    pose proof (Z.div_mod (tokens * rate + 999999) 1000000 ltac:(lia)).
    pose proof (Z.mod_pos_bound (tokens * rate + 999999) 1000000 ltac:(lia)). lia.
Qed.

Section Pricing.
  Context `{Sql}.
  Implicit Types (w : Billing).

(** The first candidate on the price list. *)
Definition best_sku w (candidates : list string) : option SKU :=
  head (omap (fun c => rows (billing_skus w) !! c) candidates).

Lemma wp_first_sku h w candidates :
  catalog_ok w -> candidates <> [] ->
  wp h (first_sku candidates) w (fun r w' => w' = w /\ match r with
    | inl e => (h = true -> best_sku w candidates = None /\ e = ErrRecordNotFound)
    | inr sku => best_sku w candidates = Some sku
    end).
Proof.
  intros Hw. unfold best_sku. induction candidates as [|c rest IH]; [done|]. intros _. simpl. repeat wp_step.
  - intros -> msg. wp_step. by split.
  - intros Hn. assert (Hc : rows (billing_skus w) !! c = None).
    { destruct (rows (billing_skus w) !! c) as [s|] eqn:Es; [|done]. specialize (Hn _ _ Es).
      unfold sku_is in Hn. by rewrite (co_sku w Hw _ _ Es), bool_decide_eq_true_2 in Hn. }
    destruct rest as [|c' rest]; [wp_step; by rewrite Hc|]. rewrite Hc. by apply IH.
  - intros k s Hs E. unfold sku_is in E. bools. wp_step. split; [done|].
    by rewrite <-E, (co_sku w Hw _ _ Hs), Hs.
Qed.

(** [PriceUsage] on every branch when the driver does not fail.  The most
    specific entry of the price list decides: the exact model, the bare model,
    then the fallback.  While tokens times rate stays in int64, the price covers
    the metered amount, exceeds it by less than a micro per side, and is zero
    only when nothing is owed. *)
Theorem price_usage_exact w model prompt completion :
  catalog_ok w -> blank model = false -> 0 <= prompt -> 0 <= completion ->
  match best_sku w (skuCandidates model) with
  | None => runs (PriceUsage model prompt completion) w (inl ErrRecordNotFound) w
  | Some sku =>
      0 <= sk_PromptMicrosPer1M sku -> 0 <= sk_CompletionMicrosPer1M sku ->
      prompt * sk_PromptMicrosPer1M sku + 999999 < 2 ^ 63 ->
      completion * sk_CompletionMicrosPer1M sku + 999999 < 2 ^ 63 ->
      let owed := prompt * sk_PromptMicrosPer1M sku + completion * sk_CompletionMicrosPer1M sku in
      exists amount, runs (PriceUsage model prompt completion) w (inr amount) w /\
        owed <= amount * 1000000 < owed + 2000000 /\ (amount = 0 <-> owed = 0)
  end.
Proof.
  intros Hw Hb Hp Hc.
  assert (Hrun : exists r, runs (first_sku (skuCandidates model)) w r w /\ match r with
    | inl e => best_sku w (skuCandidates model) = None /\ e = ErrRecordNotFound
    | inr sku => best_sku w (skuCandidates model) = Some sku end).
  { destruct (wp_runs _ _ _ (wp_first_sku true w (skuCandidates model) Hw ltac:(done))) as (r & w' & Hr & -> & HQ).
    exists r. split; [done|]. destruct r; auto. }
  destruct Hrun as (r & Hrun & HQ).
  assert (Hpu : PriceUsage model prompt completion =
    (sku ← first_sku (skuCandidates model);
     mret (price prompt (sk_PromptMicrosPer1M sku) +64 price completion (sk_CompletionMicrosPer1M sku)))).
  { unfold PriceUsage. by rewrite Hb, (proj2 (Z.ltb_ge _ _) Hp), (proj2 (Z.ltb_ge _ _) Hc). }
  rewrite Hpu. unfold runs in *. unfold mbind, M_bind. rewrite Hrun. destruct r as [e|sku].
  - by destruct HQ as [-> ->].
  - rewrite HQ. intros R1 R2 B1 B2. eexists. split; [reflexivity|].
    destruct (price_exact _ _ Hp R1 B1) as [P1 Z1]. destruct (price_exact _ _ Hc R2 B2) as [P2 Z2].
    rewrite wrap64_id by (unfold int64_range; lia).
    assert (0 <= prompt * sk_PromptMicrosPer1M sku) by (by apply Z.mul_nonneg_nonneg).
    assert (0 <= completion * sk_CompletionMicrosPer1M sku) by (by apply Z.mul_nonneg_nonneg).
    split; [lia|]. split; intros; [|lia].
    assert (price prompt (sk_PromptMicrosPer1M sku) = 0) by lia.
    assert (price completion (sk_CompletionMicrosPer1M sku) = 0) by lia. lia.
Qed.

(** A rate [UpsertSKU] accepts: it only asks for rates that are not negative. *)
Definition huge_sku : SKU := mkSKU "m/m" "m" (2 ^ 62) 0 0 0 1.

(** The bound on tokens times rate is needed: the price list accepts any
    non-negative rate, and two tokens at 2^62 micros per million are priced
    below zero. *)
Theorem price_overflow w :
  catalog_ok w ->
  exists w', runs (UpsertSKU huge_sku 1) w (inr tt) w' /\
    exists amount, runs (PriceUsage "m/m" 2 0) w' (inr amount) w' /\ amount < 0.
Proof.
  intros Hw. set (row := mkSKU "m/m" "m" (2 ^ 62) 0 (Z.quot (2 ^ 62) 1000) 0 1).
  assert (Hwp : wp true (UpsertSKU huge_sku 1) w (fun r w' => r = inr tt /\ catalog_ok w' /\
     exists s, rows (billing_skus w') !! "m/m" = Some s /\ sk_PromptMicrosPer1M s = 2 ^ 62 /\
       sk_CompletionMicrosPer1M s = 0)).
  { unfold UpsertSKU. wp_step. change (UpsertSKUTx huge_sku 1) with
      (upsert skus (sku_is "m/m") (sku_is "m/m") (fun r => mkSKU (sk_ID r) "m" (2 ^ 62) 0
         (Z.quot (2 ^ 62) 1000) 0 (sk_CreatedAt r)) "m/m" row).
    assert (Hok : forall t, (forall k r, rows t !! k = Some r -> sk_ID r = k) -> catalog_ok (fset skus t w)).
    { intros t Ht. split; simpl; [apply (co_plan w Hw)|exact Ht|apply (co_model w Hw)|apply (co_assignment w Hw)]. }
    apply wp_upsert.
    - done.
    - intros (k & s & Hs & E). change (fget skus w) with (billing_skus w) in *. unfold sku_is in E. bools.
      split; [done|]. split; [done|]. split.
      + apply Hok. intros k' r. rewrite rows_update, lookup_fmap.
        destruct (rows (billing_skus w) !! k') as [y|] eqn:Ey; [|done]. intros [= <-].
        rewrite <-(co_sku w Hw _ _ Ey). by destruct (sku_is _ y).
      + simpl. rewrite rows_update, lookup_fmap. rewrite <-E, (co_sku w Hw _ _ Hs), Hs. simpl.
        unfold sku_is. rewrite bool_decide_eq_true_2 by (rewrite (co_sku w Hw _ _ Hs) in *; congruence).
        eexists. split; [reflexivity|]. done.
    - intros Hn (k & s & Hs & E). by rewrite (Hn _ _ Hs) in E.
    - intros _ _. change (fget skus w) with (billing_skus w). split; [done|]. split; [done|]. split.
      + apply Hok. intros k r. rewrite rows_insert, lookup_insert.
        case_decide; [by intros [= <-]|apply (co_sku w Hw)].
      + exists row. simpl. by rewrite rows_insert, lookup_insert_eq. }
  destruct (wp_runs _ _ _ Hwp) as (r & w' & Hrun & -> & Hw' & s & Hs & Hr1 & Hr2).
  exists w'. split; [done|].
  destruct (wp_runs _ _ _ (wp_first_sku true w' (skuCandidates "m/m") Hw' ltac:(done))) as (r & w2 & Hr & -> & HQ).
  assert (Hbest : best_sku w' (skuCandidates "m/m") = Some s).
  { change (skuCandidates "m/m") with ["m/m"; "m"; "*"]. unfold best_sku. simpl. by rewrite Hs. }
  rewrite Hbest in HQ. destruct r as [e|sku]; [by destruct (HQ eq_refl)|]. injection HQ as ->.
  eexists. split.
  - change (PriceUsage "m/m" 2 0) with (sku ← first_sku (skuCandidates "m/m");
      mret (price 2 (sk_PromptMicrosPer1M sku) +64 price 0 (sk_CompletionMicrosPer1M sku)) : M Billing Z).
    unfold runs in *. unfold mbind, M_bind. rewrite Hr. reflexivity.
  - rewrite Hr1, Hr2. vm_compute. reflexivity.
Qed.

End Pricing.

(** ** Allowances and policies *)
Section Allowances.
  Context `{Sql}.
  Implicit Types (w : Billing).

(** The tenant's plan assignment in force at an instant. *)
Definition assignment_at w (tenantID : string) (at_ : Z) : option TenantPlan :=
  match rows (billing_tenant_plans w) !! tenantID with
  | Some a => if active_at tenantID at_ a then Some a else None
  | None => None
  end.

Definition on_allow_list w (planID : string) (candidates : list string) : Prop :=
  exists m, m ∈ candidates /\ is_Some (rows (billing_plan_models w) !! (planID, m)).
Definition on_price_list w (candidates : list string) : Prop :=
  exists m, m ∈ candidates /\ is_Some (rows (billing_skus w) !! m).

Lemma on_price_list_best w candidates : on_price_list w candidates <-> best_sku w candidates <> None.
Proof.
  unfold on_price_list, best_sku. induction candidates as [|c l IH]; simpl.
  - split; [intros (m & Hm & _); by apply elem_of_nil in Hm|done].
  - destruct (rows (billing_skus w) !! c) as [s|] eqn:Es; simpl.
    + split; [done|]. intros _. exists c. split; [left|by eexists].
    + rewrite <-IH. split; [|intros (m & Hm & Hs); exists m; split; [by right|done]].
      intros (m & [->|Hm]%elem_of_cons & Hs); [rewrite Es in Hs; by destruct Hs|eauto].
Qed.

Lemma skuCandidates_trim model : skuCandidates (trim_space model) = skuCandidates model.
Proof. unfold skuCandidates. by rewrite trim_space_idem. Qed.

Lemma run_assignment w t at_ :
  catalog_ok w ->
  runs (take_row tenant_plans (active_at t at_)) w
    (match assignment_at w t at_ with Some a => inr a | None => inl ErrRecordNotFound end) w.
Proof.
  intros Hw.
  assert (Hkey : forall k r, rows (billing_tenant_plans w) !! k = Some r -> active_at t at_ r = true -> k = t).
  { intros k r Hr E. unfold active_at in E. bools. by rewrite <-(co_assignment w Hw _ _ Hr). }
  unfold runs, take_row, sql, assignment_at. simpl.
  destruct (rows (billing_tenant_plans w) !! t) as [a|] eqn:Ea.
  - destruct (active_at t at_ a) eqn:E.
    + by rewrite (where_unique _ _ t a Ea E Hkey).
    + replace (where_ _ _) with (@nil TenantPlan); [done|]. symmetry. apply where_nil. intros k r Hr.
      destruct (active_at t at_ r) eqn:E'; [|done]. rewrite (Hkey _ _ Hr E') in Hr. congruence.
  - by rewrite (where_none _ _ t Ea Hkey).
Qed.

Lemma run_plan w id :
  catalog_ok w ->
  runs (take_row plans (plan_is id)) w
    (match rows (billing_plans w) !! id with Some p => inr p | None => inl ErrRecordNotFound end) w.
Proof.
  intros Hw. unfold runs, take_row, sql. simpl. destruct (rows (billing_plans w) !! id) as [p|] eqn:Ep.
  - by rewrite (where_plan w id p Hw Ep).
  - by rewrite (where_no_plan w id Hw Ep).
Qed.

Lemma count_pos {K} `{Countable K} {R} (p : R -> bool) (t : table K R) :
  (0 <? Z.of_nat (length (where_ p t))) = true <-> exists k r, rows t !! k = Some r /\ p r = true.
Proof.
  rewrite Z.ltb_lt. split.
  - destruct (where_ p t) as [|r l] eqn:E; simpl; [lia|]. intros _.
    destruct (where_head _ _ _ _ E) as (k & ? & ?). eauto.
  - intros (k & r & Hr & E). assert (Hin : r ∈ where_ p t) by (apply elem_of_where; eauto).
    destruct (where_ p t); [by apply elem_of_nil in Hin|simpl; lia].
Qed.

(** The two flags of an allowance. *)
Definition allow_flag w planID model : bool :=
  0 <? Z.of_nat (length (where_ (fun r => bool_decide (pm_PlanID r = planID) &&
    bool_decide (pm_ModelID r ∈ skuCandidates model)) (billing_plan_models w))).
Definition price_flag w model : bool :=
  0 <? Z.of_nat (length (where_ (fun r => bool_decide (sk_ID r ∈ skuCandidates model)) (billing_skus w))).

Lemma allow_flag_spec w planID model :
  catalog_ok w -> allow_flag w planID model = true <-> on_allow_list w planID (skuCandidates model).
Proof.
  intros Hw. unfold allow_flag, on_allow_list. rewrite count_pos. split.
  - intros (k & r & Hr & E). bools. exists (pm_ModelID r). split; [done|].
    rewrite (co_model w Hw _ _ Hr) in Hr. exists r. congruence.
  - intros (m & Hm & [r Hr]). exists (planID, m), r. split; [done|].
    pose proof (co_model w Hw _ _ Hr) as E. injection E as <- <-. by rewrite !bool_decide_eq_true_2.
Qed.

Lemma price_flag_spec w model :
  catalog_ok w -> price_flag w model = true <-> on_price_list w (skuCandidates model).
Proof.
  intros Hw. unfold price_flag, on_price_list. rewrite count_pos. split.
  - intros (k & r & Hr & E). bools. exists (sk_ID r). split; [done|]. rewrite (co_sku w Hw _ _ Hr). by eexists.
  - intros (m & Hm & [r Hr]). exists m, r. split; [done|]. rewrite (co_sku w Hw _ _ Hr). by apply bool_decide_eq_true_2.
Qed.

Definition used_credit w (t : string) (from to : Z) : Z :=
  sum_where ue_AmountMicros (in_window t from to) (billing_usage_events w).

Lemma run_allowance w t planID plan model from to extra :
  is_empty model = false -> int64_range (used_credit w t from to) ->
  exists s, runs (allowanceStatus t planID plan model from to extra) w (inr s) w /\
    let used := used_credit w t from to in
    s = mkAllowanceStatus planID model (allow_flag w planID model) (price_flag w model)
      (pl_IncludedCreditMicros plan) used
      (if (pl_IncludedCreditMicros plan -64 used) <? 0 then 0 else pl_IncludedCreditMicros plan -64 used)
      (pl_MaxConcurrent plan) (pl_OveragePolicy plan)
      (allow_flag w planID model && price_flag w model &&
        if bool_decide (pl_OveragePolicy plan = "reject") then
          if 0 <? extra then (used +64 extra) <=? pl_IncludedCreditMicros plan
          else used <? pl_IncludedCreditMicros plan
        else true).
Proof.
  intros Hm Hr. eexists. split; [|reflexivity]. unfold allowanceStatus. rewrite Hm.
  unfold runs, count, aggregate, sql, mbind, M_bind, mret, M_ret. simpl.
  change (sum_list _ (where_ _ _)) with (used_credit w t from to).
  rewrite int64_sum_spec. change (sum_list _ (where_ _ _)) with (used_credit w t from to).
  by rewrite (proj2 (int64_rangeb_spec _) Hr).
Qed.

Definition allowance_rejected (tenantID model : string) (at_ from to extra : Z) : bool :=
  is_empty tenantID || blank model || is_zero_time at_ || is_zero_time from || is_zero_time to ||
  negb (from <? to) || (extra <? 0).

(** The admission decision, on accepted arguments with an assignment in
    force.  A request is allowed exactly when the plan's list and the price list
    both cover the model (by its id, its bare name or the wildcard) and, under a
    reject policy, the tenant's credit of the window is not used up: an amount
    given in advance must fit, otherwise some credit must be left.  Any other
    policy never refuses for credit. *)
Theorem allowance_spec w t model at_ from to extra (a : TenantPlan) (plan : Plan) :
  catalog_ok w -> allowance_rejected t model at_ from to extra = false ->
  assignment_at w t at_ = Some a -> rows (billing_plans w) !! tp_PlanID a = Some plan ->
  let used := used_credit w t from to in
  0 <= used -> used + extra < 2 ^ 63 -> 0 <= pl_IncludedCreditMicros plan < 2 ^ 63 ->
  exists s, runs (CheckAllowance t model at_ from to extra) w (inr s) w /\
    (as_ModelAllowed s = true <-> on_allow_list w (tp_PlanID a) (skuCandidates model)) /\
    (as_PricingConfigured s = true <-> best_sku w (skuCandidates model) <> None) /\
    as_UsedCreditMicros s = used /\
    as_RemainingCreditMicros s = Z.max 0 (pl_IncludedCreditMicros plan - used) /\
    (as_Allowed s = true <->
       as_ModelAllowed s = true /\ as_PricingConfigured s = true /\
       (pl_OveragePolicy plan = "reject" ->
          if 0 <? extra then used + extra <= pl_IncludedCreditMicros plan
          else used < pl_IncludedCreditMicros plan)).
Proof.
  intros Hw Hrej Ha Hplan used Hu Hx Hinc.
  unfold CheckAllowance. fold (allowance_rejected t model at_ from to extra). rewrite Hrej.
  assert (Hext : 0 <= extra) by (unfold allowance_rejected in Hrej; bools; lia).
  assert (Hne : is_empty (trim_space model) = false).
  { unfold allowance_rejected, blank in Hrej. by destruct (is_empty (trim_space model)); bools. }
  destruct (run_allowance w t (tp_PlanID a) plan (trim_space model) from to extra Hne) as (s & Hs & ->).
  { unfold int64_range. fold used. lia. }
  eexists. split.
  - pose proof (run_assignment w t at_ Hw) as H1. rewrite Ha in H1.
    pose proof (run_plan w (tp_PlanID a) Hw) as H2. rewrite Hplan in H2.
    unfold runs in *. unfold mbind, M_bind. rewrite H1, H2. exact Hs.
  - simpl. rewrite allow_flag_spec, price_flag_spec, skuCandidates_trim, on_price_list_best by done.
    fold used. rewrite !wrap64_id by (unfold int64_range; lia).
    split_and!; [done..| |].
    + destruct (Z.ltb_spec (pl_IncludedCreditMicros plan - used) 0); lia.
    + rewrite !andb_true_iff, allow_flag_spec, price_flag_spec, skuCandidates_trim, on_price_list_best by done.
      case_bool_decide as Hp; [|tauto].
      destruct (0 <? extra); [rewrite Z.leb_le|rewrite Z.ltb_lt]; tauto.
Qed.

Lemma run_models w planID :
  catalog_ok w -> exists l, runs (listPlanModels planID) w (inr l) w /\
    forall m, m ∈ l <-> is_Some (rows (billing_plan_models w) !! (planID, m)).
Proof.
  intros Hw. eexists. split; [reflexivity|]. intros m. simpl.
  rewrite list_elem_of_fmap. setoid_rewrite merge_sort_Permutation. setoid_rewrite elem_of_where. split.
  - intros (r & -> & k & Hr & E). bools. rewrite (co_model w Hw _ _ Hr), E in Hr. by eexists.
  - intros [r Hr]. pose proof (co_model w Hw _ _ Hr) as E. injection E as -> ->.
    exists r. split; [done|]. exists (pm_PlanID r, pm_ModelID r). split; [done|]. by apply bool_decide_eq_true_2.
Qed.

(** The two ways to decide whether a tenant may use a model agree: the
    policy loaded once (plan list and price list matched in memory) allows a
    model exactly when the admission check finds it on both lists. *)
Theorem policy_agrees_with_allowance w t model at_ from to extra pol s w1 w2 :
  catalog_ok w ->
  runs (CurrentModelPolicy t at_) w (inr pol) w1 ->
  runs (CheckAllowance t model at_ from to extra) w (inr s) w2 ->
  w1 = w /\ w2 = w /\
  ModelAllowed pol model = as_ModelAllowed s /\ PricingConfigured pol model = as_PricingConfigured s /\
  (as_Allowed s = true -> Allows pol model = true).
Proof.
  intros Hw Hp Hs. unfold CurrentModelPolicy in Hp. unfold CheckAllowance in Hs.
  destruct (is_empty t || is_zero_time at_); [done|].
  destruct (is_empty t || blank model || _ || _ || _ || _ || _) eqn:Erej; [done|].
  pose proof (run_assignment w t at_ Hw) as H1. unfold runs in *. unfold mbind, M_bind in Hp, Hs.
  destruct (assignment_at w t at_) as [a|]; rewrite H1 in Hp, Hs; [|done].
  pose proof (run_plan w (tp_PlanID a) Hw) as H2. unfold runs in H2. rewrite H2 in Hs.
  destruct (rows (billing_plans w) !! tp_PlanID a) as [plan|]; [|done].
  destruct (run_models w (tp_PlanID a) Hw) as (l & Hl & Hlm). unfold runs in Hl. rewrite Hl in Hp.
  assert (Hne : is_empty (trim_space model) = false).
  { unfold blank in Erej. by destruct (is_empty (trim_space model)); bools. }
  unfold allowanceStatus in Hs. rewrite Hne in Hs.
  unfold find, count, aggregate, sql, mbind, M_bind, mret, M_ret in Hp, Hs. simpl in Hp, Hs.
  destruct (int64_sum _ _) as [e|used]; [done|].
  injection Hp as <- <-. injection Hs as <- <-. split; [done|]. split; [done|].
  fold (allow_flag w (tp_PlanID a) (trim_space model)). fold (price_flag w (trim_space model)).
  assert (Hm : modelIDMatches l model = allow_flag w (tp_PlanID a) (trim_space model)).
  { apply eq_true_iff_eq. rewrite modelIDMatches_spec, allow_flag_spec, skuCandidates_trim by done.
    unfold on_allow_list. split; intros (m & H3 & H4); exists m; split; try done; by apply Hlm. }
  assert (Hpr : modelIDMatches (sk_ID <$> merge_sort sku_asc (where_ (fun _ => true) (billing_skus w))) model =
                price_flag w (trim_space model)).
  { apply eq_true_iff_eq. rewrite modelIDMatches_spec, price_flag_spec, skuCandidates_trim by done.
    unfold on_price_list. setoid_rewrite list_elem_of_fmap. setoid_rewrite merge_sort_Permutation.
    setoid_rewrite elem_of_where. split.
    - intros (m & (r & -> & k & Hr & _) & Hc). exists (sk_ID r). split; [done|].
      rewrite (co_sku w Hw _ _ Hr). by eexists.
    - intros (m & Hc & [r Hr]). exists m. split; [|done]. exists r.
      split; [by rewrite (co_sku w Hw _ _ Hr)|eauto]. }
  unfold ModelAllowed, PricingConfigured, Allows, ModelAllowed, PricingConfigured. simpl. rewrite Hm, Hpr.
  split_and!; [done..|]. intros E. apply andb_true_iff in E as [E _]. done.
Qed.

End Allowances.

(** ** Assigning a plan *)
Section Assignment.
  Context `{Sql}.
  Implicit Types (w : Billing).

(** [SetTenantPlan] when the driver does not fail: incomplete arguments and
    unknown plans are refused without effect; otherwise the plan is the
    tenant's from the given start on, and the tenant has no plan before it,
    since the single assignment row is replaced; no other tenant is touched. *)
Theorem set_tenant_plan_spec w t planID starts :
  catalog_ok w ->
  if is_empty t || blank planID || is_zero_time starts
  then runs (SetTenantPlan t planID starts) w (inl ErrInvalidUsage) w
  else match rows (billing_plans w) !! planID with
  | None => runs (SetTenantPlan t planID starts) w (inl ErrRecordNotFound) w
  | Some _ => exists w', runs (SetTenantPlan t planID starts) w (inr tt) w' /\ catalog_ok w' /\
      (forall at_, tp_PlanID <$> assignment_at w' t at_ = if starts <=? at_ then Some planID else None) /\
      forall j at_, j <> t -> assignment_at w' j at_ = assignment_at w j at_
  end.
Proof.
  intros Hw. unfold SetTenantPlan, SetTenantPlanTx.
  destruct (is_empty t || blank planID || is_zero_time starts); [done|].
  pose proof (run_plan w planID Hw) as Hplan.
  destruct (rows (billing_plans w) !! planID) as [p|].
  2: { unfold runs in *. unfold transaction, mbind, M_bind. by rewrite Hplan. }
  set (row := mkTenantPlan t planID starts None).
  assert (Hwp : wp true (upsert tenant_plans (fun r => bool_decide (tp_TenantID r = t))
      (fun r => bool_decide (tp_TenantID r = t))
      (fun r => mkTenantPlan (tp_TenantID r) planID starts None) t row) w (fun r w' => r = inr tt /\
    exists tb, w' = fset tenant_plans tb w /\ rows tb = <[t := row]> (rows (billing_tenant_plans w)))).
  { apply wp_upsert; change (fget tenant_plans w) with (billing_tenant_plans w).
    - done.
    - intros (k & r & Hr & E). bools. split; [done|]. eexists. split; [reflexivity|].
      pose proof (co_assignment w Hw _ _ Hr) as Hk. subst k.
      rewrite (rows_update_unique _ _ _ (tp_TenantID r) r Hr).
      + unfold row. by rewrite E.
      + by apply bool_decide_eq_true_2.
      + intros k' r' Hr' E'. bools. rewrite <-(co_assignment w Hw _ _ Hr'). congruence.
    - intros Hn (k & r & Hr & E). by rewrite (Hn _ _ Hr) in E.
    - intros _ _. split; [done|]. eexists. split; [reflexivity|]. apply rows_insert. }
  destruct (wp_runs _ _ _ Hwp) as (r & w' & Hrun & -> & tb & Hw' & Htb).
  exists w'. split.
  - unfold runs in *. unfold transaction, mbind, M_bind. by rewrite Hplan, Hrun.
  - subst w'. split_and!.
    + split; simpl; [apply (co_plan w Hw)|apply (co_sku w Hw)|apply (co_model w Hw)|].
      intros k r. rewrite Htb, lookup_insert. case_decide; [by intros [= <-]|apply (co_assignment w Hw)].
    + intros at_. unfold assignment_at. simpl. rewrite Htb, lookup_insert_eq. unfold active_at. simpl.
      rewrite bool_decide_eq_true_2 by done. simpl. by destruct (starts <=? at_).
    + intros j at_ Hj. unfold assignment_at. simpl. by rewrite Htb, lookup_insert_ne.
Qed.

End Assignment.

(** ** Concrete instances *)
Definition demo_plan : Plan := mkPlan "p1" "Pro" "USD" 1000 500 5 "reject" 1.
Definition demo_sku : SKU := mkSKU "openai/gpt" "gpt" 3000000 0 3000 0 1.
Definition catalog_db : @Billing map_sql :=
  @mkBilling map_sql ∅ ∅ ∅ ∅ ∅ {["p1" := demo_plan]} {["openai/gpt" := demo_sku]} ∅
    {[("p1", "openai/gpt") := mkPlanModel "p1" "openai/gpt"]} {["t1" := mkTenantPlan "t1" "p1" 1 None]}.

Lemma catalog_db_ok : @catalog_ok map_sql catalog_db.
Proof.
  split; intros k r Hr.
  - change (({["p1" := demo_plan]} : gmap string Plan) !! k = Some r) in Hr.
    by apply lookup_singleton_Some in Hr as [<- <-].
  - change (({["openai/gpt" := demo_sku]} : gmap string SKU) !! k = Some r) in Hr.
    by apply lookup_singleton_Some in Hr as [<- <-].
  - change (({[("p1", "openai/gpt") := mkPlanModel "p1" "openai/gpt"]} : gmap (string * string) PlanModel) !! k = Some r) in Hr.
    by apply lookup_singleton_Some in Hr as [<- <-].
  - change (({["t1" := mkTenantPlan "t1" "p1" 1 None]} : gmap string TenantPlan) !! k = Some r) in Hr.
    by apply lookup_singleton_Some in Hr as [<- <-].
Qed.

Lemma update_plan_spec_witness :
  exists w', runs (transaction (UpdatePlanTx (mkPlan " p1 " "Team" "" 9 9 1 "" 0) ["*"])) catalog_db (inr tt) w' /\
    rows (billing_plan_models w') !! ("p1", "*") = Some (mkPlanModel "p1" "*").
Proof.
  pose proof (@update_plan_spec map_sql catalog_db (mkPlan " p1 " "Team" "" 9 9 1 "" 0) ["*"] catalog_db_ok) as Hs.
  assert (Ev : validPlan (mkPlan " p1 " "Team" "" 9 9 1 "" 0) ["*"] = true) by (vm_compute; reflexivity).
  assert (Ep : (rows (billing_plans catalog_db) !! trim_space (pl_ID (mkPlan " p1 " "Team" "" 9 9 1 "" 0)) : option Plan)
          = Some demo_plan) by (vm_compute; reflexivity).
  rewrite Ev, Ep in Hs. destruct Hs as (w' & Hr & _ & Hm & _).
  exists w'. split; [exact Hr|]. rewrite Hm. reflexivity.
Defined.

Lemma ensure_plan_spec_witness :
  exists w', runs (EnsurePlan demo_plan ["openai/gpt"; "*"] 7) catalog_db (inr tt) w' /\ catalog_ok w'.
Proof.
  destruct (@ensure_plan_spec map_sql catalog_db demo_plan ["openai/gpt"; "*"] 7 8 catalog_db_ok)
    as (w' & Hr & _ & Hok & _); [reflexivity|]. exists w'. split; [exact Hr|exact Hok].
Defined.

Lemma price_usage_exact_witness :
  exists amount, runs (PriceUsage "openai/gpt" 1 5) catalog_db (inr amount) catalog_db /\
    3000000 <= amount * 1000000 < 5000000.
Proof.
  destruct (@price_usage_exact map_sql catalog_db "openai/gpt" 1 5 catalog_db_ok) as (amount & Hr & Hb & _).
  - reflexivity.
  - lia.
  - lia.
  - simpl. lia.
  - simpl. lia.
  - simpl. lia.
  - simpl. lia.
  - exists amount. split; [exact Hr|]. simpl in Hb. lia.
Defined.

Lemma price_overflow_witness :
  exists (w' : @Billing map_sql) amount, runs (PriceUsage "m/m" 2 0) w' (inr amount) w' /\ amount < 0.
Proof.
  destruct (@price_overflow map_sql catalog_db catalog_db_ok) as (w' & _ & amount & Hr & Ha).
  exists w', amount. split; [exact Hr|exact Ha].
Defined.

Lemma allowance_spec_witness :
  exists s, runs (CheckAllowance "t1" "openai/gpt" 5 1 9 0) catalog_db (inr s) catalog_db /\
    as_RemainingCreditMicros s = 500.
Proof.
  destruct (@allowance_spec map_sql catalog_db "t1" "openai/gpt" 5 1 9 0 (mkTenantPlan "t1" "p1" 1 None) demo_plan
    catalog_db_ok) as (s & Hr & _ & _ & _ & Hrem & _); try reflexivity.
  - simpl. lia.
  - exists s. split; [exact Hr|]. rewrite Hrem. reflexivity.
Defined.

Lemma policy_agrees_with_allowance_witness :
  ModelAllowed (mkModelPolicy "p1" ["openai/gpt"] ["openai/gpt"]) "openai/gpt" = true.
Proof.
  refine (proj1 (proj2 (proj2 (@policy_agrees_with_allowance map_sql catalog_db "t1" "openai/gpt" 5 1 9 0
    _ (mkAllowanceStatus "p1" "openai/gpt" true true 500 0 500 5 "reject" true)
    catalog_db catalog_db catalog_db_ok _ _)))).
  - vm_compute. reflexivity.
  - vm_compute. reflexivity.
Defined.

Lemma set_tenant_plan_spec_witness :
  exists w', runs (SetTenantPlan "t2" "p1" 4) catalog_db (inr tt) w' /\ catalog_ok w'.
Proof.
  destruct (@set_tenant_plan_spec map_sql catalog_db "t2" "p1" 4 catalog_db_ok) as (w' & Hr & Hok & _).
  exists w'. split; [exact Hr|exact Hok].
Defined.
