(* ===== verification/Redis.v ===== *)
(** * Redis, as the program reaches it

    The server is not part of the repository: its key space is an interface,
    and the commands the program sends are their documented effect on it.  A
    script runs at one server instant (milliseconds) and is atomic. *)
From S2P Require Import Prelude GoStrings.

Inductive rvalue :=
| RString (s : string)
| RZset (m : gmap string Z).

(** A value and the instant it expires at. *)
Definition rentry : Type := rvalue * option Z.

Definition unexpired (t : Z) (e : rentry) : bool :=
  match e.2 with Some x => t <? x | None => true end.

Class Redis := {
  server : Type;
  live : Z -> server -> string -> option rentry;
  put : Z -> string -> option rentry -> server -> server;
  live_unexpired : forall t s k e, live t s k = Some e -> unexpired t e = true;
  live_later : forall t t' s k, t <= t' ->
    live t' s k = match live t s k with Some e => if unexpired t' e then Some e else None | None => None end;
  live_put : forall t s k o j, (forall e, o = Some e -> unexpired t e = true) ->
    live t (put t k o s) j = if decide (j = k) then o else live t s j }.

#[refine] Definition map_redis : Redis := {|
  server := gmap string rentry;
  live := fun t (s : gmap string rentry) k =>
    match s !! k with Some e => if unexpired t e then Some e else None | None => None end;
  put := fun _ k o (s : gmap string rentry) => match o with Some e => <[k := e]> s | None => delete k s end |}.
Proof.
  - intros t s k e. destruct (s !! k) as [x|]; [|done]. destruct (unexpired t x) eqn:E; [|done]. by intros [= <-].
  - intros t t' s k Ht. destruct (s !! k) as [[v [x|]]|]; [|done|done]. unfold unexpired; simpl.
    destruct (t <? x) eqn:E; [done|]. bools. by rewrite (proj2 (Z.ltb_ge t' x)) by lia.
  - intros t s k o j Ho. destruct o as [e|].
    + rewrite lookup_insert. repeat case_decide; subst; try congruence. by rewrite Ho.
    + rewrite lookup_delete. by repeat case_decide; subst.
Defined.

Section Commands.
  Context `{Redis}.

Definition WRONGTYPE : error := Driver "WRONGTYPE Operation against a key holding the wrong kind of value".
Definition NOT_INTEGER : error := Driver "ERR value is not an integer or out of range".

Definition exists_key (t : Z) (k : string) (s : server) : bool :=
  match live t s k with Some _ => true | None => false end.

(** GET: [None] is a nil reply. *)
Definition get (t : Z) (k : string) (s : server) : error + option string :=
  match live t s k with
  | None => inr None
  | Some (RString v, _) => inr (Some v)
  | Some (RZset _, _) => inl WRONGTYPE
  end.

(** SET, with PX when an expiry in milliseconds is given; it must be positive. *)
Definition set_ (t : Z) (k v : string) (px : option Z) (s : server) : error + unit * server :=
  match px with
  | Some ms => if ms <=? 0 then inl (Driver "ERR invalid expire time in 'set' command")
               else inr (tt, put t k (Some (RString v, Some (t + ms))) s)
  | None => inr (tt, put t k (Some (RString v, None)) s)
  end.

(** SET NX: nothing when the key exists. *)
Definition set_nx (t : Z) (k v : string) (px : option Z) (s : server) : error + unit * server :=
  if exists_key t k s then inr (tt, s) else set_ t k v px s.

(** INCRBY keeps the expiry of the key. *)
Definition incrby (t : Z) (k : string) (d : Z) (s : server) : error + Z * server :=
  match live t s k with
  | None => inr (d, put t k (Some (RString (pretty d), None)) s)
  | Some (RZset _, _) => inl WRONGTYPE
  | Some (RString v, x) =>
      match parse_int64 v with
      | None => inl NOT_INTEGER
      | Some n => if (- 2 ^ 63 <=? n + d) && (n + d <? 2 ^ 63)
                  then inr (n + d, put t k (Some (RString (pretty (n + d)), x)) s)
                  else inl NOT_INTEGER
      end
  end.

(** PEXPIRE: a time that is not positive deletes the key. *)
Definition pexpire (t : Z) (k : string) (ms : Z) (s : server) : server :=
  match live t s k with
  | None => s
  | Some (v, _) => if ms <=? 0 then put t k None s else put t k (Some (v, Some (t + ms))) s
  end.

Definition del (t : Z) (k : string) (s : server) : Z * server :=
  if exists_key t k s then (1, put t k None s) else (0, s).

(** The members of a sorted set and its expiry; a missing key is the empty set. *)
Definition zset (t : Z) (k : string) (s : server) : error + gmap string Z * option Z :=
  match live t s k with
  | None => inr (∅, None)
  | Some (RZset m, x) => inr (m, x)
  | Some (RString _, _) => inl WRONGTYPE
  end.

(** A sorted set is stored back; an empty one is removed. *)
Definition put_zset (t : Z) (k : string) (m : gmap string Z) (x : option Z) (s : server) : server :=
  put t k (if decide (m = ∅) then None else Some (RZset m, x)) s.

Definition zadd (t : Z) (k : string) (score : Z) (member : string) (s : server) : error + server :=
  match zset t k s with inl e => inl e | inr (m, x) => inr (put_zset t k (<[member := score]> m) x s) end.

Definition zrem (t : Z) (k member : string) (s : server) : error + server :=
  match zset t k s with inl e => inl e | inr (m, x) => inr (put_zset t k (delete member m) x s) end.

(** ZREMRANGEBYSCORE k -inf bound *)
Definition zpurge (t : Z) (k : string) (bound : Z) (s : server) : error + server :=
  match zset t k s with
  | inl e => inl e
  | inr (m, x) => inr (put_zset t k (filter (fun kv => bound < kv.2) m) x s)
  end.

Definition zcard (t : Z) (k : string) (s : server) : error + Z :=
  match zset t k s with inl e => inl e | inr (m, _) => inr (Z.of_nat (size m)) end.

(** ** One round trip

    A script that errors keeps the writes it has made.  The client may lose
    the request, or the reply of a script that ran. *)
Definition script (A : Type) : Type := server -> (error + A) * server.

Inductive delivery := Delivered | RequestLost (msg : string) | ReplyLost (msg : string).

Definition call {A} (d : delivery) (f : script A) (s : server) : (error + A) * server :=
  match d with
  | Delivered => f s
  | RequestLost msg => (inl (Driver msg), s)
  | ReplyLost msg => (inl (Driver msg), (f s).2)
  end.

(** One command of a script; an error ends the script. *)
Definition step {A B} (r : error + A * server) (s : server) (k : A -> script B) : (error + B) * server :=
  match r with inl e => (inl e, s) | inr (a, s') => k a s' end.

Definition step_ {B} (r : error + server) (s : server) (k : script B) : (error + B) * server :=
  match r with inl e => (inl e, s) | inr s' => k s' end.

Lemma exists_key_put t k o s j :
  (forall e, o = Some e -> unexpired t e = true) ->
  exists_key t j (put t k o s) = if decide (j = k) then bool_decide (is_Some o) else exists_key t j s.
Proof.
  intros Ho. unfold exists_key. rewrite live_put by done. case_decide; [|done]. destruct o as [e|].
  - by rewrite bool_decide_eq_true_2.
  - by rewrite bool_decide_eq_false_2 by (intros [? [=]]).
Qed.

End Commands.

(** ** SHA-256, of which the program relies on the absence of collisions *)
Class Sha256 := { sha256 : string -> string; sha256_inj : Inj (=) (=) sha256 }.
#[export] Existing Instance sha256_inj.
Definition id_sha : Sha256 := {| sha256 := fun s => s; sha256_inj := fun a b H => H |}.

(** [hex.EncodeToString(sha256.Sum256(...))] *)
Definition hex_digest `{Sha256} (s : string) : string := hex_encode (sha256 s).

#[export] Instance hex_digest_inj `{Sha256} : Inj (=) (=) hex_digest.
Proof. intros a b E. by apply hex_encode_inj, (inj sha256) in E. Qed.

(** An empty server, for concrete runs. *)
Definition no_server : @server map_redis := (∅ : gmap string rentry).

Lemma no_server_live t k : @live map_redis t no_server k = None.
Proof. cbn [live map_redis]. unfold no_server. by rewrite lookup_empty. Qed.
