(* ===== verification/Quota.v ===== *)
(** * The shared usage counter (internal/quota/counter.go)

    One Redis counter per tenant and budget, charged by a script that claims
    the request identity first.  A ttl is a duration in nanoseconds. *)
From S2P Require Import Prelude GoStrings Redis.

Definition ErrInvalidKey : error := New "quota: tenant and budget are required".
Definition ErrInvalidAmount : error := New "quota: amount must be positive".
Definition defaultPrefix : string := "bifrost:maas:quota:".

(** What a script replies with. *)
Inductive reply := RepInt (n : Z) | RepText (s : string).

Definition redisValueInt64 (value : reply) : error + Z :=
  match value with
  | RepInt n => inr n
  | RepText s => match parse_int64 s with
                 | Some n => inr n
                 | None => inl (Wrap "quota: invalid redis integer %q: %w" (New "strconv.ParseInt: invalid syntax"))
                 end
  end.

(** The text "0" stands for no expiry. *)
Definition ttlMillis (ttl : Z) : Z :=
  if ttl <=? 0 then 0 else let ms := milliseconds ttl in if ms =? 0 then 1 else ms.

Section Counter.
  Context `{Redis} `{Sha256}.

Record Counter := mkCounter { prefix : string }.

Definition NewCounter (prefix : string) : Counter :=
  mkCounter (if is_empty prefix then defaultPrefix else prefix).

Definition key (c : Counter) (id budget : string) : error + string :=
  if blank id || blank budget then inl ErrInvalidKey
  else inr (prefix c +:+ hex_digest (id +:+ NUL +:+ budget)).

Definition idempotencyKey (counterKey requestID : string) : string :=
  counterKey +:+ ":claim:" +:+ hex_digest requestID.

Definition chargeScript (now : Z) (k : string) (amount ms : Z) : script Z := fun s =>
  let existed := exists_key now k s in
  step (incrby now k amount s) s (fun total s =>
    (inr total, if negb existed && negb (ms =? 0) then pexpire now k ms s else s)).

Definition chargeOnceScript (now : Z) (k claim : string) (amount ms : Z) : script (reply * Z) := fun s =>
  if exists_key now claim s then
    match get now k s with
    | inl e => (inl e, s)
    | inr v => (inr (RepText (default "0" v), 0), s)
    end
  else
    let existed := exists_key now k s in
    step (incrby now k amount s) s (fun total s =>
      let s := if negb existed && negb (ms =? 0) then pexpire now k ms s else s in
      step (set_nx now claim "1" (if negb (ms =? 0) then Some ms else None) s) s (fun _ s =>
        (inr (RepInt total, 1), s))).

Definition Charge (c : Counter) (id budget : string) (amount ttl now : Z) (d : delivery) : script Z := fun s =>
  if amount <=? 0 then (inl ErrInvalidAmount, s) else
  match key c id budget with
  | inl e => (inl e, s)
  | inr k =>
      match call d (chargeScript now k amount (ttlMillis ttl)) s with
      | (inl e, s') => (inl (Wrap "quota: charge %s/%s: %w" e), s')
      | (inr n, s') => (inr n, s')
      end
  end.

(** The total and whether this call was the one that charged it. *)
Definition ChargeOnce (c : Counter) (id budget requestID : string) (amount ttl now : Z) (d : delivery)
    : script (Z * bool) := fun s =>
  if amount <=? 0 then (inl ErrInvalidAmount, s) else
  if blank requestID then (inl (New "quota: request id is required"), s) else
  match key c id budget with
  | inl e => (inl e, s)
  | inr k =>
      match call d (chargeOnceScript now k (idempotencyKey k requestID) amount (ttlMillis ttl)) s with
      | (inl e, s') => (inl (Wrap "quota: idempotent charge %s/%s: %w" e), s')
      | (inr (v, flag), s') =>
          match redisValueInt64 v with
          | inl e => (inl e, s')
          | inr total => (inr (total, flag =? 1), s')
          end
      end
  end.

Definition Usage (c : Counter) (id budget : string) (now : Z) (d : delivery) : script Z := fun s =>
  match key c id budget with
  | inl e => (inl e, s)
  | inr k =>
      match call d (fun s => (get now k s, s)) s with
      | (inl e, s') => (inl (Wrap "quota: usage %s/%s: %w" e), s')
      | (inr None, s') => (inr 0, s')
      | (inr (Some v), s') =>
          match parse_int64 v with
          | Some n => (inr n, s')
          | None => (inl (Wrap "quota: usage %s/%s: %w" (New "strconv.ParseInt: invalid syntax")), s')
          end
      end
  end.

Definition Reset (c : Counter) (id budget : string) (now : Z) (d : delivery) : script unit := fun s =>
  match key c id budget with
  | inl e => (inl e, s)
  | inr k =>
      match call d (fun s => (inr (del now k s).1, (del now k s).2)) s with
      | (inl e, s') => (inl (Wrap "quota: reset %s/%s: %w" e), s')
      | (inr _, s') => (inr tt, s')
      end
  end.

(** ** One accounting window

    [k] is the counter, [t0] a server instant before the window's first charge
    and [ms] its length (0: no expiry). *)
Section Window.
  Variables (k : string) (t0 ms : Z).

Definition within (t : Z) : Prop := t0 <= t /\ (ms = 0 \/ t < t0 + ms).

(** At every instant of the window from [t] on, the counter holds [n] and the
    claims are those of the requests [seen]. *)
Definition window_inv (t : Z) (s : server) (seen : list string) (n : Z) : Prop :=
  forall t', t <= t' -> within t' ->
    (if n =? 0 then live t' s k = None else exists x, live t' s k = Some (RString (pretty n), x)) /\
    forall rid, exists_key t' (idempotencyKey k rid) s = bool_decide (rid ∈ seen).

Lemma window_inv_later t t' s seen n : t <= t' -> window_inv t s seen n -> window_inv t' s seen n.
Proof. intros Ht Hi t2 Ht2. apply Hi. lia. Qed.

Lemma claim_ne_counter rid : idempotencyKey k rid <> k.
Proof.
  intros E. apply (f_equal String.length) in E. unfold idempotencyKey in E. rewrite !slength_app in E. simpl in E. lia.
Qed.

Lemma claim_inj r1 r2 : idempotencyKey k r1 = idempotencyKey k r2 -> r1 = r2.
Proof.
  intros E. apply sapp_inj_l in E. apply sapp_inj_l in E. by apply (inj hex_digest) in E.
Qed.

(** The server after a first charge: a counter entry and a claim entry. *)
Lemma window_inv_charged t s s' seen n rid amount x y :
  within t -> 0 <= n -> 0 < amount -> window_inv t s seen n ->
  (forall t', t <= t' -> within t' -> unexpired t' (RString (pretty (n + amount)), x) = true) ->
  (forall t', t <= t' -> within t' -> unexpired t' (RString "1", y) = true) ->
  (forall j, live t s' j = if decide (j = idempotencyKey k rid) then Some (RString "1", y)
                           else if decide (j = k) then Some (RString (pretty (n + amount)), x) else live t s j) ->
  window_inv t s' (rid :: seen) (n + amount).
Proof.
  intros Ht Hn Ha Hi Hx Hy Hs' t' Ht' Hin. destruct (Hi t' Ht' Hin) as [_ Hclaims]. split.
  - rewrite (proj2 (Z.eqb_neq _ _)) by lia. exists x. rewrite (live_later t t') by done.
    rewrite Hs', decide_False by (intros E; by apply (claim_ne_counter rid)). rewrite decide_True by done.
    by rewrite Hx.
  - intros r. unfold exists_key in *. rewrite (live_later t t') by done. rewrite Hs'.
    destruct (decide (r = rid)) as [->|Hr].
    + rewrite decide_True, Hy by done. by rewrite bool_decide_eq_true_2 by left.
    + rewrite decide_False by (intros E; by apply claim_inj in E). rewrite decide_False by apply claim_ne_counter.
      specialize (Hclaims r). rewrite (live_later t t') in Hclaims by done. rewrite Hclaims.
      apply bool_decide_ext. set_solver.
Qed.

Lemma ttl_nonneg ttl : 0 <= ttlMillis ttl.
Proof.
  unfold ttlMillis, milliseconds. destruct (Z.leb_spec ttl 0); [lia|].
  pose proof (Z.quot_pos ttl (10 ^ 6)). destruct (_ =? 0); lia.
Qed.

(** One run of the script in the window. *)
Lemma charge_once_run t s seen n rid amount :
  0 <= ms -> within t -> 0 <= n < 2 ^ 63 -> 0 < amount -> (rid ∉ seen -> n + amount < 2 ^ 63) ->
  window_inv t s seen n ->
  exists s', chargeOnceScript t k (idempotencyKey k rid) amount ms s =
    (inr (if decide (rid ∈ seen) then (RepText (pretty n), 0) else (RepInt (n + amount), 1)), s') /\
    window_inv t s' (if decide (rid ∈ seen) then seen else rid :: seen)
      (if decide (rid ∈ seen) then n else n + amount).
Proof.
  intros Hms Ht Hn Ha Hmax Hi. destruct (Hi t (Z.le_refl t) Ht) as [Hk Hclaims].
  unfold chargeOnceScript. rewrite Hclaims. destruct (decide (rid ∈ seen)) as [Hin|Hin].
  - rewrite bool_decide_eq_true_2 by done. exists s. split; [|done]. unfold get.
    destruct (n =? 0) eqn:En; [bools; subst; by rewrite Hk|]. by destruct Hk as [x ->].
  - specialize (Hmax Hin). rewrite bool_decide_eq_false_2 by done.
    assert (Hnc : exists_key t (idempotencyKey k rid) s = false) by (by rewrite Hclaims, bool_decide_eq_false_2).
    assert (Hclaim : forall s1 total, (forall j, j <> k -> live t s1 j = live t s j) ->
      exists y, (forall t', t <= t' -> within t' -> unexpired t' (RString "1", y) = true) /\
      step (set_nx t (idempotencyKey k rid) "1" (if negb (ms =? 0) then Some ms else None) s1) s1
        (fun _ s => (inr (RepInt total, 1), s)) =
      (inr (RepInt total, 1), put t (idempotencyKey k rid) (Some (RString "1", y)) s1)).
    { intros s1 total Hs1. unfold set_nx, exists_key in *. rewrite Hs1 by apply claim_ne_counter.
      destruct (live t s (idempotencyKey k rid)); [done|]. unfold set_. destruct (ms =? 0) eqn:Ems; simpl.
      - exists None. done.
      - rewrite (proj2 (Z.leb_gt _ _)) by (bools; lia). exists (Some (t + ms)). split; [|done].
        intros t' _ [_ Hw]. unfold within in Ht. bools. simpl. apply Z.ltb_lt. lia. }
    unfold incrby. destruct (n =? 0) eqn:En.
    + bools. subst n. unfold exists_key. rewrite Hk. simpl.
      set (x := if ms =? 0 then None else Some (t + ms)).
      assert (Hx : forall t', t <= t' -> within t' -> unexpired t' (RString (pretty amount), x) = true).
      { intros t' _ [_ Hw]. unfold x, unexpired, within in *. destruct (ms =? 0) eqn:Ems; simpl; [done|].
        bools. apply Z.ltb_lt. lia. }
      set (s1 := if negb (ms =? 0) then pexpire _ _ _ _ else _).
      assert (Hs1 : forall j, live t s1 j = if decide (j = k) then Some (RString (pretty amount), x) else live t s j).
      { intros j. unfold s1, x. destruct (ms =? 0) eqn:Ems; simpl.
        - rewrite live_put by (by intros e [= <-]). done.
        - unfold pexpire. rewrite live_put by (by intros e [= <-]). rewrite decide_True by done.
          bools. rewrite (proj2 (Z.leb_gt _ _)) by lia.
          rewrite live_put by (intros e [= <-]; simpl; apply Z.ltb_lt; lia). case_decide; [done|].
          rewrite live_put by (by intros e [= <-]). by rewrite decide_False. }
      destruct (Hclaim s1 amount) as (y & Hy & ->); [intros j Hj; by rewrite Hs1, decide_False|].
      eexists. split; [reflexivity|]. change (0 + amount) with amount.
      eapply (window_inv_charged t s _ seen 0 rid amount x y); try done.
      intros j. rewrite live_put by (intros e [= <-]; apply Hy; [lia|done]). case_decide; [done|]. apply Hs1.
    + destruct Hk as [x Hk]. unfold exists_key. rewrite Hk. simpl.
      rewrite parse_int64_pretty by (unfold int64_range; lia).
      rewrite (proj2 (andb_true_iff _ _)) by (rewrite Z.leb_le, Z.ltb_lt; lia). simpl.
      assert (Hx : forall t', t <= t' -> within t' -> unexpired t' (RString (pretty (n + amount)), x) = true).
      { intros t' Ht' Hw. destruct (Hi t' Ht' Hw) as [Hl _]. rewrite En in Hl. destruct Hl as [x' Hl].
        rewrite (live_later t t'), Hk in Hl by done. unfold unexpired in *. simpl in *.
        destruct x as [e|]; [|done]. by destruct (t' <? e). }
      set (s1 := put _ _ _ _).
      assert (Hs1 : forall j, live t s1 j = if decide (j = k) then Some (RString (pretty (n + amount)), x) else live t s j).
      { intros j. unfold s1. by rewrite live_put by (intros e [= <-]; apply Hx; [lia|done]). }
      destruct (Hclaim s1 (n + amount)) as (y & Hy & ->); [intros j Hj; by rewrite Hs1, decide_False|].
      eexists. split; [reflexivity|].
      eapply (window_inv_charged t s _ seen n rid amount x y); try done; [lia|].
      intros j. rewrite live_put by (intros e [= <-]; apply Hy; [lia|done]). case_decide; [done|]. apply Hs1.
Qed.

End Window.
End Counter.

(** ** Sequences of charges *)
Record request := mkRequest { rq_id : string; rq_amount : Z; rq_at : Z; rq_delivery : delivery }.

Definition reached (d : delivery) : bool := match d with RequestLost _ => false | _ => true end.

(** A request the server runs: its identity is claimed and its amount counted
    unless the identity was claimed before. *)
Definition claims (seen : list string) (r : request) : bool :=
  reached (rq_delivery r) && negb (bool_decide (rq_id r ∈ seen)).
Definition seen_after (seen : list string) (r : request) : list string :=
  if claims seen r then rq_id r :: seen else seen.
Definition total_after (seen : list string) (n : Z) (r : request) : Z :=
  if claims seen r then n + rq_amount r else n.

(** What a sequence of requests is worth: each identity that reached the server
    counts once, with the amount of its first arrival. *)
Fixpoint charged (seen : list string) (n : Z) (l : list request) : Z :=
  match l with
  | [] => n
  | r :: l' => charged (seen_after seen r) (total_after seen n r) l'
  end.

(** What a call reports: the total after it and whether it was the charge. *)
Definition report (seen : list string) (n : Z) (r : request) : error + Z * bool :=
  match rq_delivery r with
  | Delivered => inr (total_after seen n r, claims seen r)
  | RequestLost msg | ReplyLost msg => inl (Wrap "quota: idempotent charge %s/%s: %w" (Driver msg))
  end.

Fixpoint reports (seen : list string) (n : Z) (l : list request) : list (error + Z * bool) :=
  match l with
  | [] => []
  | r :: l' => report seen n r :: reports (seen_after seen r) (total_after seen n r) l'
  end.

Section Sequences.
  Context `{Redis} `{Sha256}.

Fixpoint charge_all (c : Counter) (id budget : string) (ttl : Z) (l : list request) (s : server)
    : list (error + Z * bool) * server :=
  match l with
  | [] => ([], s)
  | r :: l' =>
      match ChargeOnce c id budget (rq_id r) (rq_amount r) ttl (rq_at r) (rq_delivery r) s with
      | (res, s') => let '(rest, s'') := charge_all c id budget ttl l' s' in (res :: rest, s'')
      end
  end.

(** The requests of a window are accepted ones, sent in order. *)
Fixpoint in_order (t0 ms t : Z) (l : list request) : Prop :=
  match l with
  | [] => True
  | r :: l' => t <= rq_at r /\ within t0 ms (rq_at r) /\ 0 < rq_amount r /\ blank (rq_id r) = false /\
               in_order t0 ms (rq_at r) l'
  end.

Lemma charged_mono t0 ms t l seen n : in_order t0 ms t l -> n <= charged seen n l.
Proof.
  revert t seen n. induction l as [|r l IH]; intros t seen n Hl; simpl; [lia|].
  destruct Hl as (_ & _ & Hr & _ & Hl). specialize (IH _ (seen_after seen r) (total_after seen n r) Hl).
  unfold total_after in *. destruct (claims seen r); lia.
Qed.

Lemma ChargeOnce_run c id budget k ttl t0 t s seen n r :
  key c id budget = inr k -> within t0 (ttlMillis ttl) (rq_at r) -> 0 < rq_amount r -> blank (rq_id r) = false ->
  t <= rq_at r -> 0 <= n -> n < 2 ^ 63 -> total_after seen n r < 2 ^ 63 ->
  window_inv k t0 (ttlMillis ttl) t s seen n ->
  exists s', ChargeOnce c id budget (rq_id r) (rq_amount r) ttl (rq_at r) (rq_delivery r) s = (report seen n r, s') /\
    window_inv k t0 (ttlMillis ttl) (rq_at r) s' (seen_after seen r) (total_after seen n r).
Proof.
  intros Hk Hw Ha Hb Hle Hn Hn2 Hmax Hi. pose proof (window_inv_later k t0 _ t (rq_at r) s seen n Hle Hi) as Hi'.
  unfold ChargeOnce. rewrite (proj2 (Z.leb_gt _ _) Ha), Hb, Hk.
  unfold report, seen_after, total_after, claims in *.
  destruct (rq_delivery r) as [|msg|msg]; simpl in *; [|by exists s|].
  all: destruct (charge_once_run k t0 (ttlMillis ttl) (rq_at r) s seen n (rq_id r) (rq_amount r)
      (ttl_nonneg ttl) Hw (conj Hn Hn2) Ha) as (s1 & Hrun & Hi1);
    [intros Hin; by rewrite bool_decide_eq_false_2 in Hmax|exact Hi'|]; rewrite Hrun; exists s1;
    destruct (decide (rq_id r ∈ seen)) as [Hin|Hin];
    [rewrite bool_decide_eq_true_2 in * by done|rewrite bool_decide_eq_false_2 in * by done]; simpl; split; try done.
  unfold redisValueInt64. by rewrite parse_int64_pretty by (unfold int64_range; lia).
Qed.

Lemma charge_all_window c id budget k ttl t0 l : key c id budget = inr k ->
  forall t s seen n, 0 <= n -> in_order t0 (ttlMillis ttl) t l -> charged seen n l < 2 ^ 63 ->
  window_inv k t0 (ttlMillis ttl) t s seen n ->
  (charge_all c id budget ttl l s).1 = reports seen n l /\
  forall t2, t <= t2 -> Forall (fun r => rq_at r <= t2) l -> exists seen',
    window_inv k t0 (ttlMillis ttl) t2 (charge_all c id budget ttl l s).2 seen' (charged seen n l).
Proof.
  intros Hk. induction l as [|r l IH]; intros t s seen n Hn Hl Hmax Hi; simpl.
  { split; [done|]. intros t2 Ht2 _. exists seen. by eapply window_inv_later. }
  pose proof Hl as (Hle & Hw & Ha & Hb & Hl'). simpl in Hmax.
  pose proof (charged_mono _ _ _ _ (seen_after seen r) (total_after seen n r) Hl') as Hm.
  assert (Hnt : n <= total_after seen n r) by (unfold total_after; destruct (claims seen r); lia).
  destruct (ChargeOnce_run c id budget k ttl t0 t s seen n r) as (s1 & -> & Hi1); [done..|lia|lia|done|].
  destruct (IH (rq_at r) s1 (seen_after seen r) (total_after seen n r)) as [Hrep Hfin]; [lia|done|done|done|].
  destruct (charge_all c id budget ttl l s1) as [rest s2]. simpl in *. split; [by rewrite Hrep|].
  intros t2 _ Hall. apply Forall_cons in Hall as [H2 Hall]. by apply Hfin.
Qed.

(** C17. Charging is exact within an accounting window: from a counter that does
    not exist, whatever requests and retries are sent in it, and whichever
    requests or replies the network loses, every identity that reached the
    server is charged once: the calls report the running total and whether
    they applied, and the usage read at the end is the sum of the first
    arrivals. *)
Theorem charge_once_window c id budget k ttl t0 l s t :
  key c id budget = inr k ->
  live t0 s k = None -> (forall rid, live t0 s (idempotencyKey k rid) = None) ->
  in_order t0 (ttlMillis ttl) t0 l -> charged [] 0 l < 2 ^ 63 ->
  within t0 (ttlMillis ttl) t -> Forall (fun r => rq_at r <= t) l ->
  (charge_all c id budget ttl l s).1 = reports [] 0 l /\
  (Usage c id budget t Delivered (charge_all c id budget ttl l s).2).1 = inr (charged [] 0 l).
Proof.
  intros Hk Hnone Hclaims Hl Hmax Hw Hall.
  assert (Hi : window_inv k t0 (ttlMillis ttl) t0 s [] 0).
  { intros t' Ht' _. simpl. rewrite (live_later t0 t'), Hnone by done. split; [done|]. intros rid.
    unfold exists_key. by rewrite (live_later t0 t'), Hclaims by done. }
  destruct (charge_all_window c id budget k ttl t0 l Hk t0 s [] 0) as [Hrep Hfin]; [done..|].
  split; [done|]. destruct (Hfin t) as (seen & Hfinal); [by destruct Hw|done|].
  destruct (Hfinal t (Z.le_refl t) Hw) as [Hcount _].
  pose proof (charged_mono _ _ _ _ [] 0 Hl) as Hpos.
  unfold Usage, get. rewrite Hk. simpl. destruct (charged [] 0 l =? 0) eqn:En.
  - bools. rewrite Hcount, En. done.
  - destruct Hcount as [x ->]. by rewrite parse_int64_pretty by (unfold int64_range; lia).
Qed.

(** Two counters share a Redis key only when they are one counter, as long
    as tenant ids hold no NUL byte; blank names are refused, and Reset empties
    the one counter it names. *)
Theorem quota_keys_separate c id1 b1 id2 b2 k1 k2 :
  index_byte id1 "000"%char = None -> index_byte id2 "000"%char = None ->
  key c id1 b1 = inr k1 -> key c id2 b2 = inr k2 ->
  (k1 = k2 <-> id1 = id2 /\ b1 = b2) /\
  (forall r1 r2, k1 <> idempotencyKey k2 r2 /\
     (idempotencyKey k1 r1 = idempotencyKey k1 r2 <-> r1 = r2)) /\
  forall s t, exists s', Reset c id1 b1 t Delivered s = (inr tt, s') /\ live t s' k1 = None /\
    (k1 <> k2 -> live t s' k2 = live t s k2).
Proof.
  intros N1 N2 E1 E2. unfold key in E1, E2.
  destruct (blank id1 || blank b1) eqn:B1, (blank id2 || blank b2) eqn:B2; simplify_eq. split_and!.
  - split; [|by intros [-> ->]]. intros E. apply sapp_inj_l, (inj hex_digest) in E.
    apply (f_equal (fun s => cut s "000"%char)) in E. unfold NUL in E. simpl in E.
    change (of_bytes [0%nat]) with (String "000"%char EmptyString) in E. simpl in E.
    rewrite !cut_app in E by done. by simplify_eq.
  - intros r1 r2. split.
    + intros E. apply (f_equal String.length) in E. unfold idempotencyKey, hex_digest in E.
      rewrite !slength_app in E. revert E.
      assert (Hlen : forall x, String.length (hex_encode (sha256 x)) = (2 * String.length (sha256 x))%nat).
      { intros x. generalize (sha256 x) as y. induction y as [|ch y IH]; simpl; [done|]. lia. }
      rewrite !Hlen. simpl. lia.
    + split; [apply claim_inj|by intros ->].
  - intros s t. unfold Reset, key. rewrite B1. simpl. eexists. split; [reflexivity|].
    unfold del, exists_key. destruct (live t s _) eqn:El; simpl; [|done].
    split; [by rewrite live_put, decide_True|]. intros Hne. rewrite live_put by done. by rewrite decide_False.
Qed.

End Sequences.

(** ** A concrete window *)
Definition demo_requests : list request :=
  [mkRequest "a" 5 10 (ReplyLost "timeout"); mkRequest "a" 5 12 Delivered;
   mkRequest "b" 3 15 (RequestLost "reset"); mkRequest "c" 2 20 Delivered].

Definition demo_counter : Counter := NewCounter "".

Lemma charge_once_window_witness :
  (@Usage map_redis id_sha demo_counter "t1" "tokens" 30 Delivered
     (@charge_all map_redis id_sha demo_counter "t1" "tokens" (10 ^ 9) demo_requests no_server).2).1 = inr 7.
Proof.
  refine (proj2 (@charge_once_window map_redis id_sha demo_counter "t1" "tokens"
    ("bifrost:maas:quota:" +:+ @hex_digest id_sha ("t1" +:+ NUL +:+ "tokens")) (10 ^ 9) 5 demo_requests no_server 30
    _ _ _ _ _ _ _)).
  - reflexivity.
  - apply no_server_live.
  - intros rid. apply no_server_live.
  - vm_compute. repeat split; try discriminate; right; reflexivity.
  - reflexivity.
  - vm_compute. split; [discriminate|right; reflexivity].
  - repeat constructor; simpl; lia.
Defined.

Lemma quota_keys_separate_witness :
  exists s', @Reset map_redis id_sha demo_counter "t1" "tokens" 30 Delivered no_server = (inr tt, s').
Proof.
  destruct (@quota_keys_separate map_redis id_sha demo_counter "t1" "tokens" "t2" "tokens"
    ("bifrost:maas:quota:" +:+ @hex_digest id_sha ("t1" +:+ NUL +:+ "tokens"))
    ("bifrost:maas:quota:" +:+ @hex_digest id_sha ("t2" +:+ NUL +:+ "tokens"))) as (_ & _ & Hs);
    [reflexivity..|].
  destruct (Hs no_server 30) as (s' & Hr & _). exists s'. exact Hr.
Defined.
