(* ===== verification/Fairness.v ===== *)
(** * The cluster-wide semaphore (internal/fairness/semaphore.go)

    Slots are leases in two sorted sets, scored by their expiry in
    milliseconds, with a key per lease that expires with it.  [now] is the
    caller's clock and [t] the server's; tokens come from the random source. *)
From S2P Require Import Prelude GoStrings Redis.

Definition ErrInvalidRequest : error := New "fairness: invalid semaphore request".
Definition ErrUnavailable : error := New "fairness: semaphore capacity unavailable".
Definition ErrLeaseExpired : error := New "fairness: lease expired".
Definition hashTag : string := "{maas-semaphore}".

Record Lease := mkLease { ls_Token : string; ls_TenantID : string; ls_Provider : string; ls_ExpiresAt : Z }.

Definition ValidateLimits (tenantLimit providerLimit : Z) : option error :=
  if (tenantLimit <? 0) || (providerLimit <? 0) then Some ErrInvalidRequest else None.

Section Semaphore.
  Context `{Redis} `{Sha256}.

Record Semaphore := mkSemaphore { prefix : string }.

Definition NewSemaphore (prefix : string) : Semaphore :=
  let prefix := if is_empty prefix then "bifrost:maas:fairness:" else prefix in
  mkSemaphore (trim_suffix prefix ":" +:+ ":").

Definition keyPart (value : string) : string := hex_digest value.

Definition tenant_key (s : Semaphore) (tenantID : string) : string :=
  prefix s +:+ hashTag +:+ ":tenant:" +:+ keyPart tenantID.
Definition provider_key (s : Semaphore) (provider : string) : string :=
  prefix s +:+ hashTag +:+ ":provider:" +:+ keyPart provider.
Definition lease_key (s : Semaphore) (token : string) : string :=
  prefix s +:+ hashTag +:+ ":lease:" +:+ keyPart token.

Definition acquireScript (t : Z) (k1 k2 k3 : string) (now ms tenantLimit providerLimit : Z) (token value : string)
    : script Z := fun s =>
  let expires := now + ms in
  step_ (zpurge t k1 now s) s (fun s =>
  step_ (zpurge t k2 now s) s (fun s =>
  match (if 0 <? tenantLimit then zcard t k1 s else inr (-1)) with
  | inl e => (inl e, s)
  | inr c1 =>
      if (0 <? tenantLimit) && (tenantLimit <=? c1) then (inr 0, s) else
      match (if 0 <? providerLimit then zcard t k2 s else inr (-1)) with
      | inl e => (inl e, s)
      | inr c2 =>
          if (0 <? providerLimit) && (providerLimit <=? c2) then (inr 0, s) else
          step_ (zadd t k1 expires token s) s (fun s =>
          step_ (zadd t k2 expires token s) s (fun s =>
          step (set_ t k3 value (Some ms) s) s (fun _ s => (inr 1, s))))
      end
  end)).

Definition renewScript (t : Z) (k1 k2 k3 : string) (now ms : Z) (token : string) : script Z := fun s =>
  if negb (exists_key t k3 s) then (inr 0, s) else
  let expires := now + ms in
  step_ (zadd t k1 expires token s) s (fun s =>
  step_ (zadd t k2 expires token s) s (fun s => (inr 1, pexpire t k3 ms s))).

Definition releaseScript (t : Z) (k1 k2 k3 token : string) : script Z := fun s =>
  step_ (zrem t k1 token s) s (fun s =>
  step_ (zrem t k2 token s) s (fun s => (inr (del t k3 s).1, (del t k3 s).2))).

Definition Acquire (sem : Semaphore) (tenantID provider : string) (tenantLimit providerLimit ttl : Z)
    (random : error + string) (now t : Z) (d : delivery) : script Lease := fun s =>
  if blank tenantID || blank provider || (tenantLimit <? 0) || (providerLimit <? 0) || (ttl <=? 0)
  then (inl ErrInvalidRequest, s) else
  match random with
  | inl e => (inl e, s)
  | inr token =>
      match call d (acquireScript t (tenant_key sem tenantID) (provider_key sem provider) (lease_key sem token)
              now (milliseconds ttl) tenantLimit providerLimit token (tenantID +:+ NUL +:+ provider)) s with
      | (inl e, s') => (inl (Wrap "fairness: acquire: %w" e), s')
      | (inr result, s') =>
          if negb (result =? 1) then (inl ErrUnavailable, s')
          else (inr (mkLease token tenantID provider ((now + milliseconds ttl) * 10 ^ 6)), s')
      end
  end.

Definition Renew (sem : Semaphore) (lease : Lease) (ttl now t : Z) (d : delivery) : script unit := fun s =>
  if is_empty (ls_Token lease) || is_empty (ls_TenantID lease) || is_empty (ls_Provider lease) || (ttl <=? 0)
  then (inl ErrInvalidRequest, s) else
  match call d (renewScript t (tenant_key sem (ls_TenantID lease)) (provider_key sem (ls_Provider lease))
          (lease_key sem (ls_Token lease)) now (milliseconds ttl) (ls_Token lease)) s with
  | (inl e, s') => (inl (Wrap "fairness: renew: %w" e), s')
  | (inr result, s') => if negb (result =? 1) then (inl ErrLeaseExpired, s') else (inr tt, s')
  end.

Definition Release (sem : Semaphore) (lease : Lease) (t : Z) (d : delivery) : script unit := fun s =>
  if is_empty (ls_Token lease) || is_empty (ls_TenantID lease) || is_empty (ls_Provider lease)
  then (inl ErrInvalidRequest, s) else
  match call d (releaseScript t (tenant_key sem (ls_TenantID lease)) (provider_key sem (ls_Provider lease))
          (lease_key sem (ls_Token lease)) (ls_Token lease)) s with
  | (inl e, s') => (inl (Wrap "fairness: release: %w" e), s')
  | (inr _, s') => (inr tt, s')
  end.

End Semaphore.

(** ** Facts about keys and sorted sets *)
Section Facts.
  Context `{Redis} `{Sha256} (sem : Semaphore).

Lemma tenant_ne_provider a b : tenant_key sem a <> provider_key sem b.
Proof. intros E. do 2 apply sapp_inj_l in E. discriminate E. Qed.
Lemma tenant_ne_lease a b : tenant_key sem a <> lease_key sem b.
Proof. intros E. do 2 apply sapp_inj_l in E. discriminate E. Qed.
Lemma provider_ne_lease a b : provider_key sem a <> lease_key sem b.
Proof. intros E. do 2 apply sapp_inj_l in E. discriminate E. Qed.
Lemma lease_key_inj a b : lease_key sem a = lease_key sem b -> a = b.
Proof. intros E. do 3 apply sapp_inj_l in E. by apply (inj hex_digest) in E. Qed.

(** The members whose lease has not run out. *)
Definition active (t : Z) (m : gmap string Z) : gmap string Z := filter (fun kv => t < kv.2) m.

Definition active_count (t : Z) (m : gmap string Z) : Z := Z.of_nat (size (active t m)).

Lemma active_later t t' m : t <= t' -> active_count t' m <= active_count t m.
Proof.
  intros Ht. unfold active_count, active. apply Nat2Z.inj_le, map_subseteq_size.
  apply map_subseteq_spec. intros k e. rewrite !map_lookup_filter_Some. simpl. intros [? ?]. split; [done|lia].
Qed.

Lemma active_purged t m : active t (active t m) = active t m.
Proof. unfold active. apply map_filter_id. by intros k e [_ ?]%map_lookup_filter_Some. Qed.

Lemma active_insert t m tok e : active_count t (<[tok := e]> (active t m)) <= active_count t m + 1.
Proof.
  unfold active_count. assert (Hs : active t (<[tok := e]> (active t m)) ⊆ <[tok := e]> (active t m))
    by apply map_filter_subseteq.
  apply map_subseteq_size in Hs. rewrite map_size_insert in Hs. unfold active in *.
  destruct (filter _ m !! tok); simpl in Hs; lia.
Qed.

Lemma active_insert_member t m tok e e0 :
  m !! tok = Some e0 -> t < e0 -> active_count t (<[tok := e]> m) <= active_count t m.
Proof.
  intros Hm He. unfold active_count. apply Nat2Z.inj_le.
  rewrite <-(size_dom (D := gset string) (active t (<[tok := e]> m))), <-(size_dom (D := gset string) (active t m)).
  apply subseteq_size. intros k. rewrite !elem_of_dom. unfold active. intros [x Hx].
  apply map_lookup_filter_Some in Hx as [Hx Hlt]. apply lookup_insert_Some in Hx as [[<- <-]|[Hne Hx]].
  - exists e0. by apply map_lookup_filter_Some.
  - exists x. by apply map_lookup_filter_Some.
Qed.

Lemma active_delete t m tok : active_count t (delete tok m) <= active_count t m.
Proof.
  unfold active_count, active. apply Nat2Z.inj_le, map_subseteq_size, map_subseteq_spec.
  intros k e. rewrite !map_lookup_filter_Some, lookup_delete_Some. tauto.
Qed.

(** A sorted set without expiry, and what a command makes of it. *)
Definition holds_zset (t : Z) (s : server) (k : string) (m : gmap string Z) : Prop := zset t k s = inr (m, None).

Lemma holds_later t t' s k m : t <= t' -> holds_zset t s k m -> holds_zset t' s k m.
Proof.
  unfold holds_zset, zset. intros Ht. rewrite (live_later t t') by done.
  destruct (live t s k) as [[[v|m0] x]|]; intros E; simplify_eq; done.
Qed.

Lemma put_zset_ok t s k m m' :
  holds_zset t s k m ->
  holds_zset t (put_zset t k m' None s) k m' /\ forall j, j <> k -> live t (put_zset t k m' None s) j = live t s j.
Proof.
  intros _. unfold holds_zset, zset, put_zset. split.
  - rewrite live_put by (by intros e; case_decide; intros [= <-]). rewrite decide_True by done.
    by case_decide as Em; [rewrite Em|].
  - intros j Hj. rewrite live_put by (by intros e; case_decide; intros [= <-]). by rewrite decide_False.
Qed.

Lemma zadd_ok t s k m e tok :
  holds_zset t s k m -> zadd t k e tok s = inr (put_zset t k (<[tok := e]> m) None s).
Proof. unfold holds_zset, zadd. by intros ->. Qed.
Lemma zrem_ok t s k m tok :
  holds_zset t s k m -> zrem t k tok s = inr (put_zset t k (delete tok m) None s).
Proof. unfold holds_zset, zrem. by intros ->. Qed.
Lemma zpurge_ok t s k m b :
  holds_zset t s k m -> zpurge t k b s = inr (put_zset t k (active b m) None s).
Proof. unfold holds_zset, zpurge. by intros ->. Qed.
Lemma zcard_ok t s k m : holds_zset t s k m -> zcard t k s = inr (Z.of_nat (size m)).
Proof. unfold holds_zset, zcard. by intros ->. Qed.

Lemma holds_live t s s' k m : live t s' k = live t s k -> holds_zset t s k m -> holds_zset t s' k m.
Proof. unfold holds_zset, zset. by intros ->. Qed.

(** Two sorted sets replaced, all other keys kept but possibly one. *)
Definition replaced (t : Z) (s s' : server) (k1 : string) (m1 : gmap string Z) (k2 : string) (m2 : gmap string Z)
    (k3 : string) : Prop :=
  holds_zset t s' k1 m1 /\ holds_zset t s' k2 m2 /\
  forall j, j <> k1 -> j <> k2 -> j <> k3 -> live t s' j = live t s j.

Lemma replaced_two t s k1 k2 k3 m1 m2 n1 n2 :
  k1 <> k2 -> k3 <> k1 -> k3 <> k2 -> holds_zset t s k1 m1 -> holds_zset t s k2 m2 ->
  let s' := put_zset t k2 n2 None (put_zset t k1 n1 None s) in
  replaced t s s' k1 n1 k2 n2 k3 /\ live t s' k3 = live t s k3.
Proof.
  intros Hne H31 H32 H1 H2. destruct (put_zset_ok t s k1 m1 n1 H1) as [A1 A2].
  set (s1 := put_zset t k1 n1 None s) in *.
  assert (H2' : holds_zset t s1 k2 m2) by (eapply holds_live; [apply A2; congruence|done]).
  destruct (put_zset_ok t s1 k2 m2 n2 H2') as [B1 B2]. split; [|by rewrite B2, A2].
  split_and!; [|done|].
  - eapply holds_live; [by apply B2|done].
  - intros j J1 J2 _. by rewrite B2, A2.
Qed.

Lemma replaced_put t s s' k1 m1 k2 m2 k3 o :
  k3 <> k1 -> k3 <> k2 -> (forall e, o = Some e -> unexpired t e = true) ->
  replaced t s s' k1 m1 k2 m2 k3 ->
  replaced t s (put t k3 o s') k1 m1 k2 m2 k3 /\ live t (put t k3 o s') k3 = o.
Proof.
  intros H31 H32 Ho (A & B & C). split; [|by rewrite live_put, decide_True by done]. split_and!.
  - eapply holds_live; [|exact A]. by rewrite live_put, decide_False by done.
  - eapply holds_live; [|exact B]. by rewrite live_put, decide_False by done.
  - intros j J1 J2 J3. rewrite live_put, decide_False by done. by apply C.
Qed.

Lemma replaced_trans t s s1 s2 k1 a1 b1 k2 a2 b2 k3 :
  replaced t s s1 k1 a1 k2 a2 k3 -> replaced t s1 s2 k1 b1 k2 b2 k3 -> replaced t s s2 k1 b1 k2 b2 k3.
Proof.
  intros (_ & _ & A) (B1 & B2 & B). split_and!; [done..|]. intros j J1 J2 J3. by rewrite B, A.
Qed.

Section Scripts.
  Variables (T P tok : string).
  Abbreviation kT := (tenant_key sem T).
  Abbreviation kP := (provider_key sem P).
  Abbreviation kL := (lease_key sem tok).

(** Whether a limit leaves no room. *)
Definition full (t limit : Z) (m : gmap string Z) : bool := (0 <? limit) && (limit <=? active_count t m).

Lemma acquire_run t ms tl pl value s m1 m2 :
  holds_zset t s kT m1 -> holds_zset t s kP m2 -> live t s kL = None ->
  exists r s', acquireScript t kT kP kL t ms tl pl tok value s = (r, s') /\
    if full t tl m1 || full t pl m2
    then r = inr 0 /\ replaced t s s' kT (active t m1) kP (active t m2) kL /\ live t s' kL = None
    else replaced t s s' kT (<[tok := t + ms]> (active t m1)) kP (<[tok := t + ms]> (active t m2)) kL /\
      if 0 <? ms then r = inr 1 /\ live t s' kL = Some (RString value, Some (t + ms))
      else (exists e, r = inl e) /\ live t s' kL = None.
Proof.
  intros H1 H2 HL.
  pose proof (not_eq_sym (tenant_ne_lease T tok)) as N1.
  pose proof (not_eq_sym (provider_ne_lease P tok)) as N2.
  pose proof (tenant_ne_provider T P) as N3.
  destruct (replaced_two t s kT kP kL m1 m2 (active t m1) (active t m2) N3 N1 N2 H1 H2) as [R1 L1].
  destruct (put_zset_ok t s kT m1 (active t m1) H1) as [A1 A2].
  assert (H2' : holds_zset t (put_zset t kT (active t m1) None s) kP m2)
    by (eapply holds_live; [by apply A2|done]).
  unfold acquireScript. rewrite (zpurge_ok _ _ _ _ _ H1). simpl. rewrite (zpurge_ok _ _ _ _ _ H2'). simpl.
  set (s2 := put_zset t kP (active t m2) None _) in *. pose proof R1 as (B1 & B2 & _).
  rewrite (zcard_ok _ _ _ _ B1), (zcard_ok _ _ _ _ B2).
  assert (Hfull : forall limit m, full t limit m =
     (0 <? limit) && (limit <=? (if 0 <? limit then Z.of_nat (size (active t m)) else -1))).
  { intros limit m. unfold full, active_count. by destruct (0 <? limit). }
  rewrite (Hfull tl), (Hfull pl).
  destruct (0 <? tl) eqn:Et; simpl; [destruct (tl <=? _) eqn:Et2; simpl; [by eexists _, s2; rewrite L1|]|].
  all: destruct (0 <? pl) eqn:Ep; simpl; [destruct (pl <=? _) eqn:Ep2; simpl; [by eexists _, s2; rewrite L1|]|].
  all: rewrite (zadd_ok _ _ _ _ _ _ B1); simpl.
  all: destruct (put_zset_ok t s2 kT (active t m1) (<[tok := t + ms]> (active t m1)) B1) as [C1 C2].
  all: assert (B2' : holds_zset t (put_zset t kT (<[tok := t + ms]> (active t m1)) None s2) kP (active t m2))
    by (eapply holds_live; [by apply C2|done]).
  all: rewrite (zadd_ok _ _ _ _ _ _ B2'); simpl.
  all: destruct (replaced_two t s2 kT kP kL _ _ (<[tok := t + ms]> (active t m1)) (<[tok := t + ms]> (active t m2))
         N3 N1 N2 B1 B2) as [R2 L2].
  all: pose proof (replaced_trans _ _ _ _ _ _ _ _ _ _ _ R1 R2) as R3.
  all: unfold set_; destruct (Z.leb_spec ms 0) as [Hms|Hms]; simpl;
    [rewrite (proj2 (Z.ltb_ge 0 ms)) by lia; eexists _, _; split; [reflexivity|];
     split; [exact R3|]; split; [by eexists|by rewrite L2, L1]
    |rewrite (proj2 (Z.ltb_lt 0 ms)) by lia; eexists _, _; split; [reflexivity|];
     destruct (replaced_put t s _ _ _ _ _ kL (Some (RString value, Some (t + ms))) N1 N2
        ltac:(intros e [= <-]; simpl; apply Z.ltb_lt; lia) R3) as [R4 L4];
     split; [exact R4|by split]].
Qed.

Lemma renew_run t ms s m1 m2 :
  holds_zset t s kT m1 -> holds_zset t s kP m2 ->
  exists s', renewScript t kT kP kL t ms tok s = (inr (if exists_key t kL s then 1 else 0), s') /\
    if exists_key t kL s
    then replaced t s s' kT (<[tok := t + ms]> m1) kP (<[tok := t + ms]> m2) kL /\
         (exists v, live t s' kL = if 0 <? ms then Some (v, Some (t + ms)) else None)
    else s' = s.
Proof.
  intros H1 H2.
  pose proof (not_eq_sym (tenant_ne_lease T tok)) as N1.
  pose proof (not_eq_sym (provider_ne_lease P tok)) as N2.
  pose proof (tenant_ne_provider T P) as N3.
  unfold renewScript. destruct (exists_key t kL s) eqn:EL; simpl; [|by exists s].
  destruct (replaced_two t s kT kP kL m1 m2 (<[tok := t + ms]> m1) (<[tok := t + ms]> m2) N3 N1 N2 H1 H2) as [R1 L1].
  rewrite (zadd_ok _ _ _ _ _ _ H1). simpl.
  destruct (put_zset_ok t s kT m1 (<[tok := t + ms]> m1) H1) as [A1 A2].
  assert (H2' : holds_zset t (put_zset t kT (<[tok := t + ms]> m1) None s) kP m2)
    by (eapply holds_live; [by apply A2|done]).
  rewrite (zadd_ok _ _ _ _ _ _ H2'). simpl. eexists. split; [reflexivity|].
  unfold pexpire. rewrite L1. unfold exists_key in EL. destruct (live t s kL) as [[v x]|]; [|done].
  destruct (Z.leb_spec ms 0) as [Hms|Hms].
  - rewrite (proj2 (Z.ltb_ge 0 ms)) by lia.
    destruct (replaced_put t s _ _ _ _ _ kL None N1 N2 ltac:(done) R1) as [R4 L4]. split; [exact R4|by exists v].
  - rewrite (proj2 (Z.ltb_lt 0 ms)) by lia.
    destruct (replaced_put t s _ _ _ _ _ kL (Some (v, Some (t + ms))) N1 N2
        ltac:(intros e [= <-]; simpl; apply Z.ltb_lt; lia) R1) as [R4 L4]. split; [exact R4|by exists v].
Qed.

Lemma release_run t s m1 m2 :
  holds_zset t s kT m1 -> holds_zset t s kP m2 ->
  exists n s', releaseScript t kT kP kL tok s = (inr n, s') /\
    replaced t s s' kT (delete tok m1) kP (delete tok m2) kL /\ live t s' kL = None.
Proof.
  intros H1 H2.
  pose proof (not_eq_sym (tenant_ne_lease T tok)) as N1.
  pose proof (not_eq_sym (provider_ne_lease P tok)) as N2.
  pose proof (tenant_ne_provider T P) as N3.
  destruct (replaced_two t s kT kP kL m1 m2 (delete tok m1) (delete tok m2) N3 N1 N2 H1 H2) as [R1 L1].
  unfold releaseScript. rewrite (zrem_ok _ _ _ _ _ H1). simpl.
  destruct (put_zset_ok t s kT m1 (delete tok m1) H1) as [A1 A2].
  assert (H2' : holds_zset t (put_zset t kT (delete tok m1) None s) kP m2)
    by (eapply holds_live; [by apply A2|done]).
  rewrite (zrem_ok _ _ _ _ _ H2'). simpl. eexists _, _. split; [reflexivity|].
  unfold del, exists_key. rewrite L1. destruct (live t s kL) as [e|] eqn:EL; simpl.
  - by apply replaced_put.
  - by rewrite L1.
Qed.

End Scripts.
End Facts.

(** ** The cluster: any nodes, one clock

    [cap] bounds the limits the callers pass for a key (no bound: [None]);
    [sy_tokens] remembers every token drawn and for whom, the ones whose reply
    was lost included. *)
Section Cluster.
  Context `{Redis} `{Sha256} (sem : Semaphore) (cap : string -> option Z).

Record system := mkSystem { sy_clock : Z; sy_server : server; sy_tokens : gmap string (string * string) }.

Definition permitted (limit : Z) (k : string) : Prop :=
  match cap k with Some c => 0 < limit <= c | None => True end.

Inductive sem_step : system -> system -> Prop :=
| sem_tick c c' s toks : c <= c' -> sem_step (mkSystem c s toks) (mkSystem c' s toks)
| sem_acquire c s toks T P tl pl ttl tok d res s' :
    toks !! tok = None -> permitted tl (tenant_key sem T) -> permitted pl (provider_key sem P) ->
    Acquire sem T P tl pl ttl (inr tok) c c d s = (res, s') ->
    sem_step (mkSystem c s toks) (mkSystem c s' (<[tok := (T, P)]> toks))
| sem_renew c s toks lease ttl d res s' :
    toks !! ls_Token lease = Some (ls_TenantID lease, ls_Provider lease) ->
    Renew sem lease ttl c c d s = (res, s') -> sem_step (mkSystem c s toks) (mkSystem c s' toks)
| sem_release c s toks lease d res s' :
    toks !! ls_Token lease = Some (ls_TenantID lease, ls_Provider lease) ->
    Release sem lease c d s = (res, s') -> sem_step (mkSystem c s toks) (mkSystem c s' toks).

Definition slot_key (k : string) : Prop := (exists T, k = tenant_key sem T) \/ (exists P, k = provider_key sem P).

Record sem_ok (y : system) : Prop := {
  so_zset : forall k, slot_key k -> exists m, holds_zset (sy_clock y) (sy_server y) k m;
  so_bound : forall k m c, slot_key k -> holds_zset (sy_clock y) (sy_server y) k m -> cap k = Some c ->
    active_count (sy_clock y) m <= c;
  so_fresh : forall tok, sy_tokens y !! tok = None -> live (sy_clock y) (sy_server y) (lease_key sem tok) = None;
  (** while a lease lives, its token is an active member of both sets *)
  so_lease : forall tok T P t k m, sy_tokens y !! tok = Some (T, P) -> sy_clock y <= t ->
    live t (sy_server y) (lease_key sem tok) <> None -> k = tenant_key sem T \/ k = provider_key sem P ->
    holds_zset (sy_clock y) (sy_server y) k m -> exists e, m !! tok = Some e /\ t < e }.

Lemma slot_not_lease k tok : slot_key k -> k <> lease_key sem tok.
Proof. intros [[T ->]|[P ->]]; [apply tenant_ne_lease|apply provider_ne_lease]. Qed.

Lemma holds_unique t s k m1 m2 : holds_zset t s k m1 -> holds_zset t s k m2 -> m1 = m2.
Proof. unfold holds_zset. intros ->. by intros [=]. Qed.

(** One transition on the two sets of a token. *)
Lemma sem_ok_replaced c s s' toks T P tok m1 m2 n1 n2 :
  sem_ok (mkSystem c s toks) -> toks !! tok = None \/ toks !! tok = Some (T, P) ->
  holds_zset c s (tenant_key sem T) m1 -> holds_zset c s (provider_key sem P) m2 ->
  replaced c s s' (tenant_key sem T) n1 (provider_key sem P) n2 (lease_key sem tok) ->
  (forall b, cap (tenant_key sem T) = Some b -> active_count c n1 <= b) ->
  (forall b, cap (provider_key sem P) = Some b -> active_count c n2 <= b) ->
  (forall j e, j <> tok -> c < e -> m1 !! j = Some e -> n1 !! j = Some e) ->
  (forall j e, j <> tok -> c < e -> m2 !! j = Some e -> n2 !! j = Some e) ->
  (forall t, c <= t -> live t s' (lease_key sem tok) <> None ->
     exists e, t < e /\ n1 !! tok = Some e /\ n2 !! tok = Some e) ->
  sem_ok (mkSystem c s' (<[tok := (T, P)]> toks)).
Proof.
  intros Hy Htok H1 H2 (R1 & R2 & R3) B1 B2 K1 K2 Hlease.
  assert (Hother : forall k, slot_key k -> k <> tenant_key sem T -> k <> provider_key sem P -> forall m,
            holds_zset c s' k m <-> holds_zset c s k m).
  { intros k Hk N1 N2 m. unfold holds_zset, zset. by rewrite R3 by (try done; by apply slot_not_lease). }
  assert (Hsets : forall k m, slot_key k -> holds_zset c s' k m ->
    (k = tenant_key sem T /\ m = n1) \/ (k = provider_key sem P /\ m = n2) \/
    (k <> tenant_key sem T /\ k <> provider_key sem P /\ holds_zset c s k m)).
  { intros k m Hk Hm. destruct (decide (k = tenant_key sem T)) as [->|N1].
    { left. split; [done|]. by eapply holds_unique. }
    destruct (decide (k = provider_key sem P)) as [->|N2].
    { right. left. split; [done|]. by eapply holds_unique. }
    right. right. split_and!; [done..|]. by apply Hother. }
  split; simpl.
  - intros k Hk. destruct (decide (k = tenant_key sem T)) as [->|N1]; [eauto|].
    destruct (decide (k = provider_key sem P)) as [->|N2]; [eauto|].
    destruct (so_zset _ Hy k Hk) as [m Hm]. exists m. by apply Hother.
  - intros k m b Hk Hm Hcap. destruct (Hsets k m Hk Hm) as [[-> ->]|[[-> ->]|(N1 & N2 & Hm')]]; [auto..|].
    by apply (so_bound _ Hy k).
  - intros tok' Hn. apply lookup_insert_None in Hn as [Hn Hne].
    assert (Hl : lease_key sem tok' <> lease_key sem tok) by (intros E; by apply lease_key_inj in E).
    rewrite R3; [by apply (so_fresh _ Hy)| | |done]; intros E; symmetry in E.
    + by apply tenant_ne_lease in E.
    + by apply provider_ne_lease in E.
  - intros tok' T' P' t k m Ht' Ht Hl Hk Hm.
    assert (Hslot : slot_key k) by (destruct Hk as [->| ->]; [left|right]; eauto).
    rewrite lookup_insert in Ht'. case_decide as Etok.
    + injection Ht' as <- <-. subst tok'. destruct (Hlease t Ht Hl) as (e & He & E1 & E2). exists e.
      destruct Hk as [->| ->].
      * by rewrite (holds_unique _ _ _ _ _ Hm R1).
      * by rewrite (holds_unique _ _ _ _ _ Hm R2).
    + assert (Hl' : live t s (lease_key sem tok') <> None).
      { intros En. apply Hl. rewrite (live_later c t) in * by done. rewrite R3; [done| | |].
        - intros E; symmetry in E. by apply tenant_ne_lease in E.
        - intros E; symmetry in E. by apply provider_ne_lease in E.
        - intros E. apply Etok. symmetry. by apply lease_key_inj in E. }
      destruct (Hsets k m Hslot Hm) as [[-> ->]|[[-> ->]|(N1 & N2 & Hm')]].
      * destruct (so_lease _ Hy tok' T' P' t (tenant_key sem T) m1 Ht' Ht Hl' Hk H1) as (e & He & Hlt).
        exists e. split; [apply K1; [congruence|simpl in Ht; lia|done]|done].
      * destruct (so_lease _ Hy tok' T' P' t (provider_key sem P) m2 Ht' Ht Hl' Hk H2) as (e & He & Hlt).
        exists e. split; [apply K2; [congruence|simpl in Ht; lia|done]|done].
      * by apply (so_lease _ Hy tok' T' P' t k).
Qed.

Lemma sem_ok_token c s toks tok T P :
  sem_ok (mkSystem c s toks) -> toks !! tok = None -> sem_ok (mkSystem c s (<[tok := (T, P)]> toks)).
Proof.
  intros Hy Hn.
  destruct (so_zset _ Hy (tenant_key sem T)) as [m1 H1]; [left; eauto|].
  destruct (so_zset _ Hy (provider_key sem P)) as [m2 H2]; [right; eauto|].
  eapply (sem_ok_replaced c s s toks T P tok m1 m2 m1 m2); try done; try (by left).
  - intros b Hb. eapply (so_bound _ Hy (tenant_key sem T)); [left; eauto|done|done].
  - intros b Hb. eapply (so_bound _ Hy (provider_key sem P)); [right; eauto|done|done].
  - intros t Ht Hl. exfalso. apply Hl. rewrite (live_later c t) by done. pose proof (so_fresh _ Hy tok Hn) as Hf.
    simpl in Hf. by rewrite Hf.
Qed.

Lemma sem_ok_later c c' s toks : c <= c' -> sem_ok (mkSystem c s toks) -> sem_ok (mkSystem c' s toks).
Proof.
  intros Hle Hy. split; simpl.
  - intros k Hk. destruct (so_zset _ Hy k Hk) as [m Hm]. exists m. by eapply holds_later.
  - intros k m b Hk Hm Hcap. destruct (so_zset _ Hy k Hk) as [m0 Hm0].
    rewrite (holds_unique _ _ _ _ _ Hm (holds_later _ _ _ _ _ Hle Hm0)).
    pose proof (so_bound _ Hy k m0 b Hk Hm0 Hcap) as Hb. pose proof (active_later c c' m0 Hle). simpl in Hb. lia.
  - intros tok Hn. pose proof (so_fresh _ Hy tok Hn) as Hf. simpl in Hf. by rewrite (live_later c c'), Hf.
  - intros tok T P t k m Htok Ht Hl Hk Hm.
    assert (Hslot : slot_key k) by (destruct Hk as [->| ->]; [left|right]; eauto).
    destruct (so_zset _ Hy k Hslot) as [m0 Hm0].
    rewrite (holds_unique _ _ _ _ _ Hm (holds_later _ _ _ _ _ Hle Hm0)).
    eapply (so_lease _ Hy); [done| |done|done|done]. simpl. lia.
Qed.

Lemma acquire_ok c s toks T P tl pl ttl tok d :
  sem_ok (mkSystem c s toks) -> toks !! tok = None ->
  permitted tl (tenant_key sem T) -> permitted pl (provider_key sem P) ->
  sem_ok (mkSystem c (Acquire sem T P tl pl ttl (inr tok) c c d s).2 (<[tok := (T, P)]> toks)).
Proof.
  intros Hy Hn Ptl Ppl. pose proof (sem_ok_token c s toks tok T P Hy Hn) as Hsame. unfold Acquire.
  destruct (blank T || blank P || (tl <? 0) || (pl <? 0) || (ttl <=? 0)); [done|].
  destruct (so_zset _ Hy (tenant_key sem T)) as [m1 H1]; [left; eauto|].
  destruct (so_zset _ Hy (provider_key sem P)) as [m2 H2]; [right; eauto|]. simpl in H1, H2.
  destruct (acquire_run sem T P tok c (milliseconds ttl) tl pl (T +:+ NUL +:+ P) s m1 m2 H1 H2 (so_fresh _ Hy tok Hn))
    as (r & s' & Hrun & HQ).
  assert (Hok : sem_ok (mkSystem c s' (<[tok := (T, P)]> toks))).
  { assert (Hb1 : forall b, cap (tenant_key sem T) = Some b -> active_count c m1 <= b)
      by (intros b Hb; eapply (so_bound _ Hy (tenant_key sem T)); [left; eauto|done|done]).
    assert (Hb2 : forall b, cap (provider_key sem P) = Some b -> active_count c m2 <= b)
      by (intros b Hb; eapply (so_bound _ Hy (provider_key sem P)); [right; eauto|done|done]).
    assert (Hact : forall m j e, c < e -> m !! j = Some e -> active c m !! j = Some e)
      by (intros m j e He Hm; by apply map_lookup_filter_Some).
    destruct (full c tl m1 || full c pl m2) eqn:Ef.
    - destruct HQ as (_ & HR & HL).
      eapply (sem_ok_replaced c s s' toks T P tok m1 m2); [done|by left|done|done|exact HR|..]; try by eauto.
      + unfold active_count. rewrite active_purged. exact Hb1.
      + unfold active_count. rewrite active_purged. exact Hb2.
      + intros t Ht Hl. exfalso. apply Hl. by rewrite (live_later c t), HL by done.
    - destruct HQ as [HR HL]. apply orb_false_iff in Ef as [F1 F2]. unfold full in F1, F2.
      eapply (sem_ok_replaced c s s' toks T P tok m1 m2); [done|by left|done|done|exact HR|..].
      + intros b Hb. unfold permitted in Ptl. rewrite Hb in Ptl. rewrite (proj2 (Z.ltb_lt 0 tl)) in F1 by lia.
        simpl in F1. bools. pose proof (active_insert c m1 tok (c + milliseconds ttl)). lia.
      + intros b Hb. unfold permitted in Ppl. rewrite Hb in Ppl. rewrite (proj2 (Z.ltb_lt 0 pl)) in F2 by lia.
        simpl in F2. bools. pose proof (active_insert c m2 tok (c + milliseconds ttl)). lia.
      + intros j e Hj He Hm. rewrite lookup_insert_ne by done. by apply Hact.
      + intros j e Hj He Hm. rewrite lookup_insert_ne by done. by apply Hact.
      + intros t Ht Hl. rewrite (live_later c t) in Hl by done.
        destruct (0 <? milliseconds ttl); destruct HL as [_ HL]; rewrite HL in Hl; [|done].
        unfold unexpired in Hl. simpl in Hl. destruct (Z.ltb_spec t (c + milliseconds ttl)); [|done].
        exists (c + milliseconds ttl). by rewrite !lookup_insert_eq. }
  destruct d as [|msg|msg]; cbn [call]; [|done|].
  - rewrite Hrun. destruct r as [e|n]; [done|]. by destruct (negb (n =? 1)).
  - by rewrite Hrun.
Qed.

Lemma renew_ok c s toks lease ttl d :
  sem_ok (mkSystem c s toks) -> toks !! ls_Token lease = Some (ls_TenantID lease, ls_Provider lease) ->
  sem_ok (mkSystem c (Renew sem lease ttl c c d s).2 toks).
Proof.
  intros Hy Htok. unfold Renew. destruct (is_empty _ || _ || _ || _); [done|].
  set (tok := ls_Token lease) in *. set (T := ls_TenantID lease) in *. set (P := ls_Provider lease) in *.
  destruct (so_zset _ Hy (tenant_key sem T)) as [m1 H1]; [left; eauto|].
  destruct (so_zset _ Hy (provider_key sem P)) as [m2 H2]; [right; eauto|]. simpl in H1, H2.
  destruct (renew_run sem T P tok c (milliseconds ttl) s m1 m2 H1 H2) as (s' & Hrun & HQ).
  assert (Hok : sem_ok (mkSystem c s' toks)).
  { unfold exists_key in HQ. destruct (live c s (lease_key sem tok)) as [en|] eqn:El; [|by subst].
    destruct HQ as [HR [v HL]].
    destruct (so_lease _ Hy tok T P c (tenant_key sem T) m1 Htok (Z.le_refl c)) as (e1 & E1 & L1);
      [simpl; by rewrite El|by left|done|].
    destruct (so_lease _ Hy tok T P c (provider_key sem P) m2 Htok (Z.le_refl c)) as (e2 & E2 & L2);
      [simpl; by rewrite El|by right|done|].
    rewrite <-(insert_id toks tok (T, P) Htok).
    eapply (sem_ok_replaced c s s' toks T P tok m1 m2); [done|by right|done|done|exact HR|..].
    - intros b Hb. etransitivity; [by eapply active_insert_member|].
      eapply (so_bound _ Hy (tenant_key sem T)); [left; eauto|done|done].
    - intros b Hb. etransitivity; [by eapply active_insert_member|].
      eapply (so_bound _ Hy (provider_key sem P)); [right; eauto|done|done].
    - intros j e Hj _ Hm. by rewrite lookup_insert_ne.
    - intros j e Hj _ Hm. by rewrite lookup_insert_ne.
    - intros t Ht Hl. rewrite (live_later c t), HL in Hl by done. destruct (0 <? milliseconds ttl); [|done].
      unfold unexpired in Hl. simpl in Hl. destruct (Z.ltb_spec t (c + milliseconds ttl)); [|done].
      exists (c + milliseconds ttl). by rewrite !lookup_insert_eq. }
  destruct d as [|msg|msg]; simpl; [|done|]; rewrite Hrun; [|done].
  by destruct (negb _).
Qed.

Lemma release_ok c s toks lease d :
  sem_ok (mkSystem c s toks) -> toks !! ls_Token lease = Some (ls_TenantID lease, ls_Provider lease) ->
  sem_ok (mkSystem c (Release sem lease c d s).2 toks).
Proof.
  intros Hy Htok. unfold Release. destruct (is_empty _ || _ || _); [done|].
  set (tok := ls_Token lease) in *. set (T := ls_TenantID lease) in *. set (P := ls_Provider lease) in *.
  destruct (so_zset _ Hy (tenant_key sem T)) as [m1 H1]; [left; eauto|].
  destruct (so_zset _ Hy (provider_key sem P)) as [m2 H2]; [right; eauto|]. simpl in H1, H2.
  destruct (release_run sem T P tok c s m1 m2 H1 H2) as (n & s' & Hrun & HR & HL).
  assert (Hok : sem_ok (mkSystem c s' toks)).
  { rewrite <-(insert_id toks tok (T, P) Htok).
    eapply (sem_ok_replaced c s s' toks T P tok m1 m2); [done|by right|done|done|exact HR|..].
    - intros b Hb. etransitivity; [apply active_delete|].
      eapply (so_bound _ Hy (tenant_key sem T)); [left; eauto|done|done].
    - intros b Hb. etransitivity; [apply active_delete|].
      eapply (so_bound _ Hy (provider_key sem P)); [right; eauto|done|done].
    - intros j e Hj _ Hm. by rewrite lookup_delete_ne.
    - intros j e Hj _ Hm. by rewrite lookup_delete_ne.
    - intros t Ht Hl. exfalso. apply Hl. by rewrite (live_later c t), HL by done. }
  destruct d as [|msg|msg]; simpl; [by rewrite Hrun|done|by rewrite Hrun].
Qed.

Lemma sem_step_ok y y' : sem_ok y -> sem_step y y' -> sem_ok y'.
Proof.
  intros Hy Hs. destruct Hs as [c c' s toks Hle|c s toks T P tl pl ttl tok d res s' Hn P1 P2 E
                               |c s toks lease ttl d res s' Ht E|c s toks lease d res s' Ht E].
  - by eapply sem_ok_later.
  - pose proof (acquire_ok c s toks T P tl pl ttl tok d Hy Hn P1 P2) as Hok. by rewrite E in Hok.
  - pose proof (renew_ok c s toks lease ttl d Hy Ht) as Hok. by rewrite E in Hok.
  - pose proof (release_ok c s toks lease d Hy Ht) as Hok. by rewrite E in Hok.
Qed.

(** C26. The semaphore never overcommits: on an empty server, with nodes that
    share one clock, draw fresh tokens and keep to the limits of [cap],
    whatever is acquired, renewed and released in any order, and whatever
    requests and replies are lost, a tenant or provider never has more
    unexpired leases than its limit. *)
Theorem semaphore_capacity c0 s0 y T m limit :
  (forall k, live c0 s0 k = None) -> (forall b k, cap k = Some b -> 0 <= b) ->
  rtc sem_step (mkSystem c0 s0 ∅) y ->
  (holds_zset (sy_clock y) (sy_server y) (tenant_key sem T) m -> cap (tenant_key sem T) = Some limit ->
     active_count (sy_clock y) m <= limit) /\
  (holds_zset (sy_clock y) (sy_server y) (provider_key sem T) m -> cap (provider_key sem T) = Some limit ->
     active_count (sy_clock y) m <= limit).
Proof.
  intros Hempty Hcap Hr.
  assert (Hy : sem_ok y).
  { assert (H0' : sem_ok (mkSystem c0 s0 ∅)).
    { assert (Hz : forall k, holds_zset c0 s0 k ∅) by (intros k; unfold holds_zset, zset; by rewrite Hempty).
      split; simpl.
      - intros k _. exists ∅. apply Hz.
      - intros k m0 b _ Hm Hb. rewrite (holds_unique _ _ _ _ _ Hm (Hz k)). specialize (Hcap b k Hb).
        unfold active_count, active. rewrite map_filter_empty, map_size_empty. lia.
      - auto.
      - intros tok ? ? ? ? ? Htok. by rewrite lookup_empty in Htok. }
    clear Hempty. remember (mkSystem c0 s0 ∅) as y0 eqn:E. clear E.
    induction Hr as [y|y y1 y2 Hs _ IH]; [done|]. apply IH. by eapply sem_step_ok. }
  split; intros Hm Hl; eapply (so_bound _ Hy); try done; [left|right]; by exists T.
Qed.

(** Acquire decides by the unexpired leases alone: on a server whose two
    sets are sorted sets, a request of at least a millisecond with a fresh
    token is granted exactly when neither positive limit is reached, and then
    the token is in both sets until the stated expiry; otherwise no lease is
    added.  Expired leases therefore give their slots back by themselves, and
    a release does so at once. *)
Theorem acquire_spec T P tl pl ttl tok t s m1 m2 :
  holds_zset t s (tenant_key sem T) m1 -> holds_zset t s (provider_key sem P) m2 ->
  live t s (lease_key sem tok) = None ->
  blank T = false -> blank P = false -> 0 <= tl -> 0 <= pl -> 1 <= milliseconds ttl ->
  exists res s', Acquire sem T P tl pl ttl (inr tok) t t Delivered s = (res, s') /\
    (if ((0 <? tl) && (tl <=? active_count t m1)) || ((0 <? pl) && (pl <=? active_count t m2))
     then res = inl ErrUnavailable /\ holds_zset t s' (tenant_key sem T) (active t m1) /\
          holds_zset t s' (provider_key sem P) (active t m2)
     else res = inr (mkLease tok T P ((t + milliseconds ttl) * 10 ^ 6)) /\
          holds_zset t s' (tenant_key sem T) (<[tok := t + milliseconds ttl]> (active t m1)) /\
          holds_zset t s' (provider_key sem P) (<[tok := t + milliseconds ttl]> (active t m2)) /\
          forall lease, res = inr lease -> tok <> EmptyString -> exists s'',
            Release sem lease t Delivered s' = (inr tt, s'') /\
            holds_zset t s'' (tenant_key sem T) (delete tok (active t m1)) /\
            holds_zset t s'' (provider_key sem P) (delete tok (active t m2)) /\
            live t s'' (lease_key sem tok) = None).
Proof.
  intros H1 H2 HL BT BP Htl Hpl Hms.
  destruct (acquire_run sem T P tok t (milliseconds ttl) tl pl (T +:+ NUL +:+ P) s m1 m2 H1 H2 HL)
    as (r & s' & Hrun & HQ).
  assert (Httl : 0 < ttl).
  { unfold milliseconds in Hms. destruct (Z.lt_trichotomy ttl 0) as [Hn|[Hn|Hn]]; [|subst; done|done].
    pose proof (Z.quot_le_mono ttl 0 (10 ^ 6) ltac:(lia) ltac:(lia)) as Hq. rewrite Z.quot_0_l in Hq by lia. lia. }
  unfold Acquire. rewrite BT, BP, (proj2 (Z.ltb_ge _ _) Htl), (proj2 (Z.ltb_ge _ _) Hpl), (proj2 (Z.leb_gt _ _) Httl).
  cbn [orb call]. rewrite Hrun. unfold full in HQ.
  destruct (((0 <? tl) && (tl <=? active_count t m1)) || ((0 <? pl) && (pl <=? active_count t m2))).
  - destruct HQ as (-> & (R1 & R2 & _) & _). simpl. by eexists _, s'.
  - rewrite (proj2 (Z.ltb_lt 0 (milliseconds ttl))) in HQ by lia. destruct HQ as ((R1 & R2 & _) & -> & _).
    simpl. eexists _, s'. split; [done|]. split_and!; [done..|]. intros lease [= <-] Htok.
    destruct (release_run sem T P tok t s' _ _ R1 R2) as (n & s'' & Hrel & (R3 & R4 & _) & HL').
    exists s''. unfold Release. simpl. unfold is_empty. unfold blank, is_empty in BT, BP.
    rewrite (bool_decide_eq_false_2 _ Htok).
    rewrite (bool_decide_eq_false_2 (T = EmptyString)) by (intros ->; by vm_compute in BT).
    rewrite (bool_decide_eq_false_2 (P = EmptyString)) by (intros ->; by vm_compute in BP).
    simpl. rewrite Hrel. rewrite !delete_insert_eq in R3, R4. done.
Qed.

End Cluster.

(** ** Concrete instances *)
Definition demo_sem : Semaphore := NewSemaphore "".
Definition demo_cap (k : string) : option Z := Some 1.

Definition demo_acquired : @system map_redis :=
  @mkSystem map_redis 10 (@Acquire map_redis id_sha demo_sem "t1" "openai" 1 1 (5 * 10 ^ 9) (inr "tok") 10 10 Delivered no_server).2
    {["tok" := ("t1", "openai")]}.

Lemma semaphore_capacity_witness :
  active_count 10 ({["tok" := 5010]} : gmap string Z) <= 1.
Proof.
  refine (proj1 (@semaphore_capacity map_redis id_sha demo_sem demo_cap 10 no_server demo_acquired "t1"
    {["tok" := 5010]} 1 _ _ _) _ _).
  - intros k. apply no_server_live.
  - intros b k. unfold demo_cap. intros [= <-]. lia.
  - apply rtc_once. unfold demo_acquired. rewrite <-insert_empty.
    apply (sem_acquire _ _ 10 no_server ∅ "t1" "openai" 1 1 (5 * 10 ^ 9) "tok" Delivered
             (inr (mkLease "tok" "t1" "openai" (5010 * 10 ^ 6)))); [reflexivity|unfold permitted, demo_cap; lia..|].
    vm_compute. reflexivity.
  - vm_compute. reflexivity.
  - reflexivity.
Defined.

Lemma acquire_spec_witness :
  exists s', @Acquire map_redis id_sha demo_sem "t1" "openai" 1 1 (5 * 10 ^ 9) (inr "tok") 10 10 Delivered no_server =
    (inr (mkLease "tok" "t1" "openai" (5010 * 10 ^ 6)), s').
Proof.
  destruct (@acquire_spec map_redis id_sha demo_sem "t1" "openai" 1 1 (5 * 10 ^ 9) "tok" 10 no_server ∅ ∅)
    as (res & s' & Hr & HQ); try reflexivity; try lia.
  - vm_compute. discriminate.
  - exists s'. rewrite Hr. f_equal. apply (proj1 HQ).
Defined.
