(* ===== verification/Cipher.v ===== *)
(** * Recoverable secrets (internal/virtualkey/cipher.go)

    AES-GCM is an interface whose laws are what authenticated encryption
    promises; base64 (raw URL alphabet) is Go's [encoding/base64]. *)
From Stdlib Require Import ZifyNat.
From S2P Require Import Prelude GoStrings Redis.

(** ** base64.RawURLEncoding *)
Definition b64_char (n : nat) : ascii :=
  if (n <? 26)%nat then Ascii.ascii_of_nat (65 + n)
  else if (n <? 52)%nat then Ascii.ascii_of_nat (71 + n)
  else if (n <? 62)%nat then Ascii.ascii_of_nat (n - 4)
  else if (n =? 62)%nat then "-"%char else "_"%char.

Definition b64_value (c : ascii) : option nat :=
  let n := Ascii.nat_of_ascii c in
  if (65 <=? n)%nat && (n <=? 90)%nat then Some (n - 65)%nat
  else if (97 <=? n)%nat && (n <=? 122)%nat then Some (n - 71)%nat
  else if (48 <=? n)%nat && (n <=? 57)%nat then Some (n + 4)%nat
  else if (n =? 45)%nat then Some 62%nat
  else if (n =? 95)%nat then Some 63%nat
  else None.

Fixpoint b64_encode (s : string) : string :=
  match s with
  | EmptyString => EmptyString
  | String a EmptyString =>
      let a := Ascii.nat_of_ascii a in
      String (b64_char (a / 4)) (String (b64_char (a mod 4 * 16)) EmptyString)
  | String a (String b EmptyString) =>
      let a := Ascii.nat_of_ascii a in let b := Ascii.nat_of_ascii b in
      String (b64_char (a / 4)) (String (b64_char (a mod 4 * 16 + b / 16))
        (String (b64_char (b mod 16 * 4)) EmptyString))
  | String a (String b (String c s')) =>
      let a := Ascii.nat_of_ascii a in let b := Ascii.nat_of_ascii b in let c := Ascii.nat_of_ascii c in
      String (b64_char (a / 4)) (String (b64_char (a mod 4 * 16 + b / 16))
        (String (b64_char (b mod 16 * 4 + c / 64)) (String (b64_char (c mod 64)) (b64_encode s'))))
  end.

(** The values of the characters; line breaks are skipped. *)
Fixpoint b64_values (s : string) : option (list nat) :=
  match s with
  | EmptyString => Some []
  | String c s' =>
      if bool_decide (c = "010"%char) || bool_decide (c = "013"%char) then b64_values s'
      else match b64_value c, b64_values s' with
           | Some n, Some l => Some (n :: l)
           | _, _ => None
           end
  end.

(** Unused low bits of the last group are ignored; one character alone is an error. *)
Fixpoint b64_bytes (l : list nat) : option string :=
  match l with
  | [] => Some EmptyString
  | [_] => None
  | [a; b] => Some (String (Ascii.ascii_of_nat (a * 4 + b / 16)) EmptyString)
  | [a; b; c] => Some (String (Ascii.ascii_of_nat (a * 4 + b / 16))
                    (String (Ascii.ascii_of_nat (b mod 16 * 16 + c / 4)) EmptyString))
  | a :: b :: c :: d :: l' =>
      match b64_bytes l' with
      | Some s => Some (String (Ascii.ascii_of_nat (a * 4 + b / 16))
                    (String (Ascii.ascii_of_nat (b mod 16 * 16 + c / 4))
                      (String (Ascii.ascii_of_nat (c mod 4 * 64 + d)) s)))
      | None => None
      end
  end.

Definition b64_decode (s : string) : option string :=
  match b64_values s with Some l => b64_bytes l | None => None end.

Lemma b64_value_char n : (n < 64)%nat ->
  b64_value (b64_char n) = Some n /\ b64_char n <> "010"%char /\ b64_char n <> "013"%char /\ b64_char n <> ":"%char.
Proof.
  intros Hn. do 64 (destruct n as [|n]; [vm_compute; repeat split; discriminate|]). lia.
Qed.

Lemma b64_values_cons n s : (n < 64)%nat ->
  b64_values (String (b64_char n) s) = match b64_values s with Some l => Some (n :: l) | None => None end.
Proof.
  intros Hn. destruct (b64_value_char n Hn) as (Hv & H1 & H2 & _). cbn [b64_values].
  rewrite (bool_decide_eq_false_2 _ H1), (bool_decide_eq_false_2 _ H2). cbn [orb]. by rewrite Hv.
Qed.

Lemma byte_bound a : (Ascii.nat_of_ascii a < 256)%nat.
Proof. apply Ascii.nat_ascii_bounded. Qed.

(** Induction three bytes at a time. *)
Lemma triples_ind (P : string -> Prop) :
  P EmptyString -> (forall a, P (String a EmptyString)) -> (forall a b, P (String a (String b EmptyString))) ->
  (forall a b c s, P s -> P (String a (String b (String c s)))) -> forall s, P s.
Proof.
  intros H0 H1 H2 H3. enough (H : forall n s, (String.length s <= n)%nat -> P s) by (intros s; by apply (H (String.length s))).
  induction n as [|n IH]; intros s Hs.
  - destruct s; [done|simpl in Hs; lia].
  - destruct s as [|a [|b [|c s]]]; [done..|]. apply H3, IH. simpl in Hs. lia.
Qed.

Lemma byte_eq n a : n = Ascii.nat_of_ascii a -> Ascii.ascii_of_nat n = a.
Proof. intros ->. apply Ascii.ascii_nat_embedding. Qed.

(** lia with division and remainder by constants. *)
#[local] Ltac Zify.zify_post_hook ::= Z.to_euclidean_division_equations.

Lemma b64_roundtrip s : b64_decode (b64_encode s) = Some s.
Proof.
  unfold b64_decode. induction s as [|a|a b|a b c s IH] using triples_ind; [done| | |].
  all: pose proof (byte_bound a) as Ha; try pose proof (byte_bound b) as Hb; try pose proof (byte_bound c) as Hc.
  all: cbn [b64_encode].
  all: rewrite !b64_values_cons by lia.
  - cbn [b64_values b64_bytes]. f_equal. f_equal. apply byte_eq. lia.
  - cbn [b64_values b64_bytes]. f_equal. f_equal; [apply byte_eq; lia|]. f_equal. apply byte_eq. lia.
  - destruct (b64_values (b64_encode s)) as [l|]; [|done]. cbn [b64_bytes]. rewrite IH. f_equal.
    f_equal; [apply byte_eq; lia|]. f_equal; [apply byte_eq; lia|]. f_equal. apply byte_eq. lia.
Qed.

(** ** The cipher

    [Seal] and [Open] are AES-256-GCM under a key: what was sealed opens with
    the same key, nonce and associated data, and with no other associated
    data. *)
Class Aead := {
  NonceSize : nat;
  Seal : string -> string -> string -> string -> string;
  Open : string -> string -> string -> string -> option string;
  open_seal : forall key nonce p ad, Open key nonce (Seal key nonce p ad) ad = Some p;
  open_other : forall key nonce p ad ad', ad' <> ad -> Open key nonce (Seal key nonce p ad) ad' = None }.

(** A toy instance of the laws: the associated data travels in front. *)
#[refine] Definition toy_aead : Aead := {|
  NonceSize := 2;
  Seal := fun _ _ p ad => hex_encode ad +:+ String ":" p;
  Open := fun _ _ c ad => match cut c ":"%char with
                          | (h, p, true) => if bool_decide (h = hex_encode ad) then Some p else None
                          | _ => None end |}.
Proof.
  all: assert (Hhex : forall s, index_byte (hex_encode s) ":"%char = None) by
    (induction s as [|c s IH]; [done|]; cbn [hex_encode index_byte];
     rewrite !bool_decide_eq_false_2, IH; [done|..]; destruct c as [[] [] [] [] [] [] [] []]; done).
  - intros _ _ p ad. rewrite cut_app by apply Hhex. by rewrite bool_decide_eq_true_2.
  - intros _ _ p ad ad' Hne. rewrite cut_app by apply Hhex. rewrite bool_decide_eq_false_2; [done|].
    intros E. apply hex_encode_inj in E. congruence.
Defined.

Section Cipher.
  Context `{Aead} `{Sha256}.

Definition ciphertextVersion : string := "v1".

(** The AES key of an initialised cipher. *)
Record Cipher := mkCipher { ci_key : string }.

Definition NewCipher (material : string) : error + Cipher :=
  if (String.length material <? 32)%nat
  then inl (New "virtualkey: encryption key must contain at least 32 characters")
  else inr (mkCipher (sha256 material)).

(** [random] is what the random source yields for the nonce. *)
Definition Encrypt (c : Cipher) (plaintext associatedData : string) (random : error + string) : error + string :=
  if is_empty plaintext then inl (New "virtualkey: plaintext is required") else
  match random with
  | inl e => inl (Wrap "virtualkey: generate nonce: %w" e)
  | inr nonce =>
      let sealed := nonce +:+ Seal (ci_key c) nonce plaintext associatedData in
      inr (ciphertextVersion +:+ ":" +:+ b64_encode sealed)
  end.

Definition Decrypt (c : Cipher) (value associatedData : string) : error + string :=
  match cut value ":"%char with
  | (version, encoded, ok) =>
      if negb ok || negb (bool_decide (version = ciphertextVersion))
      then inl (New "virtualkey: unsupported ciphertext version") else
      match b64_decode encoded with
      | None => inl (New "virtualkey: invalid ciphertext")
      | Some sealed =>
          if (String.length sealed <? NonceSize)%nat then inl (New "virtualkey: invalid ciphertext") else
          match Open (ci_key c) (stake NonceSize sealed) (sdrop NonceSize sealed) associatedData with
          | None => inl (New "virtualkey: ciphertext authentication failed")
          | Some plaintext => inr plaintext
          end
      end
  end.

Definition associatedData (tenantID keyID : string) : string := tenantID +:+ NUL +:+ keyID.

(** Opening a fresh ciphertext under some associated data. *)
Lemma decrypt_encrypt c plaintext ad ad' nonce v :
  String.length nonce = NonceSize -> Encrypt c plaintext ad (inr nonce) = inr v ->
  Decrypt c v ad' = match Open (ci_key c) nonce (Seal (ci_key c) nonce plaintext ad) ad' with
                    | None => inl (New "virtualkey: ciphertext authentication failed")
                    | Some p => inr p end.
Proof.
  intros Hn He. unfold Encrypt in He. destruct (is_empty plaintext); [done|].
  assert (v = ciphertextVersion +:+ ":" +:+ b64_encode (nonce +:+ Seal (ci_key c) nonce plaintext ad)) as -> by congruence.
  assert (Hcut : forall e, cut (ciphertextVersion +:+ ":" +:+ e) ":"%char = (ciphertextVersion, e, true))
    by (intros e; by apply (cut_app ciphertextVersion)).
  unfold Decrypt. rewrite Hcut, bool_decide_eq_true_2 by done. cbn [negb orb].
  rewrite b64_roundtrip, slength_app, Hn.
  rewrite (proj2 (Nat.ltb_ge _ _)) by lia.
  rewrite <-Hn at 1. rewrite stake_app. by rewrite <-Hn at 1; rewrite sdrop_app.
Qed.

Lemma associatedData_inj t1 k1 t2 k2 :
  index_byte t1 "000"%char = None -> index_byte t2 "000"%char = None ->
  associatedData t1 k1 = associatedData t2 k2 -> t1 = t2 /\ k1 = k2.
Proof.
  intros N1 N2 E. unfold associatedData in E. change (NUL +:+ k1) with (String "000"%char k1) in E.
  change (NUL +:+ k2) with (String "000"%char k2) in E.
  apply (f_equal (fun s => cut s "000"%char)) in E. rewrite !cut_app in E by done. by simplify_eq.
Qed.

(** The recoverable copy of a secret can be recovered, and only in its
    place: what Encrypt stores for a key of a tenant decrypts to the secret
    under that tenant and key, and is refused under any other tenant or key, so
    a ciphertext moved to another row is not disclosed. *)
Theorem cipher_roundtrip c plaintext t k nonce v :
  String.length nonce = NonceSize -> index_byte t "000"%char = None ->
  Encrypt c plaintext (associatedData t k) (inr nonce) = inr v ->
  Decrypt c v (associatedData t k) = inr plaintext /\
  forall t' k', index_byte t' "000"%char = None -> (t', k') <> (t, k) ->
    Decrypt c v (associatedData t' k') = inl (New "virtualkey: ciphertext authentication failed").
Proof.
  intros Hn Ht He. split.
  - by rewrite (decrypt_encrypt _ _ _ _ _ _ Hn He), open_seal.
  - intros t' k' Ht' Hne. rewrite (decrypt_encrypt _ _ _ _ _ _ Hn He), open_other; [done|].
    intros E. apply associatedData_inj in E as [-> ->]; [by destruct Hne|done..].
Qed.

End Cipher.

Definition toy_key : Cipher := mkCipher "0123456789abcdef0123456789abcdef".
Definition toy_ciphertext : string :=
  match @Encrypt toy_aead toy_key "sk-bf-x" (associatedData "t1" "vk_1") (inr "nn") with inr v => v | inl _ => "" end.

Lemma cipher_roundtrip_witness :
  @Decrypt toy_aead toy_key toy_ciphertext (associatedData "t1" "vk_1") = inr "sk-bf-x" /\
  @Decrypt toy_aead toy_key toy_ciphertext (associatedData "t2" "vk_1") =
    inl (New "virtualkey: ciphertext authentication failed").
Proof.
  destruct (@cipher_roundtrip toy_aead toy_key "sk-bf-x" "t1" "vk_1" "nn" toy_ciphertext) as [H1 H2];
    [reflexivity|reflexivity|vm_compute; reflexivity|].
  split; [exact H1|]. apply H2; [reflexivity|discriminate].
Defined.
