(* ===== verification/VirtualKey.v ===== *)
(** * Tenant credentials (internal/virtualkey: store.go, projector.go)

    MaaS owns the keys; a projector brings the data plane to them.  A key
    carries the generation its desired state was published with and the one
    last applied.  The random source is an argument, and [now] and [stamp] are
    the clocks read. *)
From S2P Require Import Prelude GoStrings Sql Redis Lifecycle ControlPlane ConfigBus Cipher.

Definition StatusPending : string := "pending".
Definition StatusActive : string := "active".
Definition StatusFailed : string := "failed".
Definition StatusRevoking : string := "revoking".
Definition StatusRevoked : string := "revoked".
Definition DesiredActive : string := "active".
Definition DesiredRevoked : string := "revoked".

Definition ErrTenantRequired : error := New "virtualkey: tenant id is required".
Definition ErrNameRequired : error := New "virtualkey: name is required".
Definition ErrKeyNotFound : error := New "virtualkey: key not found".
Definition ErrKeyUnavailable : error := New "virtualkey: key is unavailable".
Definition ErrInvalidTransition : error := New "virtualkey: invalid state transition".
Definition entityPrefix : string := "virtual_key:".

Record Key := mkKey {
  ky_ID : string;
  ky_TenantID : string;
  ky_Name : string;
  ky_SecretCiphertext : string;
  ky_SecretFingerprint : string;
  ky_Status : string;
  ky_DesiredState : string;
  ky_DesiredGeneration : Z;
  ky_AppliedGeneration : Z;
  ky_LastError : string;
  ky_ActivatedAt : option Z;
  ky_RevokedAt : option Z;
  ky_CreatedAt : Z;
  ky_UpdatedAt : Z }.

Record Mutation := mkMutation {
  mu_Key : Key; mu_Before : option Key; mu_Secret : string; mu_Change : option Change }.

Definition randomID (prefix : string) (random : error + string) : error + string :=
  match random with
  | inl e => inl (Wrap "virtualkey: generate id: %w" e)
  | inr b => inr (prefix +:+ hex_encode b)
  end.

Definition randomSecret (random : error + string) : error + string :=
  match random with
  | inl e => inl (Wrap "virtualkey: generate secret: %w" e)
  | inr b => inr ("sk-bf-" +:+ b64_encode b)
  end.

Definition fingerprint `{Sha256} (secret : string) : string := hex_encode (stake 8 (sha256 secret)).

(** The row RevokeTx and RetryTx save. *)
Definition redirected (row : Key) (status desired : string) (generation now : Z) : Key :=
  mkKey (ky_ID row) (ky_TenantID row) (ky_Name row) (ky_SecretCiphertext row) (ky_SecretFingerprint row)
    status desired generation (ky_AppliedGeneration row) EmptyString (ky_ActivatedAt row) (ky_RevokedAt row)
    (ky_CreatedAt row) now.

Definition key_newest (a b : Key) : Prop := ky_CreatedAt b <= ky_CreatedAt a.
#[export] Instance key_newest_dec : RelDecision key_newest.
Proof. intros a b. unfold key_newest. apply _. Defined.

Section Store.
  Context `{Sql} `{Sha256} `{Aead}.
  Variable cipher : Cipher.

Record VKDB := mkVKDB {
  vk_tenants : table string Tenant;
  tenant_virtual_keys : table string Key;
  vk_bus : Bus }.

Definition tenants_f : field VKDB (table string Tenant) :=
  Field vk_tenants (fun t w => mkVKDB t (tenant_virtual_keys w) (vk_bus w)).
Definition keys_f : field VKDB (table string Key) :=
  Field tenant_virtual_keys (fun t w => mkVKDB (vk_tenants w) t (vk_bus w)).
Definition bus_f : field VKDB Bus :=
  Field vk_bus (fun t w => mkVKDB (vk_tenants w) (tenant_virtual_keys w) t).

Definition key_is (tenantID keyID : string) (r : Key) : bool :=
  bool_decide (ky_TenantID r = tenantID) && bool_decide (ky_ID r = keyID).

Definition list_limit (limit : Z) : Z := if (limit <=? 0) || (1000 <? limit) then 100 else limit.

Definition List (tenantID : string) (limit : Z) : M VKDB (list Key) :=
  if is_empty tenantID then throw ErrTenantRequired else
  l ← wrapping "virtualkey: list tenant keys: %w" (find keys_f (fun r => bool_decide (ky_TenantID r = tenantID)));
  mret (take (Z.to_nat (list_limit limit)) (merge_sort key_newest l)).

Definition load_key (ctx : string) (tenantID keyID : string) : M VKDB Key :=
  if is_empty tenantID then throw ErrTenantRequired else
  r ← attempt (take_row keys_f (key_is tenantID (trim_space keyID)));
  match r with
  | inl e => if errors_is e ErrRecordNotFound then throw ErrKeyNotFound else throw (Wrap ctx e)
  | inr row => mret row
  end.

Definition lockKey (tenantID keyID : string) : M VKDB Key :=
  load_key "virtualkey: lock key: %w" tenantID keyID.

Definition RevealTx (tenantID keyID : string) : M VKDB (Key * string) :=
  row ← load_key "virtualkey: load key for reveal: %w" tenantID keyID;
  if negb (bool_decide (ky_DesiredState row = DesiredActive)) || bool_decide (ky_Status row = StatusRevoking) ||
     bool_decide (ky_Status row = StatusRevoked) then throw ErrKeyUnavailable else
  secret ← wrapping "virtualkey: decrypt key for reveal: %w"
    (of_result (Decrypt cipher (ky_SecretCiphertext row) (associatedData (ky_TenantID row) (ky_ID row))));
  mret (row, secret).

(** The primary key and the unique index on tenant and name. *)
Definition key_clash (row r : Key) : bool :=
  bool_decide (ky_ID r = ky_ID row) ||
  (bool_decide (ky_TenantID r = ky_TenantID row) && bool_decide (ky_Name r = ky_Name row)).

Definition CreateTx (tenantID name : string) (idRand secretRand nonceRand : error + string) (stamp now : Z)
    : M VKDB Mutation :=
  let name := trim_space name in
  if is_empty tenantID then throw ErrTenantRequired else
  if is_empty name then throw ErrNameRequired else
  if (120 <? String.length name)%nat then throw (Wrap "%w: maximum length is 120" ErrNameRequired) else
  tenantCount ← wrapping "virtualkey: verify tenant: %w" (count tenants_f (has_id tenantID));
  if negb (tenantCount =? 1) then throw (Wrap "%w: %s" ErrTenantNotFound) else
  id ← of_result (randomID "vk_" idRand);
  secret ← of_result (randomSecret secretRand);
  ciphertext ← of_result (Encrypt cipher secret (associatedData tenantID id) nonceRand);
  change ← zoom bus_f (PublishTx tenantID (entityPrefix +:+ id) stamp);
  let row := mkKey id tenantID name ciphertext (fingerprint secret) StatusPending DesiredActive
               (ch_Generation change) 0 EmptyString None None now now in
  wrapping "virtualkey: create key: %w" (create keys_f (key_clash row) id row);;
  mret (mkMutation row None secret (Some change)).

(** [tx.Save(row)]: every column of the row, updated_at being gorm's clock. *)
Definition save (ctx : string) (row : Key) (stamp : Z) : M VKDB unit :=
  wrapping ctx (update keys_f (fun r => bool_decide (ky_ID r = ky_ID row))
    (fun _ => redirected row (ky_Status row) (ky_DesiredState row) (ky_DesiredGeneration row) stamp));;
  mret tt.

Definition RevokeTx (tenantID keyID : string) (stamp now : Z) : M VKDB Mutation :=
  row ← lockKey tenantID keyID;
  if bool_decide (ky_Status row = StatusRevoked) || bool_decide (ky_Status row = StatusRevoking)
  then mret (mkMutation row None EmptyString None) else
  change ← zoom bus_f (PublishTx tenantID (entityPrefix +:+ keyID) stamp);
  let row' := redirected row StatusRevoking DesiredRevoked (ch_Generation change) now in
  save "virtualkey: mark key revoking: %w" row' stamp;;
  mret (mkMutation row' (Some row) EmptyString (Some change)).

Definition RetryTx (tenantID keyID : string) (stamp now : Z) : M VKDB Mutation :=
  row ← lockKey tenantID keyID;
  if negb (bool_decide (ky_Status row = StatusFailed))
  then throw (Wrap "%w: only failed keys can be retried" ErrInvalidTransition) else
  change ← zoom bus_f (PublishTx tenantID (entityPrefix +:+ keyID) stamp);
  let status := if bool_decide (ky_DesiredState row = DesiredRevoked) then StatusRevoking else StatusPending in
  let row' := redirected row status (ky_DesiredState row) (ch_Generation change) now in
  save "virtualkey: retry key: %w" row' stamp;;
  mret (mkMutation row' (Some row) EmptyString (Some change)).

End Store.

(** ** The data plane

    What the code relies on of a projection target: a call that succeeds has
    its effect, a call that fails has it or not, and no other key is touched. *)
Record Projection := mkProjection {
  pr_ID : string; pr_TenantID : string; pr_Name : string; pr_Secret : string; pr_Generation : Z }.

Class Target := {
  tstate : Type;
  served : tstate -> gmap string Projection;
  Upsert : Projection -> tstate -> option error * tstate;
  Delete : string -> string -> tstate -> option error * tstate;
  upsert_law : forall p s, match Upsert p s with
    | (None, s') => served s' = <[pr_ID p := p]> (served s)
    | (Some _, s') => served s' = served s \/ served s' = <[pr_ID p := p]> (served s)
    end;
  delete_law : forall t k s, match Delete t k s with
    | (None, s') => served s' = delete k (served s)
    | (Some _, s') => served s' = served s \/ served s' = delete k (served s)
    end }.

Section Projector.
  Context `{Sql} `{Sha256} `{Aead} `{Target}.
  Variable cipher : Cipher.
  (** The text kept of an error (sanitizedError). *)
  Variable sanitizedError : error -> string -> string.

(** A gateway process beside the shared database. *)
Record Node := mkNode { nd_db : VKDB; nd_target : tstate; nd_restored : gset string }.

Definition db_f : field Node VKDB := Field nd_db (fun d n => mkNode d (nd_target n) (nd_restored n)).
Definition node_keys : field Node (table string Key) :=
  Field (fun n => tenant_virtual_keys (nd_db n))
        (fun t n => mkNode (mkVKDB (vk_tenants (nd_db n)) t (vk_bus (nd_db n))) (nd_target n) (nd_restored n)).

Definition on_target (f : tstate -> option error * tstate) : M Node (option error) :=
  effect (fun n => match f (nd_target n) with (r, t') => (r, mkNode (nd_db n) t' (nd_restored n)) end).

Definition projection_of (row : Key) (secret : string) : Projection :=
  mkProjection (ky_ID row) (ky_TenantID row) (ky_Name row) secret (ky_DesiredGeneration row).

(** Decrypt, then Upsert; the error and the secret known at that point. *)
Definition push (row : Key) : M Node (option error * string) :=
  match Decrypt cipher (ky_SecretCiphertext row) (associatedData (ky_TenantID row) (ky_ID row)) with
  | inl e => mret (Some e, EmptyString)
  | inr secret => r ← on_target (Upsert (projection_of row secret)); mret (r, secret)
  end.

Definition restorable (tenantID : string) (r : Key) : bool :=
  bool_decide (ky_TenantID r = tenantID) && bool_decide (ky_DesiredState r = DesiredActive) &&
  bool_decide (ky_Status r = StatusActive) && (ky_AppliedGeneration r =? ky_DesiredGeneration r).

Definition key_id_asc (a b : Key) : Prop := text_le (ky_ID a) (ky_ID b) = true.
#[global] Instance key_id_asc_dec : RelDecision key_id_asc.
Proof. intros a b. unfold key_id_asc. apply _. Defined.

Definition restore_row (row : Key) : M Node unit :=
  r ← push row;
  match r.1 with
  | Some e => throw (Wrap "virtualkey: restore key %s: %w" e)
  | None => mret tt
  end.

Definition restoreTenantOnce (tenantID : string) : M Node unit :=
  fun n => (if bool_decide (tenantID ∈ nd_restored n) then mret tt else
  l ← wrapping "virtualkey: load active tenant snapshot: %w" (find node_keys (restorable tenantID));
  mapM restore_row (merge_sort key_id_asc l);;
  effect (fun n => (tt, mkNode (nd_db n) (nd_target n) ({[tenantID]} ∪ nd_restored n)))) n.

(** The rows the projector writes back. *)
Definition applied_row (status : string) (activated revoked : option Z) (now : Z) (r : Key) : Key :=
  mkKey (ky_ID r) (ky_TenantID r) (ky_Name r) (ky_SecretCiphertext r) (ky_SecretFingerprint r)
    status (ky_DesiredState r) (ky_DesiredGeneration r) (ky_DesiredGeneration r) EmptyString
    activated revoked (ky_CreatedAt r) now.

Definition failed_row (reason : string) (now : Z) (r : Key) : Key :=
  mkKey (ky_ID r) (ky_TenantID r) (ky_Name r) (ky_SecretCiphertext r) (ky_SecretFingerprint r)
    StatusFailed (ky_DesiredState r) (ky_DesiredGeneration r) (ky_AppliedGeneration r) reason
    (ky_ActivatedAt r) (ky_RevokedAt r) (ky_CreatedAt r) now.

(** WHERE id = ? AND desired_generation = ? *)
Definition same_version (row r : Key) : bool :=
  bool_decide (ky_ID r = ky_ID row) && (ky_DesiredGeneration r =? ky_DesiredGeneration row).

Definition markFailed (row : Key) (reason : string) (now : Z) : M Node unit :=
  update node_keys (same_version row) (failed_row reason now);; mret tt.

Definition projectTx (tenantID keyID : string) (now : Z) : M Node (option error) :=
  r ← attempt (take_row node_keys (key_is tenantID keyID));
  match r with
  | inl e => if errors_is e ErrRecordNotFound then mret None
             else throw (Wrap "virtualkey: lock projection %s: %w" e)
  | inr row =>
      if ky_DesiredGeneration row <=? ky_AppliedGeneration row then mret None else
      if bool_decide (ky_DesiredState row = DesiredActive) then
        p ← push row;
        match p with
        | (Some e, secret) =>
            markFailed row (sanitizedError e secret) now;;
            mret (Some (Wrap "virtualkey: project key %s: %w" e))
        | (None, _) =>
            let activated := match ky_ActivatedAt row with None => Some now | a => a end in
            update node_keys (same_version row)
              (fun r => applied_row StatusActive (match ky_ActivatedAt row with None => activated | _ => ky_ActivatedAt r end)
                          (ky_RevokedAt r) now r);;
            mret None
        end
      else if bool_decide (ky_DesiredState row = DesiredRevoked) then
        d ← on_target (Delete (ky_TenantID row) (ky_ID row));
        match d with
        | Some e =>
            markFailed row (sanitizedError e EmptyString) now;;
            mret (Some (Wrap "virtualkey: revoke key %s: %w" e))
        | None =>
            update node_keys (same_version row)
              (fun r => applied_row StatusRevoked (ky_ActivatedAt r) (Some now) now r);;
            mret None
        end
      else throw (New "virtualkey: key %s has invalid desired state %q")
  end.

Definition projectOne (tenantID keyID : string) (now : Z) : M Node unit :=
  projectionErr ← transaction_of db_f (projectTx tenantID keyID now);
  match projectionErr with Some e => throw e | None => mret tt end.

Fixpoint project_all (tenantID : string) (ids : list string) (joined : option error) (now : Z) : M Node unit :=
  match ids with
  | [] => match joined with Some e => throw e | None => mret tt end
  | id :: rest =>
      r ← attempt (projectOne tenantID id now);
      project_all tenantID rest
        (join_err joined (match r with inl e => Some e | inr _ => None end)) now
  end.

Definition dirty (tenantID : string) (r : Key) : bool :=
  bool_decide (ky_TenantID r = tenantID) && (ky_AppliedGeneration r <? ky_DesiredGeneration r).

Definition oldest_change (a b : Key) : Prop :=
  ky_DesiredGeneration a < ky_DesiredGeneration b \/
  (ky_DesiredGeneration a = ky_DesiredGeneration b /\ text_le (ky_ID a) (ky_ID b) = true).
#[global] Instance oldest_change_dec : RelDecision oldest_change.
Proof. intros a b. unfold oldest_change. apply _. Defined.

Definition ProjectTenant (tenantID : string) (generation now : Z) : M Node unit :=
  if is_empty tenantID || (generation =? 0)
  then throw (New "virtualkey: invalid projection fence (%q, %d)") else
  restoreTenantOnce tenantID;;
  l ← wrapping "virtualkey: list dirty projections: %w" (find node_keys (dirty tenantID));
  project_all tenantID (ky_ID <$> merge_sort oldest_change l) None now.

End Projector.

(** ** The invariant of keys *)
Section KeyInvariant.
  Context `{Sql} `{Sha256} `{Aead}.
  Variable cipher : Cipher.
  Implicit Types (w : VKDB).

(** Status, desired state and generations fit together. *)
Definition phase_ok (r : Key) : Prop :=
  (ky_Status r = StatusPending /\ ky_DesiredState r = DesiredActive /\ ky_AppliedGeneration r < ky_DesiredGeneration r) \/
  (ky_Status r = StatusActive /\ ky_DesiredState r = DesiredActive /\ ky_AppliedGeneration r = ky_DesiredGeneration r) \/
  (ky_Status r = StatusFailed /\ (ky_DesiredState r = DesiredActive \/ ky_DesiredState r = DesiredRevoked) /\
     ky_AppliedGeneration r < ky_DesiredGeneration r) \/
  (ky_Status r = StatusRevoking /\ ky_DesiredState r = DesiredRevoked /\ ky_AppliedGeneration r < ky_DesiredGeneration r) \/
  (ky_Status r = StatusRevoked /\ ky_DesiredState r = DesiredRevoked /\ ky_AppliedGeneration r = ky_DesiredGeneration r).

Definition recoverable (r : Key) : Prop := exists secret,
  Decrypt cipher (ky_SecretCiphertext r) (associatedData (ky_TenantID r) (ky_ID r)) = inr secret /\
  ky_SecretFingerprint r = fingerprint secret.

Record keys_ok w : Prop := {
  ko_bus : bus_ok (vk_bus w);
  ko_key : forall k r, rows (tenant_virtual_keys w) !! k = Some r -> ky_ID r = k;
  ko_phase : forall k r, rows (tenant_virtual_keys w) !! k = Some r -> phase_ok r;
  ko_generation : forall k r, rows (tenant_virtual_keys w) !! k = Some r ->
    0 <= ky_AppliedGeneration r /\ ky_DesiredGeneration r <= current_of (vk_bus w) (ky_TenantID r);
  ko_secret : forall k r, rows (tenant_virtual_keys w) !! k = Some r -> recoverable r;
  ko_name : forall k1 k2 r1 r2, rows (tenant_virtual_keys w) !! k1 = Some r1 ->
    rows (tenant_virtual_keys w) !! k2 = Some r2 -> ky_TenantID r1 = ky_TenantID r2 ->
    ky_Name r1 = ky_Name r2 -> k1 = k2 }.

(** One key written (new, or in place of its old row), the bus moved on. *)
Lemma keys_ok_written w w' k row :
  keys_ok w -> bus_ok (vk_bus w') -> (forall t, current_of (vk_bus w) t <= current_of (vk_bus w') t) ->
  rows (tenant_virtual_keys w') = <[k := row]> (rows (tenant_virtual_keys w)) ->
  ky_ID row = k -> phase_ok row -> recoverable row ->
  0 <= ky_AppliedGeneration row -> ky_DesiredGeneration row <= current_of (vk_bus w') (ky_TenantID row) ->
  (forall k' r', k' <> k -> rows (tenant_virtual_keys w) !! k' = Some r' -> ky_TenantID r' = ky_TenantID row ->
     ky_Name r' <> ky_Name row) ->
  keys_ok w'.
Proof.
  intros Hw Hb Hcur E Hid Hph Hrec Ha Hd Hname. split; [done|..].
  1-4: intros k' r'; rewrite E, lookup_insert; case_decide as Ek.
  - intros [= <-]. congruence.
  - apply (ko_key w Hw).
  - by intros [= <-].
  - apply (ko_phase w Hw).
  - by intros [= <-].
  - intros Hr. destruct (ko_generation w Hw _ _ Hr) as [? ?]. specialize (Hcur (ky_TenantID r')). lia.
  - by intros [= <-].
  - apply (ko_secret w Hw).
  - intros k1 k2 r1 r2. rewrite E, !lookup_insert. case_decide as E1; case_decide as E2.
    + congruence.
    + intros [= <-] H2' Ht Hn. exfalso. eapply (Hname k2 r2); [congruence|done|congruence|congruence].
    + intros H1' [= <-] Ht Hn. exfalso. eapply (Hname k1 r1); [congruence|done|congruence|congruence].
    + by apply (ko_name w Hw).
Qed.

(** Rewriting a stored key keeps its identity, tenant, name and secret. *)
Definition same_key (r r' : Key) : Prop :=
  ky_ID r' = ky_ID r /\ ky_TenantID r' = ky_TenantID r /\ ky_Name r' = ky_Name r /\
  ky_SecretCiphertext r' = ky_SecretCiphertext r /\ ky_SecretFingerprint r' = ky_SecretFingerprint r.

Lemma keys_ok_rewritten w w' k row row' :
  keys_ok w -> bus_ok (vk_bus w') -> (forall t, current_of (vk_bus w) t <= current_of (vk_bus w') t) ->
  rows (tenant_virtual_keys w) !! k = Some row -> same_key row row' ->
  rows (tenant_virtual_keys w') = <[k := row']> (rows (tenant_virtual_keys w)) ->
  phase_ok row' -> ky_AppliedGeneration row <= ky_AppliedGeneration row' ->
  ky_DesiredGeneration row' <= current_of (vk_bus w') (ky_TenantID row) ->
  keys_ok w'.
Proof.
  intros Hw Hb Hcur Hk (E1 & E2 & E3 & E4 & E5) E Hph Ha Hd.
  destruct (ko_generation w Hw _ _ Hk) as [Hg _].
  eapply (keys_ok_written w w' k row'); try done.
  - rewrite E1. by apply (ko_key w Hw).
  - destruct (ko_secret w Hw _ _ Hk) as (secret & Hs & Hf). exists secret. by rewrite E1, E2, E4, E5.
  - lia.
  - by rewrite E2.
  - intros k' r' Hne Hr' Ht Hn. apply Hne. eapply (ko_name w Hw); [done|done|congruence|congruence].
Qed.

Lemma key_row_unique w k row :
  keys_ok w -> rows (tenant_virtual_keys w) !! k = Some row -> forall p g,
  (forall r, p r = true -> ky_ID r = k) -> p row = true ->
  rows (update_rows p g (tenant_virtual_keys w)) = <[k := g row]> (rows (tenant_virtual_keys w)).
Proof.
  intros Hw Hk p g Hp Hrow. apply rows_update_unique; [done|done|].
  intros k' r' Hr' E. apply Hp in E. by rewrite <-(ko_key w Hw _ _ Hr').
Qed.

Lemma published_mono w id entity now c b' :
  published (vk_bus w) b' id entity now c -> forall t, current_of (vk_bus w) t <= current_of b' t.
Proof.
  intros Hp t. destruct (published_current _ _ _ _ _ _ Hp) as [E1 E2].
  destruct (decide (t = id)) as [->|Ht]; [lia|]. by rewrite E2.
Qed.

(** What load_key returns. *)
Lemma wp_load_key h ctx t keyID w (Q : error + Key -> VKDB -> Prop) :
  keys_ok w ->
  (is_empty t = true -> Q (inl ErrTenantRequired) w) ->
  (h = false -> forall msg, Q (inl (Wrap ctx (Driver msg))) w) ->
  (is_empty t = false -> (forall r, rows (tenant_virtual_keys w) !! trim_space keyID = Some r -> ky_TenantID r <> t) ->
     Q (inl ErrKeyNotFound) w) ->
  (forall row, is_empty t = false -> rows (tenant_virtual_keys w) !! trim_space keyID = Some row ->
     ky_TenantID row = t -> Q (inr row) w) ->
  wp h (load_key ctx t keyID) w Q.
Proof.
  intros Hw Q1 Q2 Q3 Q4. unfold load_key. destruct (is_empty t) eqn:Et; [wp_step; auto|].
  repeat wp_step.
  - intros -> msg. wp_step. by apply Q2.
  - intros Hn. wp_step. apply Q3; [done|]. intros r Hr Ht. specialize (Hn _ _ Hr). unfold key_is in Hn.
    by rewrite (ko_key w Hw _ _ Hr), Ht, !bool_decide_eq_true_2 in Hn.
  - intros k row Hr E. unfold key_is in E. bools. wp_step. apply Q4; [done| |done].
    match goal with E : ky_ID row = _ |- _ => rewrite <-E end. by rewrite (ko_key w Hw _ _ Hr).
Qed.

Definition mutated w w' (k : string) (row row' : Key) (m : Mutation) : Prop :=
  rows (tenant_virtual_keys w) !! k = Some row /\ same_key row row' /\
  mu_Before m = Some row /\ same_key row (mu_Key m) /\
  rows (tenant_virtual_keys w') = <[k := row']> (rows (tenant_virtual_keys w)) /\
  vk_tenants w' = vk_tenants w /\
  ky_DesiredGeneration row' = current_of (vk_bus w) (ky_TenantID row) + 1 /\
  ky_AppliedGeneration row' = ky_AppliedGeneration row.

Lemma wp_save h ctx row0 row stamp w (Q : error + unit -> VKDB -> Prop) :
  (forall k r, rows (tenant_virtual_keys w) !! k = Some r -> ky_ID r = k) ->
  rows (tenant_virtual_keys w) !! ky_ID row = Some row0 ->
  (h = false -> forall msg, Q (inl (Wrap ctx (Driver msg))) w) ->
  (forall t, rows t = <[ky_ID row := redirected row (ky_Status row) (ky_DesiredState row) (ky_DesiredGeneration row) stamp]>
     (rows (tenant_virtual_keys w)) -> Q (inr tt) (fset keys_f t w)) ->
  wp h (save ctx row stamp) w Q.
Proof.
  intros Hkey Hrow Hf HQ. unfold save. repeat wp_step; [done|]. apply HQ.
  apply rows_update_unique with (r := row0); [done| |].
  - apply bool_decide_eq_true_2. by apply Hkey.
  - intros k r Hr E. bools. by rewrite <-(Hkey _ _ Hr).
Qed.

Lemma wp_RevokeTx h w t keyID stamp now :
  keys_ok w ->
  wp h (RevokeTx t keyID stamp now) w (fun r w' => match r with
    | inl _ => True
    | inr m => (w' = w /\ exists row, mu_Key m = row /\ rows (tenant_virtual_keys w) !! trim_space keyID = Some row /\
         ky_TenantID row = t /\ ky_DesiredState row = DesiredRevoked) \/
        (keys_ok w' /\ exists row row', mutated w w' (trim_space keyID) row row' m /\ ky_TenantID row = t /\
           ky_Status row' = StatusRevoking /\ ky_DesiredState row' = DesiredRevoked /\ ky_Status row <> StatusRevoked)
    end).
Proof.
  intros Hw. unfold RevokeTx, lockKey. wp_step. apply wp_load_key; [done|done|done|done|].
  intros row Ht Hrow Htr. wp_step.
  { wp_step. left. split; [done|]. exists row. split_and!; [done..|].
    apply orb_true_iff in E as [E|E]; bools; destruct (ko_phase w Hw _ _ Hrow) as [(S & D & _)|[(S & D & _)|[(S & D & _)|[(S & D & _)|(S & D & _)]]]];
      rewrite E in S; try done; by vm_compute in S. }
  wp_step. wp_step. eapply wp_mono; [by apply wp_PublishTx, (ko_bus w Hw)|]. simpl.
  intros [e|c] b' HQ; [done|]. destruct HQ as [_ Hp]. wp_step.
  pose proof (ko_key w Hw _ _ Hrow) as Hid.
  apply (wp_save h _ row); simpl; [apply (ko_key w Hw)|by rewrite Hid|done|].
  intros tb Htb. wp_step. right.
  assert (Hg : ch_Generation c = current_of (vk_bus w) (ky_TenantID row) + 1)
    by (destruct Hp as (_ & -> & _); simpl; by rewrite Htr).
  assert (Hcur : current_of b' (ky_TenantID row) = ch_Generation c)
    by (rewrite Hg, Htr; apply (published_current _ _ _ _ _ _ Hp)).
  destruct (ko_generation w Hw _ _ Hrow) as [Ha Hd].
  pose proof (ko_phase w Hw _ _ Hrow) as Hph. split.
  - eapply (keys_ok_rewritten w _ (ky_ID row) row (redirected row StatusRevoking DesiredRevoked (ch_Generation c) stamp)); simpl.
    + done.
    + eapply published_ok; [apply (ko_bus w Hw)|exact Hp].
    + by eapply published_mono.
    + by rewrite Hid.
    + split_and!; reflexivity.
    + exact Htb.
    + unfold phase_ok; simpl. right. right. right. left. split_and!; [done..|]. unfold phase_ok in Hph. lia.
    + simpl. lia.
    + simpl. by rewrite Hcur.
  - rewrite <-Hid. eexists row, (redirected row StatusRevoking DesiredRevoked (ch_Generation c) stamp). split; [|split; [done|split; [done|split; [done|by bools]]]].
    split_and!; simpl; try done; first [by rewrite Hid|exact Htb|exact Hg].
Qed.

Lemma wp_RetryTx h w t keyID stamp now :
  keys_ok w ->
  wp h (RetryTx t keyID stamp now) w (fun r w' => match r with
    | inl _ => True
    | inr m => keys_ok w' /\ exists row row', mutated w w' (trim_space keyID) row row' m /\ ky_TenantID row = t /\
        ky_Status row = StatusFailed /\ ky_DesiredState row' = ky_DesiredState row /\
        ky_Status row' <> StatusActive /\ ky_Status row' <> StatusRevoked
    end).
Proof.
  intros Hw. unfold RetryTx, lockKey. wp_step. apply wp_load_key; [done|done|done|done|].
  intros row Ht Hrow Htr. wp_step; [by wp_step|]. bools.
  wp_step. wp_step. eapply wp_mono; [by apply wp_PublishTx, (ko_bus w Hw)|]. simpl.
  intros [e|c] b' HQ; [done|]. destruct HQ as [_ Hp]. wp_step.
  pose proof (ko_key w Hw _ _ Hrow) as Hid.
  apply (wp_save h _ row); simpl; [apply (ko_key w Hw)|by rewrite Hid|done|].
  intros tb Htb. wp_step.
  assert (Hg : ch_Generation c = current_of (vk_bus w) (ky_TenantID row) + 1)
    by (destruct Hp as (_ & -> & _); simpl; by rewrite Htr).
  assert (Hcur : current_of b' (ky_TenantID row) = ch_Generation c)
    by (rewrite Hg, Htr; apply (published_current _ _ _ _ _ _ Hp)).
  destruct (ko_generation w Hw _ _ Hrow) as [Ha Hd].
  pose proof (ko_phase w Hw _ _ Hrow) as Hph.
  assert (Hds : ky_DesiredState row = DesiredActive \/ ky_DesiredState row = DesiredRevoked)
    by (unfold phase_ok in Hph; naive_solver).
  assert (Hle : ky_AppliedGeneration row <= ky_DesiredGeneration row) by (unfold phase_ok in Hph; lia).
  split.
  - eapply (keys_ok_rewritten w _ (ky_ID row) row (redirected row (if bool_decide (ky_DesiredState row = DesiredRevoked) then StatusRevoking else StatusPending) (ky_DesiredState row) (ch_Generation c) stamp)); simpl.
    + done.
    + eapply published_ok; [apply (ko_bus w Hw)|exact Hp].
    + by eapply published_mono.
    + by rewrite Hid.
    + split_and!; reflexivity.
    + exact Htb.
    + unfold phase_ok; simpl. destruct Hds as [->| ->].
      * left. split_and!; [done..|lia].
      * right. right. right. left. split_and!; [done..|lia].
    + simpl. lia.
    + simpl. by rewrite Hcur.
  - rewrite <-Hid. eexists row, (redirected row (if bool_decide (ky_DesiredState row = DesiredRevoked) then StatusRevoking else StatusPending) (ky_DesiredState row) (ch_Generation c) stamp). split; [|split; [done|split; [done|split; [done|]]]].
    + split_and!; simpl; try done; first [by rewrite Hid|exact Htb|exact Hg].
    + simpl. destruct Hds as [->| ->]; by vm_compute.
Qed.

(** What a committed creation did. *)
Definition created w w' (t name : string) (m : Mutation) : Prop :=
  let row := mu_Key m in
  rows (tenant_virtual_keys w) !! ky_ID row = None /\
  rows (tenant_virtual_keys w') = <[ky_ID row := row]> (rows (tenant_virtual_keys w)) /\
  ky_TenantID row = t /\ ky_Name row = trim_space name /\ ky_Status row = StatusPending /\
  ky_DesiredState row = DesiredActive /\ mu_Before m = None /\ ky_ID row = trim_space (ky_ID row) /\
  is_empty t = false /\
  Decrypt cipher (ky_SecretCiphertext row) (associatedData t (ky_ID row)) = inr (mu_Secret m).

(** The source of nonces fills the buffer it is given. *)
Definition full_nonce (r : error + string) : Prop := forall n, r = inr n -> String.length n = NonceSize.

Lemma random_id_trimmed s : trim_space ("vk_" +:+ hex_encode s) = "vk_" +:+ hex_encode s.
Proof. apply trim_space_graphic. cbn [String.append all_graphic]. by rewrite all_graphic_hex. Qed.

Lemma wp_CreateKeyTx h w t name idr secr nr stamp now :
  keys_ok w -> full_nonce nr ->
  wp h (CreateTx cipher t name idr secr nr stamp now) w (fun r w' => match r with
    | inl _ => True
    | inr m => keys_ok w' /\ created w w' t name m
    end).
Proof.
  intros Hw Hn. unfold CreateTx. do 6 (wp_step; try by repeat wp_step).
  wp_step; [by wp_step|].
  destruct idr as [?|idb]; cbn [randomID of_result]; [by repeat wp_step|]. wp_step. wp_step.
  change (String "v" (String "k" (String "_" (hex_encode idb)))) with ("vk_" +:+ hex_encode idb) in *.
  pose proof (random_id_trimmed idb) as Hid. revert Hid. generalize ("vk_" +:+ hex_encode idb). intros id Hid.
  destruct secr as [?|sb]; cbn [randomSecret of_result]; [by repeat wp_step|]. wp_step. wp_step.
  change (String "s" (String "k" (String "-" (String "b" (String "f" (String "-" (b64_encode sb)))))))
    with ("sk-bf-" +:+ b64_encode sb). generalize ("sk-bf-" +:+ b64_encode sb). intros secret.
  destruct (Encrypt cipher secret (associatedData t id) nr) as [?|v] eqn:Henc; cbn [of_result]; [by repeat wp_step|].
  assert (Hdec : Decrypt cipher v (associatedData t id) = inr secret).
  { destruct nr as [?|nonce]; [by unfold Encrypt in Henc; destruct (is_empty secret)|].
    by rewrite (decrypt_encrypt _ _ _ _ _ _ (Hn _ eq_refl) Henc), open_seal. }
  wp_step. wp_step. wp_step. wp_step. eapply wp_mono; [by apply wp_PublishTx, (ko_bus w Hw)|]. simpl.
  intros [e|c] b' HQ; [done|]. destruct HQ as [_ Hp]. repeat wp_step; [done|done|].
  intros Hclash. destruct (published_current _ _ _ _ _ _ Hp) as [Hcur _].
  pose proof (current_nonneg _ t (ko_bus w Hw)) as Hnn.
  assert (Hg : ch_Generation c = current_of (vk_bus w) t + 1) by (by destruct Hp as (_ & -> & _)).
  wp_step. set (row := mkKey _ _ _ _ _ _ _ _ _ _ _ _ _ _) in *.
  split; [eapply (keys_ok_written w _ id row); try done; simpl|].
  - eapply published_ok; [apply (ko_bus w Hw)|exact Hp].
  - by eapply published_mono.
  - by rewrite rows_insert.
  - left. split_and!; [done..|simpl; lia].
  - by exists secret.
  - lia.
  - intros k' r' _ Hr Ht Hn'. specialize (Hclash _ _ Hr). unfold key_clash in Hclash. simpl in *. bools. 
    rewrite (bool_decide_eq_true_2 _ Ht), (bool_decide_eq_true_2 _ Hn') in *. done.
  - split_and!; simpl; try done; [|by rewrite rows_insert].
    apply eq_None_not_Some. intros [r Hr]. specialize (Hclash _ _ Hr). unfold key_clash in Hclash. simpl in *. bools.
    by rewrite (ko_key w Hw _ _ Hr) in *.
Qed.

End KeyInvariant.

(** ** The data plane follows the keys *)
Section DataPlane.
  Context `{Sql} `{Sha256} `{Aead} `{Target}.
  Variable cipher : Cipher.
  Variable sanitizedError : error -> string -> string.
  Implicit Types (n : Node) (row : Key) (w : VKDB).

Definition secret_of row (secret : string) : Prop :=
  Decrypt cipher (ky_SecretCiphertext row) (associatedData (ky_TenantID row) (ky_ID row)) = inr secret.

Record node_ok n : Prop := {
  no_keys : keys_ok cipher (nd_db n);
  no_served : forall id p, served (nd_target n) !! id = Some p ->
    exists row, rows (tenant_virtual_keys (nd_db n)) !! id = Some row /\ pr_ID p = id /\
      pr_TenantID p = ky_TenantID row /\ pr_Name p = ky_Name row /\ secret_of row (pr_Secret p) /\
      ky_Status row <> StatusRevoked;
  no_active : forall id row, rows (tenant_virtual_keys (nd_db n)) !! id = Some row ->
    ky_Status row = StatusActive -> ky_TenantID row ∈ nd_restored n ->
    exists secret, secret_of row secret /\ served (nd_target n) !! id = Some (projection_of row secret) }.

(** What a key keeps whatever is done. *)
Definition keys_grow w w' : Prop := forall id row, rows (tenant_virtual_keys w) !! id = Some row ->
  exists row', rows (tenant_virtual_keys w') !! id = Some row' /\ same_key row row' /\
    (ky_DesiredState row = DesiredRevoked -> ky_DesiredState row' = DesiredRevoked) /\
    (ky_Status row = StatusRevoked -> row' = row).

Lemma same_key_refl row : same_key row row.
Proof. done. Qed.

Lemma same_key_trans r1 r2 r3 : same_key r1 r2 -> same_key r2 r3 -> same_key r1 r3.
Proof. unfold same_key. naive_solver congruence. Qed.

Lemma keys_grow_refl w : keys_grow w w.
Proof. intros id row Hrow. exists row. by split_and!. Qed.

Lemma keys_grow_trans w1 w2 w3 : keys_grow w1 w2 -> keys_grow w2 w3 -> keys_grow w1 w3.
Proof.
  intros G1 G2 id row Hrow. destruct (G1 _ _ Hrow) as (r2 & E2 & S2 & D2 & F2).
  destruct (G2 _ _ E2) as (r3 & E3 & S3 & D3 & F3). exists r3. split_and!; [done|by eapply same_key_trans|auto|].
  intros Hst. rewrite (F2 Hst) in *. auto.
Qed.

Lemma keys_grow_row w w' id row row' :
  rows (tenant_virtual_keys w) !! id = Some row -> same_key row row' ->
  rows (tenant_virtual_keys w') = <[id := row']> (rows (tenant_virtual_keys w)) ->
  (ky_DesiredState row = DesiredRevoked -> ky_DesiredState row' = DesiredRevoked) ->
  ky_Status row <> StatusRevoked -> keys_grow w w'.
Proof.
  intros Hrow Hs E Hd Hst k r Hr. rewrite E, lookup_insert. case_decide as Ek; [|by apply keys_grow_refl].
  subst k. rewrite Hrow in Hr. simplify_eq. exists row'. by split_and!.
Qed.

Lemma secret_of_same row row' s : same_key row row' -> secret_of row s -> secret_of row' s.
Proof. intros (E1 & E2 & _ & E4 & _). unfold secret_of. by rewrite E1, E2, E4. Qed.

(** A change of the database that makes no key active or revoked. *)
Lemma node_ok_db n w' :
  node_ok n -> keys_ok cipher w' -> keys_grow (nd_db n) w' ->
  (forall id row', rows (tenant_virtual_keys w') !! id = Some row' ->
     ky_Status row' = StatusActive \/ ky_Status row' = StatusRevoked ->
     rows (tenant_virtual_keys (nd_db n)) !! id = Some row') ->
  node_ok (mkNode w' (nd_target n) (nd_restored n)).
Proof.
  intros Hn Hw Hg Hold. split; simpl; [done|..].
  - intros id p Hp. destruct (no_served n Hn _ _ Hp) as (row & Hrow & E1 & E2 & E3 & E4 & E5).
    destruct (Hg _ _ Hrow) as (row' & Hrow' & Hs & _). exists row'.
    split_and!; [done|done| | |by eapply secret_of_same|].
    + rewrite E2. symmetry. apply Hs.
    + rewrite E3. symmetry. apply Hs.
    + intros Hst. specialize (Hold _ _ Hrow' (or_intror Hst)). rewrite Hrow in Hold. by simplify_eq.
  - intros id row Hrow Hst. apply (no_active n Hn); auto.
Qed.

(** What the target may do when told to serve a key of the database. *)
Lemma node_ok_served n t' id row secret :
  node_ok n -> rows (tenant_virtual_keys (nd_db n)) !! id = Some row -> secret_of row secret ->
  ky_Status row <> StatusRevoked ->
  served t' = served (nd_target n) \/ served t' = <[id := projection_of row secret]> (served (nd_target n)) ->
  node_ok (mkNode (nd_db n) t' (nd_restored n)).
Proof.
  intros Hn Hrow Hsec Hst Ht. assert (Hid : ky_ID row = id) by by apply (ko_key cipher _ (no_keys n Hn)).
  destruct Ht as [E|E]; split; simpl; rewrite ?E; try apply Hn.
  - intros k p. rewrite lookup_insert. case_decide as Ek; [|apply (no_served n Hn)].
    intros [= <-]. subst k. exists row. by split_and!.
  - intros k r Hr Ha Hin. rewrite lookup_insert. case_decide as Ek; [|by apply (no_active n Hn)].
    subst k. rewrite Hrow in Hr. simplify_eq. by exists secret.
Qed.

Lemma node_ok_deleted n t' id row :
  node_ok n -> rows (tenant_virtual_keys (nd_db n)) !! id = Some row -> ky_Status row <> StatusActive ->
  served t' = served (nd_target n) \/ served t' = delete id (served (nd_target n)) ->
  node_ok (mkNode (nd_db n) t' (nd_restored n)).
Proof.
  intros Hn Hrow Hst [E|E]; split; simpl; rewrite ?E; try apply Hn.
  - intros k p [_ Hp]%lookup_delete_Some. by apply (no_served n Hn).
  - intros k r Hr Ha Hin. rewrite lookup_delete_ne; [by apply (no_active n Hn)|]. intros <-. congruence.
Qed.

(** One row of the database rewritten to match the target. *)
Lemma node_ok_row n w' id row row' :
  node_ok n -> keys_ok cipher w' -> rows (tenant_virtual_keys (nd_db n)) !! id = Some row -> same_key row row' ->
  rows (tenant_virtual_keys w') = <[id := row']> (rows (tenant_virtual_keys (nd_db n))) ->
  (ky_Status row' = StatusRevoked -> served (nd_target n) !! id = None) ->
  (ky_Status row' = StatusActive -> exists secret, secret_of row' secret /\
     served (nd_target n) !! id = Some (projection_of row' secret)) ->
  node_ok (mkNode w' (nd_target n) (nd_restored n)).
Proof.
  intros Hn Hw Hrow Hs E Hrev Hact. split; simpl; [done|..].
  - intros k p Hp. destruct (no_served n Hn _ _ Hp) as (r & Hr & E1 & E2 & E3 & E4 & E5).
    rewrite E, lookup_insert. case_decide as Ek; [rewrite <-Ek in *|by exists r].
    rewrite Hrow in Hr. simplify_eq. exists row'.
    split_and!; [done|done| | |by eapply secret_of_same|].
    + rewrite E2. symmetry. apply Hs.
    + rewrite E3. symmetry. apply Hs.
    + intros Hst. by rewrite (Hrev Hst) in Hp.
  - intros k r. rewrite E, lookup_insert. case_decide as Ek; [subst k|by apply (no_active n Hn)].
    intros [= <-] Ha _. by apply Hact.
Qed.

(** A target whose calls succeed. *)
Definition reliable : Prop :=
  (forall p s, (Upsert p s).1 = None) /\ (forall t k s, (Delete t k s).1 = None).

Lemma wp_push h n id row (Q : error + (option error * string) -> Node -> Prop) :
  node_ok n -> rows (tenant_virtual_keys (nd_db n)) !! id = Some row -> ky_Status row <> StatusRevoked ->
  (forall t' pe s, let n' := mkNode (nd_db n) t' (nd_restored n) in
     node_ok n' -> (reliable -> pe = None) ->
     (pe = None -> secret_of row s /\ served t' !! id = Some (projection_of row s)) ->
     (forall k, k <> id -> served t' !! k = served (nd_target n) !! k) -> Q (inr (pe, s)) n') ->
  wp h (push cipher row) n Q.
Proof.
  intros Hn Hrow Hst HQ. destruct (ko_secret cipher _ (no_keys n Hn) _ _ Hrow) as (secret & Hsec & _).
  assert (Hid : ky_ID row = id) by by apply (ko_key cipher _ (no_keys n Hn)).
  unfold push. rewrite Hsec. wp_step. unfold on_target. wp_step.
  pose proof (upsert_law (projection_of row secret) (nd_target n)) as Hlaw.
  pose proof (fun Hr : reliable => proj1 Hr (projection_of row secret) (nd_target n)) as Hrel.
  destruct (Upsert (projection_of row secret) (nd_target n)) as [pe t'] eqn:E. simpl in *. wp_step.
  rewrite Hid in Hlaw. apply HQ; [|done| |].
  - eapply node_ok_served; try done. destruct pe; [done|by right].
  - intros ->. split; [done|]. by rewrite Hlaw, lookup_insert_eq.
  - intros k Hk. destruct pe; [destruct Hlaw as [->| ->]; [done|]|rewrite Hlaw]; by rewrite lookup_insert_ne.
Qed.

(** How a key stands after an attempt to project it. *)
Definition projected row row' (pe : option error) : Prop :=
  same_key row row' /\ ky_DesiredState row' = ky_DesiredState row /\
  ky_DesiredGeneration row' = ky_DesiredGeneration row /\
  match pe with
  | None => ky_AppliedGeneration row' = ky_DesiredGeneration row /\
            ky_Status row' = if bool_decide (ky_DesiredState row = DesiredActive) then StatusActive else StatusRevoked
  | Some _ => ky_AppliedGeneration row' = ky_AppliedGeneration row /\ ky_Status row' = StatusFailed
  end.

Definition behind row : Prop := ky_AppliedGeneration row < ky_DesiredGeneration row.
#[global] Instance behind_dec row : Decision (behind row).
Proof. unfold behind. apply _. Defined.

(** One key of a tenant is brought forward, or its failure recorded; the
    others stay. *)
Definition advanced (t id : string) w w' (pe : option error) : Prop :=
  (forall k, k <> id -> rows (tenant_virtual_keys w') !! k = rows (tenant_virtual_keys w) !! k) /\
  match rows (tenant_virtual_keys w) !! id with
  | Some row =>
      exists row', rows (tenant_virtual_keys w') !! id = Some row' /\
        ((ky_TenantID row = t /\ behind row /\ projected row row' pe) \/
         (~ (ky_TenantID row = t /\ behind row) /\ row' = row /\ pe = None))
  | None => rows (tenant_virtual_keys w') !! id = None /\ pe = None
  end.

Lemma behind_unfinished w row :
  phase_ok row -> behind row ->
  ky_Status row <> StatusActive /\ ky_Status row <> StatusRevoked /\
  (ky_DesiredState row = DesiredActive \/ ky_DesiredState row = DesiredRevoked).
Proof.
  unfold behind. intros [(S & D & A)|[(S & D & A)|[(S & D & A)|[(S & D & A)|(S & D & A)]]]] Hb; try lia.
  all: rewrite S; split_and!; [by vm_compute..|tauto].
Qed.

(** Writing back the outcome of a projection. *)
Lemma node_ok_written n id row row' pe t :
  node_ok n -> rows (tenant_virtual_keys (nd_db n)) !! id = Some row -> behind row -> ky_TenantID row = t ->
  projected row row' pe ->
  (pe = None -> ky_DesiredState row = DesiredRevoked -> served (nd_target n) !! id = None) ->
  (pe = None -> ky_DesiredState row = DesiredActive ->
     exists secret, secret_of row secret /\ served (nd_target n) !! id = Some (projection_of row secret)) ->
  forall w', rows (tenant_virtual_keys w') = <[id := row']> (rows (tenant_virtual_keys (nd_db n))) ->
  vk_bus w' = vk_bus (nd_db n) ->
  node_ok (mkNode w' (nd_target n) (nd_restored n)) /\ keys_grow (nd_db n) w' /\ advanced t id (nd_db n) w' pe.
Proof.
  intros Hn Hrow Hb Ht Hp Hrev Hact w' E Ebus.
  pose proof (ko_phase cipher _ (no_keys n Hn) _ _ Hrow) as Hph.
  destruct (behind_unfinished w' row Hph Hb) as (HA & HR & HD).
  destruct (ko_generation cipher _ (no_keys n Hn) _ _ Hrow) as [Hg1 Hg2].
  pose proof Hp as (Hs & D & G & HP). split_and!.
  - eapply node_ok_row; try done.
    + eapply (keys_ok_rewritten cipher (nd_db n) w' id row row'); try done.
      * apply (no_keys n Hn).
      * rewrite Ebus. apply (no_keys n Hn).
      * rewrite Ebus. done.
      * unfold behind in Hb. unfold phase_ok. destruct pe; destruct HP as [A S]; rewrite S, D, G, A.
        { right. right. left. tauto. }
        case_bool_decide as Hds; [right; left; tauto|]. do 4 right. destruct HD; [done|tauto].
      * unfold behind in Hb. destruct pe; destruct HP as [A S]; lia.
      * by rewrite Ebus, G.
    + intros Hst. destruct pe; destruct HP as [A S]; rewrite S in Hst; [done|].
      case_bool_decide as Hds; [done|]. apply Hrev; [done|]. by destruct HD.
    + intros Hst. destruct pe; destruct HP as [A S]; rewrite S in Hst; [done|].
      case_bool_decide as Hds; [|done]. destruct (Hact eq_refl Hds) as (sec & Hsec & Hsv). exists sec.
      split; [by eapply secret_of_same|]. rewrite Hsv. f_equal. unfold projection_of.
      destruct Hs as (-> & -> & -> & _). by rewrite G.
  - eapply keys_grow_row; try done. by rewrite D.
  - split; [intros k Hk; by rewrite E, lookup_insert_ne by done|].
    rewrite Hrow. exists row'. rewrite E, lookup_insert_eq. split; [done|]. left. done.
Qed.

Definition same_restored n n' : Prop := nd_restored n' = nd_restored n.

Lemma advanced_nothing t id w :
  (forall row, rows (tenant_virtual_keys w) !! id = Some row -> ~ (ky_TenantID row = t /\ behind row)) ->
  advanced t id w w None.
Proof.
  intros Hno. split; [done|]. destruct (rows (tenant_virtual_keys w) !! id) as [row|] eqn:E; [|done].
  exists row. split; [done|]. right. split; [by apply Hno|done].
Qed.

(** The write that closes a projection, under any condition that picks the row. *)
Lemma wp_write_back h n0 n1 t id row g pe (Q : error + Z -> Node -> Prop) :
  nd_db n1 = nd_db n0 -> node_ok n1 -> rows (tenant_virtual_keys (nd_db n0)) !! id = Some row -> behind row ->
  ky_TenantID row = t -> projected row (g row) pe ->
  (pe = None -> ky_DesiredState row = DesiredRevoked -> served (nd_target n1) !! id = None) ->
  (pe = None -> ky_DesiredState row = DesiredActive ->
     exists secret, secret_of row secret /\ served (nd_target n1) !! id = Some (projection_of row secret)) ->
  (h = false -> forall msg, Q (inl (Driver msg)) n1) ->
  (forall k n', node_ok n' -> nd_target n' = nd_target n1 -> nd_restored n' = nd_restored n1 ->
     keys_grow (nd_db n0) (nd_db n') -> advanced t id (nd_db n0) (nd_db n') pe -> Q (inr k) n') ->
  wp h (update node_keys (same_version row) g) n1 Q.
Proof.
  intros Edb Hn Hrow Hb Ht Hp Hrev Hact Hf HQ. rewrite <-Edb in *. wp_step; [done|].
  pose proof (ko_key cipher _ (no_keys n1 Hn)) as Hkey.
  set (t' := update_rows _ _ _). set (w' := mkVKDB (vk_tenants (nd_db n1)) t' (vk_bus (nd_db n1))).
  assert (Hup : rows t' = <[id := g row]> (rows (tenant_virtual_keys (nd_db n1)))).
  { apply rows_update_unique; [done| |].
    - unfold same_version. by rewrite bool_decide_eq_true_2, Z.eqb_refl.
    - intros k r Hr E. unfold same_version in E. bools. rewrite <-(Hkey _ _ Hr), <-(Hkey _ _ Hrow). done. }
  destruct (node_ok_written n1 id row (g row) pe t Hn Hrow Hb Ht Hp Hrev Hact w' Hup eq_refl) as (Hn' & Hg & Ha).
  by apply HQ.
Qed.

Lemma wp_projectTx h n t id now :
  node_ok n ->
  wp h (projectTx cipher sanitizedError t id now) n (fun r n' =>
    node_ok (mkNode (nd_db n) (nd_target n') (nd_restored n')) /\ same_restored n n' /\
    match r with
    | inl _ => h = false
    | inr pe => node_ok n' /\ keys_grow (nd_db n) (nd_db n') /\ advanced t id (nd_db n) (nd_db n') pe /\
                (reliable -> pe = None)
    end).
Proof.
  intros Hn. pose proof (ko_key cipher _ (no_keys n Hn)) as Hkey.
  assert (Hself : node_ok (mkNode (nd_db n) (nd_target n) (nd_restored n))) by by destruct n.
  assert (Hstay : (forall row, rows (tenant_virtual_keys (nd_db n)) !! id = Some row -> ~ (ky_TenantID row = t /\ behind row)) ->
     node_ok n /\ keys_grow (nd_db n) (nd_db n) /\ advanced t id (nd_db n) (nd_db n) None /\ (reliable -> @None error = None)).
  { intros Hno. split_and!; [done|apply keys_grow_refl|by apply advanced_nothing|done]. }
  unfold projectTx. wp_step. wp_step. apply wp_take; simpl.
  { intros -> msg. by wp_step. }
  { intros Hno. wp_step. split; [done|split; [done|]]. apply Hstay. intros row Hrow [Ht _]. specialize (Hno _ _ Hrow).
    unfold key_is in Hno. by rewrite (Hkey _ _ Hrow), Ht, !bool_decide_eq_true_2 in Hno. }
  intros k row Hrow E. unfold key_is in E. bools. rewrite (Hkey _ _ Hrow) in *. subst k t.
  wp_step. { wp_step. split; [done|split; [done|]]. apply Hstay. intros r Hr [_ Hb]. rewrite Hrow in Hr. simplify_eq.
    unfold behind in Hb. bools. lia. }
  bools. assert (Hb : behind row) by done.
  destruct (behind_unfinished (nd_db n) row (ko_phase cipher _ (no_keys n Hn) _ _ Hrow) Hb) as (HA & HR & HD).
  wp_step; bools.
  - wp_step. apply (wp_push h n id row); try done. simpl. intros t' pe secret Hn' Hrel Hok _.
    destruct pe as [e|].
    + wp_step. unfold markFailed. wp_step.
      eapply (wp_write_back h n _ (ky_TenantID row) id row _ (Some (Wrap "virtualkey: project key %s: %w" e))); try done.
      intros z n' Hn2 Et Er Hg Ha. wp_step. wp_step. unfold same_restored. rewrite Et, Er. split; [done|split; [done|split; [done|split; [done|split; [done|]]]]]. by intros ?%Hrel.
    + destruct (Hok eq_refl) as [Hsec Hsv]. wp_step.
      eapply (wp_write_back h n _ (ky_TenantID row) id row _ None); try done.
      * unfold projected; simpl. by rewrite bool_decide_eq_true_2.
      * intros _ Hd. by rewrite Hd in *.
      * intros _ _. by exists secret.
      * intros z n' Hn2 Et Er Hg Ha. wp_step. unfold same_restored. rewrite Et, Er. by split; [done|split; [done|split; [done|split; [done|split]]]].
  - destruct HD as [HD|HD]; [done|]. rewrite (bool_decide_eq_true_2 _ HD).
    wp_step. unfold on_target. wp_step.
    pose proof (delete_law (ky_TenantID row) id (nd_target n)) as Hlaw.
    pose proof (fun Hr : reliable => proj2 Hr (ky_TenantID row) id (nd_target n)) as Hrel.
    destruct (Delete (ky_TenantID row) id (nd_target n)) as [d t'] eqn:Ed. simpl in *.
    assert (Hn' : node_ok (mkNode (nd_db n) t' (nd_restored n))).
    { eapply node_ok_deleted; try done. destruct d; [done|by right]. }
    destruct d as [e|].
    + wp_step. unfold markFailed. wp_step.
      eapply (wp_write_back h n _ (ky_TenantID row) id row _ (Some (Wrap "virtualkey: revoke key %s: %w" e))); try done.
      intros z n' Hn2 Et Er Hg Ha. wp_step. wp_step. unfold same_restored. rewrite Et, Er. split; [done|split; [done|split; [done|split; [done|split; [done|]]]]]. by intros ?%Hrel.
    + wp_step. eapply (wp_write_back h n _ (ky_TenantID row) id row _ None); try done.
      * unfold projected; simpl. by rewrite bool_decide_eq_false_2.
      * intros _ _. simpl. by rewrite Hlaw, lookup_delete_eq.
      * intros z n' Hn2 Et Er Hg Ha. wp_step. unfold same_restored. rewrite Et, Er. by split; [done|split; [done|split; [done|split; [done|split]]]].
Qed.

Lemma wp_projectOne h n t id now :
  node_ok n ->
  wp h (projectOne cipher sanitizedError t id now) n (fun r n' =>
    node_ok n' /\ same_restored n n' /\ keys_grow (nd_db n) (nd_db n') /\
    (h = true -> exists pe, r = match pe with Some e => inl e | None => inr tt end /\
       advanced t id (nd_db n) (nd_db n') pe /\ (reliable -> pe = None))).
Proof.
  intros Hn. unfold projectOne. wp_step. wp_step. eapply wp_mono; [by apply wp_projectTx|].
  intros [e|pe] n' (Hback & Hr & HQ); simpl.
  - split_and!; [done|done|apply keys_grow_refl|by intros ->].
  - destruct HQ as (Hn' & Hg & Ha & Hrel). split; [intros -> msg; split; [done|split; [done|split; [apply keys_grow_refl|done]]]|].
    destruct pe as [e|]; wp_step; (split; [done|split; [done|split; [done|]]]); intros _.
    + exists (Some e). by split; [|split].
    + exists None. by split; [|split].
Qed.

(** How a list of keys of a tenant stands after a pass over it. *)
Definition swept (t : string) (ids : list string) w w' (r : error + unit) : Prop :=
  (forall k, rows (tenant_virtual_keys w) !! k = None -> rows (tenant_virtual_keys w') !! k = None) /\
  forall k row, rows (tenant_virtual_keys w) !! k = Some row ->
    exists row', rows (tenant_virtual_keys w') !! k = Some row' /\
      ((k ∈ ids /\ ky_TenantID row = t /\ behind row /\
          exists pe, projected row row' pe /\ (is_Some pe -> exists e, r = inl e)) \/
       (~ (k ∈ ids /\ ky_TenantID row = t /\ behind row) /\ row' = row)).

Lemma projected_again row row1 row2 e pe :
  projected row row1 (Some e) -> projected row1 row2 pe -> projected row row2 pe.
Proof.
  intros (S1 & D1 & G1 & A1 & _) (S2 & D2 & G2 & P2). split; [by eapply same_key_trans|].
  split; [congruence|split; [congruence|]]. rewrite <-D1, <-G1. destruct pe; [|done]. by rewrite <-A1.
Qed.

Lemma swept_cons t id ids w w1 w2 pe r :
  advanced t id w w1 pe -> swept t ids w1 w2 r -> (is_Some pe -> exists e, r = inl e) ->
  swept t (id :: ids) w w2 r.
Proof.
  intros [Hoth Hid] [Hnone Hsome] Herr. split.
  - intros k Hk. apply Hnone. destruct (decide (k = id)) as [->|Hne]; [|by rewrite Hoth].
    rewrite Hk in Hid. apply Hid.
  - intros k row Hk. destruct (decide (k = id)) as [->|Hne].
    2: { destruct (Hsome k row) as (row2 & E2 & HC); [by rewrite Hoth|]. exists row2. split; [done|].
         assert (Hm : k ∈ id :: ids <-> k ∈ ids) by (rewrite elem_of_cons; naive_solver). by rewrite Hm. }
    rewrite Hk in Hid. destruct Hid as (row1 & E1 & HC1). destruct (Hsome _ _ E1) as (row2 & E2 & HC2).
    exists row2. split; [done|]. destruct HC1 as [(Ht & Hb & Hp)|(Hno & -> & ->)].
    + left. split; [left|split; [done|split; [done|]]].
      destruct HC2 as [(_ & _ & Hb1 & pe2 & Hp2 & He2)|(Hno & ->)]; [|by exists pe].
      destruct pe as [e|]; [exists pe2; split; [by eapply projected_again|done]|].
      exfalso. destruct Hp as (_ & _ & G & A & _). unfold behind in Hb1. lia.
    + right. destruct HC2 as [(_ & Ht & Hb & _)|(Hno2 & ->)]; [by destruct Hno|]. split; [|done].
      intros (_ & Ht & Hb). by apply Hno.
Qed.

Lemma wp_project_all h n t ids joined now :
  node_ok n ->
  wp h (project_all cipher sanitizedError t ids joined now) n (fun r n' =>
    node_ok n' /\ same_restored n n' /\ keys_grow (nd_db n) (nd_db n') /\
    (is_Some joined -> exists e, r = inl e) /\
    (h = true -> swept t ids (nd_db n) (nd_db n') r /\ (reliable -> joined = None -> r = inr tt))).
Proof.
  revert n joined. induction ids as [|id ids IH]; intros n joined Hn; cbn [project_all].
  - assert (Hsw : forall r, swept t [] (nd_db n) (nd_db n) r).
    { intros r. split; [done|]. intros k row Hk. exists row. split; [done|]. right. split; [|done].
      by intros (Hin%elem_of_nil & _). }
    destruct joined as [e|]; wp_step; (split; [done|split; [done|split; [apply keys_grow_refl|]]]).
    + split; [by exists e|]. intros _. by split; [apply Hsw|].
    + split; [by intros [? ?]|]. intros _. by split; [apply Hsw|].
  - wp_step. wp_step. eapply wp_mono; [by apply wp_projectOne|].
    intros r1 n1 (Hn1 & Hr1 & Hg1 & HQ1). eapply wp_mono; [by apply (IH n1)|].
    intros r n2 (Hn2 & Hr2 & Hg2 & Hj & HQ2).
    split; [done|split; [by unfold same_restored in *; congruence|split; [by eapply keys_grow_trans|]]].
    assert (Hj1 : is_Some joined -> exists e, r = inl e).
    { intros [e ->]. apply Hj. unfold join_err. destruct r1; eauto. }
    split; [done|]. intros ->. destruct (HQ1 eq_refl) as (pe & -> & Ha & Hrel1). destruct (HQ2 eq_refl) as [Hsw Hrel2].
    split.
    + eapply swept_cons; [done|done|]. intros [e ->]. apply Hj. unfold join_err. destruct joined; eauto.
    + intros Hrel ->. apply Hrel2; [done|]. by rewrite (Hrel1 Hrel).
Qed.

Definition serving n row : Prop :=
  exists secret, secret_of row secret /\ served (nd_target n) !! ky_ID row = Some (projection_of row secret).

Lemma restorable_spec w t row id :
  keys_ok cipher w -> rows (tenant_virtual_keys w) !! id = Some row ->
  (restorable t row = true <-> ky_TenantID row = t /\ ky_Status row = StatusActive).
Proof.
  intros Hw Hrow. unfold restorable. rewrite !andb_true_iff, !bool_decide_eq_true, Z.eqb_eq.
  pose proof (ko_phase cipher w Hw _ _ Hrow) as Hph. split; [naive_solver|]. intros [-> Hst].
  destruct Hph as [(S & _)|[(S & D & A)|[(S & _)|[(S & _)|(S & _)]]]]; rewrite Hst in S; try done.
Qed.

Lemma wp_restore_row h n row id (Q : error + unit -> Node -> Prop) :
  node_ok n -> rows (tenant_virtual_keys (nd_db n)) !! id = Some row -> ky_Status row = StatusActive ->
  (forall t' r, let n' := mkNode (nd_db n) t' (nd_restored n) in
     node_ok n' -> (reliable -> r = inr tt) -> (r = inr tt -> serving n' row) ->
     (forall k, k <> id -> served t' !! k = served (nd_target n) !! k) -> Q r n') ->
  wp h (restore_row cipher row) n Q.
Proof.
  intros Hn Hrow Hst HQ. assert (Hid : ky_ID row = id) by by apply (ko_key cipher _ (no_keys n Hn)).
  unfold restore_row. wp_step. apply (wp_push h n id row); [done|done|by rewrite Hst|].
  intros t' pe s n' Hn' Hrel Hok Hfr. simpl. destruct pe as [e|]; wp_step; apply HQ; try done.
  - by intros ?%Hrel.
  - intros _. exists s. rewrite Hid. by apply Hok.
Qed.

(** Restoring a list of active keys of the database. *)
Lemma wp_restore_rows h n l (Q : error + list unit -> Node -> Prop) :
  node_ok n ->
  (forall row, row ∈ l -> exists id, rows (tenant_virtual_keys (nd_db n)) !! id = Some row /\ ky_Status row = StatusActive) ->
  (forall t' r, let n' := mkNode (nd_db n) t' (nd_restored n) in
     node_ok n' -> (reliable -> exists us, r = inr us) ->
     (forall us, r = inr us -> forall row, row ∈ l -> serving n' row) -> Q r n') ->
  wp h (mapM (restore_row cipher) l) n Q.
Proof.
  intros Hn Hl HQ.
  apply wp_mapM with (I := fun fin _ n' => exists t', n' = mkNode (nd_db n) t' (nd_restored n) /\ node_ok n' /\
    forall row, row ∈ fin -> serving n' row).
  - exists (nd_target n). destruct n. split; [done|split; [done|]]. by intros row Hin%elem_of_nil.
  - intros fin a rest acc n1 El (t1 & -> & Hn1 & Hs1). simpl in *.
    destruct (Hl a) as (id & Hrow & Hst). { rewrite El. apply elem_of_app. right. left. }
    apply (wp_restore_row h _ a id); [done|done|done|]. simpl. intros t2 r Hn2 Hrel Hok Hfr.
    destruct r as [e|[]].
    + apply HQ; [done| |done]. by intros ?%Hrel.
    + exists t2. split; [done|split; [done|]]. intros row [Hin|Hin%list_elem_of_singleton]%elem_of_app.
      2: { subst row. by apply Hok. }
      destruct (Hs1 row Hin) as (s & Hsec & Hsv). simpl in *.
      destruct (Hl row) as (id2 & Hrow2 & _). { rewrite El. apply elem_of_app. by left. }
      pose proof (ko_key cipher _ (no_keys n Hn) _ _ Hrow2) as Hid2.
      destruct (decide (id2 = id)) as [->|Hne].
      * assert (row = a) as -> by congruence. by apply Hok.
      * exists s. split; [done|]. simpl. rewrite Hfr; [done|by rewrite Hid2].
  - intros acc n1 (t1 & -> & Hn1 & Hs1). apply HQ; [done|by eexists|done].
Qed.

Lemma wp_restoreTenantOnce h n t :
  node_ok n ->
  wp h (restoreTenantOnce cipher t) n (fun r n' =>
    node_ok n' /\ nd_db n' = nd_db n /\ nd_restored n ⊆ nd_restored n' /\
    (r = inr tt -> t ∈ nd_restored n') /\
    (h = true -> t ∈ nd_restored n \/ reliable -> r = inr tt)).
Proof.
  intros Hn.
  enough (Hwp : wp h (if bool_decide (t ∈ nd_restored n) then mret tt else
    l ← wrapping "virtualkey: load active tenant snapshot: %w" (find node_keys (restorable t));
    mapM (restore_row cipher) (merge_sort key_id_asc l);;
    effect (fun n => (tt, mkNode (nd_db n) (nd_target n) ({[t]} ∪ nd_restored n)))) n (fun r n' =>
    node_ok n' /\ nd_db n' = nd_db n /\ nd_restored n ⊆ nd_restored n' /\
    (r = inr tt -> t ∈ nd_restored n') /\
    (h = true -> t ∈ nd_restored n \/ reliable -> r = inr tt))) by exact Hwp.
  wp_step; bools; [by wp_step|].
  wp_step. wp_step. apply wp_find.
  { intros -> msg. by split_and!. }
  set (l := where_ _ _). wp_step.
  assert (Hl : forall row, row ∈ merge_sort key_id_asc l <->
    exists id, rows (tenant_virtual_keys (nd_db n)) !! id = Some row /\ ky_TenantID row = t /\ ky_Status row = StatusActive).
  { intros row. rewrite merge_sort_Permutation. unfold l. rewrite elem_of_where. simpl.
    split; intros (id & Hrow & HP); exists id; (split; [done|]);
      by apply (restorable_spec _ t row id (no_keys n Hn) Hrow). }
  apply wp_restore_rows; [done| |].
  { intros row (id & ? & _ & ?)%Hl. by exists id. }
  intros t' r n' Hn' Hrel Hok. destruct r as [e|us].
  { split_and!; try done. intros _ [?|(us & ?)%Hrel]; done. }
  wp_step. split; [|split_and!; try done; set_solver].
  split; [apply Hn'|apply Hn'|]. simpl. intros id row Hrow Hst [Hin%elem_of_singleton|Hin]%elem_of_union.
  2: { by apply (no_active n' Hn'). }
  assert (Hid : ky_ID row = id) by by apply (ko_key cipher _ (no_keys n Hn)).
  rewrite <-Hid. apply (Hok us eq_refl). apply Hl. by exists id.
Qed.

Lemma dirty_spec t row : dirty t row = true <-> ky_TenantID row = t /\ behind row.
Proof. unfold dirty, behind. by rewrite andb_true_iff, bool_decide_eq_true, Z.ltb_lt. Qed.

(** Every key of the tenant that was behind has been attempted. *)
Definition converged (t : string) w w' (r : error + unit) : Prop :=
  forall k row, rows (tenant_virtual_keys w) !! k = Some row ->
    exists row', rows (tenant_virtual_keys w') !! k = Some row' /\
      if bool_decide (ky_TenantID row = t) && bool_decide (behind row)
      then exists pe, projected row row' pe /\ (is_Some pe -> exists e, r = inl e)
      else row' = row.

Lemma wp_ProjectTenant h n t g now :
  node_ok n ->
  wp h (ProjectTenant cipher sanitizedError t g now) n (fun r n' =>
    node_ok n' /\ keys_grow (nd_db n) (nd_db n') /\
    (r = inr tt -> t ∈ nd_restored n') /\
    (h = true -> is_empty t = false -> g <> 0 -> t ∈ nd_restored n \/ reliable ->
       t ∈ nd_restored n' /\ converged t (nd_db n) (nd_db n') r /\ (reliable -> r = inr tt))).
Proof.
  intros Hn. unfold ProjectTenant. wp_step.
  { wp_step. split_and!; [done|apply keys_grow_refl|done|]. intros _ Ht Hg. rewrite Ht in E. simpl in E. bools. done. }
  clear E. wp_step. eapply wp_mono; [by apply wp_restoreTenantOnce|].
  intros r1 n1 (Hn1 & Edb & Hsub & Hin & Hr1). destruct r1 as [e|[]].
  { rewrite Edb. split_and!; [done|apply keys_grow_refl|done|]. intros Hh _ _ Hor. by specialize (Hr1 Hh Hor). }
  specialize (Hin eq_refl). wp_step. wp_step. apply wp_find.
  { intros -> msg. rewrite Edb. split_and!; [done|apply keys_grow_refl|done|done]. }
  eapply wp_mono; [by apply wp_project_all|]. rewrite <-Edb.
  intros r n2 (Hn2 & Hr2 & Hg2 & _ & HQ2). split; [done|split; [done|]].
  assert (Ht2 : t ∈ nd_restored n2) by (by unfold same_restored in Hr2; rewrite Hr2).
  split; [done|]. intros Hh _ _ _. split; [done|]. destruct (HQ2 Hh) as [Hsw Hrel]. split; [|by intros; apply Hrel].
  intros k row Hrow. destruct Hsw as [_ Hsw]. destruct (Hsw _ _ Hrow) as (row' & E' & HC).
  exists row'. split; [done|].
  destruct HC as [(_ & Ht & Hb & HP)|(Hno & ->)]; [by rewrite !bool_decide_eq_true_2|].
  destruct (bool_decide (ky_TenantID row = t)) eqn:E1; [|done].
  destruct (bool_decide (behind row)) eqn:E2; [|done]. bools. exfalso. apply Hno. split; [|done].
  assert (Hid : ky_ID row = k) by by apply (ko_key cipher _ (no_keys n1 Hn1)).
  apply list_elem_of_fmap. exists row. split; [done|]. rewrite merge_sort_Permutation. apply elem_of_where.
  exists k. split; [done|]. by apply dirty_spec.
Qed.

(** ** Calls on a node

    The callers of CreateTx, RevokeTx and RetryTx run them in a transaction. *)
Inductive node_call :=
| CallCreate (t name : string) (idr secr nr : error + string) (stamp now : Z)
| CallRevoke (t keyID : string) (stamp now : Z)
| CallRetry (t keyID : string) (stamp now : Z)
| CallProject (t : string) (generation now : Z).

Definition run_node (c : node_call) : M Node unit :=
  match c with
  | CallCreate t name idr secr nr stamp now =>
      zoom db_f (transaction (CreateTx cipher t name idr secr nr stamp now));; mret tt
  | CallRevoke t keyID stamp now => zoom db_f (transaction (RevokeTx t keyID stamp now));; mret tt
  | CallRetry t keyID stamp now => zoom db_f (transaction (RetryTx t keyID stamp now));; mret tt
  | CallProject t g now => ProjectTenant cipher sanitizedError t g now
  end.

Definition call_ok (c : node_call) : Prop :=
  match c with CallCreate _ _ _ _ nr _ _ => full_nonce nr | _ => True end.

(** A call with any outcome, or a restart of the process, whose target then
    serves some of what it served, or nothing. *)
Inductive node_step : Node -> Node -> Prop :=
| node_step_call c r n n' : call_ok c -> outcome (run_node c) n r n' -> node_step n n'
| node_step_restart n t' : served t' ⊆ served (nd_target n) -> node_step n (mkNode (nd_db n) t' ∅).

Lemma node_ok_mutated n w' id row row' m :
  node_ok n -> keys_ok cipher w' -> mutated (nd_db n) w' id row row' m ->
  ky_Status row <> StatusRevoked -> (ky_DesiredState row = DesiredRevoked -> ky_DesiredState row' = DesiredRevoked) ->
  ky_Status row' <> StatusActive -> ky_Status row' <> StatusRevoked ->
  node_ok (mkNode w' (nd_target n) (nd_restored n)) /\ keys_grow (nd_db n) w'.
Proof.
  intros Hn Hw (Hrow & Hs & _ & _ & E & _) Hst Hd Ha Hr.
  assert (Hg : keys_grow (nd_db n) w') by by eapply keys_grow_row.
  split; [|done]. apply node_ok_db; [done..|].
  intros k r. rewrite E, lookup_insert. case_decide; [|done]. intros [= <-] [?|?]; done.
Qed.

Lemma wp_run_node h c n :
  call_ok c -> node_ok n ->
  wp h (run_node c) n (fun _ n' => node_ok n' /\ keys_grow (nd_db n) (nd_db n')).
Proof.
  intros Hc Hn. pose proof (no_keys n Hn) as Hw.
  assert (Hsame : node_ok (mkNode (nd_db n) (nd_target n) (nd_restored n)) /\ keys_grow (nd_db n) (nd_db n))
    by (split; [by destruct n|apply keys_grow_refl]).
  destruct c as [t name idr secr nr stamp now|t k stamp now|t k stamp now|t g now]; simpl run_node.
  - repeat wp_step. eapply wp_mono; [by apply wp_CreateKeyTx|]. intros [e|m] w' HQ; [done|].
    destruct HQ as [Hw' (Hnone & E & _ & _ & Hst & _)].
    split; [done|]. wp_step. assert (Hg : keys_grow (nd_db n) w').
    { intros k r Hr. exists r. split_and!; try done. rewrite E, lookup_insert_ne by congruence. done. }
    split; [|done]. apply node_ok_db; [done..|]. intros k r. rewrite E, lookup_insert.
    case_decide; [|done]. intros [= <-] [S|S]; rewrite Hst in S; done.
  - repeat wp_step. eapply wp_mono; [by apply wp_RevokeTx|]. intros [e|m] w' HQ; [done|]. split; [done|]. wp_step.
    destruct HQ as [[-> _]|(Hw' & row & row' & Hm & _ & S & D & Hne)]; [done|].
    eapply node_ok_mutated; try done; by rewrite S.
  - repeat wp_step. eapply wp_mono; [by apply wp_RetryTx|]. intros [e|m] w' HQ; [done|]. split; [done|]. wp_step.
    destruct HQ as (Hw' & row & row' & Hm & _ & S & D & Hne1 & Hne2).
    eapply node_ok_mutated; try done; [by rewrite S|by rewrite D].
  - eapply wp_mono; [by apply wp_ProjectTenant|]. intros r n' (? & ? & _). done.
Qed.

Lemma node_step_ok n n' : node_step n n' -> node_ok n -> node_ok n' /\ keys_grow (nd_db n) (nd_db n').
Proof.
  intros [c r n0 n1 Hc Ho|n0 t' Ht] Hn.
  - eapply (wp_outcome _ _ (fun _ n' => node_ok n' /\ keys_grow (nd_db n0) (nd_db n'))); [|exact Ho]. by apply wp_run_node.
  - simpl. split; [|apply keys_grow_refl]. split; simpl; [apply Hn|..].
    + intros id p Hp. apply (no_served _ Hn). by eapply lookup_weaken.
    + set_solver.
Qed.

Lemma node_steps_ok n n' : rtc node_step n n' -> node_ok n -> node_ok n' /\ keys_grow (nd_db n) (nd_db n').
Proof.
  induction 1 as [n|n1 n2 n3 Hs _ IH]; intros Hn; [split; [done|apply keys_grow_refl]|].
  destruct (node_step_ok _ _ Hs Hn) as [Hn2 Hg]. destruct (IH Hn2) as [Hn3 Hg'].
  split; [done|by eapply keys_grow_trans].
Qed.

Definition fresh_node n : Prop :=
  rows (tenant_virtual_keys (nd_db n)) = ∅ /\ rows (config_generations (vk_bus (nd_db n))) = ∅ /\
  rows (config_change_outbox (vk_bus (nd_db n))) = ∅ /\ served (nd_target n) = ∅ /\ nd_restored n = ∅.

Lemma fresh_node_ok n : fresh_node n -> node_ok n.
Proof.
  intros (E1 & E2 & E3 & E4 & E5). split.
  - split; [by apply bus_ok_empty|..]; rewrite E1; intros *; by rewrite lookup_empty.
  - intros id p. by rewrite E4, lookup_empty.
  - rewrite E1. intros *. by rewrite lookup_empty.
Qed.

(** C18. The data plane serves exactly what the keys allow, whatever fails and
    in whatever order keys are created, revoked, retried, projected and the
    process restarted: every key it serves is stored, belongs to the tenant and
    name it is served for, carries the secret the store keeps and is not
    revoked; and once a process has restored a tenant, every active key of that
    tenant is served. *)
Theorem data_plane_invariant n0 n :
  fresh_node n0 -> rtc node_step n0 n ->
  (forall id p, served (nd_target n) !! id = Some p ->
     exists row, rows (tenant_virtual_keys (nd_db n)) !! id = Some row /\ pr_ID p = id /\
       pr_TenantID p = ky_TenantID row /\ pr_Name p = ky_Name row /\ secret_of row (pr_Secret p) /\
       ky_Status row <> StatusRevoked) /\
  (forall id row, rows (tenant_virtual_keys (nd_db n)) !! id = Some row -> phase_ok row /\
     (ky_Status row = StatusActive -> ky_TenantID row ∈ nd_restored n -> serving n row)).
Proof.
  intros Hf Hr. destruct (node_steps_ok _ _ Hr (fresh_node_ok _ Hf)) as [Hn _]. split; [apply (no_served n Hn)|].
  intros id row Hrow. split; [by apply (ko_phase cipher _ (no_keys n Hn) id)|]. intros Hst Hin.
  unfold serving. rewrite (ko_key cipher _ (no_keys n Hn) _ _ Hrow). by apply (no_active n Hn).
Qed.

(** C20. Revocation is final: once a key is to be revoked it stays so, and once
    it is revoked no later call, retry, failure or restart changes its row or
    makes the data plane serve it again. *)
Theorem revocation_final n0 n n' id row :
  fresh_node n0 -> rtc node_step n0 n -> rtc node_step n n' ->
  rows (tenant_virtual_keys (nd_db n)) !! id = Some row -> ky_DesiredState row = DesiredRevoked ->
  exists row', rows (tenant_virtual_keys (nd_db n')) !! id = Some row' /\ ky_DesiredState row' = DesiredRevoked /\
    ky_SecretFingerprint row' = ky_SecretFingerprint row /\
    (ky_Status row = StatusRevoked -> row' = row /\ served (nd_target n') !! id = None).
Proof.
  intros Hf Hr Hr' Hrow Hd. destruct (node_steps_ok _ _ Hr (fresh_node_ok _ Hf)) as [Hn _].
  destruct (node_steps_ok _ _ Hr' Hn) as [Hn' Hg]. destruct (Hg _ _ Hrow) as (row' & Hrow' & Hs & Hd' & Hrev).
  exists row'. split_and!; [done|by apply Hd'|apply Hs|]. intros Hst. specialize (Hrev Hst) as ->.
  split; [done|]. apply eq_None_not_Some. intros [p Hp].
  destruct (no_served n' Hn' _ _ Hp) as (r & Hr1 & _ & _ & _ & _ & Hne). rewrite Hrow' in Hr1. by simplify_eq.
Qed.

(** C22. ProjectTenant converges: when the database does not fail and the tenant
    is restored (or the target works), one pass attempts every key of the tenant
    that is behind, one key's failure leaving the others alone; it answers with
    an error when an attempt failed, a failed key being marked so; and with a
    target that works it succeeds, every key of the tenant is at its desired
    state, the active ones served and the revoked ones not. *)
Theorem projection_converges n t g now :
  node_ok n -> is_empty t = false -> g <> 0 -> t ∈ nd_restored n \/ reliable ->
  exists r n', runs (ProjectTenant cipher sanitizedError t g now) n r n' /\
    converged t (nd_db n) (nd_db n') r /\
    (reliable -> r = inr tt /\
       forall id row', rows (tenant_virtual_keys (nd_db n')) !! id = Some row' -> ky_TenantID row' = t ->
         is_Some (rows (tenant_virtual_keys (nd_db n)) !! id) ->
         ky_AppliedGeneration row' = ky_DesiredGeneration row' /\
         (ky_DesiredState row' = DesiredActive -> ky_Status row' = StatusActive /\ serving n' row') /\
         (ky_DesiredState row' = DesiredRevoked -> served (nd_target n') !! id = None)).
Proof.
  intros Hn Ht Hg Hor. destruct (wp_runs _ _ _ (wp_ProjectTenant true n t g now Hn)) as (r & n' & Hrun & Hn' & Hgrow & _ & HQ).
  destruct (HQ eq_refl Ht Hg Hor) as (Hin & Hconv & Hrel). exists r, n'. split; [done|split; [done|]].
  intros Hrl. specialize (Hrel Hrl) as ->. split; [done|]. intros id row' Hrow' Ht' [row Hrow].
  destruct (Hconv _ _ Hrow) as (row2 & Hrow2 & HC). rewrite Hrow' in Hrow2. simplify_eq.
  pose proof (ko_phase cipher _ (no_keys n' Hn') _ _ Hrow') as Hph.
  pose proof (ko_phase cipher _ (no_keys n Hn) _ _ Hrow) as Hph0.
  assert (Hgen : ky_AppliedGeneration row2 = ky_DesiredGeneration row2).
  { destruct (bool_decide (ky_TenantID row = ky_TenantID row2)) eqn:E1; simpl in HC; bools.
    2: { subst row. done. }
    destruct (bool_decide (behind row)) eqn:E2; bools.
    - destruct HC as (pe & (_ & _ & G & HP) & He). destruct pe as [e|]; [by destruct (He ltac:(by eexists))|].
      destruct HP as [A _]. congruence.
    - subst row2. unfold behind in E2. unfold phase_ok in Hph0. lia. }
  split; [done|]. split.
  - intros Hd. assert (Hst : ky_Status row2 = StatusActive).
    { destruct Hph as [(S & D & A)|[(S & D & A)|[(S & D & A)|[(S & D & A)|(S & D & A)]]]]; try lia; [done|].
      rewrite Hd in D. done. }
    split; [done|]. unfold serving. rewrite (ko_key cipher _ (no_keys n' Hn') _ _ Hrow'). by apply (no_active n' Hn').
  - intros Hd. assert (Hst : ky_Status row2 = StatusRevoked).
    { destruct Hph as [(S & D & A)|[(S & D & A)|[(S & D & A)|[(S & D & A)|(S & D & A)]]]]; try lia; [|done].
      rewrite Hd in D. done. }
    apply eq_None_not_Some. intros [p Hp].
    destruct (no_served n' Hn' _ _ Hp) as (r & Hr1 & _ & _ & _ & _ & Hne). rewrite Hrow' in Hr1. by simplify_eq.
Qed.

End DataPlane.

(** ** Creating and revealing *)
Section Reveal.
  Context `{Sql} `{Sha256} `{Aead}.
  Variable cipher : Cipher.

(** What CreateTx returns once can be revealed to its tenant only: when the
    database does not fail, creating a key for an existing tenant under a free
    name and identifier succeeds with a pending key, RevealTx then answers the
    tenant with that key and the very secret returned, every other tenant with
    ErrKeyNotFound, and after RevokeTx the tenant itself with
    ErrKeyUnavailable. *)
Theorem create_reveal_roundtrip w t name idr secr nr stamp now m w1 :
  keys_ok cipher w -> full_nonce nr ->
  runs (CreateTx cipher t name idr secr nr stamp now) w (inr m) w1 ->
  let id := ky_ID (mu_Key m) in
  runs (RevealTx cipher t id) w1 (inr (mu_Key m, mu_Secret m)) w1 /\
  (forall t', t' <> t -> is_empty t' = false -> runs (RevealTx cipher t' id) w1 (inl ErrKeyNotFound) w1) /\
  (forall stamp' now' m2 w2, runs (RevokeTx t id stamp' now') w1 (inr m2) w2 ->
     runs (RevealTx cipher t id) w2 (inl ErrKeyUnavailable) w2).
Proof.
  intros Hw Hn Hrun id. 
  assert (Hc : keys_ok cipher w1 /\ created cipher w w1 t name m).
  { pose proof (wp_CreateKeyTx cipher false w t name idr secr nr stamp now Hw Hn) as Hwp.
    apply (wp_outcome _ _ _ (inr m) w1) in Hwp; [done|]. by exists [], []. }
  destruct Hc as (Hw1 & Hnone & E & Et & En & Est & Ed & Eb & Eid & Hte & Hdec).
  assert (Hrow : rows (tenant_virtual_keys w1) !! trim_space id = Some (mu_Key m)).
  { unfold id. rewrite <-Eid, E. apply lookup_insert_eq. }
  split_and!.
  - apply (wp_runs_eq (RevealTx cipher t id) w1). unfold RevealTx. wp_step.
    apply (wp_load_key cipher); [done|congruence|done| |].
    + intros _ Hno. by destruct (Hno _ Hrow).
    + intros row _ Hr _. rewrite Hrow in Hr. simplify_eq. rewrite Ed, Est. simpl. wp_step. wp_step.
      rewrite Hdec. simpl. wp_step. by wp_step.
  - intros t' Hne Ht'. apply wp_runs_eq. unfold RevealTx. wp_step.
    apply (wp_load_key cipher); [done|congruence|done|done|].
    intros row _ Hr Htr. rewrite Hrow in Hr. simplify_eq.
  - intros stamp' now' m2 w2 Hrev.
    assert (HQ := wp_outcome _ _ _ _ _ (wp_RevokeTx cipher false w1 t id stamp' now' Hw1) (ex_intro _ [] (ex_intro _ [] Hrev))).
    simpl in HQ. destruct HQ as [(-> & r & _ & Hr & _ & Hd)|(Hw2 & row & row' & (Hr & Hs & _ & _ & E2 & _) & Ht & Hst & Hd & _)].
    { rewrite Hrow in Hr. simplify_eq. by rewrite Ed in Hd. }
    assert (Hrow2 : rows (tenant_virtual_keys w2) !! trim_space id = Some row') by (rewrite E2; apply lookup_insert_eq).
    assert (Ht2 : ky_TenantID row' = t) by (destruct Hs as (_ & -> & _); done).
    apply wp_runs_eq. unfold RevealTx. wp_step.
    apply (wp_load_key cipher); [done|congruence|done| |].
    + intros _ Hno. by destruct (Hno _ Hrow2).
    + intros r _ Hr2 _. rewrite Hrow2 in Hr2. injection Hr2 as <-. rewrite Hd. simpl. by wp_step.
Qed.

End Reveal.

(** ** Witnesses *)

(** A target that keeps what it is told. *)
#[refine] Definition toy_target : Target := {|
  tstate := gmap string Projection;
  served := fun s => s;
  Upsert := fun p s => (None, <[pr_ID p := p]> s);
  Delete := fun _ k s => (None, delete k s) |}.
Proof. all: done. Defined.

Definition demo_vk0 : @Node map_sql toy_target :=
  @mkNode map_sql toy_target (@mkVKDB map_sql demo_registry ∅ (@mkBus map_sql ∅ ∅)) ∅ ∅.
Definition demo_run (c : node_call) (n : @Node map_sql toy_target) : @Node map_sql toy_target :=
  after (@run_node map_sql id_sha toy_aead toy_target toy_key (fun _ _ => "failed") c) n.
Definition demo_create : node_call := CallCreate "t1" " ci " (inr "A") (inr "secret") (inr "nn") 5 6.
Definition demo_vk1 : @Node map_sql toy_target := demo_run demo_create demo_vk0.
Definition demo_vk2 : @Node map_sql toy_target := demo_run (CallProject "t1" 1 7) demo_vk1.
Definition demo_vk3 : @Node map_sql toy_target :=
  demo_run (CallProject "t1" 2 9) (demo_run (CallRevoke "t1" "vk_41" 8 8) demo_vk2).
Definition demo_step := @node_step map_sql id_sha toy_aead toy_target toy_key (fun _ _ => "failed").

Lemma demo_run_step c n : @call_ok toy_aead c -> demo_step n (demo_run c n).
Proof. intros Hc. by eapply node_step_call, outcome_after. Qed.

Lemma demo_vk_reach : rtc demo_step demo_vk0 demo_vk2 /\ rtc demo_step demo_vk2 demo_vk3.
Proof.
  split.
  - eapply rtc_l; [apply (demo_run_step demo_create)|apply rtc_once, (demo_run_step (CallProject "t1" 1 7)); exact I].
    by intros n [= <-].
  - eapply rtc_l; [apply (demo_run_step (CallRevoke "t1" "vk_41" 8 8)); exact I|].
    apply rtc_once, (demo_run_step (CallProject "t1" 2 9)). exact I.
Qed.

Definition demo_served : Projection := mkProjection "vk_41" "t1" "ci" ("sk-bf-" +:+ b64_encode "secret") 1.

Lemma data_plane_invariant_witness :
  @served toy_target (nd_target demo_vk2) !! "vk_41" = Some demo_served /\
  exists row, rows (Sql := map_sql) (tenant_virtual_keys (nd_db demo_vk2)) !! "vk_41" = Some row /\
    ky_Name row = "ci" /\ ky_Status row <> StatusRevoked.
Proof.
  assert (Hs : @served toy_target (nd_target demo_vk2) !! "vk_41" = Some demo_served) by (vm_compute; reflexivity).
  split; [exact Hs|].
  destruct (@data_plane_invariant map_sql id_sha toy_aead toy_target toy_key (fun _ _ => "failed") demo_vk0 demo_vk2
    ltac:(by repeat split) (proj1 demo_vk_reach)) as [H1 _].
  destruct (H1 _ _ Hs) as (row & Hr & _ & _ & Hn & _ & Hst). exists row. split; [exact Hr|split; [symmetry; exact Hn|exact Hst]].
Defined.

(** The key once it is revoked and the revocation projected. *)
Definition demo_revoked : option Key := rows (Sql := map_sql) (tenant_virtual_keys (nd_db demo_vk3)) !! "vk_41".

Lemma revocation_final_witness : exists n row,
  rtc demo_step demo_vk3 n /\ demo_revoked = Some row /\ @served toy_target (nd_target n) !! "vk_41" = None.
Proof.
  destruct demo_revoked as [row|] eqn:Hrow; [|exfalso; revert Hrow; vm_compute; discriminate].
  assert (Hst : (fun r => (ky_DesiredState r, ky_Status r)) <$> demo_revoked = Some (DesiredRevoked, StatusRevoked))
    by (vm_compute; reflexivity).
  rewrite Hrow in Hst. injection Hst as Hd Hs.
  exists (demo_run (CallProject "t1" 3 10) demo_vk3), row.
  assert (Hr : rtc demo_step demo_vk3 (demo_run (CallProject "t1" 3 10) demo_vk3)) by (apply rtc_once, demo_run_step; exact I).
  split; [exact Hr|]. split; [reflexivity|].
  destruct (@revocation_final map_sql id_sha toy_aead toy_target toy_key (fun _ _ => "failed") demo_vk0 demo_vk3 _ "vk_41" row
    ltac:(by repeat split) ltac:(etransitivity; [exact (proj1 demo_vk_reach)|exact (proj2 demo_vk_reach)]) Hr Hrow Hd) as (row' & _ & _ & _ & Hf).
  apply (Hf Hs).
Defined.

Lemma demo_vk1_ok : @node_ok map_sql id_sha toy_aead toy_target toy_key demo_vk1.
Proof.
  eapply (@node_steps_ok map_sql id_sha toy_aead toy_target toy_key (fun _ _ => "failed") demo_vk0).
  - apply rtc_once, (demo_run_step demo_create). by intros n [= <-].
  - apply fresh_node_ok. by repeat split.
Qed.

Lemma projection_converges_witness : exists n',
  runs (@ProjectTenant map_sql toy_aead toy_target toy_key (fun _ _ => "failed") "t1" 1 7) demo_vk1 (inr tt) n' /\
  forall row', rows (Sql := map_sql) (tenant_virtual_keys (nd_db n')) !! "vk_41" = Some row' -> ky_TenantID row' = "t1" ->
    ky_AppliedGeneration row' = ky_DesiredGeneration row'.
Proof.
  assert (Hrel : @reliable toy_target) by (by split).
  destruct (@projection_converges map_sql id_sha toy_aead toy_target toy_key (fun _ _ => "failed") demo_vk1 "t1" 1 7 demo_vk1_ok)
    as (r & n' & Hrun & _ & Hall); [reflexivity|discriminate|right; exact Hrel|].
  destruct (Hall Hrel) as [-> Hk]. exists n'. split; [exact Hrun|].
  intros row' Hrow Ht. apply (Hk "vk_41" row' Hrow Ht). vm_compute. by eexists.
Defined.

Definition demo_vkdb : @VKDB map_sql := @mkVKDB map_sql demo_registry ∅ (@mkBus map_sql ∅ ∅).
Definition demo_creation : M (@VKDB map_sql) Mutation :=
  @CreateTx map_sql id_sha toy_aead toy_key "t1" " ci " (inr "A") (inr "secret") (inr "nn") 5 6.

Lemma create_reveal_roundtrip_witness : exists m w1,
  runs demo_creation demo_vkdb (inr m) w1 /\ ky_ID (mu_Key m) = "vk_41" /\
  runs (@RevealTx map_sql toy_aead toy_key "t2" "vk_41") w1 (inl ErrKeyNotFound) w1.
Proof.
  assert (Hm : (fun r => match r with inr m => ky_ID (mu_Key m) | inl _ => "" end) (result demo_creation demo_vkdb) = "vk_41")
    by (vm_compute; reflexivity).
  destruct (result demo_creation demo_vkdb) as [e|m] eqn:Hres; [discriminate Hm|].
  assert (Hrun : runs demo_creation demo_vkdb (inr m) (after demo_creation demo_vkdb)).
  { rewrite <-Hres. unfold runs, result, after. vm_compute. reflexivity. }
  exists m, (after demo_creation demo_vkdb). split; [exact Hrun|split; [exact Hm|]].
  destruct (@create_reveal_roundtrip map_sql id_sha toy_aead toy_key demo_vkdb "t1" " ci " (inr "A") (inr "secret") (inr "nn")
    5 6 m (after demo_creation demo_vkdb)) as (_ & Hother & _).
  - exact (@no_keys map_sql id_sha toy_aead toy_target toy_key demo_vk0
             (@fresh_node_ok map_sql id_sha toy_aead toy_target toy_key demo_vk0 ltac:(by repeat split))).
  - by intros n [= <-].
  - exact Hrun.
  - cbv zeta in Hother. rewrite Hm in Hother. apply Hother; [discriminate|reflexivity].
Defined.
