(* ===== verification/Rbac.v ===== *)
(** * Control-plane authorization (internal/rbac: rbac.go, session.go)

    Principals, roles, permissions and bindings, the decision whether a
    principal may perform an action, and the claims of a session.  A context
    carries at most one principal: the argument [option Principal]. *)
From S2P Require Import Prelude GoStrings Sql Redis Cipher.

Definition PrincipalPlatformAdmin : string := "platform_admin".
Definition PrincipalTenantUser : string := "tenant_user".

Definition ErrUnauthenticated : error := New "rbac: unauthenticated principal".
Definition ErrForbidden : error := New "rbac: permission denied".
Definition ErrTenantMismatch : error := New "rbac: principal tenant mismatch".
Definition ErrInvalidPrincipal : error := New "rbac: invalid principal".

Record Principal := mkPrincipal { p_Type : string; p_ID : string; p_TenantID : string }.

#[export] Instance principal_eq_dec : EqDecision Principal.
Proof. solve_decision. Defined.

Definition Valid (p : Principal) : bool :=
  if blank (p_ID p) then false
  else if bool_decide (p_Type p = PrincipalPlatformAdmin) then is_empty (p_TenantID p)
  else if bool_decide (p_Type p = PrincipalTenantUser) then negb (is_empty (p_TenantID p))
  else false.

Definition WithPrincipal (p : Principal) : error + option Principal :=
  if negb (Valid p) then inl ErrInvalidPrincipal else inr (Some p).

Definition PrincipalFromContext (ctx : option Principal) : option Principal :=
  match ctx with Some p => if Valid p then Some p else None | None => None end.

Definition PermissionTenantRead : string := "tenant.read".
Definition PermissionTenantManage : string := "tenant.manage".
Definition PermissionMemberManage : string := "member.manage".
Definition PermissionKeyManage : string := "key.manage".
Definition PermissionKeyReveal : string := "key.reveal".
Definition PermissionBudgetManage : string := "budget.manage".
Definition PermissionBillingRead : string := "billing.read".
Definition PermissionBillingManage : string := "billing.manage".
Definition PermissionRequestLogRead : string := "request_log.read".
Definition PermissionAuditRead : string := "audit.read".
Definition PermissionAuditExport : string := "audit.export".
Definition PermissionPolicyManage : string := "policy.manage".

Record Role := mkRole {
  ro_ID : string; ro_TenantID : option string; ro_Name : string; ro_Description : string;
  ro_CreatedAt : Z; ro_UpdatedAt : Z }.

Record RolePermission := mkRolePermission { rp_RoleID : string; rp_Permission : string }.

Record RoleBinding := mkRoleBinding {
  rb_RoleID : string; rb_PrincipalType : string; rb_PrincipalID : string;
  rb_TenantID : option string; rb_CreatedAt : Z }.

Definition nullableTenant (id : string) : option string := if is_empty id then None else Some id.

Definition permissionMatches (granted wanted : string) : bool :=
  if bool_decide (granted = wanted) then true
  else if has_suffix granted ".*" then has_prefix wanted (trim_suffix granted "*")
  else false.

Section Rbac.
  Context `{Sql}.

Record RbacDB := mkRbacDB {
  rbac_roles : table string Role;
  rbac_role_permissions : table (string * string) RolePermission;
  rbac_role_bindings : table (string * string * string) RoleBinding }.

Definition roles_f : field RbacDB (table string Role) :=
  Field rbac_roles (fun t w => mkRbacDB t (rbac_role_permissions w) (rbac_role_bindings w)).
Definition permissions_f : field RbacDB (table (string * string) RolePermission) :=
  Field rbac_role_permissions (fun t w => mkRbacDB (rbac_roles w) t (rbac_role_bindings w)).
Definition bindings_f : field RbacDB (table (string * string * string) RoleBinding) :=
  Field rbac_role_bindings (fun t w => mkRbacDB (rbac_roles w) (rbac_role_permissions w) t).

(** The primary keys. *)
Definition same_role (id : string) (r : Role) : bool := bool_decide (ro_ID r = id).
Definition same_permission (roleID permission : string) (r : RolePermission) : bool :=
  bool_decide (rp_RoleID r = roleID) && bool_decide (rp_Permission r = permission).
Definition same_binding (roleID type id : string) (b : RoleBinding) : bool :=
  bool_decide (rb_RoleID b = roleID) && bool_decide (rb_PrincipalType b = type) &&
  bool_decide (rb_PrincipalID b = id).

(** The loop over the permissions of a new role, [seen] those written. *)
Fixpoint add_permissions (roleID : string) (seen permissions : list string) : M RbacDB unit :=
  match permissions with
  | [] => mret tt
  | permission :: rest =>
      if blank permission then throw (New "rbac: permission is required")
      else if bool_decide (permission ∈ seen) then add_permissions roleID seen rest
      else
        wrapping "rbac: create role permission: %w"
          (create permissions_f (same_permission roleID permission) (roleID, permission)
             (mkRolePermission roleID permission));;
        add_permissions roleID (permission :: seen) rest
  end.

Definition CreateRole (role : Role) (permissions : list string) (now : Z) : M RbacDB unit :=
  if blank (ro_ID role) || blank (ro_Name role) then throw (New "rbac: role id and name are required") else
  if match ro_TenantID role with Some t => blank t | None => false end then throw ErrTenantMismatch else
  let role := mkRole (ro_ID role) (ro_TenantID role) (ro_Name role) (ro_Description role) now now in
  transaction (
    wrapping "rbac: create role: %w" (create roles_f (same_role (ro_ID role)) (ro_ID role) role);;
    add_permissions (ro_ID role) [] permissions).

Definition GrantPermission (roleID permission : string) : M RbacDB unit :=
  if blank roleID || blank permission then throw (New "rbac: role id and permission are required") else
  create_or_ignore permissions_f (same_permission roleID permission) (same_permission roleID permission)
    (roleID, permission) (mkRolePermission roleID permission).

Definition BindRole (roleID : string) (principal : Principal) (now : Z) : M RbacDB unit :=
  if blank roleID || negb (Valid principal) then throw ErrInvalidPrincipal else
  role ← wrapping "rbac: role lookup: %w" (take_row roles_f (same_role roleID));
  if (if bool_decide (p_Type principal = PrincipalTenantUser)
      then negb (bool_decide (ro_TenantID role = Some (p_TenantID principal)))
      else bool_decide (ro_TenantID role <> None))
  then throw ErrTenantMismatch else
  create_or_ignore bindings_f (same_binding roleID (p_Type principal) (p_ID principal))
    (same_binding roleID (p_Type principal) (p_ID principal))
    (roleID, p_Type principal, p_ID principal)
    (mkRoleBinding roleID (p_Type principal) (p_ID principal) (nullableTenant (p_TenantID principal)) now).

(** The tenant condition a principal's rows meet: its own tenant, or none. *)
Definition scope_matches (principal : Principal) (t : option string) : bool :=
  if bool_decide (p_Type principal = PrincipalTenantUser)
  then bool_decide (t = Some (p_TenantID principal)) else bool_decide (t = None).

Definition bound_to (principal : Principal) (b : RoleBinding) : bool :=
  bool_decide (rb_PrincipalType b = p_Type principal) && bool_decide (rb_PrincipalID b = p_ID principal) &&
  scope_matches principal (rb_TenantID b).

Definition UnbindRole (roleID : string) (principal : Principal) : M RbacDB unit :=
  if negb (Valid principal) then throw ErrInvalidPrincipal else
  wrapping "rbac: unbind role: %w"
    (delete_where bindings_f (fun b => bool_decide (rb_RoleID b = roleID) && bound_to principal b)).

(** The join of permissions, bindings and roles, each permission once. *)
Definition permissions_join (principal : Principal) (w : RbacDB) : list string :=
  remove_dups (rp_Permission <$> where_ (fun rp =>
    existsb (fun b => bool_decide (rb_RoleID b = rp_RoleID rp) && bound_to principal b)
            (where_ (fun _ => true) (rbac_role_bindings w)) &&
    existsb (fun r => bool_decide (ro_ID r = rp_RoleID rp) && scope_matches principal (ro_TenantID r))
            (where_ (fun _ => true) (rbac_roles w))) (rbac_role_permissions w)).

Definition Permissions (principal : Principal) : M RbacDB (list string) :=
  if negb (Valid principal) then throw ErrInvalidPrincipal else
  wrapping "rbac: list permissions: %w" (sql (fun w => (inr (permissions_join principal w), w))).

Definition Authorize (principal : Principal) (wanted : string) : M RbacDB unit :=
  if negb (Valid principal) then throw ErrUnauthenticated else
  permissions ← Permissions principal;
  if existsb (fun granted => permissionMatches granted wanted) permissions
  then mret tt else throw (Wrap "%w: %s" ErrForbidden).

Definition Require_ (ctx : option Principal) (wanted : string) : M RbacDB unit :=
  match PrincipalFromContext ctx with
  | None => throw ErrUnauthenticated
  | Some p => Authorize p wanted
  end.

End Rbac.

(** ** Session claims *)
Section Claims.
  Context `{Sha256}.

Record SessionClaims := mkSessionClaims {
  sc_SessionID : string; sc_Principal : Principal; sc_CSRFTokenHash : string; sc_ExpiresAt : Z }.

Definition hashToken (token : string) : string := b64_encode (sha256 token).

(** [random] is what the random source yields, [now] the clock. *)
Definition NewSessionClaims (sessionID : string) (principal : Principal) (lifetime : Z)
    (random : error + string) (now : Z) : error + (SessionClaims * string) :=
  if blank sessionID || negb (Valid principal) then inl ErrInvalidPrincipal else
  if lifetime <=? 0 then inl (New "rbac: session lifetime must be positive") else
  match random with
  | inl e => inl e
  | inr buf => let token := b64_encode buf in
      inr (mkSessionClaims sessionID principal (hashToken token) (now + lifetime), token)
  end.

Definition claims_valid (s : SessionClaims) (now : Z) : bool :=
  negb (is_empty (sc_SessionID s)) && Valid (sc_Principal s) && (now <? sc_ExpiresAt s).

Definition VerifyCSRF (s : SessionClaims) (token : string) : bool :=
  if is_empty token || is_empty (sc_CSRFTokenHash s) then false
  else bool_decide (hashToken token = sc_CSRFTokenHash s).

Lemma b64_encode_inj a b : b64_encode a = b64_encode b -> a = b.
Proof. intros E. apply (f_equal b64_decode) in E. rewrite !b64_roundtrip in E. congruence. Qed.

Lemma hashToken_inj a b : hashToken a = hashToken b -> a = b.
Proof. intros E. by apply sha256_inj, b64_encode_inj. Qed.

End Claims.

(** ** What a permission pattern grants *)

(** A granted permission covers a wanted one exactly when they are the same
    or the granted one is a prefix wildcard "p.*" and the wanted one extends
    "p.": "tenant.*" covers "tenant.read" and neither "tenant" nor
    "tenantx.read". *)
Theorem permission_matches_spec granted wanted :
  permissionMatches granted wanted = true <->
  granted = wanted \/ exists p rest, granted = p +:+ ".*" /\ wanted = p +:+ "." +:+ rest.
Proof.
  unfold permissionMatches. case_bool_decide as E; [naive_solver|].
  destruct (has_suffix granted ".*") eqn:Es.
  - apply has_suffix_spec in Es as [p ->].
    assert (Ht : trim_suffix (p +:+ ".*") "*" = p +:+ ".").
    { change ".*" with ("." +:+ "*"). by rewrite <-sapp_assoc, trim_suffix_app. }
    rewrite Ht, has_prefix_spec. split.
    + intros [r ->]. right. exists p, r. by rewrite <-sapp_assoc.
    + intros [?|(p' & rest & Ep & ->)]; [done|]. apply sapp_inj_suffix in Ep as ->.
      exists rest. by rewrite <-sapp_assoc.
  - split; [done|]. intros [?|(p & rest & -> & _)]; [done|].
    assert (Hs : has_suffix (p +:+ ".*") ".*" = true) by (apply has_suffix_spec; by exists p). congruence.
Qed.

(** ** Authorization is what the tables say *)
Section RbacSpec.
  Context `{Sql}.
  Implicit Types (w : RbacDB) (p : Principal).

(** The tenant a principal acts in: a tenant user's own, no tenant else. *)
Definition home_of p : option string :=
  if bool_decide (p_Type p = PrincipalTenantUser) then Some (p_TenantID p) else None.

Lemma scope_matches_home p t : scope_matches p t = true <-> t = home_of p.
Proof. unfold scope_matches, home_of. case_bool_decide; apply bool_decide_eq_true. Qed.

Lemma bound_to_home p b :
  bound_to p b = true <-> rb_PrincipalType b = p_Type p /\ rb_PrincipalID b = p_ID p /\ rb_TenantID b = home_of p.
Proof. unfold bound_to. rewrite !andb_true_iff, !bool_decide_eq_true, scope_matches_home. tauto. Qed.

(** Some role other than those of [but] gives [p] the permission: a role of the
    principal's own tenant that it is bound to in that tenant. *)
Definition grants_but (but : string -> Prop) w p (wanted : string) : Prop :=
  exists b r rp kb kr kp,
    rows (rbac_role_bindings w) !! kb = Some b /\ rows (rbac_roles w) !! kr = Some r /\
    rows (rbac_role_permissions w) !! kp = Some rp /\
    rb_RoleID b = ro_ID r /\ rp_RoleID rp = ro_ID r /\ ~ but (ro_ID r) /\
    (rb_PrincipalType b = p_Type p /\ rb_PrincipalID b = p_ID p /\ rb_TenantID b = home_of p) /\
    ro_TenantID r = home_of p /\
    permissionMatches (rp_Permission rp) wanted = true.

Definition grants w p wanted : Prop := grants_but (fun _ => False) w p wanted.

Lemma existsb_where {K} `{Countable K} {R} (q : R -> bool) (t : table K R) :
  existsb q (where_ (fun _ => true) t) = true <-> exists k r, rows t !! k = Some r /\ q r = true.
Proof.
  rewrite existsb_exists. split.
  - intros (r & Hin%list_elem_of_In & Hq). apply elem_of_where in Hin as (k & Hk & _). eauto.
  - intros (k & r & Hk & Hq). exists r. split; [|done]. apply list_elem_of_In, elem_of_where. eauto.
Qed.

Lemma permissions_join_grants w p wanted :
  existsb (fun g => permissionMatches g wanted) (permissions_join p w) = true <-> grants w p wanted.
Proof.
  rewrite existsb_exists. unfold permissions_join, grants, grants_but. split.
  - intros (g & Hin%list_elem_of_In & Hm). apply elem_of_remove_dups, list_elem_of_fmap in Hin as (rp & -> & Hrp).
    apply elem_of_where in Hrp as (kp & Hkp & Hq). apply andb_true_iff in Hq as [H1 H2].
    apply existsb_where in H1 as (kb & b & Hkb & Hb). apply existsb_where in H2 as (kr & r & Hkr & Hr).
    apply andb_true_iff in Hb as [Eb Hb%bound_to_home], Hr as [Er Hr%scope_matches_home]. bools.
    exists b, r, rp, kb, kr, kp. split_and!; try done; try apply Hb; congruence.
  - intros (b & r & rp & kb & kr & kp & Hkb & Hkr & Hkp & E1 & E2 & _ & Hb%bound_to_home & Hr%scope_matches_home & Hm).
    exists (rp_Permission rp). split; [|done]. apply list_elem_of_In, elem_of_remove_dups, list_elem_of_fmap.
    exists rp. split; [done|]. apply elem_of_where. exists kp. split; [done|].
    apply andb_true_iff; split; apply existsb_where.
    + exists kb, b. split; [done|]. rewrite Hb, bool_decide_eq_true_2; [done|congruence].
    + exists kr, r. split; [done|]. rewrite Hr, bool_decide_eq_true_2; [done|congruence].
Qed.

Lemma wp_Authorize h w p wanted :
  wp h (Authorize p wanted) w (fun r w' => w' = w /\
    (r = inr tt -> Valid p = true /\ grants w p wanted) /\
    (h = true -> Valid p = true -> grants w p wanted -> r = inr tt) /\
    (h = true -> (Valid p = false -> r = inl ErrUnauthenticated) /\
       (Valid p = true -> ~ grants w p wanted -> r = inl (Wrap "%w: %s" ErrForbidden)))).
Proof.
  unfold Authorize. wp_step; bools; [wp_step; intuition congruence|].
  wp_step. unfold Permissions. rewrite E. simpl. wp_step. apply wp_sql; simpl.
  { intros -> msg. intuition congruence. }
  wp_step; wp_step; rewrite <-permissions_join_grants, E0; intuition congruence.
Qed.

(** C36. Authorize decides exactly what the tables say, when the database does
    not fail: an invalid principal is unauthenticated; a valid one is let
    through if and only if it is bound, in its own tenant (a platform
    administrator: in none), to a role of that same tenant that holds a matching
    permission; otherwise it is forbidden.  Nothing is written. *)
Theorem authorize_spec w p wanted :
  match Valid p with
  | false => runs (Authorize p wanted) w (inl ErrUnauthenticated) w
  | true => (grants w p wanted -> runs (Authorize p wanted) w (inr tt) w) /\
            (~ grants w p wanted -> runs (Authorize p wanted) w (inl (Wrap "%w: %s" ErrForbidden)) w)
  end.
Proof.
  destruct (wp_runs _ _ _ (wp_Authorize true w p wanted)) as (r & w' & Hr & -> & _ & H1 & H2).
  destruct (H2 eq_refl) as [H3 H4]. destruct (Valid p) eqn:Ev.
  - split; intros Hg; [by rewrite <-(H1 eq_refl eq_refl Hg)|by rewrite <-(H4 eq_refl Hg)].
  - by rewrite <-(H3 eq_refl).
Qed.

(** Unbinding takes effect at once and takes nothing else away: after
    UnbindRole a principal is granted exactly what its other roles grant it, and
    every other principal what it was granted before. *)
Theorem unbind_revokes w roleID p :
  Valid p = true ->
  exists w', runs (UnbindRole roleID p) w (inr tt) w' /\
    (forall wanted, grants w' p wanted <-> grants_but (fun id => id = roleID) w p wanted) /\
    (forall q wanted, Valid q = true -> q <> p -> grants w' q wanted <-> grants w q wanted).
Proof.
  intros Hv.
  assert (Hwp : wp true (UnbindRole roleID p) w (fun r w' => r = inr tt /\
     w' = mkRbacDB (rbac_roles w) (rbac_role_permissions w)
            (delete_rows (fun b => bool_decide (rb_RoleID b = roleID) && bound_to p b) (rbac_role_bindings w)))).
  { unfold UnbindRole. rewrite Hv. simpl. by repeat wp_step. }
  apply wp_runs in Hwp as (r & w' & Hr & -> & ->). eexists. split; [exact Hr|]. simpl.
  assert (Hrow : forall kb b, rows (delete_rows (fun b => bool_decide (rb_RoleID b = roleID) && bound_to p b) (rbac_role_bindings w)) !! kb = Some b <->
    rows (rbac_role_bindings w) !! kb = Some b /\ ~ (rb_RoleID b = roleID /\ bound_to p b = true)).
  { intros kb b. rewrite lookup_deleted, andb_false_iff, bool_decide_eq_false. destruct (bound_to p b); naive_solver. }
  unfold grants, grants_but; simpl. split.
  - intros wanted. split.
    + intros (b & r & rp & kb & kr & kp & [Hb Hno]%Hrow & Hr' & Hp & E1 & E2 & _ & HB & HS & HM).
      exists b, r, rp, kb, kr, kp. split_and!; try done; try apply HB. intros Hid. apply Hno.
      split; [congruence|by apply bound_to_home].
    + intros (b & r & rp & kb & kr & kp & Hb & Hr' & Hp & E1 & E2 & Hid & HB & HS & HM).
      exists b, r, rp, kb, kr, kp. split_and!; try done; try apply HB; [|tauto]. apply Hrow. split; [done|]. naive_solver congruence.
  - intros q wanted Hq Hne.
    assert (Hother : forall b, bound_to q b = true -> bound_to p b = true -> q = p).
    { intros b Hb1 Hb2. destruct q as [ty i t], p as [ty' i' t']. unfold bound_to, scope_matches, Valid in *. simpl in *.
      apply andb_true_iff in Hb1 as [Hb1 T1], Hb2 as [Hb2 T2].
      apply andb_true_iff in Hb1 as [Ty1 I1], Hb2 as [Ty2 I2]. apply bool_decide_eq_true in Ty1, I1, Ty2, I2.
      rewrite <-Ty1, <-I1 in *. rewrite <-Ty2, <-I2 in *. f_equal. destruct (blank _); [done|].
      repeat case_bool_decide; unfold is_empty in *; bools; try done; congruence. }
    split; intros (b & r & rp & kb & kr & kp & Hb & Hr' & Hp & E1 & E2 & Hid & (B1 & B2 & B3) & HS & HM);
      exists b, r, rp, kb, kr, kp; split_and!; try done.
    + by apply Hrow in Hb as [? _].
    + apply Hrow. split; [done|]. intros [_ Hb2]. apply Hne. by eapply Hother; [apply bound_to_home|].
Qed.

End RbacSpec.

(** ** Witnesses *)
Definition demo_member : Principal := mkPrincipal PrincipalTenantUser "u1" "t1".
Definition demo_rbac_tables : @RbacDB map_sql := @mkRbacDB map_sql
  {["r1" := mkRole "r1" (Some "t1") "owner" "" 1 1]}
  {[("r1", "tenant.*") := mkRolePermission "r1" "tenant.*"]}
  {[("r1", PrincipalTenantUser, "u1") := mkRoleBinding "r1" PrincipalTenantUser "u1" (Some "t1") 1]}.

Lemma unbind_revokes_witness :
  result (@Authorize map_sql demo_member PermissionTenantRead) demo_rbac_tables = inr tt /\
  exists w', runs (@UnbindRole map_sql "r1" demo_member) demo_rbac_tables (inr tt) w' /\
    ~ @grants map_sql w' demo_member PermissionTenantRead.
Proof.
  split; [vm_compute; reflexivity|].
  destruct (@unbind_revokes map_sql demo_rbac_tables "r1" demo_member) as (w' & Hr & Hg & _); [reflexivity|].
  exists w'. split; [exact Hr|]. rewrite Hg. intros (b & r & rp & kb & kr & kp & Hb & _ & _ & E1 & _ & Hid & _).
  assert (Hall : map_Forall (fun _ b => rb_RoleID b = "r1") (rbac_role_bindings demo_rbac_tables : gmap (string * string * string) RoleBinding))
    by (apply (bool_decide_unpack _); vm_compute; exact I).
  apply Hid. specialize (Hall kb b Hb). simpl in *. congruence.
Defined.
