(* ===== verification/Sessions.v ===== *)
(** * Control-plane sessions (internal/authn/session.go)

    Sessions are stored under hashes of their tokens.  The random sources are
    arguments, [stamp] is the clock NewSessionClaims reads and [now] the
    caller's. *)
From S2P Require Import Prelude GoStrings Sql Redis Cipher Rbac.

Definition ErrInvalidSession : error := New "authn: invalid or expired session".

Record Session := mkSession {
  se_ID : string; se_AccessTokenHash : string; se_CSRFTokenHash : string;
  se_PrincipalType : string; se_PrincipalID : string; se_TenantID : option string;
  se_ExpiresAt : Z; se_CreatedAt : Z; se_LastAuthenticated : Z }.

Definition tenantPtr (id : string) : option string := if is_empty id then None else Some id.

Definition randomToken (random : error + string) : error + string :=
  match random with
  | inl e => inl (Wrap "authn: random token: %w" e)
  | inr b => inr (b64_encode b)
  end.

Section Sessions.
  Context `{Sql} `{Sha256}.

Definition tokenHash (value : string) : string := hex_encode (sha256 value).

Lemma tokenHash_inj a b : tokenHash a = tokenHash b -> a = b.
Proof. intros E. by apply sha256_inj, hex_encode_inj. Qed.

Definition SessDB : Type := table string Session.
Definition sessions : field SessDB (table string Session) := whole.

(** The primary key and the unique index on the access token's hash. *)
Definition session_clash (row r : Session) : bool :=
  bool_decide (se_ID r = se_ID row) || bool_decide (se_AccessTokenHash r = se_AccessTokenHash row).

Definition session_row (id access : string) (p : Principal) (claims : SessionClaims) (now : Z) : Session :=
  mkSession id (tokenHash access) (sc_CSRFTokenHash claims) (p_Type p) (p_ID p) (tenantPtr (p_TenantID p))
    (sc_ExpiresAt claims) now now.

Definition CreateSession (p : Principal) (lifetime : Z) (idRand accessRand csrfRand : error + string)
    (stamp now : Z) : M SessDB (string * string * SessionClaims) :=
  if negb (Valid p) || (lifetime <=? 0) then throw ErrInvalidSession else
  id ← of_result (randomToken idRand);
  access ← of_result (randomToken accessRand);
  issued ← of_result (NewSessionClaims id p lifetime csrfRand stamp);
  let '(claims, csrf) := issued in
  let row := session_row id access p claims now in
  wrapping "authn: create session: %w" (create sessions (session_clash row) id row);;
  mret (access, csrf, claims).

(** The principal and claims of a stored session. *)
Definition claims_of (row : Session) : SessionClaims :=
  mkSessionClaims (se_ID row)
    (mkPrincipal (se_PrincipalType row) (se_PrincipalID row)
       (match se_TenantID row with Some t => t | None => EmptyString end))
    (se_CSRFTokenHash row) (se_ExpiresAt row).

Definition touched (now : Z) (r : Session) : Session :=
  mkSession (se_ID r) (se_AccessTokenHash r) (se_CSRFTokenHash r) (se_PrincipalType r) (se_PrincipalID r)
    (se_TenantID r) (se_ExpiresAt r) (se_CreatedAt r) now.

Definition Authenticate (access : string) (now : Z) : M SessDB SessionClaims :=
  if blank access then throw ErrInvalidSession else
  r ← attempt (take_row sessions (fun r => bool_decide (se_AccessTokenHash r = tokenHash access) && (now <? se_ExpiresAt r)));
  match r with
  | inl e => if errors_is e ErrRecordNotFound then throw ErrInvalidSession
             else throw (Wrap "authn: authenticate session: %w" e)
  | inr row =>
      if negb (claims_valid (claims_of row) now) then throw ErrInvalidSession else
      attempt (update sessions (fun r => bool_decide (se_ID r = se_ID row)) (touched now));;
      mret (claims_of row)
  end.

Definition Revoke (access : string) : M SessDB unit :=
  if blank access then throw ErrInvalidSession else
  delete_where sessions (fun r => bool_decide (se_AccessTokenHash r = tokenHash access)).

Definition session_of (p : Principal) (r : Session) : bool :=
  bool_decide (se_PrincipalType r = p_Type p) && bool_decide (se_PrincipalID r = p_ID p) &&
  (if is_empty (p_TenantID p) then bool_decide (se_TenantID r = None)
   else bool_decide (se_TenantID r = Some (p_TenantID p))).

Definition RevokePrincipalTx (p : Principal) : M SessDB unit :=
  if negb (Valid p) then throw ErrInvalidSession else delete_where sessions (session_of p).

Definition DeleteExpired (now : Z) : M SessDB unit :=
  delete_where sessions (fun r => se_ExpiresAt r <=? now).

(** ** The invariant: one session per identifier and per access token *)
Record sessions_ok (w : SessDB) : Prop := {
  so_key : forall k r, rows w !! k = Some r -> se_ID r = k;
  so_token : forall k1 k2 r1 r2, rows w !! k1 = Some r1 -> rows w !! k2 = Some r2 ->
    se_AccessTokenHash r1 = se_AccessTokenHash r2 -> k1 = k2;
  so_tenant : forall k r, rows w !! k = Some r -> se_TenantID r <> Some EmptyString }.

Definition stored (w : SessDB) (access : string) (r : Session) : Prop :=
  exists k, rows w !! k = Some r /\ se_AccessTokenHash r = tokenHash access.

Lemma sessions_ok_deleted w p : sessions_ok w -> sessions_ok (delete_rows p w).
Proof.
  intros Hw. split.
  - intros k r [Hr _]%lookup_deleted. by apply (so_key w Hw).
  - intros k1 k2 r1 r2 [H1' _]%lookup_deleted [H2' _]%lookup_deleted. by apply (so_token w Hw).
  - intros k r [Hr _]%lookup_deleted. by apply (so_tenant w Hw k).
Qed.

Lemma sessions_ok_touched w p now : sessions_ok w -> sessions_ok (update_rows p (touched now) w).
Proof.
  intros Hw. assert (Hin : forall k r, rows (update_rows p (touched now) w) !! k = Some r ->
    exists r0, rows w !! k = Some r0 /\ se_ID r = se_ID r0 /\ se_AccessTokenHash r = se_AccessTokenHash r0 /\
      se_TenantID r = se_TenantID r0).
  { intros k r. rewrite rows_update, lookup_fmap. destruct (rows w !! k) as [r0|]; [|done].
    simpl. intros [= <-]. exists r0. by destruct (p r0). }
  split.
  - intros k r (r0 & Hr & -> & _)%Hin. by apply (so_key w Hw).
  - intros k1 k2 r1 r2 (a & Ha & _ & -> & _)%Hin (b & Hb & _ & -> & _)%Hin. by apply (so_token w Hw).
  - intros k r (r0 & Hr & _ & _ & ->)%Hin. by apply (so_tenant w Hw k).
Qed.

Lemma wp_CreateSession h w p lifetime idr ar cr stamp now :
  sessions_ok w ->
  wp h (CreateSession p lifetime idr ar cr stamp now) w (fun r w' => match r with
    | inl _ => w' = w
    | inr (access, csrf, claims) => sessions_ok w' /\ Valid p = true /\ 0 < lifetime /\
        rows w !! sc_SessionID claims = None /\
        rows w' = <[sc_SessionID claims := session_row (sc_SessionID claims) access p claims now]> (rows w) /\
        sc_Principal claims = p /\ sc_CSRFTokenHash claims = hashToken csrf /\ sc_ExpiresAt claims = stamp + lifetime /\
        blank (sc_SessionID claims) = false /\ (exists b, ar = inr b /\ access = b64_encode b) /\
        (exists b, cr = inr b /\ csrf = b64_encode b)
    end).
Proof.
  intros Hw. unfold CreateSession. wp_step; [by wp_step|]. bools.
  destruct idr as [?|ib]; cbn [randomToken of_result]; [by repeat wp_step|]. wp_step. wp_step.
  destruct ar as [?|ab]; cbn [randomToken of_result]; [by repeat wp_step|]. wp_step. wp_step.
  unfold NewSessionClaims. destruct (blank (b64_encode ib)) eqn:Eb; [by repeat wp_step|].
  match goal with E : Valid p = true |- _ => rewrite E end. rewrite (proj2 (Z.leb_gt _ _)) by lia. simpl.
  destruct cr as [?|cb]; cbn [of_result]; [by repeat wp_step|]. repeat wp_step; [done|done|].
  intros Hclash. wp_step. set (row := session_row _ _ _ _ _) in *.
  assert (Hnone : rows w !! b64_encode ib = None).
  { apply eq_None_not_Some. intros [r Hr]. specialize (Hclash _ _ Hr). unfold session_clash in Hclash. bools.
    by rewrite (so_key w Hw _ _ Hr) in *. }
  split; [|split_and!; try done; [by rewrite rows_insert|by exists ab|by exists cb]].
  split.
  - intros k r. rewrite rows_insert, lookup_insert. case_decide; [intros [= <-]; done|]. apply (so_key w Hw).
  - assert (Hfresh : forall k r, rows w !! k = Some r -> se_AccessTokenHash r <> se_AccessTokenHash row).
    { intros k r Hr. specialize (Hclash _ _ Hr). unfold session_clash in Hclash. bools. done. }
    intros k1 k2 r1 r2. rewrite !rows_insert, !lookup_insert.
    repeat case_decide; intros E1 E2 E3; simplify_eq; try done.
    + by destruct (Hfresh _ _ E2).
    + by destruct (Hfresh _ _ E1).
    + by eapply (so_token w Hw).
  - intros k r. rewrite rows_insert, lookup_insert. case_decide; [|by apply (so_tenant w Hw)].
    intros [= <-]. simpl. unfold tenantPtr. destruct (is_empty (p_TenantID p)) eqn:Et; [done|].
    unfold is_empty in Et. bools. congruence.
Qed.

Lemma wp_Authenticate h w access now :
  sessions_ok w ->
  wp h (Authenticate access now) w (fun r w' => sessions_ok w' /\ match r with
    | inl e => h = true -> e = ErrInvalidSession /\ w' = w /\
        (blank access = true \/ forall row, stored w access row -> claims_valid (claims_of row) now = false)
    | inr c => exists row, stored w access row /\ c = claims_of row /\ claims_valid c now = true /\
        (h = true -> rows w' = <[se_ID row := touched now row]> (rows w))
    end).
Proof.
  intros Hw. unfold Authenticate. wp_step.
  { wp_step. split; [done|]. intros _. split_and!; [done..|by left]. }
  repeat wp_step.
  - intros -> msg. wp_step. by split.
  - intros Hno. wp_step. split; [done|]. intros _. split_and!; [done..|]. right.
    intros row (k & Hr & Ht). specialize (Hno _ _ Hr). rewrite bool_decide_eq_true_2 in Hno by done.
    unfold claims_valid. simpl in *. by rewrite Hno, andb_false_r.
  - intros k row Hr Hp. bools. wp_step; bools.
    + wp_step. split; [done|]. intros _. split_and!; [done..|]. right. intros r2 (k2 & Hr2 & Ht2).
      assert (k2 = k) as -> by (eapply (so_token w Hw); [done|done|congruence]). rewrite Hr in Hr2. by simplify_eq.
    + repeat wp_step.
      * intros -> msg. wp_step. split; [done|]. exists row. split_and!; try done. by exists k.
      * split; [by apply sessions_ok_touched|]. exists row. split_and!; try done; [by exists k|].
        intros _. pose proof (so_key w Hw _ _ Hr) as Hk. apply rows_update_unique.
        -- by rewrite Hk.
        -- by apply bool_decide_eq_true_2.
        -- intros k' r' Hr' E'. bools. by rewrite <-(so_key w Hw _ _ Hr').
Qed.

(** A session opens with the token it was given to the caller under, until
    it expires: when CreateSession commits, its access token authenticates at
    every instant before the expiry with exactly the claims returned, whose CSRF
    check accepts the CSRF token returned and no other; from the expiry on, and
    with any token no stored session was created with, Authenticate answers
    ErrInvalidSession. *)
Theorem session_roundtrip w p lifetime idr ar cr stamp now access csrf claims w1 :
  sessions_ok w -> outcome (CreateSession p lifetime idr ar cr stamp now) w (inr (access, csrf, claims)) w1 ->
  blank access = false -> is_empty (hashToken csrf) = false -> is_empty csrf = false ->
  (forall t, t < stamp + lifetime -> exists w2, runs (Authenticate access t) w1 (inr claims) w2) /\
  (forall t, stamp + lifetime <= t -> runs (Authenticate access t) w1 (inl ErrInvalidSession) w1) /\
  (forall token, VerifyCSRF claims token = bool_decide (token = csrf)) /\
  (forall other t, other <> access -> (forall row, ~ stored w other row) ->
     runs (Authenticate other t) w1 (inl ErrInvalidSession) w1).
Proof.
  intros Hw Hout Hba Hhash Hcsrf. apply (wp_outcome _ _ _ _ _ (wp_CreateSession false w p lifetime idr ar cr stamp now Hw)) in Hout.
  destruct Hout as (Hw1 & Hv & Hl & Hnone & E & Hp & Hh & Hexp & Hid & _ & _).
  set (row := session_row (sc_SessionID claims) access p claims now) in *.
  assert (Hrow : stored w1 access row) by (exists (sc_SessionID claims); by rewrite E, lookup_insert_eq).
  assert (Hclaims : claims_of row = claims).
  { destruct claims as [i q hh ex]. unfold claims_of, row, session_row; simpl in *. subst q. f_equal.
    destruct p as [ty pid t]. unfold tenantPtr. simpl. f_equal. destruct (is_empty t) eqn:Et; [|done].
    unfold is_empty in Et. by bools. }
  assert (Hvalid : forall t, claims_valid claims t = (t <? stamp + lifetime)).
  { intros t. unfold claims_valid. rewrite Hp, Hv, Hexp. unfold blank in Hid.
    destruct (is_empty (sc_SessionID claims)) eqn:Ee; [|done]. unfold is_empty in Ee. bools. by rewrite Ee in Hid. }
  assert (Huniq : forall r, stored w1 access r -> r = row).
  { intros r (k & Hr & Ht). destruct Hrow as (k0 & Hr0 & Ht0).
    assert (k = k0) as -> by (eapply (so_token w1 Hw1); [done|done|congruence]). congruence. }
  assert (Hno : forall token t, blank token = true \/ (forall r, stored w1 token r -> claims_valid (claims_of r) t = false) ->
     runs (Authenticate token t) w1 (inl ErrInvalidSession) w1).
  { intros token t Hn. destruct (wp_runs _ _ _ (wp_Authenticate true w1 token t Hw1)) as (r & w2 & Hr & _ & HQ).
    destruct r as [e|c]; [destruct (HQ eq_refl) as (-> & -> & _); done|].
    destruct HQ as (r & Hs & -> & Hc & _). destruct Hn as [Hn|Hn]; [|by rewrite Hn in Hc].
    unfold runs, Authenticate in Hr. by rewrite Hn in Hr. }
  split_and!.
  - intros t Ht. destruct (wp_runs _ _ _ (wp_Authenticate true w1 access t Hw1)) as (r & w2 & Hr & _ & HQ).
    exists w2. destruct r as [e|c].
    + destruct (HQ eq_refl) as (_ & _ & [?|Hall]); [congruence|]. specialize (Hall _ Hrow).
      rewrite Hclaims, Hvalid in Hall. bools. lia.
    + destruct HQ as (r & Hs & -> & _). by rewrite (Huniq r Hs), Hclaims in Hr.
  - intros t Ht. apply Hno. right. intros r Hs. rewrite (Huniq r Hs), Hclaims, Hvalid. apply Z.ltb_ge. lia.
  - intros token. unfold VerifyCSRF. rewrite Hh, Hhash, orb_false_r.
    destruct (decide (token = csrf)) as [->|Hne].
    + rewrite Hcsrf. by rewrite !bool_decide_eq_true_2.
    + rewrite (bool_decide_eq_false_2 (token = csrf)) by done. destruct (is_empty token); [done|].
      apply bool_decide_eq_false_2. intros E2%hashToken_inj. done.
  - intros other t Hne Hnew. apply Hno. right. intros r (k & Hr & Ht). rewrite E, lookup_insert in Hr.
    case_decide; [|by destruct (Hnew r); exists k]. simplify_eq. simpl in Ht. apply tokenHash_inj in Ht. congruence.
Qed.

Lemma session_of_claims w p k r :
  sessions_ok w -> rows w !! k = Some r -> session_of p r = true <-> sc_Principal (claims_of r) = p.
Proof.
  intros Hw Hr. pose proof (so_tenant w Hw _ _ Hr) as Ht. unfold session_of, claims_of; simpl.
  rewrite !andb_true_iff, !bool_decide_eq_true. destruct p as [ty i t]; simpl. unfold is_empty.
  case_bool_decide as Ee; rewrite bool_decide_eq_true.
  - subst t. split; [by intros [[-> ->] ->]|]. intros [= -> -> E]. destruct (se_TenantID r); [|done].
    by rewrite E in Ht.
  - split; [by intros [[-> ->] ->]|]. intros [= -> -> E]. destruct (se_TenantID r); [by rewrite E|].
    congruence.
Qed.

(** Revoking a principal's sessions is complete and exact: afterwards no
    token opens a session of that principal, and every other session is kept
    as it was. *)
Theorem principal_revoked w p :
  sessions_ok w -> Valid p = true ->
  exists w', runs (RevokePrincipalTx p) w (inr tt) w' /\
    (forall k r, rows w' !! k = Some r <-> rows w !! k = Some r /\ sc_Principal (claims_of r) <> p) /\
    (forall access now c w2, outcome (Authenticate access now) w' (inr c) w2 -> sc_Principal c <> p).
Proof.
  intros Hw Hv. assert (Hwp : wp true (RevokePrincipalTx p) w (fun r w' => r = inr tt /\ w' = delete_rows (session_of p) w)).
  { unfold RevokePrincipalTx. rewrite Hv. simpl. by repeat wp_step. }
  apply wp_runs in Hwp as (r & w' & Hr & -> & ->). eexists. split; [exact Hr|].
  assert (Hrows : forall k r, rows (delete_rows (session_of p) w) !! k = Some r <->
    rows w !! k = Some r /\ sc_Principal (claims_of r) <> p).
  { intros k r. rewrite lookup_deleted. split; intros [Hk HE]; (split; [done|]).
    - intros E. apply (session_of_claims w p k r Hw Hk) in E. congruence.
    - apply not_true_iff_false. intros E. by apply (session_of_claims w p k r Hw Hk) in E. }
  split; [exact Hrows|]. intros access now c w2 Hout.
  apply (wp_outcome _ _ _ _ _ (wp_Authenticate false _ access now (sessions_ok_deleted _ _ Hw))) in Hout.
  destruct Hout as (_ & row & (k & Hk & _) & -> & _). by apply Hrows in Hk as [_ ?].
Qed.

End Sessions.

(** ** Witnesses *)
Definition demo_user : Principal := mkPrincipal PrincipalTenantUser "mem_1" "t1".
Definition demo_login : M (@SessDB map_sql) (string * string * SessionClaims) :=
  @CreateSession map_sql id_sha demo_user 100 (inr "id0") (inr "acc") (inr "csr") 10 10.
Definition demo_sessions : @SessDB map_sql := after demo_login ∅.

Lemma empty_sessions_ok : @sessions_ok map_sql ∅.
Proof.
  assert (E : forall k, rows (Sql := map_sql) (∅ : gmap string Session) !! k = None) by (intros k; apply lookup_empty).
  split; intros *; by rewrite E.
Qed.

Lemma session_roundtrip_witness : exists c w2,
  result demo_login ∅ = inr (b64_encode "acc", b64_encode "csr", c) /\
  runs (@Authenticate map_sql id_sha (b64_encode "acc") 50) demo_sessions (inr c) w2.
Proof.
  destruct (result demo_login ∅) as [e|[[a cs] c]] eqn:E; [exfalso; revert E; vm_compute; discriminate|].
  assert (Hv : (a, cs) = (b64_encode "acc", b64_encode "csr")).
  { assert (Hx : (fun r => match r with inr (a, cs, _) => (a, cs) | inl _ => (EmptyString, EmptyString) end) (result demo_login ∅)
      = (b64_encode "acc", b64_encode "csr")) by (vm_compute; reflexivity). by rewrite E in Hx. }
  pose proof (f_equal fst Hv) as Ha. pose proof (f_equal snd Hv) as Hc. cbn [fst snd] in Ha, Hc. clear Hv. subst a cs.
  assert (Hout : outcome demo_login ∅ (inr (b64_encode "acc", b64_encode "csr", c)) demo_sessions).
  { rewrite <-E. apply outcome_after. }
  destruct (@session_roundtrip map_sql id_sha ∅ demo_user 100 (inr "id0") (inr "acc") (inr "csr") 10 10 _ _ c demo_sessions
    empty_sessions_ok Hout) as [H1 _]; [reflexivity..|].
  destruct (H1 50) as [w2 Hr]; [reflexivity|]. exists c, w2. split; [reflexivity|exact Hr].
Defined.

Lemma principal_revoked_witness : exists w',
  runs (@RevokePrincipalTx map_sql demo_user) demo_sessions (inr tt) w' /\
  forall k, rows (Sql := map_sql) w' !! k = None.
Proof.
  assert (Hok : @sessions_ok map_sql demo_sessions).
  { assert (Ho : outcome demo_login ∅ (result demo_login ∅) demo_sessions) by apply outcome_after.
    apply (wp_outcome _ _ _ _ _ (@wp_CreateSession map_sql id_sha false ∅ demo_user 100 (inr "id0") (inr "acc") (inr "csr") 10 10
      empty_sessions_ok)) in Ho. destruct (result demo_login ∅) as [e|[[a cs] c]]; [rewrite Ho; apply empty_sessions_ok|apply Ho]. }
  destruct (@principal_revoked map_sql id_sha demo_sessions demo_user Hok) as (w' & Hr & Hrows & _); [reflexivity|].
  exists w'. split; [exact Hr|]. intros k. destruct (rows (Sql := map_sql) w' !! k) as [r|] eqn:E; [exfalso|reflexivity].
  apply Hrows in E as [E Hne]. apply Hne.
  assert (Hall : map_Forall (fun _ r => sc_Principal (claims_of r) = demo_user) (demo_sessions : gmap string Session))
    by (apply (bool_decide_unpack _); vm_compute; exact I).
  exact (Hall k r E).
Defined.
