(* ===== verification/AuditLog.v ===== *)
(** * Audit events and the redaction of their snapshots (internal/audit/audit.go)

    The JSON codec of the standard library is an interface: what it decodes is
    canonical, and a canonical value is decoded back from its encoding.  A
    snapshot argument is absent, or the outcome of marshalling it. *)
From S2P Require Import Prelude GoStrings Sql Rbac Sessions.

Definition ErrInvalidEntry : error := New "audit: invalid entry".

Record Entry := mkEntry {
  en_ID : string; en_PrincipalType : string; en_PrincipalID : string; en_TenantID : option string;
  en_Action : string; en_ResourceType : string; en_ResourceID : string;
  en_BeforeJSON : string; en_AfterJSON : string; en_SourceIP : string; en_RequestID : string; en_CreatedAt : Z }.

Definition snapshot : Type := option (error + string).

Record Input := mkInput {
  in_Principal : Principal; in_TenantID : string; in_Action : string; in_ResourceType : string;
  in_ResourceID : string; in_Before : snapshot; in_After : snapshot; in_SourceIP : string; in_RequestID : string }.

(** ** JSON values *)
Inductive json :=
| JNull
| JBool (b : bool)
| JNum (n : string)
| JStr (s : string)
| JArr (l : list json)
| JObj (l : list (string * json)).

(** The keys of a Go map as [json.Marshal] writes them: sorted, hence distinct. *)
Fixpoint sorted_keys (l : list string) : bool :=
  match l with
  | a :: (b :: _) as rest => String.ltb a b && sorted_keys rest
  | _ => true
  end.

(** A value as [json.Unmarshal] makes it: [text_ok] tells valid UTF-8 and
    [number_ok] the texts of float64 values. *)
Fixpoint canonical_with (text_ok number_ok : string -> bool) (v : json) : bool :=
  match v with
  | JNull | JBool _ => true
  | JNum n => number_ok n
  | JStr s => text_ok s
  | JArr l => forallb (canonical_with text_ok number_ok) l
  | JObj l => sorted_keys (fst <$> l) && forallb text_ok (fst <$> l) &&
              forallb (fun kv => canonical_with text_ok number_ok kv.2) l
  end.

Class GoJson := {
  Unmarshal : string -> error + json;
  Marshal : json -> string;
  text_ok : string -> bool;
  number_ok : string -> bool;
  text_ok_ascii : forall s, is_ascii s = true -> text_ok s = true;
  unmarshal_canonical : forall raw v, Unmarshal raw = inr v -> canonical_with text_ok number_ok v = true;
  unmarshal_marshal : forall v, canonical_with text_ok number_ok v = true -> Unmarshal (Marshal v) = inr v }.

(** ** Which keys are sensitive *)
Section Sensitive.
  Context `{GoUnicode}.

Definition sensitiveFragments : list string :=
  ["key"; "token"; "secret"; "password"; "passwd"; "authorization"; "credential"; "private"].

Definition sensitiveExact : list string :=
  ["apikey"; "accesskey"; "privatekey"; "secretkey"; "clientsecret"; "authorization"; "credential"].

(** [strings.NewReplacer("-", "", "_", "", " ", "")] *)
Fixpoint drop_separators (s : string) : string :=
  match s with
  | EmptyString => EmptyString
  | String c s' => if bool_decide (c = "-"%char) || bool_decide (c = "_"%char) || bool_decide (c = " "%char)
                   then drop_separators s' else String c (drop_separators s')
  end.

Definition sensitiveKey (key : string) : bool :=
  let lower := to_lower (trim_space key) in
  if bool_decide (lower = "key") || has_suffix lower "_key" || has_suffix lower "-key" then true else
  let normalized := drop_separators lower in
  if existsb (fun fragment => negb (bool_decide (fragment = "key")) &&
                (bool_decide (normalized = fragment) || has_suffix normalized fragment)) sensitiveFragments
  then true
  else existsb (fun exact => bool_decide (normalized = exact)) sensitiveExact.

Definition redacted : json := JStr "[REDACTED]".

Fixpoint redactValue (v : json) (force : bool) : json :=
  match v with
  | JObj l => JObj ((fix go (l : list (string * json)) : list (string * json) :=
      match l with
      | [] => []
      | (key, value) :: rest => (key, redactValue value (force || sensitiveKey key)) :: go rest
      end) l)
  | JArr l => JArr ((fix go (l : list json) : list json :=
      match l with [] => [] | value :: rest => redactValue value force :: go rest end) l)
  | leaf => if force then redacted else leaf
  end.

Section Json.
  Context `{GoJson}.

(** The empty text stands for the nil slice. *)
Definition RedactJSON (raw : string) : error + string :=
  if is_empty raw || bool_decide (raw = "null") then inr EmptyString else
  match Unmarshal raw with
  | inl e => inl e
  | inr value => inr (Marshal (redactValue value false))
  end.

Definition redactSnapshot (v : snapshot) : error + string :=
  match v with
  | None => inr EmptyString
  | Some (inl e) => inl e
  | Some (inr raw) => RedactJSON raw
  end.

(** ** The store *)
Section Store.
  Context `{Sql}.

Definition AuditDB : Type := table string Entry.
Definition entries : field AuditDB (table string Entry) := whole.

Definition newID (random : error + string) : error + string :=
  match random with inl e => inl e | inr b => inr (hex_encode b) end.

(** The tenant an event is filed under. *)
Definition scope_tenant (input : Input) : error + string :=
  let p := in_Principal input in
  if bool_decide (p_Type p = PrincipalTenantUser)
  then if negb (is_empty (in_TenantID input)) && negb (bool_decide (in_TenantID input = p_TenantID p))
       then inl ErrInvalidEntry else inr (p_TenantID p)
  else inr (in_TenantID input).

Definition AppendTx (input : Input) (random : error + string) (now : Z) : M AuditDB Entry :=
  let p := in_Principal input in
  if negb (Valid p) || blank (in_Action input) || blank (in_ResourceType input) || blank (in_ResourceID input)
  then throw ErrInvalidEntry else
  scope ← of_result (scope_tenant input);
  before ← wrapping "audit: redact before: %w" (of_result (redactSnapshot (in_Before input)));
  after ← wrapping "audit: redact after: %w" (of_result (redactSnapshot (in_After input)));
  id ← wrapping "audit: id: %w" (of_result (newID random));
  let e := mkEntry id (p_Type p) (p_ID p) (tenantPtr scope) (in_Action input) (in_ResourceType input)
             (in_ResourceID input) before after (in_SourceIP input) (in_RequestID input) now in
  wrapping "audit: append: %w" (create entries (fun r => bool_decide (en_ID r = id)) id e);;
  mret e.

Definition Append (input : Input) (random : error + string) (now : Z) : M AuditDB Entry :=
  transaction (AppendTx input random now).

Definition entry_newest (a b : Entry) : Prop := en_CreatedAt b <= en_CreatedAt a.
#[global] Instance entry_newest_dec : RelDecision entry_newest.
Proof. intros a b. unfold entry_newest. apply _. Defined.

Definition audit_limit (limit : Z) : nat := Z.to_nat (if (limit <=? 0) || (1000 <? limit) then 100 else limit).

Definition ListTenant (tenantID : string) (limit : Z) : M AuditDB (list Entry) :=
  if is_empty tenantID then throw ErrInvalidEntry else
  l ← wrapping "audit: list tenant: %w" (find entries (fun r => bool_decide (en_TenantID r = Some tenantID)));
  mret (take (audit_limit limit) (merge_sort entry_newest l)).

Definition ListPlatform (limit : Z) : M AuditDB (list Entry) :=
  l ← wrapping "audit: list platform: %w" (find entries (fun _ => true));
  mret (take (audit_limit limit) (merge_sort entry_newest l)).

End Store.
End Json.

(** ** What redaction does *)

(** Induction over JSON values. *)
Lemma json_nested_ind (P : json -> Prop) :
  P JNull -> (forall b, P (JBool b)) -> (forall n, P (JNum n)) -> (forall s, P (JStr s)) ->
  (forall l, Forall P l -> P (JArr l)) -> (forall l, Forall (fun kv => P kv.2) l -> P (JObj l)) -> forall v, P v.
Proof.
  intros Pn Pb Pnum Ps Pa Po. fix IH 1. intros [|b|n|s|l|l]; [apply Pn|apply Pb|apply Pnum|apply Ps| |].
  - apply Pa. induction l as [|v l IHl]; constructor; [apply IH|exact IHl].
  - apply Po. induction l as [|[k v] l IHl]; constructor; [apply IH|exact IHl].
Qed.

Lemma redact_arr l force : redactValue (JArr l) force = JArr ((fun v => redactValue v force) <$> l).
Proof. reflexivity. Qed.

Lemma redact_obj l force :
  redactValue (JObj l) force = JObj ((fun kv => (kv.1, redactValue kv.2 (force || sensitiveKey kv.1))) <$> l).
Proof. simpl. f_equal. induction l as [|[k v] l IH]; [done|]. by rewrite fmap_cons, <-IH. Qed.

(** A place in a value: the keys and positions that lead to it. *)
Inductive place := PKey (i : nat) (key : string) | PIndex (i : nat).

Definition is_leaf (v : json) : bool :=
  match v with JArr _ | JObj _ => false | _ => true end.

Fixpoint at_place (v : json) (path : list place) : option json :=
  match path with
  | [] => Some v
  | PIndex i :: rest => match v with JArr l => match l !! i with Some x => at_place x rest | None => None end | _ => None end
  | PKey i key :: rest =>
      match v with
      | JObj l => match l !! i with
                  | Some (k, x) => if bool_decide (k = key) then at_place x rest else None
                  | None => None end
      | _ => None
      end
  end.

Definition below_sensitive (path : list place) : bool :=
  existsb (fun p => match p with PKey _ key => sensitiveKey key | PIndex _ => false end) path.

Lemma redact_at path : forall v force,
  at_place (redactValue v force) path =
  match at_place v path with
  | Some x => Some (redactValue x (force || below_sensitive path))
  | None => None
  end.
Proof.
  induction path as [|p path IH]; intros v force; [simpl; by rewrite orb_false_r|].
  destruct p as [i key|i]; destruct v as [|b|n|s|l|l]; cbn [at_place below_sensitive existsb]; try by destruct force.
  - rewrite redact_obj, list_lookup_fmap. destruct (l !! i) as [[k x]|]; [|done]. simpl.
    case_bool_decide as Ek; [|done]. subst k. rewrite IH. by rewrite orb_assoc.
  - rewrite redact_arr, list_lookup_fmap. destruct (l !! i) as [x|]; [|done]. simpl. apply IH.
Qed.

(** Redaction is complete and exact: the redacted value has the same
    places; whatever scalar stands below a sensitive key, at any depth and
    through any arrays, is replaced by "[REDACTED]", and every other scalar is
    kept as it was; redacting again changes nothing. *)
Theorem redaction_exact v path :
  (match at_place v path with
   | Some x => exists y, at_place (redactValue v false) path = Some y /\
       if is_leaf x then y = if below_sensitive path then redacted else x else is_leaf y = false
   | None => at_place (redactValue v false) path = None
   end) /\ redactValue (redactValue v false) false = redactValue v false.
Proof.
  split.
  - rewrite redact_at. destruct (at_place v path) as [x|]; [|done]. eexists. split; [done|].
    by destruct x, (below_sensitive path).
  - assert (Hid : forall v f, redactValue (redactValue v f) f = redactValue v f); [|apply Hid].
    clear. intros v. induction v as [|b|n|s|l Hl|l Hl] using json_nested_ind; intros f; try by destruct f.
    + rewrite !redact_arr, <-list_fmap_compose. f_equal. induction Hl as [|x l Hx _ IH]; [done|].
      rewrite !fmap_cons, IH. f_equal. apply Hx.
    + rewrite !redact_obj, <-list_fmap_compose. f_equal. induction Hl as [|[k x] l Hx _ IH]; [done|].
      rewrite !fmap_cons, IH. f_equal. simpl. f_equal. apply Hx.
Qed.

(** ** What an event records *)
Section Appended.
  Context `{GoJson} `{Sql}.

(** A stored snapshot decodes to the redaction of what was given. *)
Definition snapshot_of (given : snapshot) (stored : string) : Prop :=
  match given with
  | None => stored = EmptyString
  | Some (inl _) => False
  | Some (inr raw) =>
      if is_empty raw || bool_decide (raw = "null") then stored = EmptyString
      else exists v, Unmarshal raw = inr v /\ Unmarshal stored = inr (redactValue v false)
  end.

Lemma canonical_redact v : forall force,
  canonical_with text_ok number_ok v = true -> canonical_with text_ok number_ok (redactValue v force) = true.
Proof.
  assert (Hr : canonical_with text_ok number_ok redacted = true) by (by apply text_ok_ascii).
  induction v as [|b|n|s|l Hl|l Hl] using json_nested_ind; intros force; try by destruct force.
  - rewrite redact_arr. cbn [canonical_with]. rewrite !forallb_forall. intros Hc x [y [-> Hy]]%list_elem_of_In%list_elem_of_fmap.
    rewrite Forall_forall in Hl. by apply Hl, Hc, list_elem_of_In.
  - rewrite redact_obj. cbn [canonical_with]. rewrite <-list_fmap_compose. intros [Hk Hc]%andb_true_iff.
    apply andb_true_iff. split; [exact Hk|]. rewrite forallb_forall in Hc |- *.
    intros x [[k y] [-> Hy]]%list_elem_of_In%list_elem_of_fmap. simpl. rewrite Forall_forall in Hl.
    apply (Hl _ Hy). apply (Hc (k, y)). by apply list_elem_of_In.
Qed.

Lemma redactSnapshot_of given stored : redactSnapshot given = inr stored -> snapshot_of given stored.
Proof.
  unfold redactSnapshot, snapshot_of, RedactJSON. destruct given as [[e|raw]|]; [done| |by intros [= <-]].
  destruct (_ || _); [by intros [= <-]|]. destruct (Unmarshal raw) as [e|v] eqn:Eu; [done|]. intros [= <-].
  exists v. split; [done|]. by eapply unmarshal_marshal, canonical_redact, unmarshal_canonical.
Qed.

(** [e] was added for [input] at [now]: filed under a tenant user's own tenant,
    the input's facts as given, the snapshots redacted, under a new identifier. *)
Definition appended (w w' : AuditDB) (input : Input) (now : Z) (e : Entry) : Prop :=
  (p_Type (in_Principal input) = PrincipalTenantUser ->
     en_TenantID e = tenantPtr (p_TenantID (in_Principal input)) /\
     (in_TenantID input = EmptyString \/ in_TenantID input = p_TenantID (in_Principal input))) /\
  (p_Type (in_Principal input) <> PrincipalTenantUser -> en_TenantID e = tenantPtr (in_TenantID input)) /\
  (en_PrincipalType e, en_PrincipalID e, en_Action e, en_ResourceType e, en_ResourceID e) =
    (p_Type (in_Principal input), p_ID (in_Principal input), in_Action input, in_ResourceType input, in_ResourceID input) /\
  (en_SourceIP e, en_RequestID e, en_CreatedAt e) = (in_SourceIP input, in_RequestID input, now) /\
  snapshot_of (in_Before input) (en_BeforeJSON e) /\ snapshot_of (in_After input) (en_AfterJSON e) /\
  (forall k r, rows w !! k = Some r -> en_ID r <> en_ID e) /\
  rows w' = <[en_ID e := e]> (rows w).

Lemma wp_AppendTx h w input random now :
  wp h (AppendTx input random now) w (fun r w' => match r with
    | inl _ => w' = w
    | inr e => Valid (in_Principal input) = true /\ appended w w' input now e
    end).
Proof.
  unfold AppendTx. wp_step; [by wp_step|]. bools. wp_step.
  destruct (scope_tenant input) as [e|scope] eqn:Es; simpl; [by wp_step|]. wp_step. repeat wp_step.
  destruct (redactSnapshot (in_Before input)) as [e|before] eqn:Eb; simpl; [by wp_step|]. repeat wp_step.
  destruct (redactSnapshot (in_After input)) as [e|after] eqn:Ea; simpl; [by wp_step|]. repeat wp_step.
  destruct (newID random) as [e|id] eqn:Ei; simpl; [by wp_step|]. repeat wp_step; [done|done|].
  intros Hclash. split; [done|]. unfold appended. split_and!; simpl; try done.
  - intros Hty. unfold scope_tenant in Es. rewrite bool_decide_eq_true_2 in Es by done.
    destruct (negb (is_empty (in_TenantID input)) && _) eqn:E1; [done|]. injection Es as <-. split; [done|].
    apply andb_false_iff in E1 as [E1|E1]; unfold is_empty in E1; bools; [by left|by right].
  - intros Hty. unfold scope_tenant in Es. rewrite bool_decide_eq_false_2 in Es by done. by injection Es as <-.
  - by apply redactSnapshot_of.
  - by apply redactSnapshot_of.
  - intros k r Hr E1. specialize (Hclash _ _ Hr). by rewrite bool_decide_eq_true_2 in Hclash.
  - by rewrite rows_insert.
Qed.

Lemma wp_Append h w input random now :
  wp h (Append input random now) w (fun r w' => match r with
    | inl _ => w' = w
    | inr e => Valid (in_Principal input) = true /\ appended w w' input now e
    end).
Proof.
  unfold Append. wp_step. eapply wp_mono; [apply wp_AppendTx|]. intros [e|e] w'; [done|]. intros Ha. by split.
Qed.

(** C37. The audit log is append-only and filed under the right tenant: whatever
    fails, Append either changes nothing or adds one event under a new
    identifier, by a valid principal whose type, identifier and action it
    records; a tenant user's event is filed under that user's tenant, and an
    event it tries to file under another is refused; the stored snapshots decode
    to the redactions of those given. *)
Theorem audit_append_only w input random now r w' :
  outcome (Append input random now) w r w' ->
  (forall k e, rows w !! k = Some e -> en_ID e = k) ->
  (forall k e, rows w !! k = Some e -> rows w' !! k = Some e) /\
  match r with
  | inl _ => w' = w
  | inr e => Valid (in_Principal input) = true /\ rows w !! en_ID e = None /\ rows w' !! en_ID e = Some e /\
      (forall k, k <> en_ID e -> rows w' !! k = rows w !! k) /\
      (p_Type (in_Principal input) = PrincipalTenantUser ->
         en_TenantID e = Some (p_TenantID (in_Principal input)) /\
         (in_TenantID input = EmptyString \/ in_TenantID input = p_TenantID (in_Principal input))) /\
      (en_PrincipalType e, en_PrincipalID e, en_Action e) =
        (p_Type (in_Principal input), p_ID (in_Principal input), in_Action input) /\
      snapshot_of (in_Before input) (en_BeforeJSON e) /\ snapshot_of (in_After input) (en_AfterJSON e)
  end.
Proof.
  intros Hout Hkey. apply (wp_outcome _ _ _ _ _ (wp_Append false w input random now)) in Hout.
  destruct r as [er|e]; [by subst w'|]. destruct Hout as (Hv & Ht & _ & Hf & _ & Hb & Ha & Hfresh & E).
  assert (Hnone : rows w !! en_ID e = None).
  { apply eq_None_not_Some. intros [r Hr]. apply (Hfresh _ _ Hr). by apply Hkey. }
  split.
  - intros k r Hr. rewrite E, lookup_insert_ne; [done|]. intros <-. congruence.
  - split_and!; try done; [by rewrite E, lookup_insert_eq|by intros k Hk; rewrite E, lookup_insert_ne| |congruence].
    intros Hty. destruct (Ht Hty) as [-> Ho]. split; [|done].
    unfold Valid in Hv. rewrite Hty in Hv. destruct (blank _); [done|].
    rewrite bool_decide_eq_false_2, bool_decide_eq_true_2 in Hv by done. bools. unfold tenantPtr. by rewrite Hv.
Qed.

End Appended.
End Sensitive.

(** The camel-case name of a credential may pass unredacted. *)
Lemma camel_case_gap :
  @sensitiveKey ascii_unicode "secret_access_key" = true /\ @sensitiveKey ascii_unicode "secretAccessKey" = false.
Proof. split; reflexivity. Qed.

(** ** A codec that obeys the law: values as trees, trees as numbers in binary *)
Fixpoint tree_of (v : json) : gen_tree (nat * string) :=
  match v with
  | JNull => GenLeaf (0%nat, EmptyString)
  | JBool b => GenLeaf (if b then 1%nat else 2%nat, EmptyString)
  | JNum n => GenLeaf (3%nat, n)
  | JStr s => GenLeaf (4%nat, s)
  | JArr l => GenNode 0 (tree_of <$> l)
  | JObj l => GenNode 1 ((fun kv => GenNode 0 [GenLeaf (0%nat, kv.1); tree_of kv.2]) <$> l)
  end.

Fixpoint of_tree (t : gen_tree (nat * string)) : json :=
  match t with
  | GenLeaf (0%nat, _) => JNull
  | GenLeaf (1%nat, _) => JBool true
  | GenLeaf (2%nat, _) => JBool false
  | GenLeaf (3%nat, n) => JNum n
  | GenLeaf (_, s) => JStr s
  | GenNode 0%nat l => JArr (of_tree <$> l)
  | GenNode _ l => JObj ((fun t => match t with
                           | GenNode _ [GenLeaf (_, k); x] => (k, of_tree x)
                           | _ => (EmptyString, JNull) end) <$> l)
  end.

Lemma of_tree_of v : of_tree (tree_of v) = v.
Proof.
  induction v as [|[]|n|s|l Hl|l Hl] using json_nested_ind; try done; cbn [tree_of of_tree]; f_equal;
    rewrite <-list_fmap_compose.
  - induction Hl as [|x l Hx _ IH]; [done|]. rewrite fmap_cons, IH. f_equal. exact Hx.
  - induction Hl as [|[k x] l Hx _ IH]; [done|]. rewrite fmap_cons, IH. f_equal. simpl in *. by rewrite Hx.
Qed.

Fixpoint binary (p : positive) : string :=
  match p with xH => EmptyString | xO p => String "0" (binary p) | xI p => String "1" (binary p) end.
Fixpoint unbinary (s : string) : positive :=
  match s with EmptyString => xH | String c s => if bool_decide (c = "0"%char) then xO (unbinary s) else xI (unbinary s) end.

Lemma unbinary_binary p : unbinary (binary p) = p.
Proof. induction p as [p IH|p IH|]; simpl; [by rewrite IH..|done]. Qed.

#[refine] Definition toy_json : GoJson := {|
  Unmarshal := fun s => match decode (unbinary s) with
    | Some t => if canonical_with (fun _ => true) (fun _ => true) (of_tree t) then inr (of_tree t) else inl (New "invalid")
    | None => inl (New "invalid") end;
  Marshal := fun v => binary (encode (tree_of v)); text_ok := fun _ => true; number_ok := fun _ => true |}.
Proof.
  - done.
  - intros raw v. destruct (decode _) as [t|]; [|done]. destruct (canonical_with _ _ _) eqn:E; [|done]. by intros [= <-].
  - intros v Hv. by rewrite unbinary_binary, decode_encode, of_tree_of, Hv.
Defined.

(** ** Witness *)
Definition demo_before : json := JObj [("api_key", JArr [JStr "sk-1"]); ("name", JStr "ci")].
Definition demo_input : Input :=
  mkInput demo_user EmptyString "key.create" "virtual_key" "vk_1" (Some (inr (@Marshal toy_json demo_before))) None "::1" "r1".
Definition demo_append : M (@AuditDB map_sql) Entry := @Append ascii_unicode toy_json map_sql demo_input (inr "A") 7.

Lemma audit_append_only_witness : exists e,
  result demo_append ∅ = inr e /\ en_TenantID e = Some "t1" /\
  rows (Sql := map_sql) (after demo_append ∅) !! en_ID e = Some e.
Proof.
  destruct (result demo_append ∅) as [er|e] eqn:E; [exfalso; revert E; vm_compute; discriminate|].
  assert (Hout : outcome demo_append ∅ (inr e) (after demo_append ∅)) by (rewrite <-E; apply outcome_after).
  destruct (@audit_append_only ascii_unicode toy_json map_sql ∅ demo_input (inr "A") 7 (inr e) _ Hout) as (_ & _ & _ & Hr & _ & Ht & _).
  { intros k e0. change ((∅ : gmap string Entry) !! k = Some e0 -> en_ID e0 = k). by rewrite lookup_empty. }
  exists e. split; [reflexivity|]. split; [apply Ht; reflexivity|exact Hr].
Defined.
