(* ===== verification/Portal.v ===== *)
(** * The tenant portal's boundary (internal/portal: routes.go, service.go)

    The guard of a route, and the operations a tenant user reaches, each of
    which takes its tenant from the authenticated principal only. *)
From S2P Require Import Prelude GoStrings Sql Redis Lifecycle Billing Ledger Plans Rbac Sessions AuditLog.

Definition ErrRouteDenied : error := New "portal: route denied".
Definition ErrPortalTenantRequired : error := New "portal: tenant principal required".

Definition MethodGet : string := "GET".
Definition MethodHead : string := "HEAD".
Definition MethodOptions : string := "OPTIONS".

Definition adminPermission (method path : string) : string :=
  if contains path "/audit" then
    if bool_decide (method = MethodGet) then PermissionAuditRead else PermissionAuditExport
  else if contains path "/tenants" then
    if bool_decide (method = MethodGet) then PermissionTenantRead else PermissionTenantManage
  else if contains path "/billing" then
    if bool_decide (method = MethodGet) then PermissionBillingRead else PermissionBillingManage
  else if contains path "/policy" then PermissionPolicyManage
  else EmptyString.

Definition portalPermission (method path : string) : string :=
  if contains path "/request-logs" || (contains path "/usage/" && has_suffix path "/detail") then
    if bool_decide (method = MethodGet) then PermissionRequestLogRead else EmptyString
  else if contains path "/audit" then PermissionAuditRead
  else if contains path "/usage" || contains path "/billing" then
    if bool_decide (method = MethodGet) then PermissionBillingRead else PermissionBillingManage
  else if contains path "/budget" || contains path "/rate-limit" then PermissionBudgetManage
  else if contains path "/members" then PermissionMemberManage
  else if contains path "/keys" then PermissionKeyManage
  else EmptyString.

(** The permission a route asks of a principal; [None]: the route is not theirs. *)
Definition route_permission (method path : string) (p : Principal) : option string :=
  if has_prefix path "/api/admin/" && bool_decide (p_Type p = PrincipalPlatformAdmin)
  then Some (adminPermission method path)
  else if has_prefix path "/api/portal/" && bool_decide (p_Type p = PrincipalTenantUser)
  then Some (portalPermission method path)
  else None.

Definition mutating (method : string) : bool :=
  negb (bool_decide (method = MethodGet)) && negb (bool_decide (method = MethodHead)) &&
  negb (bool_decide (method = MethodOptions)).

Section Portal.
  Context `{Sql} `{Sha256}.

Definition AuthorizeRoute (method path : string) (claims : SessionClaims) (csrfToken : string) (now : Z)
    : M RbacDB unit :=
  if negb (claims_valid claims now) || blank path then throw ErrRouteDenied else
  match route_permission method path (sc_Principal claims) with
  | None => throw ErrRouteDenied
  | Some permission =>
      if is_empty permission then throw ErrRouteDenied else
      match WithPrincipal (sc_Principal claims) with
      | inl _ => throw ErrRouteDenied
      | inr ctx =>
          Require_ ctx permission;;
          if mutating method && negb (VerifyCSRF claims csrfToken) then throw ErrForbidden else mret tt
      end
  end.

(** ** The service *)
Record PortalDB := mkPortalDB { pt_rbac : RbacDB; pt_billing : Billing; pt_audit : AuditDB }.

Definition rbac_f : field PortalDB RbacDB := Field pt_rbac (fun x w => mkPortalDB x (pt_billing w) (pt_audit w)).
Definition billing_f : field PortalDB Billing := Field pt_billing (fun x w => mkPortalDB (pt_rbac w) x (pt_audit w)).
Definition audit_f : field PortalDB AuditDB := Field pt_audit (fun x w => mkPortalDB (pt_rbac w) (pt_billing w) x).

Definition tenantPrincipal (p : Principal) (permission : string) : M PortalDB string :=
  if negb (Valid p) || negb (bool_decide (p_Type p = PrincipalTenantUser)) || is_empty (p_TenantID p)
  then throw ErrPortalTenantRequired else
  zoom rbac_f (Authorize p permission);;
  mret (p_TenantID p).

Definition PortalUsage (p : Principal) (from to limit : Z) : M PortalDB (list UsageEvent) :=
  tid ← tenantPrincipal p PermissionBillingRead;
  zoom billing_f (ListUsage tid from to limit).

Definition PortalAudit (p : Principal) (limit : Z) : M PortalDB (list Entry) :=
  tid ← tenantPrincipal p PermissionAuditRead;
  zoom audit_f (ListTenant tid limit).

Definition ReserveBudget (p : Principal) (key : string) (amount now : Z) : M PortalDB Reservation :=
  tid ← tenantPrincipal p PermissionBudgetManage;
  zoom billing_f (Reserve tid key amount now).

Definition SetPlan (p : Principal) (planID : string) (starts : Z) : M PortalDB unit :=
  tid ← tenantPrincipal p PermissionBillingManage;
  if blank planID then throw (New "portal: invalid plan request") else
  zoom billing_f (SetTenantPlan tid planID starts).

(** ** The route guard *)
Lemma route_permission_valid method path p permission :
  route_permission method path p = Some permission ->
  (exists rest, path = "/api/admin/" +:+ rest) /\ p_Type p = PrincipalPlatformAdmin /\ permission = adminPermission method path \/
  (exists rest, path = "/api/portal/" +:+ rest) /\ p_Type p = PrincipalTenantUser /\ permission = portalPermission method path.
Proof.
  unfold route_permission. destruct (_ && _) eqn:E1.
  - intros [= <-]. bools. left. split_and!; [by apply has_prefix_spec|done|done].
  - destruct (has_prefix path "/api/portal/" && _) eqn:E2; [|done]. intros [= <-]. bools. right.
    split_and!; [by apply has_prefix_spec|done|done].
Qed.

(** The route guard denies by default: whatever the database answers, a
    request it lets through comes with a session that is complete and unexpired,
    is under /api/admin/ for a platform administrator or under /api/portal/ for
    a tenant user, asks for a permission the route names and the principal has
    been granted in its own tenant, and, unless it is a GET, HEAD or OPTIONS,
    carries the session's CSRF token; nothing is written. *)
Theorem route_guard method path claims csrf now w w' :
  outcome (AuthorizeRoute method path claims csrf now) w (inr tt) w' ->
  w' = w /\ claims_valid claims now = true /\
  (exists permission, permission <> EmptyString /\ grants w (sc_Principal claims) permission /\
     ((exists rest, path = "/api/admin/" +:+ rest) /\ p_Type (sc_Principal claims) = PrincipalPlatformAdmin /\
        permission = adminPermission method path \/
      (exists rest, path = "/api/portal/" +:+ rest) /\ p_Type (sc_Principal claims) = PrincipalTenantUser /\
        permission = portalPermission method path)) /\
  (mutating method = true -> hashToken csrf = sc_CSRFTokenHash claims).
Proof.
  intros Hout. pattern tt, w'. apply (wp_ok _ _ _ _ _ Hout). clear Hout w'.
  unfold AuthorizeRoute. wp_step; [by wp_step|]. bools.
  destruct (route_permission method path (sc_Principal claims)) as [permission|] eqn:Er; [|by wp_step].
  wp_step; [by wp_step|]. unfold WithPrincipal. destruct (negb (Valid (sc_Principal claims))) eqn:Ev; [by wp_step|].
  bools. wp_step. unfold Require_, PrincipalFromContext. rewrite Ev.
  eapply wp_mono; [apply wp_Authorize|]. intros r w' (-> & Hg & _). destruct r as [e|[]]; [done|].
  destruct (Hg eq_refl) as [_ Hgr].
  wp_step; bools; wp_step; [done|]. split_and!; [done|done| |].
  - exists permission. split; [|split; [done|by apply route_permission_valid]].
    unfold is_empty in *. by bools.
  - intros Hm. rewrite Hm in *. simpl in *. bools. unfold VerifyCSRF in *. destruct (_ || _); [done|]. by bools.
Qed.

(** ** A tenant user stays inside its tenant *)
Inductive portal_call :=
| CallUsage (from to limit : Z)
| CallAudit (limit : Z)
| CallReserveBudget (key : string) (amount now : Z)
| CallSetPlan (planID : string) (starts : Z).

Inductive portal_reply :=
| ReplyUsage (l : list UsageEvent)
| ReplyAudit (l : list Entry)
| ReplyReservation (r : Reservation)
| ReplyDone.

Definition permission_of (c : portal_call) : string :=
  match c with
  | CallUsage _ _ _ => PermissionBillingRead
  | CallAudit _ => PermissionAuditRead
  | CallReserveBudget _ _ _ => PermissionBudgetManage
  | CallSetPlan _ _ => PermissionBillingManage
  end.

Definition serve (p : Principal) (c : portal_call) : M PortalDB portal_reply :=
  match c with
  | CallUsage from to limit => l ← PortalUsage p from to limit; mret (ReplyUsage l)
  | CallAudit limit => l ← PortalAudit p limit; mret (ReplyAudit l)
  | CallReserveBudget key amount now => r ← ReserveBudget p key amount now; mret (ReplyReservation r)
  | CallSetPlan planID starts => SetPlan p planID starts;; mret ReplyDone
  end.

(** Every row of a reply belongs to the tenant. *)
Definition belongs (t : string) (r : portal_reply) : Prop :=
  match r with
  | ReplyUsage l => Forall (fun e => ue_TenantID e = t) l
  | ReplyAudit l => Forall (fun e => en_TenantID e = Some t) l
  | ReplyReservation r => rv_TenantID r = t
  | ReplyDone => True
  end.

(** The rows of the other tenants are the same. *)
Definition others_kept {R : Type} (tenant_of : R -> string) (t : string) (m m' : gmap string R) : Prop :=
  forall k r, tenant_of r <> t -> m !! k = Some r <-> m' !! k = Some r.

Definition billing_confined (t : string) (b b' : Billing) : Prop :=
  rows (billing_usage_events b') = rows (billing_usage_events b) /\
  rows (billing_invoices b') = rows (billing_invoices b) /\
  rows (billing_plans b') = rows (billing_plans b) /\ rows (billing_skus b') = rows (billing_skus b) /\
  others_kept ac_TenantID t (rows (billing_accounts b)) (rows (billing_accounts b')) /\
  others_kept rv_TenantID t (rows (billing_reservations b)) (rows (billing_reservations b')) /\
  others_kept tp_TenantID t (rows (billing_tenant_plans b)) (rows (billing_tenant_plans b')).

(** Reservations and assignments are stored under their keys. *)
Definition billing_keyed (b : Billing) : Prop :=
  (forall k r, rows (billing_reservations b) !! k = Some r -> rv_ID r = k) /\
  (forall k r, rows (billing_tenant_plans b) !! k = Some r -> tp_TenantID r = k).

Lemma billing_confined_refl t b : billing_confined t b b.
Proof. by repeat split. Qed.

Lemma others_kept_update {R} (tenant_of : R -> string) t (q : R -> bool) g (T : table string R) :
  (forall r, q r = true -> tenant_of r = t) -> (forall r, tenant_of (g r) = tenant_of r) ->
  others_kept tenant_of t (rows T) (rows (update_rows q g T)).
Proof.
  intros Hq Hg k r Hr. rewrite rows_update, lookup_fmap. destruct (rows T !! k) as [r0|]; [|done]. simpl.
  destruct (q r0) eqn:E; [|done]. specialize (Hq _ E).
  split; intros [= <-]; [done|]. by rewrite Hg in Hr.
Qed.

Lemma others_kept_insert {R} (tenant_of : R -> string) t k0 r0 (T : table string R) :
  rows T !! k0 = None -> tenant_of r0 = t -> others_kept tenant_of t (rows T) (rows (insert_row k0 r0 T)).
Proof.
  intros Hn Ht k r Hr. rewrite rows_insert, lookup_insert. case_decide as E; [|done]. subst k. rewrite Hn.
  split; [done|]. by intros [= <-].
Qed.

Lemma wp_Reserve_confined h b t key amount now :
  billing_keyed b ->
  wp h (Reserve t key amount now) b (fun r b' => billing_confined t b b' /\
    match r with inr x => rv_TenantID x = t | inl _ => True end).
Proof.
  intros [Hrv _]. pose proof (billing_confined_refl t b) as Hrefl. unfold Reserve. wp_step; [by wp_step|].
  repeat wp_step; try done.
  2: { intros k r Hr E0. repeat wp_step; [done|]. bools. by split. }
  intros Hno. repeat wp_step; try done. intros ka a Ha Ea. unfold account_of in Ea. bools. repeat wp_step; try done.
  intros Hclash. wp_step. split; [done|]. split; [|done]. split_and!; simpl; try done.
  - apply others_kept_update; [|done]. intros r E1. unfold account_of in E1. bools. congruence.
  - apply others_kept_insert; [|done]. apply eq_None_not_Some. intros [r Hr]. specialize (Hclash _ _ Hr).
    by rewrite (Hrv _ _ Hr), bool_decide_eq_true_2 in Hclash.
Qed.

Lemma wp_SetTenantPlan_confined h b t planID starts :
  billing_keyed b -> wp h (SetTenantPlan t planID starts) b (fun r b' => billing_confined t b b').
Proof.
  intros [_ Htp]. pose proof (billing_confined_refl t b) as Hrefl. unfold SetTenantPlan, SetTenantPlanTx.
  wp_step. wp_step; [by wp_step|]. repeat wp_step; try done. intros kp pl Hpl _. repeat wp_step; try done.
  - intros _. split; [done|]. split_and!; try done; simpl.
    apply others_kept_update; [|done]. intros r E1. by bools.
  - intros Hno _. split; [done|]. split_and!; try done; simpl.
    apply others_kept_insert; [|done]. apply eq_None_not_Some. intros [r Hr]. specialize (Hno _ _ Hr).
    by rewrite (Htp _ _ Hr), bool_decide_eq_true_2 in Hno.
Qed.

Lemma wp_tenantPrincipal h w p permission (Q : error + string -> PortalDB -> Prop) :
  (forall e, Q (inl e) w) ->
  (Valid p = true -> p_Type p = PrincipalTenantUser -> grants (pt_rbac w) p permission -> Q (inr (p_TenantID p)) w) ->
  wp h (tenantPrincipal p permission) w Q.
Proof.
  intros Hf HQ. unfold tenantPrincipal. wp_step; [by wp_step|]. bools. wp_step. wp_step.
  eapply wp_mono; [apply wp_Authorize|]. intros r w' (-> & Hg & _). destruct w as [wr wb wa]; simpl in *.
  destruct r as [e|[]]; [done|]. destruct (Hg eq_refl) as [_ Hgr]. wp_step. by apply HQ.
Qed.

(** The portal is confined to the caller's tenant: whatever the principal
    asks and whatever fails, every event, audit entry or reservation it is shown
    belongs to its own tenant, no account, reservation or plan assignment of
    another tenant is created, changed or removed, no role, price, usage event
    or audit entry is written, and it gets an answer only as a valid tenant user
    granted the operation's permission in that tenant. *)
Theorem portal_confined p c w r w' :
  billing_keyed (pt_billing w) -> outcome (serve p c) w r w' ->
  pt_rbac w' = pt_rbac w /\ pt_audit w' = pt_audit w /\
  billing_confined (p_TenantID p) (pt_billing w) (pt_billing w') /\
  match r with
  | inl _ => True
  | inr reply => belongs (p_TenantID p) reply /\ Valid p = true /\ p_Type p = PrincipalTenantUser /\
      grants (pt_rbac w) p (permission_of c)
  end.
Proof.
  intros Hk Hout. pattern r, w'. match goal with |- ?Q r w' => refine (wp_outcome (serve p c) w Q r w' _ Hout) end.
  clear Hout r w'. pose proof (billing_confined_refl (p_TenantID p) (pt_billing w)) as Hrefl.
  destruct c as [from to limit|limit|key amount now|planID starts]; simpl serve.
  - unfold PortalUsage. do 2 wp_step. apply wp_tenantPrincipal; [done|]. intros Hv Hty Hg. wp_step. unfold ListUsage.
    wp_step; [by wp_step|]. repeat wp_step; [done|]. split_and!; try done. apply Forall_take.
    apply Forall_forall. intros e He. rewrite merge_sort_Permutation in He. apply elem_of_where in He as (k & _ & Hp).
    unfold in_window in Hp. by bools.
  - unfold PortalAudit. do 2 wp_step. apply wp_tenantPrincipal; [done|]. intros Hv Hty Hg. wp_step. unfold ListTenant.
    wp_step; [by wp_step|]. repeat wp_step; [done|]. split_and!; try done. apply Forall_take.
    apply Forall_forall. intros e He. rewrite merge_sort_Permutation in He. apply elem_of_where in He as (k & _ & Hp). by bools.
  - unfold ReserveBudget. do 2 wp_step. apply wp_tenantPrincipal; [done|]. intros Hv Hty Hg. wp_step.
    eapply wp_mono; [by apply wp_Reserve_confined|]. intros [e|x] b' [Hc Hx]; [done|]. by wp_step.
  - unfold SetPlan. do 2 wp_step. apply wp_tenantPrincipal; [done|]. intros Hv Hty Hg. wp_step; [by wp_step|]. wp_step.
    eapply wp_mono; [by apply wp_SetTenantPlan_confined|]. intros [e|x] b' Hc; [done|]. by wp_step.
Qed.

End Portal.

(** ** Witnesses *)
Definition demo_rbac : @RbacDB map_sql :=
  @mkRbacDB map_sql {[ "r1" := mkRole "r1" (Some "t1") "billing" EmptyString 1 1 ]}
    {[ ("r1", "billing.*") := mkRolePermission "r1" "billing.*" ]}
    {[ ("r1", PrincipalTenantUser, "mem_1") := mkRoleBinding "r1" PrincipalTenantUser "mem_1" (Some "t1") 1 ]}.
Definition demo_claims : SessionClaims := mkSessionClaims "s1" demo_user (@hashToken id_sha "csrf") 100.
Definition demo_event : UsageEvent :=
  mkUsageEvent "u1" "t1" "u1" EmptyString 0 50 KeyOwnershipPlatformPool "gpt-4" "success" None 1 1 2 1 0 0 1 50.
Definition demo_portal : @PortalDB map_sql :=
  @mkPortalDB map_sql demo_rbac (@mkBilling map_sql {[ "u1" := demo_event ]} ∅ ∅ ∅ ∅ ∅ ∅ ∅ ∅ ∅) ∅.

Lemma route_guard_witness :
  outcome (@AuthorizeRoute map_sql id_sha "POST" "/api/portal/billing" demo_claims "csrf" 50) demo_rbac (inr tt) demo_rbac /\
  @hashToken id_sha "csrf" = sc_CSRFTokenHash demo_claims.
Proof.
  assert (Hout : outcome (@AuthorizeRoute map_sql id_sha "POST" "/api/portal/billing" demo_claims "csrf" 50) demo_rbac
    (inr tt) demo_rbac) by (exists [], []; vm_compute; reflexivity).
  split; [exact Hout|].
  destruct (@route_guard map_sql id_sha "POST" "/api/portal/billing" demo_claims "csrf" 50 demo_rbac demo_rbac Hout)
    as (_ & _ & _ & Hcsrf). apply Hcsrf. reflexivity.
Defined.

Lemma portal_confined_witness :
  result (@serve map_sql demo_user (CallUsage 1 99 10)) demo_portal = inr (ReplyUsage [demo_event]) /\
  belongs "t1" (ReplyUsage [demo_event]).
Proof.
  assert (Hout : result (@serve map_sql demo_user (CallUsage 1 99 10)) demo_portal = inr (ReplyUsage [demo_event]))
    by (vm_compute; reflexivity).
  split; [exact Hout|].
  pose proof (outcome_after (@serve map_sql demo_user (CallUsage 1 99 10)) demo_portal) as Ho. rewrite Hout in Ho.
  apply (@portal_confined map_sql demo_user (CallUsage 1 99 10) demo_portal _ _) in Ho; [apply Ho|].
  split; intros k r.
  - change ((∅ : gmap string Reservation) !! k = Some r -> rv_ID r = k). by rewrite lookup_empty.
  - change ((∅ : gmap string TenantPlan) !! k = Some r -> tp_TenantID r = k). by rewrite lookup_empty.
Defined.
