(* ===== verification/Member.v ===== *)
(** * Portal identities and their roles (internal/member/member.go)

    Members of tenants with a password and one of four fixed roles, each role a
    set of permissions of the authorization tables.  [salt] and [random] are
    what the random sources yield, [now] the clock. *)
From S2P Require Import Prelude GoStrings Sql Lifecycle ControlPlane Rbac.

Definition StatusActive : string := "active".
Definition StatusDisabled : string := "disabled".

Definition RoleOwner : string := "owner".
Definition RoleAdmin : string := "admin".
Definition RoleDeveloper : string := "developer".
Definition RoleViewer : string := "viewer".

Definition ErrInvalidMember : error := New "member: invalid member".
Definition ErrNotFound : error := New "member: not found".
Definition ErrCredentials : error := New "member: invalid credentials".
Definition ErrInvalidRole : error := New "member: invalid role".
Definition ErrLastOwner : error := New "member: cannot remove the last active owner".

Record Member := mkMember {
  mb_ID : string; mb_TenantID : string; mb_Email : string; mb_DisplayName : string; mb_PasswordHash : string;
  mb_Status : string; mb_LastLoginAt : option Z; mb_CreatedAt : Z; mb_UpdatedAt : Z }.

Record View := mkView { vw_Member : Member; vw_Role : string }.

Record CreateInput := mkCreateInput {
  ci_TenantID : string; ci_Email : string; ci_DisplayName : string; ci_Password : string; ci_Role : string }.

Record UpdateInput := mkUpdateInput {
  ui_DisplayName : option string; ui_Password : option string; ui_Status : option string; ui_Role : option string }.

(** net/mail's ParseAddress: the address of a well-formed text. *)
Class GoMail := { ParseAddress : string -> error + string }.

(** golang.org/x/crypto/bcrypt: a password of at most 72 bytes hashes, a longer
    one is refused, and a hash compares equal to the password it was made of
    and to no other such password, NUL bytes apart: the key schedule repeats the
    password with a NUL after it, so "x" and "x\000x" have one hash. *)
Definition no_nul (s : string) : Prop := index_byte s "000"%char = None.

Class Bcrypt := {
  GenerateFromPassword : string -> string -> error + string;
  CompareHashAndPassword : string -> string -> bool;
  bcrypt_short : forall pw salt, (String.length pw <= 72)%nat -> exists h, GenerateFromPassword pw salt = inr h;
  bcrypt_long : forall pw salt, (72 < String.length pw)%nat ->
    GenerateFromPassword pw salt = inl (New "bcrypt: password length exceeds 72 bytes");
  bcrypt_compare : forall pw salt h pw', GenerateFromPassword pw salt = inr h -> (String.length pw' <= 72)%nat ->
    no_nul pw -> no_nul pw' -> CompareHashAndPassword h pw' = bool_decide (pw' = pw) }.

Definition ValidRole (role : string) : bool :=
  bool_decide (role = RoleOwner) || bool_decide (role = RoleAdmin) ||
  bool_decide (role = RoleDeveloper) || bool_decide (role = RoleViewer).

Definition RoleID (tenantID role : string) : string := "tenant:" +:+ tenantID +:+ ":" +:+ role.

(** The last element of [strings.Split(s, ":")]. *)
Definition last_segment (s : string) : string :=
  match index_byte (srev s) ":"%char with
  | Some n => srev (stake n (srev s))
  | None => s
  end.

Definition role_ids (tenantID : string) : list string :=
  [RoleID tenantID RoleOwner; RoleID tenantID RoleAdmin; RoleID tenantID RoleDeveloper; RoleID tenantID RoleViewer].

(** The seeded roles: name, description and permissions. *)
Definition role_definitions : list (string * string * list string) :=
  [(RoleOwner, "Tenant owner", [PermissionTenantRead; PermissionTenantManage; PermissionMemberManage;
      PermissionKeyManage; PermissionKeyReveal; PermissionBudgetManage; PermissionBillingRead;
      PermissionRequestLogRead; PermissionAuditRead; PermissionAuditExport]);
   (RoleAdmin, "Tenant administrator", [PermissionTenantRead; PermissionMemberManage; PermissionKeyManage;
      PermissionBudgetManage; PermissionBillingRead; PermissionRequestLogRead; PermissionAuditRead]);
   (RoleDeveloper, "Tenant developer", [PermissionTenantRead; PermissionKeyManage; PermissionBillingRead;
      PermissionRequestLogRead; PermissionAuditRead]);
   (RoleViewer, "Tenant viewer", [PermissionTenantRead; PermissionBillingRead; PermissionAuditRead])].

Definition created_first (a b : Member) : Prop := mb_CreatedAt a <= mb_CreatedAt b.
#[export] Instance created_first_dec : RelDecision created_first.
Proof. intros a b. unfold created_first. apply _. Defined.

Section Member.
  Context `{Sql} `{GoUnicode} `{GoMail} `{Bcrypt}.
  (** SQL's LOWER. *)
  Variable lower : string -> string.

Definition normalizeEmail (value : string) : error + string :=
  let value := to_lower (trim_space value) in
  match ParseAddress value with
  | inl _ => inl ErrInvalidMember
  | inr parsed => if negb (bool_decide (to_lower parsed = value)) || (254 <? String.length value)%nat
                  then inl ErrInvalidMember else inr value
  end.

Definition hashPassword (value : string) (salt : string) : error + string :=
  if (String.length value <? 12)%nat || (1024 <? String.length value)%nat
  then inl (Wrap "%w: password must be 12-1024 characters" ErrInvalidMember) else
  match GenerateFromPassword value salt with
  | inl e => inl (Wrap "member: hash password: %w" e)
  | inr h => inr h
  end.

Definition newID (random : error + string) : error + string :=
  match random with inl e => inl e | inr b => inr ("mem_" +:+ hex_encode b) end.

Record MemberDB := mkMemberDB {
  md_tenants : table string Tenant; tenant_members : table string Member; md_rbac : RbacDB }.

Definition tenants_f : field MemberDB (table string Tenant) :=
  Field md_tenants (fun t w => mkMemberDB t (tenant_members w) (md_rbac w)).
Definition members_f : field MemberDB (table string Member) :=
  Field tenant_members (fun t w => mkMemberDB (md_tenants w) t (md_rbac w)).
Definition rbac_f : field MemberDB RbacDB :=
  Field md_rbac (fun t w => mkMemberDB (md_tenants w) (tenant_members w) t).

(** ** Seeding the roles *)
Definition seed_role (tenantID : string) (now : Z) (def : string * string * list string) : M RbacDB unit :=
  let '(name, description, permissions) := def in
  let id := RoleID tenantID name in
  wrapping "member: seed role %s: %w"
    (upsert roles_f (same_role id) (same_role id)
       (fun r => mkRole (ro_ID r) (Some tenantID) name description (ro_CreatedAt r) now)
       id (mkRole id (Some tenantID) name description now now));;
  delete_where permissions_f (fun r => bool_decide (rp_RoleID r = id));;
  mapM (fun permission =>
    create permissions_f (same_permission id permission) (id, permission) (mkRolePermission id permission)) permissions;;
  mret tt.

Definition EnsureTenantRolesTx (tenantID : string) (now : Z) : M RbacDB unit :=
  if is_empty tenantID then throw ErrInvalidMember else
  mapM (seed_role tenantID now) role_definitions;;
  mret tt.

Definition EnsureTenantRoles (tenantID : string) (now : Z) : M RbacDB unit :=
  if is_empty tenantID then throw ErrInvalidMember else transaction (EnsureTenantRolesTx tenantID now).

(** ** The role of a member *)
Definition role_binding_of (row : Member) (b : RoleBinding) : bool :=
  bool_decide (rb_PrincipalType b = PrincipalTenantUser) && bool_decide (rb_PrincipalID b = mb_ID row) &&
  bool_decide (rb_TenantID b = Some (mb_TenantID row)) && bool_decide (rb_RoleID b ∈ role_ids (mb_TenantID row)).

Definition replaceRole (row : Member) (role : string) (now : Z) : M RbacDB unit :=
  if negb (ValidRole role) then throw ErrInvalidRole else
  delete_where bindings_f (role_binding_of row);;
  let roleID := RoleID (mb_TenantID row) role in
  n ← count roles_f (fun r => bool_decide (ro_ID r = roleID) && bool_decide (ro_TenantID r = Some (mb_TenantID row)));
  if negb (n =? 1) then throw ErrInvalidRole else
  create bindings_f (same_binding roleID PrincipalTenantUser (mb_ID row))
    (roleID, PrincipalTenantUser, mb_ID row)
    (mkRoleBinding roleID PrincipalTenantUser (mb_ID row) (Some (mb_TenantID row)) now).

Definition memberRole (row : Member) : M RbacDB string :=
  binding ← wrapping "member: role lookup: %w" (take_row bindings_f (role_binding_of row));
  let name := last_segment (rb_RoleID binding) in
  if negb (ValidRole name) then throw ErrInvalidRole else mret name.

(** ** Members *)
Definition member_clash (row r : Member) : bool :=
  bool_decide (mb_ID r = mb_ID row) ||
  (bool_decide (mb_TenantID r = mb_TenantID row) && bool_decide (mb_Email r = mb_Email row)).

Definition CreateTx (input : CreateInput) (salt : string) (random : error + string) (now : Z) : M MemberDB View :=
  if is_empty (ci_TenantID input) || negb (ValidRole (ci_Role input)) then throw ErrInvalidMember else
  match normalizeEmail (ci_Email input) with
  | inl _ => throw ErrInvalidMember
  | inr email =>
      if blank (ci_DisplayName input) then throw ErrInvalidMember else
      hash ← of_result (hashPassword (ci_Password input) salt);
      id ← of_result (newID random);
      let row := mkMember id (ci_TenantID input) email (trim_space (ci_DisplayName input)) hash StatusActive None now now in
      n ← count tenants_f (has_id (ci_TenantID input));
      if negb (n =? 1) then throw ErrTenantNotFound else
      wrapping "member: create: %w" (create members_f (member_clash row) id row);;
      zoom rbac_f (replaceRole row (ci_Role input) now);;
      mret (mkView row (ci_Role input))
  end.

Definition Create (input : CreateInput) (salt : string) (random : error + string) (now : Z) : M MemberDB View :=
  transaction (CreateTx input salt random now).

Definition List (tenantID : string) : M MemberDB (list View) :=
  if is_empty tenantID then throw ErrInvalidMember else
  l ← wrapping "member: list: %w" (find members_f (fun r => bool_decide (mb_TenantID r = tenantID)));
  mapM (fun row => role ← zoom rbac_f (memberRole row); mret (mkView row role)) (merge_sort created_first l).

Definition member_is (tenantID memberID : string) (r : Member) : bool :=
  bool_decide (mb_TenantID r = tenantID) && bool_decide (mb_ID r = memberID).

Definition load_member (tenantID memberID : string) : M MemberDB Member :=
  r ← attempt (take_row members_f (member_is tenantID memberID));
  match r with
  | inl e => if errors_is e ErrRecordNotFound then throw ErrNotFound else throw e
  | inr row => mret row
  end.

Definition get (tenantID memberID : string) : M MemberDB View :=
  row ← load_member tenantID (trim_space memberID);
  role ← zoom rbac_f (memberRole row);
  mret (mkView row role).

Definition Get (tenantID memberID : string) : M MemberDB View := get tenantID memberID.

(** The other active owners of the tenant: the join of members and bindings. *)
Definition other_owners (tenantID memberID : string) (w : MemberDB) : Z :=
  Z.of_nat (length (flat_map (fun m =>
    where_ (fun b => bool_decide (rb_PrincipalID b = mb_ID m) && bool_decide (rb_PrincipalType b = PrincipalTenantUser) &&
                     bool_decide (rb_RoleID b = RoleID tenantID RoleOwner)) (rbac_role_bindings (md_rbac w)))
    (where_ (fun m => bool_decide (mb_TenantID m = tenantID) && bool_decide (mb_Status m = StatusActive) &&
                      negb (bool_decide (mb_ID m = memberID))) (tenant_members w)))).

(** The row after the assignments of an update. *)
Definition assigned (status : string) (name hash : option string) (now : Z) (r : Member) : Member :=
  mkMember (mb_ID r) (mb_TenantID r) (mb_Email r) (default (mb_DisplayName r) name)
    (default (mb_PasswordHash r) hash) status (mb_LastLoginAt r) (mb_CreatedAt r) now.

(** The stages of UpdateTx, in their order. *)
Definition next_role (current : string) (role : option string) : M MemberDB string :=
  match role with
  | None => mret current
  | Some r => if negb (ValidRole r) then throw ErrInvalidRole else mret r
  end.

Definition next_status (current : string) (status : option string) : M MemberDB string :=
  match status with
  | None => mret current
  | Some s => if negb (bool_decide (s = StatusActive)) && negb (bool_decide (s = StatusDisabled))
              then throw ErrInvalidMember else mret s
  end.

Definition guard_last_owner (tenantID memberID current next status : string) : M MemberDB unit :=
  if bool_decide (current = RoleOwner) &&
     (negb (bool_decide (next = RoleOwner)) || negb (bool_decide (status = StatusActive)))
  then owners ← sql (fun w => (inr (other_owners tenantID memberID w), w));
       if owners =? 0 then throw ErrLastOwner else mret tt
  else mret tt.

Definition new_values (input : UpdateInput) (salt : string) : M MemberDB (option string * option string) :=
  name ← match ui_DisplayName input with
         | None => mret None
         | Some n => if blank n then throw ErrInvalidMember else mret (Some (trim_space n))
         end;
  match ui_Password input with
  | None => mret (name, None)
  | Some p => h ← of_result (hashPassword p salt); mret (name, Some h)
  end.

Definition write_update (row : Member) (current next status : string) (name hash : option string) (now : Z)
    : M MemberDB View :=
  update members_f (fun r => bool_decide (mb_ID r = mb_ID row)) (assigned status name hash now);;
  (if negb (bool_decide (next = current)) then zoom rbac_f (replaceRole row next now) else mret tt);;
  row' ← take_row members_f (fun r => bool_decide (mb_ID r = mb_ID row));
  mret (mkView row' next).

Definition UpdateTx (tenantID memberID : string) (input : UpdateInput) (salt : string) (now : Z) : M MemberDB View :=
  if is_empty tenantID || blank memberID then throw ErrInvalidMember else
  row ← load_member tenantID memberID;
  currentRole ← zoom rbac_f (memberRole row);
  nextRole ← next_role currentRole (ui_Role input);
  nextStatus ← next_status (mb_Status row) (ui_Status input);
  guard_last_owner tenantID (mb_ID row) currentRole nextRole nextStatus;;
  values ← new_values input salt;
  write_update row currentRole nextRole nextStatus values.1 values.2 now.

Definition Update (tenantID memberID : string) (input : UpdateInput) (salt : string) (now : Z) : M MemberDB View :=
  transaction (UpdateTx tenantID memberID input salt now).

(** The row a login is checked against: the join of members and tenants. *)
Definition login_row (slug email : string) (w : MemberDB) : error + Member :=
  match where_ (fun m => existsb (fun t => bool_decide (tn_ID t = mb_TenantID m) && bool_decide (lower (tn_Slug t) = slug))
                                 (where_ (fun _ => true) (md_tenants w)) &&
                         bool_decide (mb_Email m = email) && bool_decide (mb_Status m = StatusActive)) (tenant_members w) with
  | [] => inl ErrRecordNotFound
  | m :: _ => inr m
  end.

Definition logged_in (now : Z) (r : Member) : Member :=
  mkMember (mb_ID r) (mb_TenantID r) (mb_Email r) (mb_DisplayName r) (mb_PasswordHash r) (mb_Status r)
    (Some now) (mb_CreatedAt r) now.

Definition Authenticate (tenantSlug email password : string) (now : Z) : M MemberDB View :=
  match normalizeEmail email with
  | inl _ => throw ErrCredentials
  | inr normalized =>
      if blank tenantSlug || is_empty password then throw ErrCredentials else
      found ← attempt (sql (fun w => (login_row (to_lower (trim_space tenantSlug)) normalized w, w)));
      match found with
      | inl _ => throw ErrCredentials
      | inr row =>
          if negb (CompareHashAndPassword (mb_PasswordHash row) password) then throw ErrCredentials else
          update members_f (fun r => bool_decide (mb_ID r = mb_ID row)) (logged_in now);;
          r ← attempt (zoom rbac_f (memberRole row));
          match r with
          | inl _ => throw ErrCredentials
          | inr role =>
              mret (mkView (mkMember (mb_ID row) (mb_TenantID row) (mb_Email row) (mb_DisplayName row)
                     (mb_PasswordHash row) (mb_Status row) (Some now) (mb_CreatedAt row) (mb_UpdatedAt row)) role)
          end
      end
  end.

End Member.

(** ** The roles of members *)
Section Roles.
  Context `{Sql} `{GoUnicode} `{GoMail} `{Bcrypt}.
  Variable lower : string -> string.
  Implicit Types (w : MemberDB) (m row : Member).

Lemma valid_role_cases role : ValidRole role = true ->
  role = RoleOwner \/ role = RoleAdmin \/ role = RoleDeveloper \/ role = RoleViewer.
Proof. unfold ValidRole. rewrite !orb_true_iff, !bool_decide_eq_true. tauto. Qed.

Lemma valid_role_no_colon role : ValidRole role = true -> index_byte role ":"%char = None.
Proof. by intros [-> | [-> | [-> | ->]]]%valid_role_cases. Qed.

Lemma RoleID_inj t1 t2 r1 r2 : ValidRole r1 = true -> ValidRole r2 = true ->
  RoleID t1 r1 = RoleID t2 r2 -> t1 = t2 /\ r1 = r2.
Proof.
  intros H1' H2' E. unfold RoleID in E. apply sapp_inj_l in E.
  by apply (split_last_byte _ _ _ _ ":"%char) in E as [-> ->]; [|by apply valid_role_no_colon..].
Qed.

Lemma RoleID_key_inj t1 t2 r1 r2 (a b c d : string) : ValidRole r1 = true -> ValidRole r2 = true ->
  (RoleID t1 r1, a, b) = (RoleID t2 r2, c, d) -> r1 = r2.
Proof.
  intros V1 V2 E. apply (f_equal (fun x => x.1.1)) in E. cbn [fst] in E. by apply RoleID_inj in E as [_ ?].
Qed.

Lemma last_segment_RoleID t role : ValidRole role = true -> last_segment (RoleID t role) = role.
Proof.
  intros Hv%valid_role_no_colon. unfold last_segment.
  assert (E : srev (RoleID t role) = srev role +:+ String ":" (srev ("tenant:" +:+ t))).
  { unfold RoleID. rewrite <-sapp_assoc. rewrite srev_sapp. change (":" +:+ role) with (String ":" role).
    by rewrite srev_cons, sapp_assoc. }
  rewrite E, index_byte_app by by apply index_byte_none_srev. rewrite stake_app. apply srev_involutive.
Qed.

Lemma elem_of_role_ids t id : id ∈ role_ids t <-> exists role, ValidRole role = true /\ id = RoleID t role.
Proof.
  unfold role_ids. split.
  - rewrite !elem_of_cons. intros [->|[->|[->|[->|Hn%elem_of_nil]]]];
      [exists RoleOwner|exists RoleAdmin|exists RoleDeveloper|exists RoleViewer|done]; done.
  - intros (role & [-> | [-> | [-> | ->]]]%valid_role_cases & ->); rewrite !elem_of_cons; tauto.
Qed.

Definition bindings_of w : gmap (string * string * string) RoleBinding := rows (rbac_role_bindings (md_rbac w)).

Definition role_of w m (role : string) : Prop :=
  is_Some (bindings_of w !! (RoleID (mb_TenantID m) role, PrincipalTenantUser, mb_ID m)).

(** Every member has exactly one of the four roles of its tenant. *)
Record members_ok w : Prop := {
  mo_id : forall k m, rows (tenant_members w) !! k = Some m -> mb_ID m = k;
  mo_key : forall k b, bindings_of w !! k = Some b -> (rb_RoleID b, rb_PrincipalType b, rb_PrincipalID b) = k;
  mo_dangling : forall rid p b, bindings_of w !! (rid, PrincipalTenantUser, p) = Some b ->
    is_Some (rows (tenant_members w) !! p);
  mo_tenant : forall k m role b, rows (tenant_members w) !! k = Some m -> ValidRole role = true ->
    bindings_of w !! (RoleID (mb_TenantID m) role, PrincipalTenantUser, k) = Some b -> rb_TenantID b = Some (mb_TenantID m);
  mo_role : forall k m, rows (tenant_members w) !! k = Some m ->
    exists role, ValidRole role = true /\ role_of w m role /\
      forall role', ValidRole role' = true -> role_of w m role' -> role' = role }.

Definition owner_at w (t k : string) : Prop := exists m,
  rows (tenant_members w) !! k = Some m /\ mb_TenantID m = t /\ mb_Status m = StatusActive /\ role_of w m RoleOwner.
Definition has_owner w (t : string) : Prop := exists k, owner_at w t k.

(** An active owner of the tenant other than the member [id]. *)
Definition another_owner w (t id : string) : Prop := exists k, k <> id /\ owner_at w t k.

(** The member [k], if there is one, keeps its identity, tenant, status and roles. *)
Definition member_kept (k : string) w w' : Prop := forall m, rows (tenant_members w) !! k = Some m ->
  (exists m', rows (tenant_members w') !! k = Some m' /\ mb_ID m' = mb_ID m /\ mb_TenantID m' = mb_TenantID m /\
     mb_Status m' = mb_Status m) /\
  forall rid, bindings_of w' !! (rid, PrincipalTenantUser, k) = bindings_of w !! (rid, PrincipalTenantUser, k).

Lemma role_kept k w w' m m' role : member_kept k w w' -> rows (tenant_members w) !! k = Some m -> mb_ID m = k ->
  mb_ID m' = mb_ID m -> mb_TenantID m' = mb_TenantID m -> role_of w' m' role <-> role_of w m role.
Proof.
  intros Hk Hm Hid Hid' Ht'. destruct (Hk _ Hm) as [_ Hb]. unfold role_of. by rewrite Ht', Hid', Hid, Hb.
Qed.

Lemma owner_kept w w' t k : members_ok w -> member_kept k w w' -> owner_at w t k -> owner_at w' t k.
Proof.
  intros Hw Hk (m & Hm & Ht & Hs & Hr). pose proof (Hk _ Hm) as [(m' & Hm' & E1 & E2 & E3) _]. exists m'.
  split; [done|]. split; [congruence|]. split; [congruence|]. apply (role_kept k w w' m m'); try done. by apply (mo_id w Hw).
Qed.

Lemma member_kept_refl k w : member_kept k w w.
Proof. intros m Hm. split; [by exists m|done]. Qed.

(** A binding of a member's role, seen from the member. *)
Lemma role_binding_spec w k row kb b :
  members_ok w -> rows (tenant_members w) !! k = Some row -> bindings_of w !! kb = Some b ->
  (role_binding_of row b = true <->
     exists role, ValidRole role = true /\ kb = (RoleID (mb_TenantID row) role, PrincipalTenantUser, k)).
Proof.
  intros Hw Hrow Hb. pose proof (mo_key w Hw _ _ Hb) as Hkey. pose proof (mo_id w Hw _ _ Hrow) as Hid.
  unfold role_binding_of. rewrite !andb_true_iff, !bool_decide_eq_true, elem_of_role_ids. split.
  - intros [[[E1 E2] E3] (role & Hv & E4)]. exists role. split; [done|]. rewrite <-Hkey, E1, E2, E4. by rewrite Hid.
  - intros (role & Hv & ->). injection Hkey as E1 E2 E3. rewrite E1, E2, E3, Hid. split_and!; try done.
    + by eapply (mo_tenant w Hw).
    + by exists role.
Qed.

Lemma wp_memberRole h w k row (Q : error + string -> RbacDB -> Prop) :
  members_ok w -> rows (tenant_members w) !! k = Some row ->
  (h = false -> forall e, Q (inl e) (md_rbac w)) ->
  (forall role, ValidRole role = true -> role_of w row role -> Q (inr role) (md_rbac w)) ->
  wp h (memberRole row) (md_rbac w) Q.
Proof.
  intros Hw Hrow Hf HQ. unfold memberRole. repeat wp_step.
  - intros Hh msg. by apply Hf.
  - intros Hno. exfalso. destruct (mo_role w Hw _ _ Hrow) as (role & Hv & [b Hb] & _).
    rewrite (mo_id w Hw _ _ Hrow) in Hb. specialize (Hno _ _ Hb).
    rewrite (proj2 (role_binding_spec w k row _ b Hw Hrow Hb)) in Hno; [done|]. by exists role.
  - intros kb b Hb Hm. apply (role_binding_spec w k row kb b Hw Hrow Hb) in Hm as (role & Hv & ->).
    pose proof (mo_key w Hw _ _ Hb) as [= E1 E2 E3]. rewrite E1, last_segment_RoleID by done.
    rewrite Hv. simpl. wp_step. apply HQ; [done|]. unfold role_of. rewrite (mo_id w Hw _ _ Hrow). by exists b.
Qed.

Lemma wp_replaceRole h x row role now :
  wp h (replaceRole row role now) x (fun r x' => match r with
    | inl _ => True
    | inr _ => ValidRole role = true /\
        let kept := filter (fun kb => role_binding_of row kb.2 = false) (rows (rbac_role_bindings x)) in
        rows (rbac_role_bindings x') =
          <[(RoleID (mb_TenantID row) role, PrincipalTenantUser, mb_ID row) :=
              mkRoleBinding (RoleID (mb_TenantID row) role) PrincipalTenantUser (mb_ID row) (Some (mb_TenantID row)) now]> kept
    end).
Proof.
  unfold replaceRole. wp_step; [by wp_step|]. bools. repeat wp_step; try done.
  intros _. split; [done|]. by rewrite rows_insert, rows_delete.
Qed.

(** A member written (new or over its old row) and given one role. *)
Lemma members_ok_given w w' k row role b :
  members_ok w -> mb_ID row = k -> ValidRole role = true ->
  rows (tenant_members w') = <[k := row]> (rows (tenant_members w)) ->
  (forall old, rows (tenant_members w) !! k = Some old -> mb_TenantID old = mb_TenantID row) ->
  (forall r' b', r' <> role -> ValidRole r' = true ->
     bindings_of w' !! (RoleID (mb_TenantID row) r', PrincipalTenantUser, k) <> Some b') ->
  bindings_of w' !! (RoleID (mb_TenantID row) role, PrincipalTenantUser, k) = Some b ->
  rb_TenantID b = Some (mb_TenantID row) ->
  (forall kb b', bindings_of w' !! kb = Some b' ->
     kb = (RoleID (mb_TenantID row) role, PrincipalTenantUser, k) \/ bindings_of w !! kb = Some b') ->
  (rb_RoleID b, rb_PrincipalType b, rb_PrincipalID b) = (RoleID (mb_TenantID row) role, PrincipalTenantUser, k) ->
  (forall rid p, p <> k -> bindings_of w' !! (rid, PrincipalTenantUser, p) = bindings_of w !! (rid, PrincipalTenantUser, p)) ->
  members_ok w'.
Proof.
  intros Hw Hid Hv Em Hold Hno Hb Hbt Hin Hbk Hoth.
  assert (Hrole : forall m, mb_ID m <> k -> forall r, role_of w' m r <-> role_of w m r).
  { intros m Hm r. unfold role_of. by rewrite Hoth. }
  split.
  - intros k' m. rewrite Em, lookup_insert. case_decide; [by intros [= <-]; subst|]. apply (mo_id w Hw).
  - intros kb b' Hb'. destruct (Hin _ _ Hb') as [->|Hb0]; [rewrite Hb in Hb'; injection Hb' as <-; exact Hbk|by apply (mo_key w Hw)].
  - intros rid p b' Hb'. rewrite Em, lookup_insert. case_decide; [by eexists|].
    rewrite Hoth in Hb' by done. by eapply (mo_dangling w Hw).
  - intros k' m r' b'. rewrite Em, lookup_insert. case_decide as Ek.
    + intros [= <-] Hr' Hb'. subst k'. destruct (decide (r' = role)) as [->|Hne]; [rewrite Hb in Hb'; by injection Hb' as <-|].
      by destruct (Hno r' b' Hne Hr').
    + intros Hm Hr' Hb'. rewrite Hoth in Hb' by done. by eapply (mo_tenant w Hw).
  - intros k' m. rewrite Em, lookup_insert. case_decide as Ek.
    + intros [= <-]. subst k'. exists role. unfold role_of. rewrite Hid. split_and!; [done|by exists b|].
      intros r' Hr' [b' Hb']. destruct (decide (r' = role)) as [->|Hne]; [done|]. by destruct (Hno r' b' Hne Hr').
    + intros Hm. assert (Hne : mb_ID m <> k) by (by rewrite (mo_id w Hw _ _ Hm)).
      destruct (mo_role w Hw _ _ Hm) as (r & Hr1 & Hr2 & Hr3). exists r. split_and!; [done|by apply Hrole|].
      intros r' Hv' Hr'. apply Hr3; [done|]. by apply Hrole.
Qed.

(** The members beside the one that is written. *)
Lemma others_given w w' k row :
  rows (tenant_members w') = <[k := row]> (rows (tenant_members w)) ->
  (forall rid p, p <> k -> bindings_of w' !! (rid, PrincipalTenantUser, p) = bindings_of w !! (rid, PrincipalTenantUser, p)) ->
  forall k', k' <> k -> member_kept k' w w'.
Proof.
  intros Em Hoth k' Hne m Hm. split; [|intros rid; by apply Hoth]. exists m. by rewrite Em, lookup_insert_ne.
Qed.

(** Owners stay while some active owner does. *)
Lemma has_owner_given w w' k row t :
  members_ok w -> mb_ID row = k ->
  rows (tenant_members w') = <[k := row]> (rows (tenant_members w)) ->
  (forall rid p, p <> k -> bindings_of w' !! (rid, PrincipalTenantUser, p) = bindings_of w !! (rid, PrincipalTenantUser, p)) ->
  (forall old, rows (tenant_members w) !! k = Some old -> mb_TenantID old = t -> mb_Status old = StatusActive ->
     role_of w old RoleOwner ->
     (mb_TenantID row = t /\ mb_Status row = StatusActive /\ role_of w' row RoleOwner) \/ another_owner w t k) ->
  has_owner w t -> has_owner w' t.
Proof.
  intros Hw Hid Em Hoth Hstay (k0 & m0 & Hm0 & Ht0 & Hs0 & Hr0).
  assert (Hkeep : forall k2, k2 <> k -> owner_at w t k2 -> has_owner w' t).
  { intros k2 Hne Ho. exists k2. eapply owner_kept; [done|by eapply others_given|done]. }
  destruct (decide (k0 = k)) as [->|Hne]; [|by apply (Hkeep k0); [|exists m0]].
  destruct (Hstay m0 Hm0 Ht0 Hs0 Hr0) as [(Ht & Hs & Hr)|(k2 & Hne & Ho)]; [|by eapply Hkeep].
  exists k, row. by rewrite Em, lookup_insert_eq.
Qed.

Lemma other_owners_spec w t id :
  members_ok w -> other_owners t id w <> 0 -> another_owner w t id.
Proof.
  intros Hw Hn. unfold other_owners in Hn. destruct (flat_map _ _) as [|b l] eqn:E; [done|].
  assert (Hin : In b (b :: l)) by by left. rewrite <-E in Hin. apply in_flat_map in Hin as (m & Hm & Hb).
  apply list_elem_of_In, elem_of_where in Hm as (k & Hk & Hp). apply list_elem_of_In, elem_of_where in Hb as (kb & Hkb & Hq).
  bools. exists k. split; [by rewrite <-(mo_id w Hw _ _ Hk)|]. exists m. split_and!; try done. unfold role_of. exists b. unfold bindings_of. pose proof (mo_key w Hw _ _ Hkb) as Hkey. simplify_eq. congruence.
Qed.

(** The bindings once a member's role is replaced. *)
Lemma replaced_bindings w k old row role b b' :
  members_ok w -> rows (tenant_members w) !! k = Some old -> mb_ID row = k -> mb_TenantID row = mb_TenantID old ->
  ValidRole role = true -> b = mkRoleBinding (RoleID (mb_TenantID row) role) PrincipalTenantUser k (Some (mb_TenantID row)) b' ->
  forall B', B' = <[(RoleID (mb_TenantID row) role, PrincipalTenantUser, k) := b]>
                    (filter (fun kb => role_binding_of old kb.2 = false) (bindings_of w)) ->
  (forall r' c, r' <> role -> ValidRole r' = true -> B' !! (RoleID (mb_TenantID row) r', PrincipalTenantUser, k) <> Some c) /\
  (forall kb c, B' !! kb = Some c -> kb = (RoleID (mb_TenantID row) role, PrincipalTenantUser, k) \/ bindings_of w !! kb = Some c) /\
  (forall rid p, p <> k -> B' !! (rid, PrincipalTenantUser, p) = bindings_of w !! (rid, PrincipalTenantUser, p)).
Proof.
  intros Hw Hold Hid Ht Hv -> B' ->. split_and!.
  - intros r' c Hne Hv' E. rewrite lookup_insert_ne in E.
    + apply map_lookup_filter_Some in E as [E Hf]. simpl in Hf.
      rewrite (proj2 (role_binding_spec w k old _ c Hw Hold E)) in Hf; [done|]. exists r'. by rewrite <-Ht.
    + intros E'. apply RoleID_key_inj in E'; [congruence|done|done].
  - intros kb c. rewrite lookup_insert. case_decide; [by left|]. intros [E _]%map_lookup_filter_Some. by right.
  - intros rid p Hne. rewrite lookup_insert_ne by congruence.
    destruct (bindings_of w !! (rid, PrincipalTenantUser, p)) as [c|] eqn:E.
    + apply map_lookup_filter_Some. split; [done|]. simpl. apply not_true_iff_false. intros Hb.
      apply (role_binding_spec w k old _ c Hw Hold E) in Hb as (r & _ & [= _ Hp]). done.
    + apply map_lookup_filter_None. by left.
Qed.

Definition keeps_owners w w' : Prop := forall t, has_owner w t -> has_owner w' t.
Definition all_kept w w' : Prop := forall k, member_kept k w w'.

Lemma all_kept_owners w w' : members_ok w -> all_kept w w' -> keeps_owners w w'.
Proof. intros Hw Hk t [k Ho]. exists k. by eapply owner_kept. Qed.

Lemma wp_CreateMember h w input salt random now :
  members_ok w ->
  wp h (CreateTx input salt random now) w (fun r w' => match r with
    | inl _ => True
    | inr v => members_ok w' /\ all_kept w w' /\ role_of w' (vw_Member v) (vw_Role v) /\
        rows (tenant_members w) !! mb_ID (vw_Member v) = None /\
        rows (tenant_members w') = <[mb_ID (vw_Member v) := vw_Member v]> (rows (tenant_members w)) /\
        mb_TenantID (vw_Member v) = ci_TenantID input /\ mb_Status (vw_Member v) = StatusActive /\
        vw_Role v = ci_Role input /\ normalizeEmail (ci_Email input) = inr (mb_Email (vw_Member v)) /\
        hashPassword (ci_Password input) salt = inr (mb_PasswordHash (vw_Member v)) /\ md_tenants w' = md_tenants w
    end).
Proof.
  intros Hw. unfold CreateTx. wp_step; [by wp_step|]. destruct (normalizeEmail (ci_Email input)) as [e|email] eqn:Em; [by wp_step|].
  wp_step; [by wp_step|]. wp_step.
  destruct (hashPassword (ci_Password input) salt) as [e|hash] eqn:Eh; cbn [of_result]; [by wp_step|]. wp_step. wp_step.
  destruct (newID random) as [e|id] eqn:Ei; cbn [of_result]; [by wp_step|]. wp_step. repeat wp_step; try done.
  intros Hclash. set (row := mkMember _ _ _ _ _ _ _ _ _) in *. wp_step. wp_step.
  eapply wp_mono; [apply wp_replaceRole|]. simpl. intros [e|u] x' HQ; [done|]. destruct HQ as (Hv & HB). wp_step.
  assert (Hnone : rows (tenant_members w) !! id = None).
  { apply eq_None_not_Some. intros [r Hr]. specialize (Hclash _ _ Hr). unfold member_clash in Hclash. simpl in Hclash.
    by rewrite (mo_id w Hw _ _ Hr), bool_decide_eq_true_2 in Hclash. }
  assert (Hnob : forall rid c, bindings_of w !! (rid, PrincipalTenantUser, id) <> Some c).
  { intros rid c Hc. destruct (mo_dangling w Hw _ _ _ Hc) as [? ?]. congruence. }
  assert (Hfil : forall kb c, rows (rbac_role_bindings x') !! kb = Some c ->
     kb = (RoleID (ci_TenantID input) (ci_Role input), PrincipalTenantUser, id) \/ bindings_of w !! kb = Some c).
  { intros kb c. rewrite HB, lookup_insert. case_decide; [by left|]. intros [Hc _]%map_lookup_filter_Some. by right. }
  assert (Hoth : forall rid p, p <> id -> rows (rbac_role_bindings x') !! (rid, PrincipalTenantUser, p) = bindings_of w !! (rid, PrincipalTenantUser, p)).
  { intros rid p Hne. rewrite HB, lookup_insert_ne by congruence.
    destruct (bindings_of w !! (rid, PrincipalTenantUser, p)) as [c|] eqn:Ec.
    - apply map_lookup_filter_Some. split; [done|]. simpl. pose proof (mo_key w Hw _ _ Ec) as [= _ _ Hp].
      unfold role_binding_of. rewrite Hp. simpl. by rewrite (bool_decide_eq_false_2 (p = id)), andb_false_r.
    - apply map_lookup_filter_None. by left. }
  assert (HM : rows (insert_row id row (tenant_members w)) = <[id := row]> (rows (tenant_members w))) by apply rows_insert.
  set (w' := mkMemberDB _ _ _).
  assert (Hbind : bindings_of w' !! (RoleID (mb_TenantID row) (ci_Role input), PrincipalTenantUser, id) =
     Some (mkRoleBinding (RoleID (ci_TenantID input) (ci_Role input)) PrincipalTenantUser id (Some (ci_TenantID input)) now))
    by (unfold bindings_of; simpl; rewrite HB; apply lookup_insert_eq).
  assert (Hok : members_ok w').
  { apply (members_ok_given w w' id row (ci_Role input) (mkRoleBinding (RoleID (ci_TenantID input) (ci_Role input)) PrincipalTenantUser id (Some (ci_TenantID input)) now)); try done.
    - congruence.
    - intros r' b' Hne Hv' Hb'. apply Hfil in Hb' as [E'|Hb']; [by apply RoleID_key_inj in E'|by apply Hnob in Hb']. }
  assert (Hkeep : all_kept w w').
  { intros k m Hm. destruct (decide (k = id)) as [->|Hne]; [congruence|]. by apply (others_given w w' id row). }
  split; [done|]. split; [done|]. split_and!; try done.
  by exists (mkRoleBinding (RoleID (ci_TenantID input) (ci_Role input)) PrincipalTenantUser id (Some (ci_TenantID input)) now).
Qed.

Lemma wp_load_member h w t id (Q : error + Member -> MemberDB -> Prop) :
  members_ok w ->
  (forall e, Q (inl e) w) ->
  (forall row, rows (tenant_members w) !! id = Some row -> mb_TenantID row = t -> Q (inr row) w) ->
  wp h (load_member t id) w Q.
Proof.
  intros Hw Hf HQ. unfold load_member. repeat wp_step.
  - intros _ msg. by repeat wp_step.
  - intros _. wp_step. apply Hf.
  - intros k row Hrow Hp. unfold member_is in Hp. bools. wp_step. apply HQ; [|done].
    match goal with E : mb_ID row = _ |- _ => rewrite <-E end. by rewrite (mo_id w Hw _ _ Hrow).
Qed.

(** The tenant's owners permit an update of the member [id]: it leaves an owner
    one, or there is another. *)
Definition guarded (current next status : string) w (t id : string) : Prop :=
  current = RoleOwner -> (next <> RoleOwner \/ status <> StatusActive) -> another_owner w t id.

(** Writing back an updated member together with its next role. *)
Lemma update_written w w' k row row' current next :
  members_ok w -> rows (tenant_members w) !! k = Some row -> mb_ID row' = mb_ID row -> mb_TenantID row' = mb_TenantID row ->
  ValidRole current = true -> role_of w row current ->
  rows (tenant_members w') = <[k := row']> (rows (tenant_members w)) ->
  (next = current /\ bindings_of w' = bindings_of w \/
   next <> current /\ ValidRole next = true /\ exists stamp, bindings_of w' =
     <[(RoleID (mb_TenantID row) next, PrincipalTenantUser, k) :=
        mkRoleBinding (RoleID (mb_TenantID row) next) PrincipalTenantUser k (Some (mb_TenantID row)) stamp]>
     (filter (fun kb => role_binding_of row kb.2 = false) (bindings_of w))) ->
  members_ok w' /\
  (forall t, (t = mb_TenantID row -> guarded current next (mb_Status row') w t k) -> has_owner w t -> has_owner w' t) /\
  role_of w' row' next /\ (forall k', k' <> k -> member_kept k' w w').
Proof.
  intros Hw Hrow Hid Ht Hvc Hcur Em HB. pose proof (mo_id w Hw _ _ Hrow) as Hk.
  destruct Hcur as [bc Hbc]. rewrite Hk in Hbc.
  assert (Huniq : forall r, ValidRole r = true -> is_Some (bindings_of w !! (RoleID (mb_TenantID row) r, PrincipalTenantUser, k)) -> r = current).
  { intros r Hv Hr. destruct (mo_role w Hw _ _ Hrow) as (r0 & _ & _ & Hall). transitivity r0; [|symmetry]; apply Hall; try done.
    - unfold role_of. by rewrite Hk.
    - unfold role_of. rewrite Hk. by eexists. }
  assert (Hnew : ValidRole next = true /\ exists b, bindings_of w' !! (RoleID (mb_TenantID row) next, PrincipalTenantUser, k) = Some b /\
     rb_TenantID b = Some (mb_TenantID row) /\
     (rb_RoleID b, rb_PrincipalType b, rb_PrincipalID b) = (RoleID (mb_TenantID row) next, PrincipalTenantUser, k) /\
     (forall r' c, r' <> next -> ValidRole r' = true -> bindings_of w' !! (RoleID (mb_TenantID row) r', PrincipalTenantUser, k) <> Some c) /\
     (forall kb c, bindings_of w' !! kb = Some c -> kb = (RoleID (mb_TenantID row) next, PrincipalTenantUser, k) \/ bindings_of w !! kb = Some c) /\
     (forall rid p, p <> k -> bindings_of w' !! (rid, PrincipalTenantUser, p) = bindings_of w !! (rid, PrincipalTenantUser, p))).
  { destruct HB as [[-> EB]|(Hne & Hvn & stamp & EB)].
    - split; [done|]. exists bc. rewrite EB. split_and!; try done.
      + by eapply (mo_tenant w Hw).
      + by apply (mo_key w Hw).
      + intros r' c Hne Hv Hc. apply Hne, Huniq; [done|by eexists].
      + intros kb c Hc. by right.
    - split; [done|]. eexists. split; [rewrite EB; apply lookup_insert_eq|]. split; [done|]. split; [done|].
      pose proof (replaced_bindings w k row row next _ stamp Hw Hrow Hk eq_refl Hvn eq_refl _ EB) as HR. exact HR. }
  destruct Hnew as (Hvn & b & Hb & Hbt & Hbk & Hno & Hin & Hoth).
  assert (Hrole : role_of w' row' next) by (unfold role_of; rewrite Ht, Hid, Hk; by exists b).
  split_and!; [|intros t Hguard|done|by eapply others_given].
  - apply (members_ok_given w w' k row' next b); rewrite ?Ht; try done; [congruence|].
    intros old Hold. rewrite Hrow in Hold. congruence.
  - apply (has_owner_given w w' k row'); try done; [congruence|]. intros old Hold Hto Hso Hro.
    rewrite Hrow in Hold. injection Hold as <-.
    assert (Hco : current = RoleOwner) by (symmetry; apply Huniq; [done|unfold role_of in Hro; by rewrite Hk in Hro]).
    destruct (decide (next = RoleOwner /\ mb_Status row' = StatusActive)) as [[Hn Hs]|Hcase].
    + left. split; [congruence|]. split; [done|]. by rewrite <-Hn.
    + right. apply Hguard; [done..|]. destruct (decide (next = RoleOwner)); [right; naive_solver|by left].
Qed.

(** What the writes of an update do, to members and to owners. *)
Definition write_post (row : Member) (k current next status : string) w (r : error + View) w' : Prop :=
  match r with
  | inl _ => True
  | inr v => members_ok w' /\
      (forall t, (t = mb_TenantID row -> guarded current next status w t k) -> has_owner w t -> has_owner w' t) /\
      (forall k', k' <> k -> member_kept k' w w') /\
      role_of w' (vw_Member v) (vw_Role v) /\ vw_Role v = next /\ mb_Status (vw_Member v) = status /\
      mb_TenantID (vw_Member v) = mb_TenantID row /\
      rows (tenant_members w') = <[k := vw_Member v]> (rows (tenant_members w)) /\ md_tenants w' = md_tenants w
  end.

(** What an update of a member does when it commits. *)
Definition update_post (t id : string) w (r : error + View) w' : Prop :=
  match r with
  | inl _ => True
  | inr v => members_ok w' /\ keeps_owners w w' /\ role_of w' (vw_Member v) (vw_Role v) /\
      (exists row, rows (tenant_members w) !! id = Some row /\ mb_TenantID row = t) /\
      rows (tenant_members w') = <[id := vw_Member v]> (rows (tenant_members w)) /\ md_tenants w' = md_tenants w
  end.

Lemma wp_write_update h w k row current next status name hash now :
  members_ok w -> rows (tenant_members w) !! k = Some row -> ValidRole current = true -> role_of w row current ->
  wp h (write_update row current next status name hash now) w (write_post row k current next status w).
Proof.
  intros Hw Hrow Hvc Hcur. pose proof (mo_id w Hw _ _ Hrow) as Hk. unfold write_update. wp_step. wp_step; [done|].
  set (T := update_rows _ _ _). set (row' := assigned status name hash now row).
  assert (HT : rows T = <[k := row']> (rows (tenant_members w))).
  { apply rows_update_unique; [done|by apply bool_decide_eq_true_2|].
    intros k' r' Hr' E'. bools. rewrite <-(mo_id w Hw _ _ Hr'). congruence. }
  assert (Htake : forall x, (next = current /\ x = md_rbac w \/
     next <> current /\ ValidRole next = true /\ exists stamp, rows (rbac_role_bindings x) =
       <[(RoleID (mb_TenantID row) next, PrincipalTenantUser, k) :=
          mkRoleBinding (RoleID (mb_TenantID row) next) PrincipalTenantUser k (Some (mb_TenantID row)) stamp]>
       (filter (fun kb => role_binding_of row kb.2 = false) (bindings_of w))) ->
     wp h (row' ← take_row members_f (fun r => bool_decide (mb_ID r = mb_ID row)); mret (mkView row' next))
       (mkMemberDB (md_tenants w) T x) (write_post row k current next status w)).
  { intros x Hx. wp_step. apply wp_take; simpl; [done|done|]. intros k2 r2 Hr2 E2. wp_step. bools.
    assert (r2 = row') as ->.
    { rewrite HT, lookup_insert in Hr2. case_decide; [by injection Hr2 as <-|].
      pose proof (mo_id w Hw _ _ Hr2). congruence. }
    destruct (update_written w (mkMemberDB (md_tenants w) T x) k row row' current next) as (HA & HB & HC & HD); try done.
    destruct Hx as [[-> ->]|(Hne & Hv & stamp & Ex)]; [by left|]. right. split_and!; [done|done|]. by exists stamp. }
  wp_step. wp_step; bools.
  - wp_step. eapply wp_mono; [apply wp_replaceRole|]. simpl. intros [e|u] x HQ; [done|].
    destruct HQ as (Hv & HB). apply Htake. right. split_and!; [done|done|]. exists now. rewrite HB. by rewrite Hk.
  - wp_step. apply Htake. by left.
Qed.

Lemma wp_guard_last_owner h w t id current next status (Q : error + unit -> MemberDB -> Prop) :
  (forall e, Q (inl e) w) ->
  members_ok w -> (guarded current next status w t id -> Q (inr tt) w) ->
  wp h (guard_last_owner t id current next status) w Q.
Proof.
  intros Hf Hw HQ. unfold guard_last_owner. wp_step.
  - wp_step. apply wp_sql; [done|]. cbn [fst snd]. wp_step; wp_step; [done|]. bools. apply HQ. intros _ _.
    by apply other_owners_spec.
  - wp_step. apply HQ. intros -> Hor. rewrite bool_decide_eq_true_2 in * by done. simpl in *. bools. tauto.
Qed.

(** The stages that only compute leave the database alone. *)
Lemma wp_next_role h w current role (Q : error + string -> MemberDB -> Prop) :
  (forall r, Q r w) -> wp h (next_role current role) w Q.
Proof. intros HQ. unfold next_role. destruct role; repeat wp_step; apply HQ. Qed.

Lemma wp_next_status h w current status (Q : error + string -> MemberDB -> Prop) :
  (forall r, Q r w) -> wp h (next_status current status) w Q.
Proof. intros HQ. unfold next_status. destruct status; repeat wp_step; apply HQ. Qed.

Lemma wp_new_values h w input salt (Q : error + (option string * option string) -> MemberDB -> Prop) :
  (forall r, Q r w) -> wp h (new_values input salt) w Q.
Proof.
  intros HQ. unfold new_values.
  assert (Hp : forall name, wp h (match ui_Password input with
      | None => mret (name, None) | Some p => h ← of_result (hashPassword p salt); mret (name, Some h) end) w Q).
  { intros name. destruct (ui_Password input) as [p|]; [|wp_step; apply HQ].
    destruct (hashPassword p salt); cbn [of_result]; repeat wp_step; apply HQ. }
  wp_step. destruct (ui_DisplayName input); repeat wp_step; try apply HQ; apply Hp.
Qed.

Lemma wp_UpdateMember h w t id input salt now :
  members_ok w -> wp h (UpdateTx t id input salt now) w (update_post t id w).
Proof.
  intros Hw. unfold UpdateTx. wp_step; [by wp_step|]. wp_step. apply wp_load_member; [done|done|].
  intros row Hrow <-. wp_step. wp_step. apply (wp_memberRole h w id row); [done|done|done|].
  intros current Hvc Hcur. assert (Ew : mkMemberDB (md_tenants w) (tenant_members w) (md_rbac w) = w) by by destruct w.
  rewrite Ew. clear Ew. wp_step. apply wp_next_role. intros [e|next]; [done|]. wp_step. apply wp_next_status.
  intros [e|status]; [done|]. wp_step. apply wp_guard_last_owner; [done|done|]. intros Hg.
  wp_step. apply wp_new_values. intros [e|[name hash]]; [done|]. eapply wp_mono; [by apply wp_write_update|].
  intros [e|v] w' HP; [done|]. destruct HP as (H1' & H2' & _ & H4' & _ & _ & _ & H8' & H9').
  rewrite (mo_id w Hw _ _ Hrow) in Hg. split_and!; try done; [|by exists row]. intros t. apply H2'. by intros ->.
Qed.

(** ** Calls *)
Inductive member_call :=
| CallCreate (input : CreateInput) (salt : string) (random : error + string) (now : Z)
| CallUpdate (t id : string) (input : UpdateInput) (salt : string) (now : Z)
| CallAuthenticate (slug email password : string) (now : Z)
| CallEnsureTenantRoles (t : string) (now : Z).

Definition run_member (c : member_call) : M MemberDB unit :=
  match c with
  | CallCreate input salt random now => Create input salt random now;; mret tt
  | CallUpdate t id input salt now => Update t id input salt now;; mret tt
  | CallAuthenticate slug email password now => Authenticate lower slug email password now;; mret tt
  | CallEnsureTenantRoles t now => zoom rbac_f (EnsureTenantRoles t now)
  end.

Inductive member_step : MemberDB -> MemberDB -> Prop :=
| member_step_call c r w w' : outcome (run_member c) w r w' -> member_step w w'.

Lemma wp_seed_role h x t now def :
  wp h (seed_role t now def) x (fun _ x' => rbac_role_bindings x' = rbac_role_bindings x).
Proof.
  destruct def as [[name description] permissions]. unfold seed_role.
  assert (Hp : forall y, rbac_role_bindings y = rbac_role_bindings x ->
    wp h (delete_where permissions_f (fun r => bool_decide (rp_RoleID r = RoleID t name));;
      mapM (fun permission => create permissions_f (same_permission (RoleID t name) permission) (RoleID t name, permission)
              (mkRolePermission (RoleID t name) permission)) permissions;;
      mret tt) y (fun _ x' => rbac_role_bindings x' = rbac_role_bindings x)).
  { intros y Hy. wp_step. wp_step; [done|]. wp_step.
    apply wp_mapM with (I := fun _ _ x' => rbac_role_bindings x' = rbac_role_bindings x); [done| |].
    - intros. by repeat wp_step.
    - intros. by wp_step. }
  wp_step. repeat wp_step; try done; intros; by apply Hp.
Qed.

Lemma wp_EnsureTenantRoles h x t now :
  wp h (EnsureTenantRoles t now) x (fun _ x' => rbac_role_bindings x' = rbac_role_bindings x).
Proof.
  unfold EnsureTenantRoles, EnsureTenantRolesTx. generalize role_definitions. intros defs.
  wp_step; [by wp_step|]. wp_step. wp_step.
  apply wp_mapM with (I := fun _ _ x' => rbac_role_bindings x' = rbac_role_bindings x); [done| |].
  - intros fin def rest acc x' _ Hx. eapply wp_mono; [apply wp_seed_role|]. intros [e|u] y Hy; [done|congruence].
  - intros acc x' Hx. by wp_step.
Qed.

(** A login writes the login times of an active member only. *)
Lemma members_ok_login w k row now x :
  members_ok w -> rows (tenant_members w) !! k = Some row ->
  rows x = <[k := logged_in now row]> (rows (tenant_members w)) ->
  members_ok (mkMemberDB (md_tenants w) x (md_rbac w)) /\ all_kept w (mkMemberDB (md_tenants w) x (md_rbac w)).
Proof.
  intros Hw Hrow E. destruct (mo_role w Hw _ _ Hrow) as (current & Hvc & Hcur & _).
  destruct (update_written w (mkMemberDB (md_tenants w) x (md_rbac w)) k row (logged_in now row) current current) as (A & _ & _ & D);
    try done; [by left|]. split; [done|]. intros k'. destruct (decide (k' = k)) as [->|Hne]; [|by apply D].
  intros m Hm. assert (m = row) as -> by congruence. split; [|done]. exists (logged_in now row). simpl. by rewrite E, lookup_insert_eq.
Qed.

Lemma wp_AuthenticateMember h w slug email password now :
  members_ok w ->
  wp h (Authenticate lower slug email password now) w (fun r w' => members_ok w' /\ all_kept w w' /\
    match r with
    | inl _ => True
    | inr v => exists k row, rows (tenant_members w) !! k = Some row /\ mb_Status row = StatusActive /\
        normalizeEmail email = inr (mb_Email row) /\
        (exists kt t, rows (md_tenants w) !! kt = Some t /\ tn_ID t = mb_TenantID row /\
           lower (tn_Slug t) = to_lower (trim_space slug)) /\
        CompareHashAndPassword (mb_PasswordHash row) password = true /\ role_of w row (vw_Role v) /\
        ValidRole (vw_Role v) = true /\ mb_ID (vw_Member v) = k /\ mb_TenantID (vw_Member v) = mb_TenantID row
    end).
Proof.
  intros Hw. assert (Hself : all_kept w w) by (intros k; apply member_kept_refl).
  unfold Authenticate. destruct (normalizeEmail email) as [e|normalized] eqn:En; [by wp_step|].
  wp_step; [by wp_step|]. wp_step. wp_step. apply wp_sql; simpl; [by intros _ msg; wp_step|].
  unfold login_row. destruct (where_ _ (tenant_members w)) as [|row l] eqn:El; [by wp_step|].
  apply where_head in El as (k & Hrow & Hp). bools. wp_step; [by wp_step|]. bools. wp_step. wp_step; [done|].
  match goal with E : existsb _ _ = true |- _ => apply existsb_where in E as (kt & t & Hkt & Ht) end. bools.
  pose proof (mo_id w Hw _ _ Hrow) as Hk. set (x := update_rows _ _ _).
  assert (Hx : rows x = <[k := logged_in now row]> (rows (tenant_members w))).
  { apply rows_update_unique; [done|by apply bool_decide_eq_true_2|].
    intros k' r' Hr' E'. bools. rewrite <-(mo_id w Hw _ _ Hr'). congruence. }
  destruct (members_ok_login w k row now x) as [HA HB]; [done..|].
  wp_step. wp_step. wp_step. apply (wp_memberRole h w k row); [done|done|intros _ e; by wp_step|].
  intros role Hv Hr. wp_step. split; [done|split; [done|]]. exists k, row. split_and!; try done; [congruence|by exists kt, t].
Qed.

(** Nothing is lost by a write that touches neither members nor bindings. *)
Lemma members_ok_same w w' :
  tenant_members w' = tenant_members w -> bindings_of w' = bindings_of w -> members_ok w ->
  members_ok w' /\ all_kept w w'.
Proof.
  intros Em Eb Hw. split.
  - split; unfold role_of; rewrite ?Em, ?Eb; apply Hw.
  - intros k m Hm. rewrite Em, Eb. split; [by exists m|done].
Qed.

(** A call that is not an update keeps every member as it is. *)
Definition is_update (c : member_call) : bool := match c with CallUpdate _ _ _ _ _ => true | _ => false end.

Lemma call_keeps c w r w' : is_update c = false -> members_ok w -> outcome (run_member c) w r w' -> members_ok w' /\ all_kept w w'.
Proof.
  intros Hc Hw Ho. assert (Hsame : members_ok w /\ all_kept w w) by (split; [done|intros k; apply member_kept_refl]).
  eapply (wp_outcome _ _ (fun _ w' => members_ok w' /\ all_kept w w')); [|exact Ho].
  destruct c as [input salt random now|t id input salt now|slug email password now|t now]; [|done|..]; simpl run_member.
  - wp_step. unfold Create. apply wp_transaction. eapply wp_mono; [by apply wp_CreateMember|]. intros [e|v] wx HQ; [done|]. split; [done|].
    wp_step. destruct HQ as (A & B & _). done.
  - wp_step. eapply wp_mono; [by apply wp_AuthenticateMember|]. intros [e|v] wx (A & B & _); [done|]. by wp_step.
  - wp_step. eapply wp_mono; [apply wp_EnsureTenantRoles|]. simpl. intros r' x Hx.
    apply members_ok_same; [done| |done]. unfold bindings_of. simpl. by rewrite Hx.
Qed.

Lemma member_step_ok w w' : member_step w w' -> members_ok w -> members_ok w' /\ keeps_owners w w'.
Proof.
  intros [c r w0 w1 Ho] Hw. destruct (is_update c) eqn:Ec.
  - destruct c as [|t id input salt now| |]; try done. clear Ec.
    assert (Hsame : members_ok w0 /\ keeps_owners w0 w0) by (split; [done|intros t' Ht'; exact Ht']).
    eapply (wp_outcome _ _ (fun _ w' => members_ok w' /\ keeps_owners w0 w')); [|exact Ho]. simpl run_member.
    wp_step. unfold Update. apply wp_transaction. eapply wp_mono; [by apply wp_UpdateMember|]. intros [e|v] wx HQ; [done|]. split; [done|].
    wp_step. destruct HQ as (A & B & _). done.
  - destruct (call_keeps c w0 r w1 Ec Hw Ho) as [A B]. split; [done|]. by apply all_kept_owners.
Qed.

Definition no_members w : Prop :=
  rows (tenant_members w) = ∅ /\ forall k, bindings_of w !! k = None.

Lemma no_members_ok w : no_members w -> members_ok w.
Proof. intros [E1 E2]. split; try (intros *; rewrite E1, lookup_empty; done); intros *; by rewrite E2. Qed.

Lemma member_steps_ok w w' : rtc member_step w w' -> members_ok w -> members_ok w' /\ keeps_owners w w'.
Proof.
  induction 1 as [w|w1 w2 w3 Hs _ IH]; intros Hw; [by split; [|intros t Ht]|].
  destruct (member_step_ok _ _ Hs Hw) as [Hw2 H12]. destruct (IH Hw2) as [Hw3 H23]. split; [done|].
  intros t Ht. by apply H23, H12.
Qed.

(** A login is what it claims: when Authenticate answers with a member, that
    member is stored, active, of a tenant with the given slug, has the given
    address and the role answered, and the password, when bcrypt sees all of
    it (72 bytes, no NUL), is the very one its stored hash was made of. *)
Theorem authenticate_sound w slug email password now v w' :
  members_ok w -> outcome (Authenticate lower slug email password now) w (inr v) w' ->
  exists row, rows (tenant_members w) !! mb_ID (vw_Member v) = Some row /\ mb_Status row = StatusActive /\
    mb_TenantID (vw_Member v) = mb_TenantID row /\ normalizeEmail email = inr (mb_Email row) /\
    (exists kt t, rows (md_tenants w) !! kt = Some t /\ tn_ID t = mb_TenantID row /\
       lower (tn_Slug t) = to_lower (trim_space slug)) /\
    role_of w row (vw_Role v) /\ ValidRole (vw_Role v) = true /\
    (forall set salt, hashPassword set salt = inr (mb_PasswordHash row) -> (String.length password <= 72)%nat ->
       no_nul set -> no_nul password -> password = set).
Proof.
  intros Hw Hout. apply (wp_outcome _ _ _ _ _ (wp_AuthenticateMember false w slug email password now Hw)) in Hout.
  destruct Hout as (_ & _ & k & row & Hrow & Hst & He & Hs & Hc & Hr & Hv & Hid & Ht). exists row. rewrite Hid.
  split_and!; try done. intros set salt Hh Hlen Hn1 Hn2. unfold hashPassword in Hh. destruct (_ || _); [done|].
  destruct (GenerateFromPassword set salt) as [e|hash] eqn:Eg; [done|]. injection Hh as ->.
  rewrite (bcrypt_compare _ _ _ _ Eg Hlen Hn1 Hn2) in Hc. by bools.
Qed.

(** The length rule of passwords: fewer than 12 or more than 1024 bytes are
    refused as the message says, 12 to 72 are accepted, and 73 to 1024, which
    the rule admits, are refused by bcrypt. *)
Theorem password_bounds password salt :
  let n := String.length password in
  ((n < 12 \/ 1024 < n)%nat ->
     hashPassword password salt = inl (Wrap "%w: password must be 12-1024 characters" ErrInvalidMember)) /\
  ((12 <= n <= 72)%nat -> exists h, hashPassword password salt = inr h) /\
  ((72 < n <= 1024)%nat -> hashPassword password salt =
     inl (Wrap "member: hash password: %w" (New "bcrypt: password length exceeds 72 bytes"))).
Proof.
  intros n. unfold hashPassword. fold n. split_and!; intros Hn.
  - destruct Hn as [Hn|Hn]; [by rewrite (proj2 (Nat.ltb_lt n 12) Hn)|].
    by rewrite (proj2 (Nat.ltb_lt 1024 n) Hn), orb_true_r.
  - rewrite (proj2 (Nat.ltb_ge n 12)), (proj2 (Nat.ltb_ge 1024 n)) by lia. simpl.
    destruct (bcrypt_short password salt) as [h ->]; [unfold n in Hn; lia|]. by exists h.
  - rewrite (proj2 (Nat.ltb_ge n 12)), (proj2 (Nat.ltb_ge 1024 n)) by lia. simpl.
    rewrite bcrypt_long; [done|unfold n in Hn; lia].
Qed.

End Roles.

(** ** Witnesses *)
Definition plain_mail : GoMail := {| ParseAddress := fun s => if contains s "@" then inr s else inl (New "mail: no address") |}.

#[refine] Definition plain_bcrypt : Bcrypt := {|
  GenerateFromPassword pw salt := if (72 <? String.length pw)%nat
    then inl (New "bcrypt: password length exceeds 72 bytes") else inr pw;
  CompareHashAndPassword h pw := bool_decide (pw = h) |}.
Proof.
  - intros pw salt Hl. exists pw. by rewrite (proj2 (Nat.ltb_ge 72 _) Hl).
  - intros pw salt Hl. by rewrite (proj2 (Nat.ltb_lt 72 _) Hl).
  - intros pw salt h pw' Hg _ _ _. destruct (72 <? _)%nat; [done|]. by injection Hg as ->.
Defined.

Definition demo_tenants : gmap string Tenant := {["t1" := mkTenant "t1" "acme" "Acme" Lifecycle.StatusActive None 1 1 1]}.
Definition demo_before : @MemberDB map_sql := @mkMemberDB map_sql demo_tenants ∅ (@mkRbacDB map_sql ∅ ∅ ∅).
Definition demo_owner : CreateInput := mkCreateInput "t1" "Ann@x.io" "Ann" "correct horse" RoleOwner.
Definition demo_run : @member_call -> M (@MemberDB map_sql) unit :=
  @run_member map_sql ascii_unicode plain_mail plain_bcrypt ascii_lower.
Definition demo_seeded : @MemberDB map_sql := after (demo_run (CallEnsureTenantRoles "t1" 5)) demo_before.
Definition demo_members : @MemberDB map_sql :=
  after (demo_run (CallCreate demo_owner "s" (inr "A") 6)) demo_seeded.
Lemma authenticate_sound_witness : exists v,
  result (@Authenticate map_sql ascii_unicode plain_mail plain_bcrypt ascii_lower " ACME" "ann@x.io" "correct horse" 9) demo_members
    = inr v /\ vw_Role v = RoleOwner /\
  exists row, rows (tenant_members demo_members) !! mb_ID (vw_Member v) = Some row /\ mb_TenantID (vw_Member v) = mb_TenantID row.
Proof.
  destruct (result (@Authenticate map_sql ascii_unicode plain_mail plain_bcrypt ascii_lower " ACME" "ann@x.io" "correct horse" 9)
    demo_members) as [e|v] eqn:E; [exfalso; revert E; vm_compute; discriminate|].
  assert (Hv : (fun r => match r with inr v => vw_Role v | inl _ => EmptyString end)
    (result (@Authenticate map_sql ascii_unicode plain_mail plain_bcrypt ascii_lower " ACME" "ann@x.io" "correct horse" 9) demo_members)
    = RoleOwner) by (vm_compute; reflexivity). rewrite E in Hv.
  exists v. split; [reflexivity|]. split; [exact Hv|].
  pose proof (outcome_after (@Authenticate map_sql ascii_unicode plain_mail plain_bcrypt ascii_lower " ACME" "ann@x.io" "correct horse" 9)
    demo_members) as Ho. rewrite E in Ho.
  apply (@authenticate_sound map_sql ascii_unicode plain_mail plain_bcrypt ascii_lower) in Ho.
  - destruct Ho as (row & H1 & _ & H2 & _). exists row. split; [exact H1|exact H2].
  - apply (@member_steps_ok map_sql ascii_unicode plain_mail plain_bcrypt ascii_lower demo_before demo_members).
    + eapply rtc_l; [econstructor; apply outcome_after|]. eapply rtc_l; [econstructor; apply outcome_after|]. apply rtc_refl.
    + apply no_members_ok. split; [reflexivity|]. intros k. apply lookup_empty.
Defined.
