(* ===== verification/MemberConcurrency.v ===== *)
(** * Concurrent updates of members (internal/member/member.go: UpdateTx)

    UpdateTx in the three phases its transaction has under read committed: it
    locks and reads the member's row, counts the other owners on what is
    committed by then, and writes; the writes are seen by others when it
    commits.  Between the phases every other call may run.  The table of row
    locks is the map of the updates in flight, by the member they hold. *)
From S2P Require Import Prelude GoStrings Sql Lifecycle ControlPlane Rbac Member.

(** What an update has settled when it comes to write. *)
Record Assignment := mkAssignment {
  dc_Row : Member; dc_Current : string; dc_Next : string; dc_Status : string;
  dc_Name : option string; dc_Hash : option string }.

Inductive phase :=
| Locked (t : string) (input : UpdateInput) (salt : string) (row : Member) (role : string)
| Decided (d : Assignment).

(** The update takes an owner, or an owner's activity, away. *)
Definition removes_owner (d : Assignment) : bool :=
  bool_decide (dc_Current d = RoleOwner) &&
  (negb (bool_decide (dc_Next d = RoleOwner)) || negb (bool_decide (dc_Status d = StatusActive))).

Section Phases.
  Context `{Sql} `{GoUnicode} `{GoMail} `{Bcrypt}.
  Variable lower : string -> string.
  Implicit Types (w : MemberDB) (m row : Member) (d : Assignment).

(** SELECT ... FOR UPDATE of the row, and its role. *)
Definition lock_member (t id : string) : M MemberDB (Member * string) :=
  if is_empty t || blank id then throw ErrInvalidMember else
  row ← load_member t id;
  role ← zoom rbac_f (memberRole row);
  mret (row, role).

(** The checks, the count of the other owners among them. *)
Definition decide_update (t : string) (input : UpdateInput) (salt : string) (row : Member) (current : string) :
    M MemberDB Assignment :=
  next ← next_role current (ui_Role input);
  status ← next_status (mb_Status row) (ui_Status input);
  guard_last_owner t (mb_ID row) current next status;;
  values ← new_values input salt;
  mret (mkAssignment row current next status values.1 values.2).

Definition write_assignment (d : Assignment) (now : Z) : M MemberDB View :=
  write_update (dc_Row d) (dc_Current d) (dc_Next d) (dc_Status d) (dc_Name d) (dc_Hash d) now.

(** The phases one after another are UpdateTx. *)
Lemma UpdateTx_phases t id input salt now w sc :
  UpdateTx t id input salt now w sc =
    (lr ← lock_member t id; d ← decide_update t input salt lr.1 lr.2; write_assignment d now) w sc.
Proof.
  unfold UpdateTx, lock_member, decide_update. destruct (_ || _); [done|]. unfold mbind, M_bind.
  destruct (load_member t id w sc) as [[[e|row] w1] sc1]; [done|].
  destruct (zoom rbac_f (memberRole row) w1 sc1) as [[[e|role] w2] sc2]; [done|]. cbn [fst snd mret M_ret].
  destruct (next_role role _ w2 sc2) as [[[e|next] w3] sc3]; [done|].
  destruct (next_status _ _ w3 sc3) as [[[e|status] w4] sc4]; [done|].
  destruct (guard_last_owner _ _ _ _ _ w4 sc4) as [[[e|[]] w5] sc5]; [done|].
  by destruct (new_values input salt w5 sc5) as [[[e|values] w6] sc6].
Qed.

(** ** The system: what is committed, and the updates in flight *)
Record System := mkSystem { sy_db : MemberDB; sy_open : gmap string phase }.

(** An update of tenant [t] other than the one of the member [id] has counted
    and is about to take an owner away. *)
Definition removal_open (open : gmap string phase) (t id : string) : Prop := exists id' d,
  id' <> id /\ open !! id' = Some (Decided d) /\ mb_TenantID (dc_Row d) = t /\ removes_owner d = true.

(** [serial]: the tenants whose removals of owners are kept apart, from the count
    of one to its commit, by whoever calls the store.  A login waits for the
    lock of its row; letting it pass only adds runs. *)
Inductive concurrent_step (serial : string -> Prop) : System -> System -> Prop :=
| step_call c r w w' open : is_update c = false -> outcome (run_member lower c) w r w' ->
    concurrent_step serial (mkSystem w open) (mkSystem w' open)
| step_lock t id input salt row role w open :
    outcome (lock_member t id) w (inr (row, role)) w -> open !! mb_ID row = None ->
    concurrent_step serial (mkSystem w open) (mkSystem w (<[mb_ID row := Locked t input salt row role]> open))
| step_decide t id input salt row role d w open :
    open !! id = Some (Locked t input salt row role) -> outcome (decide_update t input salt row role) w (inr d) w ->
    (serial t -> removes_owner d = true -> ~ removal_open open t id) ->
    concurrent_step serial (mkSystem w open) (mkSystem w (<[id := Decided d]> open))
| step_commit id d now v w w' open :
    open !! id = Some (Decided d) -> outcome (transaction (write_assignment d now)) w (inr v) w' ->
    concurrent_step serial (mkSystem w open) (mkSystem w' (delete id open))
| step_rollback id w open : concurrent_step serial (mkSystem w open) (mkSystem w (delete id open)).

(** *** What the phases settle *)
Lemma wp_lock_member h w t id : members_ok w ->
  wp h (lock_member t id) w (fun r w' => w' = w /\ match r with
    | inl _ => True
    | inr (row, role) => rows (tenant_members w) !! mb_ID row = Some row /\ mb_TenantID row = t /\
        ValidRole role = true /\ role_of w row role
    end).
Proof.
  intros Hw. unfold lock_member. wp_step; [by wp_step|]. wp_step. apply wp_load_member; [done|done|].
  intros row Hrow Ht. wp_step. wp_step. apply (wp_memberRole lower h w id row); [done|done|by intros _ e; split; [destruct w|]|].
  intros role Hv Hr. wp_step. split; [by destruct w|]. by rewrite (mo_id w Hw _ _ Hrow).
Qed.

Lemma wp_decide_update h w t input salt row current : members_ok w ->
  wp h (decide_update t input salt row current) w (fun r w' => w' = w /\ match r with
    | inl _ => True
    | inr d => dc_Row d = row /\ dc_Current d = current /\ guarded current (dc_Next d) (dc_Status d) w t (mb_ID row)
    end).
Proof.
  intros Hw. unfold decide_update. wp_step. apply wp_next_role. intros [e|next]; [done|]. wp_step. apply wp_next_status.
  intros [e|status]; [done|]. wp_step. apply (wp_guard_last_owner lower); [done|done|]. intros Hg.
  wp_step. apply wp_new_values. intros [e|values]; [done|]. by wp_step.
Qed.

(** The writes depend on the row that was read by its identity only. *)
Lemma write_update_same row m current next status name hash now :
  mb_ID m = mb_ID row -> mb_TenantID m = mb_TenantID row ->
  write_update row current next status name hash now = write_update m current next status name hash now.
Proof. destruct row, m. simpl. intros -> ->. reflexivity. Qed.

(** *** The invariant *)

(** What a transaction has read of its member stays true while it holds the lock. *)
Definition still_true w (id : string) row (role : string) : Prop :=
  ValidRole role = true /\ exists m, rows (tenant_members w) !! id = Some m /\
    mb_ID m = mb_ID row /\ mb_TenantID m = mb_TenantID row /\ role_of w m role.

Definition phase_ok (serial : string -> Prop) w (id : string) (p : phase) : Prop :=
  match p with
  | Locked t _ _ row role => still_true w id row role /\ mb_TenantID row = t
  | Decided d => still_true w id (dc_Row d) (dc_Current d) /\
      (serial (mb_TenantID (dc_Row d)) -> removes_owner d = true -> another_owner w (mb_TenantID (dc_Row d)) id)
  end.

Record system_ok (serial : string -> Prop) (s : System) : Prop := {
  so_members : members_ok (sy_db s);
  so_phases : forall id p, sy_open s !! id = Some p -> phase_ok serial (sy_db s) id p;
  so_apart : forall id d, sy_open s !! id = Some (Decided d) -> serial (mb_TenantID (dc_Row d)) ->
    removes_owner d = true -> ~ removal_open (sy_open s) (mb_TenantID (dc_Row d)) id }.

Lemma removes_owner_spec d : removes_owner d = true <->
  dc_Current d = RoleOwner /\ (dc_Next d <> RoleOwner \/ dc_Status d <> StatusActive).
Proof. unfold removes_owner. rewrite andb_true_iff, orb_true_iff, !negb_true_iff, !bool_decide_eq_false, bool_decide_eq_true. done. Qed.

Lemma still_true_kept w w' id row role : members_ok w -> member_kept id w w' -> still_true w id row role -> still_true w' id row role.
Proof.
  intros Hw Hk (Hv & m & Hm & E1 & E2 & Hr). split; [done|]. destruct (Hk _ Hm) as [(m' & Hm' & F1 & F2 & _) _].
  exists m'. split_and!; [done|congruence|congruence|]. apply (role_kept id w w' m m'); try done. by apply (mo_id w Hw).
Qed.

Lemma another_owner_kept w w' t id : members_ok w -> (forall k, k <> id -> owner_at w t k -> owner_at w' t k) ->
  another_owner w t id -> another_owner w' t id.
Proof. intros Hw Hk (k & Hne & Ho). exists k. split; [done|by apply Hk]. Qed.

Lemma phase_kept serial w w' id p : members_ok w -> all_kept w w' -> phase_ok serial w id p -> phase_ok serial w' id p.
Proof.
  intros Hw Hk. destruct p as [t input salt row role|d]; simpl.
  - intros [Hs Ht]. split; [by eapply still_true_kept|done].
  - intros [Hs Hg]. split; [by eapply still_true_kept|]. intros Hser Hrm. apply (another_owner_kept w); [done| |by apply Hg].
    intros k _. by apply owner_kept.
Qed.

(** A commit, on the row as it stands. *)
Lemma commit_post w id d now v w' : members_ok w -> still_true w id (dc_Row d) (dc_Current d) ->
  outcome (transaction (write_assignment d now)) w (inr v) w' ->
  exists m, rows (tenant_members w) !! id = Some m /\ mb_TenantID m = mb_TenantID (dc_Row d) /\ role_of w m (dc_Current d) /\
    write_post m id (dc_Current d) (dc_Next d) (dc_Status d) w (inr v) w'.
Proof.
  intros Hw (Hv & m & Hm & E1 & E2 & Hr) Ho. exists m. split; [done|]. split; [done|]. split; [done|].
  unfold write_assignment in Ho. rewrite (write_update_same (dc_Row d) m) in Ho by done.
  eapply (wp_outcome _ _ (fun r w' => match r with inl _ => True | inr v => write_post m id (dc_Current d) (dc_Next d) (dc_Status d) w (inr v) w' end)
    (inr v)); [|exact Ho].
  apply wp_transaction. eapply wp_mono; [by apply (wp_write_update lower)|]. by intros [e|u] w1 HP.
Qed.

(** An owner is one still after another member's commit, and after its own unless
    that takes it away. *)
Lemma commit_owner w id d v w' m t k : members_ok w -> rows (tenant_members w) !! id = Some m ->
  role_of w m (dc_Current d) -> ValidRole (dc_Current d) = true ->
  write_post m id (dc_Current d) (dc_Next d) (dc_Status d) w (inr v) w' ->
  (k = id -> removes_owner d = false) -> owner_at w t k -> owner_at w' t k.
Proof.
  intros Hw Hm Hr Hv (_ & _ & Hk & Hr' & En & Es & Et & Em & _) Hno Ho.
  destruct (decide (k = id)) as [->|Hne]; [|by apply (owner_kept w); [|apply Hk|]].
  destruct Ho as (m0 & Hm0 & Ht0 & Hs0 & Hr0). assert (m0 = m) as -> by congruence.
  destruct (mo_role w Hw _ _ Hm) as (r & _ & _ & Hall). assert (Hc : dc_Current d = RoleOwner).
  { transitivity r; [by apply Hall|symmetry; by apply Hall]. }
  assert (Hkeep : ~ (dc_Next d <> RoleOwner \/ dc_Status d <> StatusActive)).
  { intros Hor. by rewrite (proj2 (removes_owner_spec d) (conj Hc Hor)) in Hno; specialize (Hno eq_refl). }
  exists (vw_Member v). rewrite Em, lookup_insert_eq. split; [done|]. split; [congruence|].
  assert (En' : dc_Next d = RoleOwner) by (destruct (decide (dc_Next d = RoleOwner)); tauto).
  assert (Es' : dc_Status d = StatusActive) by (destruct (decide (dc_Status d = StatusActive)); tauto).
  split; [congruence|]. by rewrite <-En', <-En.
Qed.

Lemma removal_open_delete open t id i : removal_open (delete i open) t id -> removal_open open t id.
Proof. intros (k & d & Hne & [_ Hk]%lookup_delete_Some & Ht & Hrm). by exists k, d. Qed.

(** A phase entered on the row [i] opens a removal only when it is one. *)
Lemma removal_open_insert open t id i p : removal_open (<[i := p]> open) t id ->
  removal_open open t id \/
  i <> id /\ exists d, p = Decided d /\ mb_TenantID (dc_Row d) = t /\ removes_owner d = true.
Proof.
  intros (k & d & Hne & [[-> ->]|[_ Hk]]%lookup_insert_Some & Ht & Hrm); [right|left; by exists k, d].
  split; [done|]. by exists d.
Qed.

(** *** Every step keeps the invariant *)
Section Invariant.
  Variable serial : string -> Prop.
  Implicit Types (open : gmap string phase).

Lemma ok_db w w' open : members_ok w' -> (forall id p, open !! id = Some p -> phase_ok serial w id p -> phase_ok serial w' id p) ->
  system_ok serial (mkSystem w open) -> system_ok serial (mkSystem w' open).
Proof. intros Hw' Hp [_ S2 S3]. split; [done| |done]. intros id p Hid. by apply Hp, S2. Qed.

Lemma ok_delete w open id : system_ok serial (mkSystem w open) -> system_ok serial (mkSystem w (delete id open)).
Proof.
  intros [S1 S2 S3]. split; [done|..]; simpl.
  - intros i p [_ Hi]%lookup_delete_Some. by apply S2.
  - intros i d [_ Hi]%lookup_delete_Some Hs Hrm Ho. by apply (S3 i d Hi Hs Hrm), (removal_open_delete open _ _ id).
Qed.

Lemma ok_insert w open id p : system_ok serial (mkSystem w open) -> phase_ok serial w id p ->
  (forall d, p = Decided d -> serial (mb_TenantID (dc_Row d)) -> removes_owner d = true ->
     ~ removal_open open (mb_TenantID (dc_Row d)) id) ->
  system_ok serial (mkSystem w (<[id := p]> open)).
Proof.
  intros [S1 S2 S3] Hp Hd. split; [done|..]; simpl.
  - intros i q [[<- <-]|[_ Hi]]%lookup_insert_Some; [done|by apply S2].
  - intros i d [[<- ->]|[Hne Hi]]%lookup_insert_Some Hs Hrm Ho.
    + apply removal_open_insert in Ho as [Ho|[[] _]]; [by eapply Hd|done].
    + apply removal_open_insert in Ho as [Ho|(_ & d' & -> & Ht & Hrm')]; [by eapply S3|].
      apply (Hd d' eq_refl); [by rewrite Ht|done|]. exists i, d. by rewrite Ht.
Qed.

Lemma ok_commit w w' open id d now v : system_ok serial (mkSystem w open) -> open !! id = Some (Decided d) ->
  outcome (transaction (write_assignment d now)) w (inr v) w' ->
  system_ok serial (mkSystem w' (delete id open)) /\
  forall t, serial t -> has_owner w t -> has_owner w' t.
Proof.
  intros Hs Hid Ho. pose proof (so_phases _ _ Hs _ _ Hid) as [Hst Hg]. pose proof (so_members _ _ Hs) as Hw. simpl in Hw, Hst, Hg.
  destruct (commit_post w id d now v w' Hw Hst Ho) as (m & Hm & Ht & Hr & HP). pose proof HP as (Hw' & Hown & Hk & _). split.
  - apply (ok_db w); [done| |by apply ok_delete]. intros i p [Hne Hi]%lookup_delete_Some Hp.
    destruct p as [t input salt row role|d2]; simpl in Hp |- *.
    + destruct Hp as [Hp ?]. split; [|done]. by apply (still_true_kept w); [|apply Hk|].
    + destruct Hp as [Hp1 Hp2]. split; [by apply (still_true_kept w); [|apply Hk|]|]. intros Hser Hrm.
      apply (another_owner_kept w); [done| |by apply Hp2]. intros k Hki Hok.
      apply (commit_owner w id d v w' m); try done; [apply Hst|]. intros ->.
      destruct (removes_owner d) eqn:Erm; [exfalso|done]. destruct Hok as (m0 & Hm0 & Ht0 & _).
      apply (so_apart _ _ Hs i d2 Hi Hser Hrm). exists id, d. split_and!; [done|done|congruence|done].
  - intros t Hser. apply Hown. intros -> Hc Hor. rewrite Ht in Hser |- *. apply Hg; [done|]. by apply removes_owner_spec.
Qed.

Lemma step_ok s s' : concurrent_step serial s s' -> system_ok serial s ->
  system_ok serial s' /\ forall t, serial t -> has_owner (sy_db s) t -> has_owner (sy_db s') t.
Proof.
  intros Hst Hs. pose proof (so_members _ _ Hs) as Hw.
  destruct Hst as [c r w w' open Hc Ho|t id input salt row role w open Ho Hopen|t id input salt row role d w open Hid Ho Hser|
    id d now v w w' open Hid Ho|id w open]; simpl in *.
  - destruct (call_keeps lower c w r w' Hc Hw Ho) as [Hw' Hk]. split; [|intros t _; by apply all_kept_owners].
    apply (ok_db w); [done| |done]. intros id p _. by apply phase_kept.
  - split; [|done]. apply (wp_outcome _ _ _ _ _ (wp_lock_member false w t id Hw)) in Ho as (_ & Hrow & Ht & Hv & Hr).
    apply ok_insert; [done| |done]. split; [|done]. split; [done|]. by exists row.
  - split; [|done]. pose proof (so_phases _ _ Hs _ _ Hid) as [Hst Ht]. simpl in Hst.
    apply (wp_outcome _ _ _ _ _ (wp_decide_update false w t input salt row role Hw)) in Ho as (_ & Er & Ec & Hg).
    assert (Eid : mb_ID row = id) by (destruct Hst as (_ & m & Hm & E1 & _); by rewrite <-E1, (mo_id w Hw _ _ Hm)).
    apply ok_insert; [done|..]; simpl.
    + rewrite Er, Ec. split; [done|]. intros _ Hrm. apply removes_owner_spec in Hrm as [Hc Hor]. rewrite Ht, <-Eid.
      apply Hg; [congruence|done].
    + intros d' [= <-]. rewrite Er, Ht. exact Hser.
  - by eapply ok_commit.
  - split; [|done]. by apply ok_delete.
Qed.

Lemma steps_ok s s' : rtc (concurrent_step serial) s s' -> system_ok serial s ->
  system_ok serial s' /\ forall t, serial t -> has_owner (sy_db s) t -> has_owner (sy_db s') t.
Proof.
  induction 1 as [s|s1 s2 s3 Hst _ IH]; intros Hs; [by split|].
  destruct (step_ok _ _ Hst Hs) as [Hs2 H12]. destruct (IH Hs2) as [Hs3 H23]. split; [done|]. intros t Ht Ho. by apply H23, H12.
Qed.

End Invariant.

(** The three phases in a row, while no removal is under way. *)
Lemma phases_run serial t id input salt row role d now v w w' open :
  outcome (lock_member t id) w (inr (row, role)) w -> outcome (decide_update t input salt row role) w (inr d) w ->
  outcome (transaction (write_assignment d now)) w (inr v) w' ->
  open !! mb_ID row = None -> (forall t' id', ~ removal_open open t' id') ->
  rtc (concurrent_step serial) (mkSystem w open) (mkSystem w' open).
Proof.
  intros O1 O2 O3 Hopen Hno. eapply rtc_l; [by eapply step_lock|]. eapply rtc_l.
  { eapply step_decide; [apply lookup_insert_eq|exact O2|]. intros _ _ Hr'. apply removal_open_insert in Hr' as [Hr'|[[] _]]; [|done].
    by eapply Hno. }
  rewrite insert_insert_eq. eapply rtc_l; [eapply step_commit; [apply lookup_insert_eq|exact O3]|].
  rewrite delete_insert_id by done. reflexivity.
Qed.

(** A call of Update that nothing interrupts is such a run. *)
Theorem update_is_a_run serial t id input salt now w v w' open :
  members_ok w -> outcome (Update t id input salt now) w (inr v) w' ->
  open !! mb_ID (vw_Member v) = None -> (forall t' id', ~ removal_open open t' id') ->
  rtc (concurrent_step serial) (mkSystem w open) (mkSystem w' open).
Proof.
  intros Hw (sc & sc' & E) Hopen Hno. unfold Update, transaction in E. rewrite UpdateTx_phases in E. unfold mbind, M_bind in E.
  destruct (lock_member t id w sc) as [[[e|[row role]] w1] sc1] eqn:E1; [done|].
  assert (O1 : outcome (lock_member t id) w (inr (row, role)) w1) by by exists sc, sc1.
  pose proof (wp_outcome _ _ _ _ _ (wp_lock_member false w t id Hw) O1) as (-> & Hrow & Ht & Hv & Hr). cbn [fst snd] in E.
  destruct (decide_update t input salt row role w sc1) as [[[e|d] w2] sc2] eqn:E2; [done|].
  assert (O2 : outcome (decide_update t input salt row role) w (inr d) w2) by by exists sc1, sc2.
  pose proof (wp_outcome _ _ _ _ _ (wp_decide_update false w t input salt row role Hw) O2) as (-> & Er & Ec & _).
  assert (O3 : outcome (transaction (write_assignment d now)) w (inr v) w') by (exists sc2, sc'; exact E).
  assert (Hst : still_true w (mb_ID row) (dc_Row d) (dc_Current d)) by (rewrite Er, Ec; split; [done|by exists row]).
  destruct (commit_post w (mb_ID row) d now v w' Hw Hst O3) as (m & Hm & _ & _ & Hw' & _ & _ & _ & _ & _ & _ & Em & _).
  assert (Eid : mb_ID (vw_Member v) = mb_ID row) by (apply (mo_id w' Hw'); rewrite Em; apply lookup_insert_eq).
  rewrite Eid in Hopen. by eapply phases_run.
Qed.

(** Two updates that overlap: each locks its row and counts before either commits. *)
Lemma overlapping (serial : string -> Prop) t ia ib inputa inputb salt a b ra rb da db na nb va vb w w1 w2 :
  ~ serial t -> mb_ID a <> mb_ID b ->
  outcome (lock_member t ia) w (inr (a, ra)) w -> outcome (lock_member t ib) w (inr (b, rb)) w ->
  outcome (decide_update t inputa salt a ra) w (inr da) w -> outcome (decide_update t inputb salt b rb) w (inr db) w ->
  outcome (transaction (write_assignment da na)) w (inr va) w1 -> outcome (transaction (write_assignment db nb)) w1 (inr vb) w2 ->
  rtc (concurrent_step serial) (mkSystem w ∅) (mkSystem w2 ∅).
Proof.
  intros Hser Hne La Lb Da Db Ca Cb.
  eapply rtc_l; [eapply step_lock; [exact La|apply lookup_empty]|].
  eapply rtc_l; [eapply step_lock; [exact Lb|rewrite lookup_insert_ne by done; apply lookup_empty]|].
  eapply rtc_l; [eapply (step_decide _ t (mb_ID a)); [rewrite lookup_insert_ne by done; apply lookup_insert_eq|exact Da|done]|].
  eapply rtc_l; [eapply (step_decide _ t (mb_ID b)); [rewrite lookup_insert_ne by done; apply lookup_insert_eq|exact Db|done]|].
  eapply rtc_l; [eapply (step_commit _ (mb_ID a)); [rewrite lookup_insert_ne by done; apply lookup_insert_eq|exact Ca]|].
  eapply rtc_l; [eapply (step_commit _ (mb_ID b)); [rewrite lookup_delete_ne by done; apply lookup_insert_eq|exact Cb]|].
  match goal with |- rtc _ (mkSystem _ ?o) _ => replace o with (∅ : gmap string phase); [reflexivity|] end.
  symmetry. apply map_eq. intros i. rewrite lookup_empty, lookup_delete. case_decide; [done|]. rewrite lookup_delete. case_decide; [done|].
  by rewrite !lookup_insert_ne, lookup_empty.
Qed.

(** C39. Roles are never lost, and neither is the last owner of a tenant whose
    removals of owners are kept apart.  From a database without members and no
    transaction, whatever members are created, logged in, updated or roles
    reseeded, with the updates' phases interleaved in any way the row locks
    allow, whatever fails and is rolled back: every member always has exactly one
    of the four roles of its own tenant; and for every tenant of [serial] -- the
    caller lets no two updates that take an owner or its activity away overlap
    between the count and the commit -- an active owner once there is, there is
    one ever after, although all its other updates, and those of other tenants,
    overlap freely.  For a tenant outside of [serial] that last part is false
    ([overlapping_updates_lose_owner]). *)
Theorem last_owner_safe serial s0 s s' :
  no_members (sy_db s0) -> sy_open s0 = ∅ ->
  rtc (concurrent_step serial) s0 s -> rtc (concurrent_step serial) s s' ->
  (forall k m, rows (tenant_members (sy_db s')) !! k = Some m -> exists role, ValidRole role = true /\
     role_of (sy_db s') m role /\ forall role', ValidRole role' = true -> role_of (sy_db s') m role' -> role' = role) /\
  (forall t, serial t -> has_owner (sy_db s) t -> has_owner (sy_db s') t).
Proof.
  intros H0' Hopen Hr Hr'. assert (Hs0 : system_ok serial s0).
  { split; [by apply no_members_ok|..]; intros *; by rewrite Hopen, lookup_empty. }
  destruct (steps_ok serial s0 s Hr Hs0) as [Hs _]. destruct (steps_ok serial s s' Hr' Hs) as [Hs' Hk].
  split; [apply (mo_role _ (so_members _ _ Hs'))|exact Hk].
Qed.

End Phases.

(** ** Two owners *)
Section Sample.
#[local] Existing Instances map_sql ascii_unicode plain_mail plain_bcrypt.

Definition off : UpdateInput := mkUpdateInput None None (Some StatusDisabled) None.
Definition second_owner : CreateInput := mkCreateInput "t1" "bob@x.io" "Bob" "correct horse" RoleOwner.
Definition two_owners : MemberDB := after (demo_run (CallCreate second_owner "s" (inr "B") 7)) demo_members.

(** The row as a transaction reads it, and its decision to disable the member. *)
Definition row_of (id : string) (w : MemberDB) : Member :=
  match result (load_member "t1" id) w with inr m => m | inl _ => mkMember id "t1" EmptyString EmptyString EmptyString EmptyString None 0 0 end.
Definition disabling (row : Member) : Assignment := mkAssignment row RoleOwner RoleOwner StatusDisabled None None.
Definition ann : Member := row_of "mem_41" two_owners.
Definition bob : Member := row_of "mem_42" two_owners.
Definition without_ann : MemberDB := after (transaction (write_assignment (disabling ann) 8)) two_owners.
Definition without_both : MemberDB := after (transaction (write_assignment (disabling bob) 9)) without_ann.

Definition step_of (serial : string -> Prop) : System -> System -> Prop := concurrent_step ascii_lower serial.

Lemma two_owners_reached serial : rtc (step_of serial) (mkSystem demo_before ∅) (mkSystem two_owners ∅).
Proof.
  assert (call : forall c w, is_update c = false -> step_of serial (mkSystem w ∅) (mkSystem (after (demo_run c) w) ∅))
    by (intros c w Hc; eapply step_call; [exact Hc|apply outcome_after]).
  eapply rtc_l; [by apply (call (CallEnsureTenantRoles "t1" 5))|]. eapply rtc_l; [by apply (call (CallCreate demo_owner "s" (inr "A") 6))|].
  eapply rtc_l; [by apply (call (CallCreate second_owner "s" (inr "B") 7))|]. reflexivity.
Qed.

Lemma two_owners_has : has_owner two_owners "t1".
Proof. exists "mem_41", ann. split; [vm_compute; reflexivity|]. split; [reflexivity|]. split; [reflexivity|]. eexists. vm_compute. reflexivity. Qed.

Lemma demo_before_empty : no_members demo_before.
Proof. split; [reflexivity|]. intros k. apply lookup_empty. Qed.

Lemma two_owners_ok : members_ok two_owners.
Proof.
  assert (H0' : system_ok (fun _ => True) (mkSystem demo_before ∅)).
  { split; [apply no_members_ok, demo_before_empty|..]; intros *; cbn [sy_open]; by rewrite lookup_empty. }
  exact (so_members _ _ (proj1 (steps_ok ascii_lower _ _ _ (two_owners_reached _) H0'))).
Qed.

(** What the two transactions read, settle and write. *)
Lemma reads_lock id row role : result (lock_member "t1" id) two_owners = inr (row, role) ->
  outcome (lock_member "t1" id) two_owners (inr (row, role)) two_owners.
Proof.
  intros E. pose proof (outcome_after (lock_member "t1" id) two_owners) as Ho. rewrite E in Ho.
  destruct (wp_outcome _ _ _ _ _ (wp_lock_member ascii_lower false _ "t1" id two_owners_ok) Ho) as [Ew _]. by rewrite Ew in Ho.
Qed.

Lemma reads_decide row d : result (decide_update "t1" off "s" row RoleOwner) two_owners = inr d ->
  outcome (decide_update "t1" off "s" row RoleOwner) two_owners (inr d) two_owners.
Proof.
  intros E. pose proof (outcome_after (decide_update "t1" off "s" row RoleOwner) two_owners) as Ho. rewrite E in Ho.
  destruct (wp_outcome _ _ _ _ _ (wp_decide_update ascii_lower false _ "t1" off "s" row RoleOwner two_owners_ok) Ho) as [Ew _].
  by rewrite Ew in Ho.
Qed.

Lemma locks : outcome (lock_member "t1" "mem_41") two_owners (inr (ann, RoleOwner)) two_owners /\
  outcome (lock_member "t1" "mem_42") two_owners (inr (bob, RoleOwner)) two_owners.
Proof. split; apply reads_lock; vm_compute; reflexivity. Qed.

Lemma decisions : outcome (decide_update "t1" off "s" ann RoleOwner) two_owners (inr (disabling ann)) two_owners /\
  outcome (decide_update "t1" off "s" bob RoleOwner) two_owners (inr (disabling bob)) two_owners.
Proof. split; apply reads_decide; vm_compute; reflexivity. Qed.

Definition disabled (row : Member) (now : Z) : View := mkView (assigned StatusDisabled None None now row) RoleOwner.

Lemma commits : outcome (transaction (write_assignment (disabling ann) 8)) two_owners (inr (disabled ann 8)) without_ann /\
  outcome (transaction (write_assignment (disabling bob) 9)) without_ann (inr (disabled bob 9)) without_both.
Proof.
  assert (E : result (transaction (write_assignment (disabling ann) 8)) two_owners = inr (disabled ann 8) /\
    result (transaction (write_assignment (disabling bob) 9)) without_ann = inr (disabled bob 9)) by (split; vm_compute; reflexivity).
  destruct E as [<- <-]. split; apply outcome_after.
Qed.

Lemma ids : mb_ID ann = "mem_41" /\ mb_ID bob = "mem_42".
Proof. split; vm_compute; reflexivity. Qed.

(** The check that keeps the last owner is made on what is committed: when two
    updates disable the two owners of a tenant at the same time, each counts the
    other, neither waits for the other since they lock different rows, both
    succeed, and the tenant is left without an active owner. *)
Theorem overlapping_updates_lose_owner : exists s s',
  rtc (step_of (fun _ => False)) (mkSystem demo_before ∅) s /\ has_owner (sy_db s) "t1" /\
  rtc (step_of (fun _ => False)) s s' /\ ~ has_owner (sy_db s') "t1".
Proof.
  destruct locks as [La Lb], decisions as [Da Db], commits as [Ca Cb], ids as [Ia Ib].
  exists (mkSystem two_owners ∅), (mkSystem without_both ∅).
  split; [apply two_owners_reached|]. split; [exact two_owners_has|]. split.
  - refine (overlapping ascii_lower _ "t1" _ _ _ _ "s" ann bob _ _ _ _ _ _ _ _ two_owners without_ann without_both
      (fun f => f) _ La Lb Da Db Ca Cb). rewrite Ia, Ib. discriminate.
  - intros (k & m & Hm & _ & Hs & _).
    assert (Hall : forallb (fun km => bool_decide (mb_Status km.2 = StatusDisabled)) (map_to_list (rows (tenant_members without_both))) = true)
      by (vm_compute; reflexivity).
    rewrite forallb_forall in Hall. apply elem_of_map_to_list, list_elem_of_In, Hall, bool_decide_eq_true in Hm.
    cbn [snd] in Hm. rewrite Hs in Hm. discriminate Hm.
Qed.

(** With removals kept apart the second update is refused: the first one alone. *)
Lemma last_owner_safe_witness :
  result (decide_update "t1" off "s" (row_of "mem_42" without_ann) RoleOwner) without_ann = inl ErrLastOwner /\
  has_owner without_ann "t1".
Proof.
  split; [vm_compute; reflexivity|].
  pose proof (last_owner_safe ascii_lower (fun _ => True) (mkSystem demo_before ∅) (mkSystem two_owners ∅) (mkSystem without_ann ∅)
    demo_before_empty eq_refl (two_owners_reached _)) as Hsafe.
  refine (proj2 (Hsafe _) "t1" I two_owners_has).
  apply (phases_run ascii_lower _ "t1" "mem_41" off "s" ann RoleOwner (disabling ann) 8 (disabled ann 8));
    [exact (proj1 locks)|exact (proj1 decisions)|exact (proj1 commits)|apply lookup_empty|].
  intros t' id' (i & d & _ & Hi & _). by rewrite lookup_empty in Hi.
Defined.

End Sample.
