(* ===== verification/TenantScope.v ===== *)
(** * The tenant on a context and the scoped configuration store
    (internal/tenant: context.go, keyscope.go, store.go)

    A context is what this package reads of it: the resolved tenant, the
    platform marker and the query scope, which restricts a statement to the
    rows whose tenant_id it admits ([None] is the NULL of the platform pool).
    The wrapped store is third-party: what each of its methods does with a
    context and its arguments is a parameter. *)
From S2P Require Import Prelude GoStrings.

Definition ErrMissingTenant : error :=
  New "tenant: no tenant resolved on context; refusing to build an unscoped query".
Definition ErrTenantConflict : error := New "tenant: refusing to replace an already resolved tenant".

(** ** Contexts and scopes *)
Definition QueryScope : Type := option string -> bool.

Record Context := mkContext {
  cx_tenant : option string; cx_platform : bool; cx_scope : option QueryScope }.

Definition Background : Context := mkContext None false None.

(** A context argument may be nil. *)
Definition FromContext (ctx : option Context) : string :=
  match ctx with None => EmptyString | Some c => default EmptyString (cx_tenant c) end.

Definition SetResolvedTenant (ctx : option Context) (id : string) : option error * option Context :=
  match ctx with
  | None => (Some ErrMissingTenant, None)
  | Some c =>
      if is_empty id then (Some ErrMissingTenant, ctx) else
      let previous := FromContext ctx in
      if negb (is_empty previous) && negb (bool_decide (previous = id)) then (Some ErrTenantConflict, ctx)
      else (None, Some (mkContext (Some id) (cx_platform c) (cx_scope c)))
  end.

Definition WithTenant (ctx : Context) (id : string) : Context :=
  if is_empty id then ctx else mkContext (Some id) (cx_platform ctx) (cx_scope ctx).

(** "config_keys.tenant_id = ? OR config_keys.tenant_id IS NULL" *)
Definition KeyScopeFor (tenantID : string) : error + QueryScope :=
  if is_empty tenantID then inl (Wrap "building config_keys scope: %w" ErrMissingTenant)
  else inr (fun row => bool_decide (row = Some tenantID) || bool_decide (row = None)).

(** column = ? *)
Definition StrictScopeFor (qualifiedColumn tenantID : string) : error + QueryScope :=
  if is_empty tenantID then inl (Wrap "building %s scope: %w" ErrMissingTenant) else
  if is_empty qualifiedColumn then inl (New "tenant: qualifiedColumn is required")
  else inr (fun row => bool_decide (row = Some tenantID)).

Definition PlatformScope : QueryScope := fun _ => true.

Definition withQueryScope (ctx : Context) (scope : QueryScope) : Context :=
  mkContext (cx_tenant ctx) (cx_platform ctx) (Some scope).

Definition WithPlatformScope (ctx : option Context) : Context :=
  let c := default Background ctx in
  withQueryScope (mkContext (cx_tenant c) true (cx_scope c)) PlatformScope.

Definition IsPlatformScope (ctx : option Context) : bool :=
  match ctx with None => false | Some c => cx_platform c end.

Definition ScopedContext (ctx : Context) (id : string) : error + Context :=
  match KeyScopeFor id with
  | inl e => inl e
  | inr scope => inr (withQueryScope (WithTenant ctx id) scope)
  end.

(** What a context lets an inner store see of a row: no scope is no WHERE clause. *)
Definition admits (ctx : Context) (row : option string) : bool :=
  match cx_scope ctx with None => true | Some scope => scope row end.

(** ** The scoped store *)
Definition scoped (ctx : option Context) : error + option Context :=
  if IsPlatformScope ctx then inr ctx else
  let id := FromContext ctx in
  if is_empty id then inl ErrMissingTenant else
  match ctx with
  | None => inl ErrMissingTenant
  | Some c => match ScopedContext c id with inl e => inl e | inr c' => inr (Some c') end
  end.

(** The methods that are guarded. *)
Inductive ScopedMethod :=
| GetVirtualKeys | GetVirtualKeysPaginated | GetRedactedVirtualKeys | GetVirtualKey | GetVirtualKeyByValue
| GetVirtualKeyQuotaByValue | GetTeams | GetTeamsPaginated | GetTeam | GetCustomers | GetCustomersPaginated
| GetCustomer | GetRateLimits | GetBudgets | GetRoutingRules | GetModelConfigs | GetPricingOverrides
| GetModelParameters | GetKeysByIDs | GetKeysByProvider | GetAllRedactedKeys | GetVirtualKeyProviderConfigs
| GetVirtualKeyMCPConfigs | GetVirtualKeyMCPConfigsByMCPClientID | GetVirtualKeyMCPConfigsByMCPClientIDs
| GetVirtualKeyMCPConfigsByMCPClientStringIDs | GetVirtualMCPs | GetVirtualMCPAssignments | GetVirtualMCPByID
| GetVirtualMCPsPaginated | GetTeamByName | GetTeamBySourceID | GetRateLimit | GetBudget
| GetRoutingRulesByScope | GetRoutingRule | GetRedactedRoutingRules | GetRoutingRulesPaginated
| GetModelConfigsByScopeAndScopeIDs | GetProviderGovernanceModelConfigs | GetModelConfigsPaginated
| GetModelConfig | GetModelConfigByID | GetPricingOverridesPaginated | GetPricingOverrideByID
| GetModelParametersByModel.

(** The wrapped store: a method, its other arguments and a context to a result,
    over whatever state [W] it keeps. *)
Class ConfigStore (W : Type) := {
  Args : ScopedMethod -> Type;
  Result : ScopedMethod -> Type;
  inner : forall m, option Context -> Args m -> W -> (error + Result m) * W }.

Section Store.
  Context {W : Type} `{ConfigStore W}.

Definition TenantScopedStore (m : ScopedMethod) (ctx : option Context) (args : Args m) (w : W)
    : (error + Result m) * W :=
  match scoped ctx with
  | inl e => (inl e, w)
  | inr ctx' => inner m ctx' args w
  end.

(** The scoped store fails closed: a guarded method reaches the wrapped store
    only with the platform marker, the context then unchanged, or with a
    resolved tenant, on a context that still names that tenant and whose scope
    admits exactly the tenant's own rows and the platform pool, whatever scope
    the caller's context had; without either it answers ErrMissingTenant and
    the wrapped store is not called. *)
Theorem scoped_store_fail_closed m ctx args w :
  if IsPlatformScope ctx then TenantScopedStore m ctx args w = inner m ctx args w
  else if is_empty (FromContext ctx) then TenantScopedStore m ctx args w = (inl ErrMissingTenant, w)
  else exists c, TenantScopedStore m ctx args w = inner m (Some c) args w /\
    FromContext (Some c) = FromContext ctx /\ IsPlatformScope (Some c) = false /\
    forall row, admits c row = true <-> row = Some (FromContext ctx) \/ row = None.
Proof.
  unfold TenantScopedStore, scoped. destruct (IsPlatformScope ctx) eqn:Ep; [done|].
  destruct (is_empty (FromContext ctx)) eqn:Ee; [done|].
  destruct ctx as [[t p s]|]; [|done]. simpl in *. subst p.
  unfold ScopedContext, KeyScopeFor. rewrite Ee. eexists. split; [done|].
  unfold WithTenant. rewrite Ee. split; [done|]. split; [done|]. intros row. unfold admits. simpl.
  by rewrite orb_true_iff, !bool_decide_eq_true.
Qed.

End Store.

(** A tenant once resolved is never replaced, and only a non-empty one is set. *)
Lemma resolved_tenant_stable ctx id :
  match SetResolvedTenant ctx id with
  | (None, ctx') => id <> EmptyString /\ FromContext ctx' = id /\
      (FromContext ctx = EmptyString \/ FromContext ctx = id)
  | (Some _, ctx') => ctx' = ctx
  end.
Proof.
  unfold SetResolvedTenant. destruct ctx as [c|]; [|done]. unfold is_empty. case_bool_decide as E; [done|].
  destruct (_ && _) eqn:E2; [done|]. split; [done|]. split; [done|].
  apply andb_false_iff in E2 as [E2|E2]; bools; [by left|by right].
Qed.
