(* ===== verification/Isolation.v ===== *)
(** * Row-level security and the tenant binding (internal/tenant/binding.go,
    internal/migrate: tables.go, rlspolicy.go)

    The policies are expressions over the session settings and a row's
    tenant_id, with SQL's third truth value.  A connection carries the settings
    of its session, those of the transaction it is in, and the tables; the
    database applies a table's policy when row-level security is enabled and,
    since the application owns its tables, forced. *)
From S2P Require Import Prelude GoStrings Sql TenantScope.

Definition ErrTenantNotBound : error := New "tenant: tenant binding did not take effect on this connection".
Definition ErrPlatformModeNotSet : error := New "tenant: platform mode did not take effect on this connection".
Definition ErrPlatformModeWithTenant : error :=
  New "tenant: refusing platform mode on a context that already has a tenant".

Definition SettingName : string := "app.tenant_id".
Definition PlatformModeSettingName : string := "app.platform_mode".
Definition PlatformModeOn : string := "on".

(** ** Policy expressions *)
Inductive text_expr :=
| Current (setting : string)   (** coalesce(current_setting('...', true), '') *)
| Literal (s : string)
| TenantColumn.

Inductive bool_expr :=
| EEq (a b : text_expr)
| ENe (a b : text_expr)
| EIsNull (a : text_expr)
| EAnd (a b : bool_expr)
| EOr (a b : bool_expr)
| ECase (cond yes no : bool_expr).   (** CASE WHEN cond THEN yes ELSE no END *)

(** Three-valued logic: [None] is the unknown value. *)
Definition and3 (a b : option bool) : option bool :=
  match a, b with
  | Some false, _ | _, Some false => Some false
  | Some true, Some true => Some true
  | _, _ => None
  end.
Definition or3 (a b : option bool) : option bool :=
  match a, b with
  | Some true, _ | _, Some true => Some true
  | Some false, Some false => Some false
  | _, _ => None
  end.

Section Eval.
  (** The setting's value, '' when there is none, and the row's tenant_id. *)
  Variables (current : string -> string) (tenant_id : option string).

Definition eval_text (e : text_expr) : option string :=
  match e with
  | Current name => Some (current name)
  | Literal s => Some s
  | TenantColumn => tenant_id
  end.

Definition compare_texts (p : string -> string -> bool) (a b : text_expr) : option bool :=
  match eval_text a, eval_text b with Some x, Some y => Some (p x y) | _, _ => None end.

Fixpoint eval (e : bool_expr) : option bool :=
  match e with
  | EEq a b => compare_texts (fun x y => bool_decide (x = y)) a b
  | ENe a b => compare_texts (fun x y => negb (bool_decide (x = y))) a b
  | EIsNull a => Some (bool_decide (eval_text a = None))
  | EAnd a b => and3 (eval a) (eval b)
  | EOr a b => or3 (eval a) (eval b)
  | ECase c a b => match eval c with Some true => eval a | _ => eval b end
  end.

(** A policy admits a row when its expression is true, not merely unknown. *)
Definition holds_for (e : bool_expr) : bool := bool_decide (eval e = Some true).

End Eval.

(** ** The policies *)
Inductive PolicyKind := PolicyStrict | PolicyPool | PolicyExclusive.

#[export] Instance policy_kind_eq_dec : EqDecision PolicyKind.
Proof. solve_decision. Defined.

Definition current_tenant : text_expr := Current SettingName.
Definition bound : bool_expr := EAnd (ENe current_tenant (Literal EmptyString)) (EEq TenantColumn current_tenant).
Definition unbound : bool_expr := EEq current_tenant (Literal EmptyString).
Definition platform : bool_expr :=
  EAnd unbound (EEq (Current PlatformModeSettingName) (Literal PlatformModeOn)).

(** USING and WITH CHECK. *)
Definition policyClauses (kind : PolicyKind) : bool_expr * bool_expr :=
  match kind with
  | PolicyStrict => (EOr platform bound, EOr platform bound)
  | PolicyPool => (EOr (EOr platform (EIsNull TenantColumn)) bound, EOr platform bound)
  | PolicyExclusive =>
      let expr := EOr platform (ECase unbound (EIsNull TenantColumn) bound) in (expr, expr)
  end.

(** ** The tenant-scoped tables *)
Definition BClassTables : list string :=
  ["governance_customers"; "governance_teams"; "governance_virtual_keys";
   "governance_virtual_key_provider_configs"; "governance_virtual_key_provider_config_keys";
   "governance_virtual_key_mcp_configs"; "governance_budgets"; "governance_rate_limits";
   "prompts"; "prompt_versions"; "prompt_sessions"; "prompt_session_messages"; "folders"; "skills";
   "skill_versions"; "skill_files"; "skill_file_blobs";
   "batch_jobs"; "temp_tokens"; "mcp_oauth_flows"; "mcp_oauth_tokens"; "mcp_per_user_header_flows";
   "mcp_per_user_header_credentials"; "oauth_user_sessions"; "oauth_user_tokens";
   "enterprise_mcp_tool_groups"; "enterprise_mcp_tool_group_virtual_keys"].
Definition CClassTable : string := "config_keys".
Definition SessionsTable : string := "sessions".

Definition TenantScopedTables : list string := BClassTables ++ [CClassTable; SessionsTable].

Definition PolicyKindFor (name : string) : option PolicyKind :=
  if bool_decide (name = CClassTable) then Some PolicyPool else
  if bool_decide (name = SessionsTable) then Some PolicyExclusive else
  if existsb (fun t => bool_decide (t = name)) BClassTables then Some PolicyStrict else None.

Definition maxIdentifierLen : nat := 63.

Definition identifier_start (c : ascii) : bool :=
  let n := nat_of_ascii c in ((97 <=? n) && (n <=? 122))%nat || (n =? 95)%nat.
Definition identifier_char (c : ascii) : bool := identifier_start c || is_digit c.

Definition checkIdentifier (name : string) : option error :=
  match String.list_ascii_of_string name with
  | c :: rest =>
      if identifier_start c && forallb identifier_char rest
      then if (maxIdentifierLen <? String.length name)%nat
           then Some (New "migrate: identifier %q exceeds %d bytes") else None
      else Some (New "migrate: %q is not a safe SQL identifier")
  | [] => Some (New "migrate: %q is not a safe SQL identifier")
  end.

(** ** Connections *)

(** A row: its tenant_id and its other columns, as texts; a column that is NULL
    is absent. *)
Record Row := mkRow { rw_TenantID : option string; rw_Data : gmap string string }.

Section Isolation.
  Context `{Sql}.

(** A table with the state of its row-level security. *)
Record Relation := mkRelation {
  rl_rows : table Z Row; rl_enabled : bool; rl_forced : bool; rl_policy : option (bool_expr * bool_expr) }.

(** [cn_local] holds the settings local to the transaction, when in one. *)
Record Conn := mkConn {
  cn_session : gmap string string; cn_local : option (gmap string string); cn_tables : gmap string Relation }.

Definition current_setting (w : Conn) (name : string) : string :=
  default EmptyString
    (match cn_local w with
     | Some l => match l !! name with Some v => Some v | None => cn_session w !! name end
     | None => cn_session w !! name
     end).

(** set_config(name, value, true): outside a transaction it is lost at once. *)
Definition set_config (name value : string) : M Conn unit := sql (fun w =>
  (inr tt, mkConn (cn_session w) ((fun l => <[name := value]> l) <$> cn_local w) (cn_tables w))).

Definition read_setting (name : string) : M Conn string := sql (fun w => (inr (current_setting w name), w)).

(** A transaction of the pool, or a savepoint inside one.  At its end a local
    setting that the session never had is left behind as the empty text. *)
Definition begin_local (w : Conn) : bool * Conn :=
  match cn_local w with
  | Some _ => (true, w)
  | None => (false, mkConn (cn_session w) (Some ∅) (cn_tables w))
  end.

Definition end_local (nested : bool) (w : Conn) : unit * Conn :=
  (tt, if nested then w else
       mkConn (cn_session w ∪ ((fun _ => EmptyString) <$> default ∅ (cn_local w))) None (cn_tables w)).

Definition Transaction {A} (fn : M Conn A) : M Conn A :=
  transaction (nested ← effect begin_local; a ← fn; effect (end_local nested);; mret a).

Definition bind (id : string) : M Conn unit :=
  if is_empty id then throw ErrMissingTenant else
  wrapping "tenant: bind %q: %w" (set_config SettingName id);;
  got ← wrapping "tenant: verify binding for %q: %w" (read_setting SettingName);
  if negb (bool_decide (got = id)) then throw (Wrap "%w: expected %q, connection reports %q" ErrTenantNotBound)
  else mret tt.

Definition enablePlatformMode : M Conn unit :=
  wrapping "tenant: enable platform mode: %w" (set_config PlatformModeSettingName PlatformModeOn);;
  got ← wrapping "tenant: verify platform mode: %w" (read_setting PlatformModeSettingName);
  if negb (bool_decide (got = PlatformModeOn))
  then throw (Wrap "%w: expected %q, connection reports %q" ErrPlatformModeNotSet) else mret tt.

Definition EnablePlatformMode : M Conn unit := enablePlatformMode.

Definition PlatformModeEnabled : M Conn bool :=
  got ← wrapping "tenant: read platform mode: %w" (read_setting PlatformModeSettingName);
  mret (bool_decide (got = PlatformModeOn)).

Definition BoundTenant : M Conn string :=
  wrapping "tenant: read bound tenant: %w" (read_setting SettingName).

Definition RunInTenantTx {A} (ctx : option Context) (fn : M Conn A) : M Conn A :=
  let id := FromContext ctx in
  if is_empty id then throw ErrMissingTenant else
  Transaction (bind id;; fn).

Definition RunAsPlatform {A} (fn : M Conn A) : M Conn A := Transaction fn.

Definition RunAcrossTenants {A} (ctx : option Context) (fn : M Conn A) : M Conn A :=
  if negb (is_empty (FromContext ctx))
  then throw (Wrap "%w: tenant %q is resolved on this context" ErrPlatformModeWithTenant) else
  Transaction (enablePlatformMode;; fn).

(** ** Installing a policy *)
Definition relation_f (name : string) (g : Relation -> Relation) : M Conn unit := sql (fun w =>
  match cn_tables w !! name with
  | Some rel => (inr tt, mkConn (cn_session w) (cn_local w) (<[name := g rel]> (cn_tables w)))
  | None => (inl (Driver "relation does not exist"), w)
  end).

Definition InstallPolicy (name : string) (kind : PolicyKind) : M Conn unit :=
  match checkIdentifier name with
  | Some e => throw e
  | None =>
      let clauses := policyClauses kind in
      wrapping "migrate: install %s policy on %s (%q): %w" (
        relation_f name (fun r => mkRelation (rl_rows r) true (rl_forced r) (rl_policy r));;
        relation_f name (fun r => mkRelation (rl_rows r) (rl_enabled r) true (rl_policy r));;
        relation_f name (fun r => mkRelation (rl_rows r) (rl_enabled r) (rl_forced r) None);;
        relation_f name (fun r => mkRelation (rl_rows r) (rl_enabled r) (rl_forced r) (Some clauses)))
  end.

Definition RemovePolicy (name : string) : M Conn unit :=
  match checkIdentifier name with
  | Some e => throw e
  | None =>
      wrapping "migrate: remove policy from %s (%q): %w" (
        relation_f name (fun r => mkRelation (rl_rows r) (rl_enabled r) (rl_forced r) None);;
        relation_f name (fun r => mkRelation (rl_rows r) (rl_enabled r) false (rl_policy r));;
        relation_f name (fun r => mkRelation (rl_rows r) false (rl_forced r) (rl_policy r)))
  end.

(** ** Statements under row-level security *)

(** The rows a statement reaches (USING) and may write (WITH CHECK): all of
    them when the owner is exempt, none when there is no policy. *)
Definition governed (w : Conn) (rel : Relation) (side : bool_expr * bool_expr -> bool_expr) (r : Row) : bool :=
  if rl_enabled rel && rl_forced rel
  then match rl_policy rel with
       | Some p => holds_for (current_setting w) (rw_TenantID r) (side p)
       | None => false
       end
  else true.
Definition reaches (w : Conn) (rel : Relation) : Row -> bool := governed w rel fst.
Definition may_write (w : Conn) (rel : Relation) : Row -> bool := governed w rel snd.

Inductive statement :=
| Select (name : string) (p : Row -> bool)
| Insert (name : string) (k : Z) (r : Row)
| UpdateWhere (name : string) (p : Row -> bool) (g : Row -> Row)
| DeleteWhere (name : string) (p : Row -> bool)
| SetPlatformMode.   (** a call of EnablePlatformMode *)

Definition ErrPolicy : error := Driver "new row violates row-level security policy".

Definition on_relation (name : string) (f : Conn -> Relation -> error + list Row * table Z Row) : M Conn (list Row) :=
  sql (fun w =>
    match cn_tables w !! name with
    | None => (inl (Driver "relation does not exist"), w)
    | Some rel =>
        match f w rel with
        | inl e => (inl e, w)
        | inr (l, rows') =>
            (inr l, mkConn (cn_session w) (cn_local w)
              (<[name := mkRelation rows' (rl_enabled rel) (rl_forced rel) (rl_policy rel)]> (cn_tables w)))
        end
    end).

Definition exec (s : statement) : M Conn (list Row) :=
  match s with
  | Select name p => on_relation name (fun w rel =>
      inr (where_ (fun r => reaches w rel r && p r) (rl_rows rel), rl_rows rel))
  | Insert name k r => on_relation name (fun w rel =>
      if negb (may_write w rel r) then inl ErrPolicy else
      match rows (rl_rows rel) !! k with
      | Some _ => inl ErrDuplicateKey
      | None => inr ([], insert_row k r (rl_rows rel))
      end)
  | UpdateWhere name p g => on_relation name (fun w rel =>
      let target := fun r => reaches w rel r && p r in
      if forallb (fun r => may_write w rel (g r)) (where_ target (rl_rows rel))
      then inr ([], update_rows target g (rl_rows rel)) else inl ErrPolicy)
  | DeleteWhere name p => on_relation name (fun w rel =>
      inr ([], delete_rows (fun r => reaches w rel r && p r) (rl_rows rel)))
  | SetPlatformMode => EnablePlatformMode;; mret []
  end.

(** What runs inside a transaction: statements, each chosen from the results of
    those before it. *)
Inductive body (A : Type) :=
| Return (r : error + A)
| Exec (s : statement) (k : error + list Row -> body A).
#[global] Arguments Return {A}.
#[global] Arguments Exec {A}.

Fixpoint run_body {A} (b : body A) : M Conn A :=
  match b with
  | Return r => of_result r
  | Exec s k => r ← attempt (exec s); run_body (k r)
  end.

(** The same body, stopped at the first row that [ok] does not admit for the
    table it was read from. *)
Definition ErrLeak : error := New "a row the tenant must not see was read".

Definition ok_rows (ok : string -> Row -> bool) (s : statement) (r : error + list Row) : bool :=
  match s, r with Select name _, inr l => forallb (ok name) l | _, _ => true end.

Fixpoint watched {A} (ok : string -> Row -> bool) (b : body A) : body A :=
  match b with
  | Return r => Return r
  | Exec s k => Exec s (fun r => if ok_rows ok s r then watched ok (k r) else Return (inl ErrLeak))
  end.

End Isolation.

(** ** What the policies decide *)

(** The rule of the design: with a tenant bound, its own rows, plus the pool
    for reading where the table has one; with none bound, everything in
    platform mode and the platform's rows otherwise, which a strict table does
    not have. *)
Definition may_read (kind : PolicyKind) (tenant : string) (platform_mode : bool) (row : option string) : bool :=
  if is_empty tenant
  then platform_mode || (negb (bool_decide (kind = PolicyStrict)) && bool_decide (row = None))
  else bool_decide (row = Some tenant) || (bool_decide (kind = PolicyPool) && bool_decide (row = None)).
Definition may_change (kind : PolicyKind) (tenant : string) (platform_mode : bool) (row : option string) : bool :=
  if is_empty tenant
  then platform_mode || (bool_decide (kind = PolicyExclusive) && bool_decide (row = None))
  else bool_decide (row = Some tenant).

Lemma policy_rule kind current row :
  let tenant := current SettingName in
  let mode := bool_decide (current PlatformModeSettingName = PlatformModeOn) in
  holds_for current row (policyClauses kind).1 = may_read kind tenant mode row /\
  holds_for current row (policyClauses kind).2 = may_change kind tenant mode row.
Proof.
  simpl. unfold holds_for, may_read, may_change, is_empty. destruct kind, row as [r|]; simpl;
    unfold compare_texts; simpl; repeat case_bool_decide; simpl in *; subst; done || congruence.
Qed.

(** C33. The policies implement that rule exactly, in SQL's three-valued logic and
    for every value of the two settings: USING is true of a row just when it may
    be read, WITH CHECK just when it may be written.  So a bound tenant is never
    widened by platform mode, the pool can be read but not written by a tenant,
    and a row whose tenant_id is the empty text belongs to nobody. *)
Theorem policies_implement_rule kind current row :
  let tenant := current SettingName in
  let mode := bool_decide (current PlatformModeSettingName = PlatformModeOn) in
  holds_for current row (policyClauses kind).1 = may_read kind tenant mode row /\
  holds_for current row (policyClauses kind).2 = may_change kind tenant mode row.
Proof. apply policy_rule. Qed.

(** ** What a transaction can see and change *)
Section Confinement.
  Context `{Sql}.
  Implicit Types (w : Conn) (t : string).

(** Every tenant-scoped table has its policy installed and forced. *)
Definition policed w : Prop := forall name kind rel,
  PolicyKindFor name = Some kind -> cn_tables w !! name = Some rel ->
  rl_enabled rel = true /\ rl_forced rel = true /\ rl_policy rel = Some (policyClauses kind).

(** A transaction that has [t] bound, or (the empty text) none and no platform mode. *)
Definition in_scope t w : Prop :=
  current_setting w SettingName = t /\ is_Some (cn_local w) /\
  (t = EmptyString -> current_setting w PlatformModeSettingName <> PlatformModeOn).

(** The rows of a table that [t] may see, and those it may leave there. *)
Definition ruled (rule : PolicyKind -> string -> bool -> option string -> bool) t (name : string) (r : Row) : bool :=
  match PolicyKindFor name with
  | Some kind => rule kind t false (rw_TenantID r)
  | None => true
  end.
Definition readable : string -> string -> Row -> bool := ruled may_read.
Definition writable : string -> string -> Row -> bool := ruled may_change.

(** Every row that goes, by deletion or by an update, is one [t] may see, and
    every row that comes, by insertion or by an update, one it may write. *)
Definition rows_confined t (name : string) (before after : gmap Z Row) : Prop :=
  (forall k r, before !! k = Some r -> after !! k = Some r \/ readable t name r = true) /\
  (forall k r, after !! k = Some r -> before !! k = Some r \/ writable t name r = true).

(** Nothing else changes in any table, and no table's policy does. *)
Definition confined t w w' : Prop := forall name rel,
  cn_tables w !! name = Some rel -> exists rel', cn_tables w' !! name = Some rel' /\
    rl_enabled rel' = rl_enabled rel /\ rl_forced rel' = rl_forced rel /\ rl_policy rel' = rl_policy rel /\
    rows_confined t name (rows (rl_rows rel)) (rows (rl_rows rel')).

#[export] Instance rows_confined_preorder t name : PreOrder (rows_confined t name).
Proof.
  split; [split; by left|]. intros x y z [D1 C1] [D2 C2]. split.
  - intros k r Hk. destruct (D1 _ _ Hk) as [Hy|]; [by apply D2|by right].
  - intros k r Hk. destruct (C2 _ _ Hk) as [Hy|]; [by apply C1|by right].
Qed.

Lemma confined_refl t w : confined t w w.
Proof. intros name rel Hrel. by exists rel. Qed.

Lemma confined_tables t w w1 w2 : cn_tables w1 = cn_tables w2 -> confined t w w1 -> confined t w w2.
Proof. intros E Hc name rel Hrel. rewrite <-E. by apply Hc. Qed.

Lemma confined_from t w1 w2 w' : cn_tables w1 = cn_tables w2 -> confined t w1 w' -> confined t w2 w'.
Proof. intros E Hc name rel Hrel. rewrite <-E in Hrel. by apply Hc. Qed.

Lemma confined_trans t w1 w2 w3 : confined t w1 w2 -> confined t w2 w3 -> confined t w1 w3.
Proof.
  intros H1 H2 name rel Hrel. destruct (H1 _ _ Hrel) as (r2 & Hr2 & E1 & E2 & E3 & R2).
  destruct (H2 _ _ Hr2) as (r3 & Hr3 & F1 & F2 & F3 & R3). exists r3. split_and!; try congruence.
  by etrans.
Qed.

(** Only tables that exist keep existing; none is created. *)
Definition same_tables w w' : Prop := forall name, is_Some (cn_tables w' !! name) -> is_Some (cn_tables w !! name).

Lemma confined_policed t w w' : confined t w w' -> same_tables w w' -> policed w -> policed w'.
Proof.
  intros Hc Hs Hp name kind rel' Hk Hrel'. destruct (Hs name) as [rel Hrel]; [by eexists|].
  destruct (Hc _ _ Hrel) as (rel2 & Hrel2 & E1 & E2 & E3 & _). simplify_eq.
  destruct (Hp _ _ _ Hk Hrel) as (A & B & C). split_and!; congruence.
Qed.

(** Inside a scope a policed table reaches and takes what the rule says. *)
Lemma governed_reaches t w name rel r :
  policed w -> in_scope t w -> cn_tables w !! name = Some rel -> reaches w rel r = true -> readable t name r = true.
Proof.
  intros Hp (Ht & _ & Hm) Hrel. unfold readable, ruled. destruct (PolicyKindFor name) as [kind|] eqn:Ek; [|done].
  destruct (Hp _ _ _ Ek Hrel) as (E1 & E2 & E3). unfold reaches, governed. rewrite E1, E2, E3. simpl.
  rewrite (proj1 (policy_rule kind (current_setting w) (rw_TenantID r))), Ht.
  unfold may_read, is_empty. case_bool_decide as E; [|done]. by rewrite (bool_decide_eq_false_2 _ (Hm E)).
Qed.

Lemma governed_may_write t w name rel r :
  policed w -> in_scope t w -> cn_tables w !! name = Some rel -> may_write w rel r = true -> writable t name r = true.
Proof.
  intros Hp (Ht & _ & Hm) Hrel. unfold writable, ruled. destruct (PolicyKindFor name) as [kind|] eqn:Ek; [|done].
  destruct (Hp _ _ _ Ek Hrel) as (E1 & E2 & E3). unfold may_write, governed. rewrite E1, E2, E3. simpl.
  rewrite (proj2 (policy_rule kind (current_setting w) (rw_TenantID r))), Ht.
  unfold may_change, is_empty. case_bool_decide as E; [|done]. by rewrite (bool_decide_eq_false_2 _ (Hm E)).
Qed.

(** The outcome of a statement in a scope. *)
Definition exec_post t w (s : statement) (r : error + list Row) w' : Prop :=
  in_scope t w' /\ cn_session w' = cn_session w /\ same_tables w w' /\ confined t w w' /\ ok_rows (readable t) s r = true.

Lemma in_scope_tables t w tables : in_scope t w -> in_scope t (mkConn (cn_session w) (cn_local w) tables).
Proof. done. Qed.

Lemma wp_on_relation h t w s name f :
  in_scope t w ->
  (forall rel l rows', cn_tables w !! name = Some rel -> f w rel = inr (l, rows') ->
     ok_rows (readable t) s (inr l) = true /\ rows_confined t name (rows (rl_rows rel)) (rows rows')) ->
  wp h (on_relation name f) w (exec_post t w s).
Proof.
  intros Hs Hf.
  assert (Hself : forall e, exec_post t w s (inl e) w).
  { intros e. split; [done|]. split; [done|]. split; [by intros n Hn|]. split; [apply confined_refl|by destruct s]. }
  unfold on_relation. apply wp_sql; [by intros _ msg|].
  destruct (cn_tables w !! name) as [rel|] eqn:Erel; [|by apply Hself].
  destruct (f w rel) as [e|[l rows']] eqn:Ef; [by apply Hself|]. destruct (Hf rel l rows') as [Hok Hrows]; [done..|].
  split; [done|]. split; [done|]. split; [|split; [|done]].
  - intros n Hn. simpl in Hn. destruct (decide (n = name)) as [->|Hne]; [by eexists|]. by rewrite lookup_insert_ne in Hn.
  - intros n rel0 Hn. simpl. destruct (decide (n = name)) as [->|Hne].
    + rewrite Erel in Hn. injection Hn as <-. rewrite lookup_insert_eq. by eexists.
    + rewrite lookup_insert_ne by done. by exists rel0.
Qed.

Lemma current_setting_set w name value l :
  cn_local w = Some l ->
  current_setting (mkConn (cn_session w) (Some (<[name := value]> l)) (cn_tables w)) name = value /\
  forall other, other <> name ->
    current_setting (mkConn (cn_session w) (Some (<[name := value]> l)) (cn_tables w)) other = current_setting w other.
Proof.
  intros El. unfold current_setting. simpl. rewrite El, lookup_insert_eq. split; [done|].
  intros other Hne. by rewrite lookup_insert_ne.
Qed.

Lemma wp_exec h t w s :
  policed w -> in_scope t w -> (t = EmptyString -> s <> SetPlatformMode) -> wp h (exec s) w (exec_post t w s).
Proof.
  intros Hp Hs Hmode. destruct s as [name p|name k r|name p g|name p|]; simpl.
  - apply wp_on_relation; [done|]. intros rel l rows' Hrel [= <- <-]. split; [|done].
    simpl. apply forallb_forall. intros r Hr%list_elem_of_In%elem_of_where. destruct Hr as (k & Hk & [Hr _]%andb_true_iff).
    by apply (governed_reaches t w name rel).
  - apply wp_on_relation; [done|]. intros rel l rows' Hrel Hf. split; [by destruct l|]. revert Hf.
    destruct (may_write w rel r) eqn:Ew; [|done]. simpl. destruct (rows (rl_rows rel) !! k) eqn:Ek; [done|].
    intros [= <- <-]. rewrite rows_insert. split; intros k' r'.
    + intros Hk'. left. by rewrite lookup_insert_ne by congruence.
    + intros [[<- <-]|[_ Hk']]%lookup_insert_Some; [right; by apply (governed_may_write t w name rel)|by left].
  - apply wp_on_relation; [done|]. intros rel l rows' Hrel Hf. split; [by destruct l|]. revert Hf.
    destruct (forallb _ _) eqn:Eall; [|done]. intros [= <- <-]. rewrite forallb_forall in Eall. rewrite rows_update.
    split; intros k r; rewrite lookup_fmap.
    + intros Hk. rewrite Hk. simpl. destruct (reaches w rel r && p r) eqn:E; [|by left].
      apply andb_true_iff in E as [E _]. right. by apply (governed_reaches t w name rel).
    + intros (r0 & Hk & Er)%fmap_Some. rewrite Hk. destruct (reaches w rel r0 && p r0) eqn:E; [|left; by subst].
      right. subst r. apply (governed_may_write t w name rel); [done..|]. apply Eall, list_elem_of_In, elem_of_where. eauto.
  - apply wp_on_relation; [done|]. intros rel l rows' Hrel [= <- <-]. split; [done|]. split; intros k r.
    + intros Hk. destruct (reaches w rel r && p r) eqn:E; [|left; by apply lookup_deleted].
      apply andb_true_iff in E as [E _]. right. by apply (governed_reaches t w name rel).
    + intros [Hk _]%lookup_deleted. by left.
  - assert (Hne : t <> EmptyString) by (intros E; by apply Hmode in E).
    destruct Hs as (Ht & [l El] & Hm).
    assert (Hpost : forall r w', cn_tables w' = cn_tables w -> cn_session w' = cn_session w -> is_Some (cn_local w') ->
      current_setting w' SettingName = t -> exec_post t w SetPlatformMode r w').
    { intros r w' E1 E2 E3 E4. split; [by split|]. split; [done|]. split; [intros n; by rewrite E1|].
      split; [|done]. by eapply confined_tables, confined_refl. }
    unfold EnablePlatformMode, enablePlatformMode, set_config, read_setting. repeat wp_step. apply wp_sql; simpl.
    { intros _ msg. by apply Hpost. }
    rewrite El. simpl.
    assert (Hset : current_setting (mkConn (cn_session w) (Some (<[PlatformModeSettingName := PlatformModeOn]> l)) (cn_tables w))
      SettingName = t) by (by rewrite (proj2 (current_setting_set w PlatformModeSettingName PlatformModeOn l El))).
    repeat wp_step. apply wp_sql; cbn [fst snd]; [intros _ msg; by apply Hpost|]. repeat wp_step; by apply Hpost.
Qed.

End Confinement.

(** ** Requests on a pooled connection *)
Section Requests.
  Context `{Sql}.
  Implicit Types (w : Conn) (t : string).

(** A body that does not call EnablePlatformMode. *)
Fixpoint plain {A} (b : body A) : Prop :=
  match b with
  | Return _ => True
  | Exec s k => s <> SetPlatformMode /\ forall r, plain (k r)
  end.

(** What a body in the scope of [t] leaves. *)
Definition scope_post t w w' : Prop :=
  in_scope t w' /\ cn_session w' = cn_session w /\ policed w' /\ confined t w w'.

Lemma wp_run_body {A} h t (b : body A) : (t = EmptyString -> plain b) ->
  forall w, policed w -> in_scope t w -> wp h (run_body b) w (fun _ w' => scope_post t w w').
Proof.
  induction b as [r|s k IH]; intros Hb w Hp Hs; simpl.
  - assert (Hpost : scope_post t w w) by (split; [done|split; [done|split; [done|apply confined_refl]]]).
    destruct r; simpl; by wp_step.
  - wp_step. wp_step. eapply wp_mono; [apply wp_exec; [done|done|]|].
    { intros E. by destruct (Hb E). }
    intros r w1 (Hs1 & E1 & Htab & Hc1 & _).
    eapply wp_mono; [apply IH; [|by eapply confined_policed|done]|].
    { intros E. apply (Hb E). }
    intros r' w2 (Hs2 & E2 & Hp2 & Hc2). split; [done|]. split; [congruence|]. split; [done|]. by eapply confined_trans.
Qed.

(** A body that is watched for rows it must not see is never stopped. *)
Lemma run_body_watched {A} t (b : body A) : (t = EmptyString -> plain b) ->
  forall w sc, policed w -> in_scope t w -> run_body (watched (readable t) b) w sc = run_body b w sc.
Proof.
  induction b as [r|s k IH]; intros Hb w sc Hp Hs; simpl; [done|].
  assert (Hwp : wp false (exec s) w (exec_post t w s)) by (apply wp_exec; [done..|intros E; by destruct (Hb E)]).
  specialize (Hwp sc ltac:(done)). unfold mbind, M_bind, attempt.
  destruct (exec s w sc) as [[r w1] sc1]. destruct Hwp as [_ (Hs1 & _ & Htab & Hc & ->)].
  apply IH; [|by eapply confined_policed|done]. intros E. apply (Hb E).
Qed.

(** The transaction's begin and end, around a body. *)
Lemma wp_Transaction {A} h (fn : M Conn A) w (Q : error + A -> Conn -> Prop) :
  wp h fn (begin_local w).2 (fun r w1 => match r with
    | inl e => Q (inl e) w
    | inr a => (h = false -> forall msg, Q (inl (Driver msg)) w) /\ Q (inr a) (end_local (begin_local w).1 w1).2
    end) -> wp h (Transaction fn) w Q.
Proof.
  intros Hfn. unfold Transaction. apply wp_transaction. wp_step. wp_step. wp_step. eapply wp_mono; [exact Hfn|].
  intros [e|a] w1; cbn; [done|]. intros [H1 H2]. wp_step. wp_step. wp_step. by split.
Qed.

Lemma in_scope_bound t w : t <> EmptyString -> is_Some (cn_local w) -> current_setting w SettingName = t -> in_scope t w.
Proof. by split. Qed.

Lemma wp_bind_tenant h t w (Q : error + unit -> Conn -> Prop) :
  t <> EmptyString -> is_Some (cn_local w) ->
  (forall e w', cn_tables w' = cn_tables w -> Q (inl e) w') ->
  (forall w', cn_tables w' = cn_tables w -> cn_session w' = cn_session w -> in_scope t w' -> Q (inr tt) w') ->
  wp h (bind t) w Q.
Proof.
  intros Hne [l El] He Hok. unfold bind, set_config, read_setting.
  unfold is_empty. rewrite bool_decide_eq_false_2 by done. repeat wp_step.
  apply wp_sql; cbn [fst snd]; [intros _ msg; by apply He|]. rewrite El. simpl. repeat wp_step.
  apply wp_sql; cbn [fst snd]; [intros _ msg; by apply He|].
  destruct (current_setting_set w SettingName t l El) as [Hset _]. rewrite Hset.
  rewrite bool_decide_eq_true_2 by done. simpl. wp_step. apply Hok; [done|done|]. by apply in_scope_bound.
Qed.

Lemma begin_scope w : is_Some (cn_local (begin_local w).2) /\ cn_tables (begin_local w).2 = cn_tables w /\
  cn_session (begin_local w).2 = cn_session w.
Proof. unfold begin_local. destruct (cn_local w) eqn:E; simpl; [by rewrite E|done]. Qed.

Lemma wp_RunInTenantTx {A} h w ctx (b : body A) :
  policed w -> FromContext ctx <> EmptyString ->
  wp h (RunInTenantTx ctx (run_body b)) w (fun _ w' => confined (FromContext ctx) w w' /\ policed w').
Proof.
  intros Hp Hne. unfold RunInTenantTx. set (t := FromContext ctx) in *. unfold is_empty.
  rewrite bool_decide_eq_false_2 by done. destruct (begin_scope w) as (Hl & Et & _).
  assert (Hp0 : policed (begin_local w).2) by (intros name kind rel; rewrite Et; apply Hp).
  assert (Hself : confined t w w /\ policed w) by (split; [apply confined_refl|done]).
  apply wp_Transaction, wp_bind, wp_bind_tenant; [done|done|done|].
  intros w1 E1 _ Hs. assert (Hp1 : policed w1) by (intros name kind rel; rewrite E1; apply Hp0).
  eapply wp_mono; [by apply (wp_run_body h t b)|]. intros r w2 (_ & _ & Hp2 & Hc). destruct r as [e|a]; [done|].
  split; [done|]. split; [|unfold end_local; by destruct (begin_local w).1].
  eapply confined_from; [|eapply confined_tables; [|exact Hc]]; [by rewrite E1|].
  unfold end_local. by destruct (begin_local w).1.
Qed.

(** C3. A tenant transaction is isolated: when every tenant-scoped table carries
    its policy, whatever statements run in RunInTenantTx, chosen freely from
    earlier results and turning platform mode on if they like, and whatever
    fails, (1) no statement is ever given a row of another tenant, so that a
    run which would stop at the first such row is the very same run; (2) a row
    that goes, deleted or updated, is one the tenant may read, and a row that
    comes, inserted or the result of an update, is the tenant's own: it leaves
    none without a tenant in the shared pool and none in another tenant's name;
    no policy changes; and (3) without a tenant on the context nothing runs at
    all. *)
Theorem tenant_tx_isolated {A} w ctx (b : body A) sc :
  policed w ->
  RunInTenantTx ctx (run_body (watched (readable (FromContext ctx)) b)) w sc = RunInTenantTx ctx (run_body b) w sc /\
  (forall r w', outcome (RunInTenantTx ctx (run_body b)) w r w' ->
     if is_empty (FromContext ctx) then r = inl ErrMissingTenant /\ w' = w
     else confined (FromContext ctx) w w' /\ policed w').
Proof.
  intros Hp. split.
  - unfold RunInTenantTx. set (t := FromContext ctx). unfold is_empty. case_bool_decide as Hne; [done|].
    unfold Transaction, transaction, mbind, M_bind, effect. destruct (begin_scope w) as (Hl & Et & _).
    destruct (begin_local w) as [nested w0]. simpl in Hl, Et.
    assert (Hwp : wp false (bind t) w0 (fun r w1 => r = inr tt -> cn_tables w1 = cn_tables w0 /\ in_scope t w1))
      by (apply wp_bind_tenant; [done|done|done|by intros w1 E1 _ Hs]).
    specialize (Hwp sc ltac:(done)). destruct (bind t w0 sc) as [[[e|[]] w1] sc1]; [done|].
    destruct Hwp as [_ [E1 Hs]]; [done|].
    rewrite (run_body_watched t b); [done|done| |done]. intros name kind rel. rewrite E1, Et. apply Hp.
  - intros r w' Hout. unfold is_empty. case_bool_decide as Hne.
    + unfold RunInTenantTx in Hout. rewrite Hne in Hout. destruct Hout as (sc1 & sc2 & Hout). by injection Hout as <- <- <-.
    + by apply (wp_outcome _ _ _ _ _ (wp_RunInTenantTx false w ctx b Hp Hne)) in Hout.
Qed.

(** The pool's rows are open to every tenant: USING lets a bound tenant reach
    the rows of config_keys whose tenant_id is NULL, and a deletion asks for no
    WITH CHECK, so a tenant can delete the whole platform pool. *)
Theorem pool_rows_unprotected w t rel :
  policed w -> in_scope t w -> t <> EmptyString -> cn_tables w !! CClassTable = Some rel ->
  exists w' rel',
    runs (exec (DeleteWhere CClassTable (fun r => bool_decide (rw_TenantID r = None)))) w (inr []) w' /\
    cn_tables w' !! CClassTable = Some rel' /\
    forall k r, rows (rl_rows rel') !! k = Some r -> rw_TenantID r <> None.
Proof.
  intros Hp (Ht & _ & _) Hne Hrel. destruct (Hp CClassTable PolicyPool rel) as (E1 & E2 & E3); [done..|].
  assert (Hwp : wp true (exec (DeleteWhere CClassTable (fun r => bool_decide (rw_TenantID r = None)))) w
    (fun r w' => r = inr [] /\ exists rel', cn_tables w' !! CClassTable = Some rel' /\
       forall k r, rows (rl_rows rel') !! k = Some r -> rw_TenantID r <> None)).
  { simpl. apply wp_sql; [done|]. rewrite Hrel. split; [done|]. eexists. split; [apply lookup_insert_eq|].
    intros k r [_ Hk]%lookup_deleted E. revert Hk. unfold reaches, governed. rewrite E1, E2, E3, E. cbn [andb].
    rewrite (proj1 (policy_rule PolicyPool (current_setting w) None)), Ht.
    unfold may_read, is_empty. by rewrite bool_decide_eq_false_2. }
  apply wp_runs in Hwp as (r & w' & Hr & -> & rel' & Hrel' & Hnone). by exists w', rel'.
Qed.

End Requests.

(** ** The requests a pooled connection serves *)
Section Pool.
  Context `{Sql}.
  Implicit Types (w : Conn).

Inductive request :=
| InTenant (ctx : option Context) (b : body unit)
| AsPlatform (b : body unit)
| AcrossTenants (ctx : option Context) (b : body unit).

Definition run_request (q : request) : M Conn unit :=
  match q with
  | InTenant ctx b => RunInTenantTx ctx (run_body b)
  | AsPlatform b => RunAsPlatform (run_body b)
  | AcrossTenants ctx b => RunAcrossTenants ctx (run_body b)
  end.

Inductive request_step : Conn -> Conn -> Prop :=
| request_step_run q r w w' : outcome (run_request q) w r w' -> request_step w w'.

(** Between requests: no transaction, no tenant bound, platform mode off. *)
Definition clean w : Prop :=
  cn_local w = None /\ current_setting w SettingName = EmptyString /\
  current_setting w PlatformModeSettingName <> PlatformModeOn.

Lemma clean_begin w : clean w -> in_scope EmptyString (begin_local w).2 /\ (begin_local w).1 = false.
Proof.
  intros (El & Ht & Hm). unfold begin_local. rewrite El. simpl. split; [|done].
  unfold in_scope, current_setting in *. simpl. rewrite !lookup_empty. rewrite El in Ht, Hm. by split.
Qed.

(** The settings a finished transaction leaves are those of the session. *)
Lemma clean_end w w1 : clean w -> cn_session w1 = cn_session w -> clean (end_local false w1).2.
Proof.
  intros (El & Ht & Hm) Es. unfold clean, current_setting in *. rewrite El in Ht, Hm. simpl. rewrite Es. split; [done|].
  assert (Hleft : forall name, default EmptyString
    ((cn_session w ∪ ((fun _ => EmptyString) <$> default ∅ (cn_local w1))) !! name) = default EmptyString (cn_session w !! name)).
  { intros name. rewrite lookup_union, lookup_fmap. destruct (cn_session w !! name) as [v|]; simpl.
    - by destruct (default ∅ (cn_local w1) !! name).
    - by destruct (default ∅ (cn_local w1) !! name). }
  by rewrite !Hleft.
Qed.

Lemma wp_on_relation_policed h w name f :
  policed w -> wp h (on_relation name f) w (fun _ w' => cn_session w' = cn_session w /\ policed w').
Proof.
  intros Hp. unfold on_relation. apply wp_sql; [done|]. destruct (cn_tables w !! name) as [rel|] eqn:Erel; [|done].
  destruct (f w rel) as [e|[l rows']]; [done|]. split; [done|]. intros n kind rel' Hk. simpl.
  destruct (decide (n = name)) as [->|Hne]; [|rewrite lookup_insert_ne by done; by apply Hp].
  rewrite lookup_insert_eq. intros [= <-]. by apply (Hp _ _ _ Hk Erel).
Qed.

Lemma wp_enablePlatformMode h w :
  policed w -> wp h enablePlatformMode w (fun _ w' => cn_session w' = cn_session w /\ policed w').
Proof.
  intros Hp. unfold enablePlatformMode, set_config, read_setting. repeat wp_step.
  apply wp_sql; cbn [fst snd]; [done|]. repeat wp_step. apply wp_sql; cbn [fst snd]; [done|]. by repeat wp_step.
Qed.

(** Whatever runs, the session's settings and the policies stay. *)
Lemma wp_run_body_policed {A} h (b : body A) : forall w, policed w ->
  wp h (run_body b) w (fun _ w' => cn_session w' = cn_session w /\ policed w').
Proof.
  induction b as [r|s k IH]; intros w Hp; simpl; [destruct r; simpl; by wp_step|].
  wp_step. wp_step. apply (wp_mono h _ _ (fun _ w' => cn_session w' = cn_session w /\ policed w')).
  - destruct s; simpl; try by apply wp_on_relation_policed. wp_step.
    eapply wp_mono; [by apply wp_enablePlatformMode|]. intros [e|u] w1 Hw1; [done|]. by wp_step.
  - intros r w1 [E1 Hp1]. eapply wp_mono; [by apply IH|]. intros r' w2 [E2 Hp2]. split; [congruence|done].
Qed.

(** What a request may do to the tables. *)
Definition request_confined (q : request) w w' : Prop :=
  match q with
  | InTenant ctx b => if is_empty (FromContext ctx) then w' = w else confined (FromContext ctx) w w'
  | AsPlatform b => plain b -> confined EmptyString w w'
  | AcrossTenants ctx b => is_empty (FromContext ctx) = false -> w' = w
  end.

Lemma wp_transaction_clean {A} h (fn : M Conn A) w (P : Conn -> Prop) :
  clean w -> policed w -> P w -> (forall w1, P w1 -> P (end_local false w1).2) ->
  (forall w0, in_scope EmptyString w0 -> policed w0 -> cn_tables w0 = cn_tables w -> cn_session w0 = cn_session w ->
     wp h fn w0 (fun _ w1 => cn_session w1 = cn_session w0 /\ policed w1 /\ P w1)) ->
  wp h (Transaction fn) w (fun _ w' => clean w' /\ policed w' /\ P w').
Proof.
  intros Hc Hp Hself Hend Hfn. destruct (clean_begin w Hc) as [Hs Hn], (begin_scope w) as (_ & Et & Es).
  apply wp_Transaction. rewrite Hn. eapply wp_mono.
  - apply (Hfn (begin_local w).2); [done| |done|done]. intros name kind rel. rewrite Et. apply Hp.
  - intros r w1 (E1 & Hp1 & HP). destruct r as [e|a]; [done|]. split; [done|].
    split; [apply (clean_end w); [done|congruence]|]. split; [done|by apply Hend].
Qed.

Lemma wp_run_request h q w : clean w -> policed w ->
  wp h (run_request q) w (fun _ w' => clean w' /\ policed w' /\ request_confined q w w').
Proof.
  intros Hc Hp. destruct q as [ctx b|b|ctx b]; simpl.
  - unfold RunInTenantTx. destruct (is_empty (FromContext ctx)) eqn:Ee; [by wp_step|].
    set (t := FromContext ctx) in *. assert (Hne : t <> EmptyString) by (unfold is_empty in Ee; by bools).
    apply (wp_transaction_clean h _ w (confined t w)); [done|done|apply confined_refl|done|].
    intros w0 [_ [Hl _]] Hp0 Et Es. apply wp_bind, (wp_mono h _ _ (fun r w1 => cn_session w1 = cn_session w0 /\ policed w1 /\
      cn_tables w1 = cn_tables w0 /\ (r = inr tt -> in_scope t w1))).
    + unfold bind, set_config, read_setting. rewrite Ee. repeat wp_step. apply wp_sql; cbn [fst snd]; [done|].
      destruct Hl as [l El]. rewrite El. simpl. repeat wp_step. apply wp_sql; cbn [fst snd]; [done|].
      destruct (current_setting_set w0 SettingName t l El) as [Hset _]. rewrite Hset.
      rewrite bool_decide_eq_true_2 by done. simpl. wp_step. split_and!; [done..|]. intros _. by apply in_scope_bound.
    + intros [e|[]] w1 (E1 & Hp1 & E2 & Hs).
      * split; [done|]. split; [done|]. eapply confined_tables, confined_refl. congruence.
      * eapply wp_mono; [apply (wp_run_body h t b); [done|done|by apply Hs]|].
        intros r w2 (_ & E3 & Hp2 & Hcf). split; [congruence|]. split; [done|]. eapply confined_from; [|exact Hcf]. congruence.
  - assert (Hpc : clean w /\ policed w /\ (plain b -> confined EmptyString w w)) by (split_and!; try done; intros; apply confined_refl).
    apply (wp_transaction_clean h _ w (fun w' => plain b -> confined EmptyString w w')); [done|done|apply Hpc|done|].
    intros w0 Hs Hp0 Et Es.
    assert (H1 := wp_run_body_policed h b w0 Hp0). intros sc Hsc. specialize (H1 sc Hsc).
    pose proof (fun Hb => wp_run_body h EmptyString b Hb w0 Hp0 Hs sc Hsc) as H2.
    destruct (run_body b w0 sc) as [[r w1] sc1]. destruct H1 as [Hsc1 [E1 Hp1]]. split; [done|]. split; [done|]. split; [done|].
    intros Hb. destruct (H2 (fun _ => Hb)) as [_ (_ & _ & _ & Hcf)]. by eapply confined_from.
  - unfold RunAcrossTenants. destruct (is_empty (FromContext ctx)) eqn:Ee; simpl; [|by wp_step].
    apply (wp_transaction_clean h _ w (fun _ => true = false -> _)); [done|done|done|done|].
    intros w0 _ Hp0 _ _. apply wp_bind. eapply wp_mono; [by apply wp_enablePlatformMode|].
    intros [e|u] w1 [E1 Hp1]; [done|]. eapply wp_mono; [by apply wp_run_body_policed|].
    intros r w2 [E2 Hp2]. split; [congruence|done].
Qed.

(** C4. A pooled connection leaks nothing from one request to the next: from a
    fresh connection and installed policies, after any requests with any
    bodies, contexts and failures, no tenant is bound and platform mode is off;
    so the next request is confined to what its own context says: a tenant
    transaction to that tenant's rows, an unbound one that does not ask for
    platform mode to the platform's, and a call across tenants on a context
    that holds a tenant to nothing. *)
Theorem pooled_connection_confined w0 w q r w' :
  clean w0 -> policed w0 -> rtc request_step w0 w -> outcome (run_request q) w r w' ->
  clean w /\ policed w /\ request_confined q w w'.
Proof.
  intros Hc0 Hp0 Hr Hout. assert (Hw : clean w /\ policed w).
  { clear Hout. induction Hr as [w|w1 w2 w3 [q' r' wa wb Ho] _ IH]; [done|].
    apply (wp_outcome _ _ _ _ _ (wp_run_request false q' wa Hc0 Hp0)) in Ho. destruct Ho as (Hc2 & Hp2 & _). by apply IH. }
  destruct Hw as [Hc Hp]. apply (wp_outcome _ _ _ _ _ (wp_run_request false q w Hc Hp)) in Hout as (_ & _ & Hq). done.
Qed.

End Pool.

(** The effect of one DDL statement on a table that exists. *)
Lemma wp_relation_f `{Sql} h name g rel (w : Conn) (Q : error + unit -> Conn -> Prop) :
  cn_tables w !! name = Some rel -> (h = false -> forall msg, Q (inl (Driver msg)) w) ->
  Q (inr tt) (mkConn (cn_session w) (cn_local w) (<[name := g rel]> (cn_tables w))) -> wp h (relation_f name g) w Q.
Proof. intros Hrel Hd HQ. unfold relation_f. apply wp_sql; [done|]. by rewrite Hrel. Qed.

(** The table list is of safe identifiers, so that installation is not refused. *)
Lemma scoped_tables_safe name kind : PolicyKindFor name = Some kind -> checkIdentifier name = None.
Proof.
  unfold PolicyKindFor. intros Hk. repeat case_bool_decide; subst; try done.
  destruct (existsb _ _) eqn:E in Hk; [|done]. apply existsb_exists in E as (t & Hin & <-%bool_decide_eq_true).
  assert (Hall : forallb (fun t => bool_decide (checkIdentifier t = None)) BClassTables = true) by reflexivity.
  rewrite forallb_forall in Hall. by apply Hall in Hin as ?%bool_decide_eq_true.
Qed.

(** Installing its policy on a table of the list enables and forces it. *)
Lemma install_policies `{Sql} (w : Conn) name kind rel :
  PolicyKindFor name = Some kind -> cn_tables w !! name = Some rel ->
  runs (InstallPolicy name kind) w (inr tt)
    (mkConn (cn_session w) (cn_local w)
       (<[name := mkRelation (rl_rows rel) true true (Some (policyClauses kind))]> (cn_tables w))).
Proof.
  intros Hk Hrel. apply wp_runs_eq. unfold InstallPolicy. rewrite (scoped_tables_safe _ _ Hk).
  wp_step. wp_step. apply (wp_relation_f _ _ _ rel); [done|done|].
  wp_step. eapply wp_relation_f; [apply lookup_insert_eq|done|].
  wp_step. eapply wp_relation_f; [apply lookup_insert_eq|done|].
  eapply wp_relation_f; [apply lookup_insert_eq|done|]. split; [done|]. simpl. by rewrite !insert_insert_eq.
Qed.

(** ** Witnesses *)
Definition text (s : string) : gmap string string := {["data" := s]}.
Definition demo_rows : gmap Z Row :=
  {[1 := mkRow None (text "pool"); 2 := mkRow (Some "t1") (text "own"); 3 := mkRow (Some "t2") (text "other")]}.
Definition demo_relation (kind : PolicyKind) : @Relation map_sql :=
  @mkRelation map_sql demo_rows true true (Some (policyClauses kind)).
Definition demo_tables : gmap string (@Relation map_sql) :=
  {["config_keys" := demo_relation PolicyPool; "skills" := demo_relation PolicyStrict]}.
Definition demo_conn : @Conn map_sql := @mkConn map_sql ∅ None demo_tables.
Definition demo_ctx : option Context := Some (WithTenant Background "t1").

(** Reads both tables, asks for platform mode, reads again and deletes all it can. *)
Definition demo_body : body (list Row * list Row) :=
  Exec (Select "config_keys" (fun _ => true)) (fun r1 =>
  Exec SetPlatformMode (fun _ =>
  Exec (Select "skills" (fun _ => true)) (fun r2 =>
  Exec (DeleteWhere "skills" (fun _ => true)) (fun _ =>
  Return (match r1, r2 with inr a, inr b => inr (a, b) | _, _ => inl ErrLeak end))))).

Lemma demo_policed (w : @Conn map_sql) : cn_tables w = demo_tables -> @policed map_sql w.
Proof.
  intros E name kind rel Hk. rewrite E. unfold demo_tables. intros Hrel.
  apply lookup_insert_Some in Hrel as [[<- <-]|[_ [<- <-]%lookup_singleton_Some]];
    injection Hk as <-; split_and!; reflexivity.
Qed.

Lemma tenant_tx_isolated_witness :
  result (@RunInTenantTx map_sql _ demo_ctx (run_body demo_body)) demo_conn =
    inr ([mkRow (Some "t1") (text "own"); mkRow None (text "pool")], [mkRow (Some "t1") (text "own")]) /\
  exists rel, cn_tables (after (@RunInTenantTx map_sql _ demo_ctx (run_body demo_body)) demo_conn) !! "skills" = Some rel /\
    rows (rl_rows rel) !! 3 = Some (mkRow (Some "t2") (text "other")).
Proof.
  split; [vm_compute; reflexivity|].
  destruct (@tenant_tx_isolated map_sql _ demo_conn demo_ctx demo_body [] (demo_policed demo_conn eq_refl)) as [_ Hc].
  destruct (Hc _ _ (outcome_after _ _)) as [Hcf _].
  destruct (Hcf "skills" (demo_relation PolicyStrict)) as (rel & Hrel & _ & _ & _ & [Hgo _]);
    [vm_compute; reflexivity|].
  exists rel. split; [exact Hrel|].
  destruct (Hgo 3 (mkRow (Some "t2") (text "other")) eq_refl) as [Hr|Hr]; [exact Hr|discriminate Hr].
Defined.

Definition demo_bound : @Conn map_sql :=
  @mkConn map_sql ∅ (Some {[SettingName := "t1"]}) demo_tables.

Lemma pool_rows_unprotected_witness :
  rows (Sql := map_sql) (rl_rows (demo_relation PolicyPool)) !! 1 = Some (mkRow None (text "pool")) /\
  exists w' rel',
    runs (@exec map_sql (DeleteWhere CClassTable (fun r => bool_decide (rw_TenantID r = None)))) demo_bound (inr []) w' /\
    cn_tables w' !! CClassTable = Some rel' /\
    forall k r, rows (Sql := map_sql) (rl_rows rel') !! k = Some r -> rw_TenantID r <> None.
Proof.
  split; [reflexivity|].
  apply (@pool_rows_unprotected map_sql demo_bound "t1" (demo_relation PolicyPool)).
  - apply demo_policed. reflexivity.
  - split; [reflexivity|]. split; [by eexists|discriminate].
  - discriminate.
  - reflexivity.
Defined.

Definition demo_request1 : request := InTenant demo_ctx (Exec SetPlatformMode (fun _ => Return (inr tt))).
Definition demo_request2 : request :=
  AcrossTenants demo_ctx (Exec (DeleteWhere "skills" (fun _ => true)) (fun _ => Return (inr tt))).
Definition demo_used : @Conn map_sql := after (@run_request map_sql demo_request1) demo_conn.

Lemma pooled_connection_confined_witness :
  outcome (@run_request map_sql demo_request2) demo_used
    (inl (Wrap "%w: tenant %q is resolved on this context" ErrPlatformModeWithTenant)) demo_used /\
  @clean map_sql demo_used.
Proof.
  assert (Hout : outcome (@run_request map_sql demo_request2) demo_used
    (inl (Wrap "%w: tenant %q is resolved on this context" ErrPlatformModeWithTenant)) demo_used) by (exists [], []; reflexivity).
  split; [exact Hout|].
  assert (H1 : @clean map_sql demo_conn) by (split; [reflexivity|]; split; [reflexivity|discriminate]).
  assert (H2 : @policed map_sql demo_conn) by (apply demo_policed; reflexivity).
  assert (H3 : rtc (@request_step map_sql) demo_conn demo_used)
    by (apply rtc_once, (request_step_run demo_request1 (result (@run_request map_sql demo_request1) demo_conn)), outcome_after).
  exact (proj1 (@pooled_connection_confined map_sql demo_conn demo_used demo_request2 _ demo_used H1 H2 H3 Hout)).
Defined.
