(* ===== verification/Calendar.v ===== *)
(** * UTC months, as the standard library's time package computes them

    An instant is a number of nanoseconds since 1970-01-01 00:00 UTC.  The
    accounting window of a tenant is the calendar month of an instant
    (monthWindow and counterBudget of plugins/tenantusage/plugin.go). *)
From S2P Require Import Prelude GoStrings.

Definition day_ns : Z := 86400 * 10 ^ 9.

(** ** Dates *)

(** Days from 0001-01-01 to the first of January of a year. *)
Definition year_start (y : Z) : Z := 365 * (y - 1) + (y - 1) / 4 - (y - 1) / 100 + (y - 1) / 400.

Definition leap (y : Z) : bool := ((y mod 4 =? 0) && negb (y mod 100 =? 0)) || (y mod 400 =? 0).

(** The year of a day: an estimate, off by at most one. *)
Definition year_of (d : Z) : Z :=
  let e := (400 * d) / 146097 + 1 in
  if d <? year_start e then e - 1 else if year_start (e + 1) <=? d then e + 1 else e.

(** Days of the year before a month, 13 being the month after December. *)
Definition days_before (y month : Z) : Z :=
  let l := if leap y then 1 else 0 in
  if month =? 1 then 0 else if month =? 2 then 31 else if month =? 3 then 59 + l else if month =? 4 then 90 + l
  else if month =? 5 then 120 + l else if month =? 6 then 151 + l else if month =? 7 then 181 + l
  else if month =? 8 then 212 + l else if month =? 9 then 243 + l else if month =? 10 then 273 + l
  else if month =? 11 then 304 + l else if month =? 12 then 334 + l else 365 + l.

(** The latest month of the year that has begun on a day. *)
Fixpoint month_from (fuel : nat) (y day : Z) : Z :=
  match fuel with
  | O => 1
  | S n => let month := Z.of_nat fuel in if days_before y month <=? day then month else month_from n y day
  end.
Definition month_of (y day : Z) : Z := month_from 12 y day.

(** time.Date(y, month, 1, 0, 0, 0, 0, time.UTC), with December's successor. *)
Definition first_of_month (y month : Z) : Z :=
  let (y, month) := if month =? 13 then (y + 1, 1) else (y, month) in
  (year_start y + days_before y month - 719162) * day_ns.

(** The year and the month of an instant. *)
Definition year_month (t : Z) : Z * Z :=
  let d := t / day_ns + 719162 in
  let y := year_of d in (y, month_of y (d - year_start y)).

(** ** The accounting window *)
Definition monthWindow (now : Z) : Z * Z :=
  let (y, month) := year_month now in
  (first_of_month y month, first_of_month y (month + 1)).

Fixpoint zeros (n : nat) : string := match n with O => EmptyString | S n => String "0" (zeros n) end.
Definition padded (width : nat) (z : Z) : string :=
  let digits := pretty (Z.abs z) in
  (if z <? 0 then "-" else EmptyString) +:+ zeros (width - String.length digits) +:+ digits.

(** from.Format("2006-01") between "month:" and ":credit". *)
Definition counterBudget (from : Z) : string :=
  let (y, month) := year_month from in
  "month:" +:+ (padded 4 y +:+ "-" +:+ padded 2 month) +:+ ":credit".

(** ** Facts *)
Lemma year_length y : year_start (y + 1) = year_start y + 365 + (if leap y then 1 else 0).
Proof.
  unfold year_start, leap. replace (y + 1 - 1) with y by lia.
  destruct (y mod 4 =? 0) eqn:E4, (y mod 100 =? 0) eqn:E100, (y mod 400 =? 0) eqn:E400; simpl; bools;
    Z.to_euclidean_division_equations; lia.
Qed.

Lemma year_of_spec d : year_start (year_of d) <= d < year_start (year_of d + 1).
Proof.
  unfold year_of. set (e := (400 * d) / 146097 + 1).
  assert (Hlo : year_start (e - 1) <= d) by (unfold year_start, e; Z.to_euclidean_division_equations; lia).
  assert (Hhi : d < year_start (e + 1 + 1)) by (unfold year_start, e; Z.to_euclidean_division_equations; lia).
  destruct (d <? year_start e) eqn:E1; bools; [by replace (e - 1 + 1) with e by lia|].
  destruct (year_start (e + 1) <=? d) eqn:E2; bools; done.
Qed.

Lemma year_start_mono y1 y2 : y1 < y2 -> year_start (y1 + 1) <= year_start y2.
Proof. intros H. unfold year_start. Z.to_euclidean_division_equations; lia. Qed.

Lemma year_unique d y : year_start y <= d < year_start (y + 1) -> year_of d = y.
Proof.
  intros H. pose proof (year_of_spec d). destruct (Z.lt_trichotomy (year_of d) y) as [Hlt|[Heq|Hlt]]; [|done|].
  - pose proof (year_start_mono _ _ Hlt). lia.
  - pose proof (year_start_mono _ _ Hlt). lia.
Qed.

Lemma month_cases m : 1 <= m <= 12 ->
  m = 1 \/ m = 2 \/ m = 3 \/ m = 4 \/ m = 5 \/ m = 6 \/ m = 7 \/ m = 8 \/ m = 9 \/ m = 10 \/ m = 11 \/ m = 12.
Proof. lia. Qed.

Lemma days_before_lt y m : 1 <= m <= 12 -> days_before y m < days_before y (m + 1).
Proof. intros Hm%month_cases. unfold days_before. destruct (leap y); decompose [or] Hm; subst; simpl; lia. Qed.

Lemma month_from_spec n y day : (n <= 12)%nat -> (0 < n)%nat -> 0 <= day < days_before y (Z.of_nat n + 1) ->
  1 <= month_from n y day <= Z.of_nat n /\ days_before y (month_from n y day) <= day < days_before y (month_from n y day + 1).
Proof.
  induction n as [|n IH]; intros Hn Hpos Hday; [lia|]. cbn [month_from].
  destruct (days_before y (Z.of_nat (S n)) <=? day) eqn:E; bools; [lia|].
  destruct (decide (n = 0%nat)) as [->|Hne].
  - change (days_before y (Z.of_nat 1)) with 0 in E. lia.
  - assert (Hd : 0 <= day < days_before y (Z.of_nat n + 1)) by (replace (Z.of_nat n + 1) with (Z.of_nat (S n)) by lia; lia).
    destruct (IH ltac:(lia) ltac:(lia) Hd) as [H1 H2]. split; [lia|done].
Qed.

Lemma days_before_mono y m1 m2 : 1 <= m1 -> m1 < m2 <= 13 -> days_before y (m1 + 1) <= days_before y m2.
Proof.
  intros H1 H2. assert (Hm : 1 <= m1 <= 12) by lia. apply month_cases in Hm.
  assert (Hm2 : m2 = 13 \/ 1 <= m2 <= 12) by lia. destruct Hm2 as [->|Hm2%month_cases].
  - unfold days_before. destruct (leap y); decompose [or] Hm; subst; simpl; lia.
  - unfold days_before. destruct (leap y); decompose [or] Hm; subst; decompose [or] Hm2; subst; simpl; lia.
Qed.

(** An instant lies in a month exactly when it is between the month's bounds. *)
Lemma first_of_month_days y month : 1 <= month <= 13 ->
  first_of_month y month = (year_start y + days_before y month - 719162) * day_ns.
Proof.
  intros Hm. unfold first_of_month. destruct (month =? 13) eqn:E; bools; [|done]. subst month.
  rewrite year_length. unfold days_before. simpl. f_equal. destruct (leap y); lia.
Qed.

Lemma in_month_days y month t : 1 <= month <= 12 ->
  first_of_month y month <= t < first_of_month y (month + 1) <->
  year_start y + days_before y month <= t / day_ns + 719162 < year_start y + days_before y (month + 1).
Proof.
  intros Hm. rewrite !first_of_month_days by lia. unfold day_ns. set (a := year_start y + days_before y month).
  set (b := year_start y + days_before y (month + 1)). Z.to_euclidean_division_equations; lia.
Qed.

Lemma year_month_spec y month t :
  year_month t = (y, month) <-> 1 <= month <= 12 /\ first_of_month y month <= t < first_of_month y (month + 1).
Proof.
  unfold year_month. set (d := t / day_ns + 719162). pose proof (year_of_spec d) as Hy. pose proof (year_length (year_of d)) as Hl.
  assert (H13 : forall y, days_before y 13 = 365 + (if leap y then 1 else 0)) by (intros; unfold days_before; simpl; by destruct (leap _)).
  destruct (month_from_spec 12 (year_of d) (d - year_start (year_of d))) as [Hm Hday]; [lia|lia| |].
  { change (Z.of_nat 12 + 1) with 13. rewrite H13. lia. }
  unfold month_of. set (m := month_from 12 (year_of d) (d - year_start (year_of d))) in *. split.
  - intros [= <- <-]. split; [lia|]. apply in_month_days; [lia|]. fold d. lia.
  - intros [Hmonth Ht]. apply in_month_days in Ht; [|done]. fold d in Ht.
    assert (Hlow : 0 <= days_before y month).
    { destruct (decide (month = 1)) as [->|Hne]; [done|]. pose proof (days_before_mono y 1 month). 
      assert (0 <= days_before y (1 + 1)) by (by unfold days_before). lia. }
    assert (Hhigh : days_before y (month + 1) <= 365 + (if leap y then 1 else 0)).
    { rewrite <-H13. destruct (decide (month = 12)) as [->|Hne]; [done|].
      pose proof (days_before_mono y month 13). pose proof (days_before_mono y (month + 1) 13).
      pose proof (days_before_lt y (month + 1)). lia. }
    assert (Ey : year_of d = y) by (apply year_unique; rewrite (year_length y); lia).
    f_equal; [done|]. rewrite Ey in *.
    destruct (Z.lt_trichotomy m month) as [Hlt|[Heq|Hlt]]; [|done|].
    + pose proof (days_before_mono y m month). lia.
    + pose proof (days_before_mono y month m). lia.
Qed.

Lemma padded_value n z : 0 <= z -> parse_digits 0 (padded n z) = Some z.
Proof.
  intros Hz. unfold padded. rewrite (proj2 (Z.ltb_ge z 0) Hz), (Z.abs_eq z Hz). simpl.
  assert (Hzeros : forall k s, parse_digits 0 (zeros k +:+ s) = parse_digits 0 s) by (induction k as [|k IH]; intros s; [done|apply IH]).
  rewrite Hzeros. destruct z as [|p|p]; [done| |lia].
  change (pretty (Z.pos p)) with (pretty_N_go (N.pos p) EmptyString). by rewrite parse_pretty_N.
Qed.

Lemma padded_no_dash n z : 0 <= z -> index_byte (padded n z) "-"%char = None.
Proof.
  intros Hz. assert (Hd : forall s, is_Some (parse_digits 0 s) -> index_byte s "-"%char = None).
  { intros s. generalize 0. induction s as [|c s IH]; intros a Hs; [done|]. simpl in *.
    destruct (is_digit c) eqn:Ec; [|by destruct Hs]. rewrite (IH _ Hs).
    destruct c as [[] [] [] [] [] [] [] []]; done. }
  apply Hd. rewrite padded_value by done. by eexists.
Qed.

(** Accounting windows are the calendar months and tile time: every instant
    lies in its window, every instant of a window has that same window, the
    next window starts where one ends, and two windows since year 0 have the
    same counter name only when they are the same window. *)
Theorem month_windows_tile t t' :
  let w := monthWindow t in
  w.1 <= t < w.2 /\
  (w.1 <= t' < w.2 <-> monthWindow t' = w) /\
  (monthWindow w.2).1 = w.2 /\
  (0 <= (year_month t).1 -> 0 <= (year_month t').1 ->
     counterBudget (monthWindow t).1 = counterBudget (monthWindow t').1 <-> monthWindow t = monthWindow t').
Proof.
  cbn zeta. unfold monthWindow. destruct (year_month t) as [y m] eqn:E, (year_month t') as [y' m'] eqn:E'.
  pose proof (proj1 (year_month_spec _ _ _) E) as [Hm Ht]. pose proof (proj1 (year_month_spec _ _ _) E') as [Hm' Ht']. cbn [fst snd].
  assert (Hself : forall y m, 1 <= m <= 12 -> year_month (first_of_month y m) = (y, m)).
  { intros y0 m0 Hm0. apply year_month_spec. split; [done|]. split; [lia|].
    rewrite !first_of_month_days by lia. pose proof (days_before_lt y0 m0 Hm0). unfold day_ns. lia. }
  split; [done|]. split; [|split].
  - split.
    + intros Hin. assert (E2 : year_month t' = (y, m)) by (by apply year_month_spec). congruence.
    + intros Ew. injection Ew as E1 E2. lia.
  - destruct (decide (m = 12)) as [->|Hne].
    + change (first_of_month y (12 + 1)) with (first_of_month (y + 1) 1). by rewrite (Hself (y + 1) 1).
    + by rewrite (Hself y (m + 1)) by lia.
  - intros Hy Hy'. unfold counterBudget. rewrite !Hself by done. split.
    + intros Eb. apply sapp_inj_l, sapp_inj_suffix in Eb.
      apply (f_equal (fun s => cut s "-"%char)) in Eb.
      change ("-" +:+ padded 2 m) with (String "-" (padded 2 m)) in Eb.
      change ("-" +:+ padded 2 m') with (String "-" (padded 2 m')) in Eb.
      rewrite !cut_app in Eb by (by apply padded_no_dash).
      pose proof (f_equal (fun x => parse_digits 0 x.1.1) Eb) as E1. pose proof (f_equal (fun x => parse_digits 0 x.1.2) Eb) as E2.
      cbn [fst snd] in E1, E2. rewrite !padded_value in E1, E2 by lia. by simplify_eq.
    + intros Ew. assert (E2 : year_month t' = (y, m)); [|congruence].
      apply year_month_spec. split; [done|]. injection Ew as -> ->. done.
Qed.

(** 2024-02-29 12:00 and 2024-03-01 00:00. *)
Lemma month_windows_tile_witness :
  counterBudget (monthWindow 1709208000000000000).1 = "month:2024-02:credit" /\
  monthWindow 1709208000000000000 <> monthWindow 1709251200000000000.
Proof.
  split; [vm_compute; reflexivity|]. intros E.
  destruct (month_windows_tile 1709208000000000000 1709251200000000000) as (_ & _ & _ & Hb).
  assert (H1 : 0 <= (year_month 1709208000000000000).1) by (vm_compute; discriminate).
  assert (H2 : 0 <= (year_month 1709251200000000000).1) by (vm_compute; discriminate).
  apply (Hb H1 H2) in E. revert E. vm_compute. discriminate.
Defined.
