(* ===== verification/TenantUsage.v ===== *)
(** * Admission and metering of model requests (plugins/tenantusage/plugin.go)

    The plugin runs before and after every request to a provider: it admits a
    request by plan, credit and concurrency, and settles it once.  It reaches
    the ledger, the semaphore, the shared counter and the clock through an
    interface over the state [W] of the world.  The request and response types
    of the gateway are third-party: their fields are arguments, their methods
    parameters.  Log lines are left out. *)
From Stdlib Require Import Floats.SpecFloat.
From S2P Require Import Prelude GoStrings Sql Redis Billing Plans Quota Fairness Calendar.

(** ** What the plugin is given *)
Class UsageBackends (W : Type) := {
  be_CheckAllowance : string -> string -> Z -> Z -> Z -> Z -> W -> (error + AllowanceStatus) * W;
  be_RecordUsage : UsageInput -> W -> (error + UsageEvent) * W;
  be_PriceUsage : string -> Z -> Z -> W -> (error + Z) * W;
  be_Acquire : string -> string -> Z -> Z -> Z -> W -> (error + Lease) * W;
  be_Renew : Lease -> Z -> W -> (error + unit) * W;
  be_Release : Lease -> W -> (error + unit) * W;
  be_Usage : string -> string -> W -> (error + Z) * W;
  be_ChargeOnce : string -> string -> string -> Z -> Z -> W -> (error + Z * bool) * W;
  be_now : W -> Z * W }.

(** The configuration after [New]: [cf_Counter] tells whether there is one. *)
Record Plugin := mkPlugin {
  cf_Counter : bool; cf_LeaseTTL : Z; cf_ProviderMaxConcurrent : Z; cf_MarkupBasisPoints : Z }.

Definition New (counter : bool) (leaseTTL providerMaxConcurrent markupBasisPoints : Z) : error + Plugin :=
  let leaseTTL := if leaseTTL <=? 0 then 5 * 60 * 10 ^ 9 else leaseTTL in
  if (providerMaxConcurrent <? 0) || (markupBasisPoints <? 0) then inl (Prelude.New "tenantusage: invalid limits")
  else inr (mkPlugin counter leaseTTL providerMaxConcurrent markupBasisPoints).

Record admission := mkAdmission {
  ad_settled : bool; ad_tenantID : string; ad_provider : string; ad_model : string; ad_requestID : string;
  ad_attempt : Z; ad_budget : string; ad_windowEnd : Z; ad_startedAt : Z; ad_lease : Lease }.

Definition settle_state (a : admission) : admission :=
  mkAdmission true (ad_tenantID a) (ad_provider a) (ad_model a) (ad_requestID a) (ad_attempt a) (ad_budget a)
    (ad_windowEnd a) (ad_startedAt a) (ad_lease a).

Definition canonicalSKU (provider model : string) : string :=
  let provider := trim_space provider in
  let model := trim_space model in
  if is_empty provider || bool_decide (provider = "unresolved") || has_prefix model (provider +:+ "/")
  then model else provider +:+ "/" +:+ model.

(** ** The gateway's usage records *)

(** A cost in dollars, an IEEE 754 binary64. *)
Definition float64 : Type := spec_float.
Definition million : float64 := S754_finite false 8589934592000000 (-33).

(** [math.Round]: to the nearest integer, halves away from zero; of a finite value. *)
Definition round_half_away (m : positive) (e : Z) : Z :=
  if 0 <=? e then Z.pos m * 2 ^ e else (Z.pos m + 2 ^ (- e - 1)) / 2 ^ (- e).

Record LLMUsage := mkLLMUsage { us_Prompt : Z; us_Completion : Z; us_Total : Z; us_Cost : option float64 }.
Record SpeechUsage := mkSpeechUsage { sp_Input : Z; sp_Output : Z; sp_Total : Z; sp_Cost : option float64 }.
Record TranscriptionUsage := mkTranscriptionUsage {
  tr_Input : option Z; tr_Output : option Z; tr_Total : option Z; tr_Cost : option float64 }.
Record CountTokens := mkCountTokens { ct_Input : Z; ct_Output : option Z; ct_Total : option Z }.

(** The methods of the gateway's types, and what the platform makes of a float
    that no int64 represents. *)
Class Bifrost := {
  NormalizeProviderCost : LLMUsage -> LLMUsage;
  ResponsesUsage : Type;
  ToBifrostLLMUsage : ResponsesUsage -> option LLMUsage;
  NormalizeImageCost : LLMUsage -> LLMUsage;
  int64_of_unrepresentable : float64 -> Z }.

Section Usage.
  Context `{Bifrost}.

(** The response kinds whose usage is read; a pointer is an option. *)
Record Response := mkResponse {
  rs_TextCompletion : option (option LLMUsage);
  rs_Chat : option (option LLMUsage);
  rs_Responses : option (option ResponsesUsage);
  rs_ResponsesStream : option (option (option ResponsesUsage));
  rs_Compaction : option (option ResponsesUsage);
  rs_Embedding : option (option LLMUsage);
  rs_Rerank : option (option LLMUsage);
  rs_Speech : option (option SpeechUsage);
  rs_SpeechStream : option (option SpeechUsage);
  rs_Transcription : option (option TranscriptionUsage);
  rs_TranscriptionStream : option (option TranscriptionUsage);
  rs_ImageGeneration : option (option LLMUsage);
  rs_Passthrough : option (option (option LLMUsage));
  rs_CountTokens : option CountTokens }.

(** [BifrostError]: the usage billed of a failed request. *)
Record BifrostError := mkBifrostError { er_BilledUsage : option LLMUsage }.

Definition speechUsage (value : SpeechUsage) : LLMUsage :=
  mkLLMUsage (sp_Input value) (sp_Output value) (sp_Total value) (sp_Cost value).

Definition transcriptionUsage (value : TranscriptionUsage) : LLMUsage :=
  mkLLMUsage (default 0 (tr_Input value)) (default 0 (tr_Output value)) (default 0 (tr_Total value)) (tr_Cost value).

Definition countTokensUsage (c : CountTokens) : LLMUsage :=
  mkLLMUsage (ct_Input c) (default 0 (ct_Output c)) (default (ct_Input c) (ct_Total c)) None.

Definition responseUsage (resp : option Response) (bifrostErr : option BifrostError) : option LLMUsage :=
  match resp with
  | None => match bifrostErr with Some e => er_BilledUsage e | None => None end
  | Some r =>
      match rs_TextCompletion r with Some u => u | None =>
      match rs_Chat r with Some u => u | None =>
      match rs_Responses r with Some (Some u) => ToBifrostLLMUsage u | _ =>
      match rs_ResponsesStream r with Some (Some (Some u)) => ToBifrostLLMUsage u | _ =>
      match rs_Compaction r with Some (Some u) => ToBifrostLLMUsage u | _ =>
      match rs_Embedding r with Some u => u | None =>
      match rs_Rerank r with Some u => u | None =>
      match rs_Speech r with Some (Some u) => Some (speechUsage u) | _ =>
      match rs_SpeechStream r with Some (Some u) => Some (speechUsage u) | _ =>
      match rs_Transcription r with Some (Some u) => Some (transcriptionUsage u) | _ =>
      match rs_TranscriptionStream r with Some (Some u) => Some (transcriptionUsage u) | _ =>
      match rs_ImageGeneration r with Some (Some u) => Some (NormalizeImageCost u) | _ =>
      match rs_Passthrough r with Some (Some u) => u | _ =>
      match rs_CountTokens r with Some c => Some (countTokensUsage c) | None => None
      end end end end end end end end end end end end end end
  end.

Definition costMicros (cost : option float64) : Z :=
  match cost with
  | None => 0
  | Some c =>
      if SFleb c (S754_zero false) then 0 else
      match SFmul 53 1024 c million with
      | S754_finite s m e =>
          let n := round_half_away m e in
          let n := if s then - n else n in
          if int64_rangeb n then n else int64_of_unrepresentable (S754_finite s m e)
      | S754_zero _ => 0
      | x => int64_of_unrepresentable x
      end
  end.

End Usage.

(** ** The hooks *)
Record short_circuit := mkShortCircuit { sc_Status : Z; sc_Type : string; sc_Message : string }.
Definition shortCircuit (status : Z) (typ message : string) : option short_circuit :=
  Some (mkShortCircuit status typ message).

(** The credit after the shared counter, which may be ahead of the ledger. *)
Definition with_counter (allowance : AllowanceStatus) (used : Z) : AllowanceStatus :=
  if as_UsedCreditMicros allowance <? used then
    let remaining := as_IncludedCreditMicros allowance -64 used in
    mkAllowanceStatus (as_PlanID allowance) (as_Model allowance) (as_ModelAllowed allowance)
      (as_PricingConfigured allowance) (as_IncludedCreditMicros allowance) used
      (if remaining <? 0 then 0 else remaining) (as_MaxConcurrent allowance) (as_OveragePolicy allowance)
      (negb (bool_decide (as_OveragePolicy allowance = "reject")) || (used <? as_IncludedCreditMicros allowance))
  else allowance.

Section Hooks.
  Context {W : Type} `{UsageBackends W} `{Bifrost} (p : Plugin).

Definition AllowanceUnavailable := shortCircuit 503 "allowance_unavailable" "Tenant allowance is temporarily unavailable".

(** The part of PreLLMHook after the shared counter was consulted. *)
Definition admit_request (tenantID provider sku requestID : string) (attempt now : Z) (budget : string) (to : Z)
    (allowance : AllowanceStatus) (w : W) : option short_circuit * option admission * W :=
  if negb (as_Allowed allowance)
  then (shortCircuit 429 "credit_exhausted" "Tenant included credit is exhausted", None, w) else
  match be_Acquire tenantID provider (as_MaxConcurrent allowance) (cf_ProviderMaxConcurrent p) (cf_LeaseTTL p) w with
  | (inl e, w) =>
      if errors_is e ErrUnavailable
      then (shortCircuit 429 "concurrency_exceeded" "Tenant concurrency limit is reached", None, w)
      else (shortCircuit 503 "admission_unavailable" "Tenant admission is temporarily unavailable", None, w)
  | (inr lease, w) =>
      (None, Some (mkAdmission false tenantID provider sku requestID attempt budget to now lease), w)
  end.

(** The verdict, the admission put on the request's context, and the world. *)
Definition PreLLMHook (tenantID provider model requestID : string) (attempt : Z) (w : W)
    : option short_circuit * option admission * W :=
  if is_empty tenantID
  then (shortCircuit 403 "tenant_required" "Resolved tenant identity is required", None, w) else
  if is_empty model then (None, None, w) else
  let provider := if is_empty provider then "unresolved" else provider in
  let sku := canonicalSKU provider model in
  let (now, w) := be_now w in
  let (from, to) := monthWindow now in
  match be_CheckAllowance tenantID sku now from to 0 w with
  | (inl _, w) => (AllowanceUnavailable, None, w)
  | (inr allowance, w) =>
      if negb (as_ModelAllowed allowance)
      then (shortCircuit 403 "model_not_allowed" "Model is not available on the tenant plan", None, w) else
      if negb (as_PricingConfigured allowance)
      then (shortCircuit 403 "pricing_not_configured" "Model pricing is not configured", None, w) else
      let budget := counterBudget from in
      if cf_Counter p then
        match be_Usage tenantID budget w with
        | (inl _, w) => (AllowanceUnavailable, None, w)
        | (inr used, w) => admit_request tenantID provider sku requestID attempt now budget to (with_counter allowance used) w
        end
      else admit_request tenantID provider sku requestID attempt now budget to allowance w
  end.

(** The usage of a response as it is billed: [DeepCopy], [NormalizeProviderCost]
    and the missing total. *)
Definition billed_usage (usage : LLMUsage) : LLMUsage :=
  let usage := NormalizeProviderCost usage in
  if us_Total usage =? 0
  then mkLLMUsage (us_Prompt usage) (us_Completion usage) (us_Prompt usage +64 us_Completion usage) (us_Cost usage)
  else usage.

Definition provider_cost (a : admission) (usage : LLMUsage) (w : W) : Z * W :=
  let providerMicros := costMicros (us_Cost usage) in
  if providerMicros =? 0 then
    match be_PriceUsage (ad_model a) (us_Prompt usage) (us_Completion usage) w with
    | (inl _, w) => (providerMicros, w)
    | (inr priced, w) => (priced, w)
    end
  else (providerMicros, w).

(** The identity a request is charged and recorded under. *)
Definition settlement_key (a : admission) : string :=
  (if is_empty (ad_requestID a) then "lease:" +:+ ls_Token (ad_lease a) else ad_requestID a) +:+
  ":attempt:" +:+ pretty (ad_attempt a).

Definition markup_of (providerMicros : Z) : Z := Z.quot (providerMicros *64 cf_MarkupBasisPoints p) 10000.

Definition charge_ttl (a : admission) (now : Z) : Z :=
  let ttl := ad_windowEnd a - now + 24 * 3600 * 10 ^ 9 in
  if ttl <? 3600 * 10 ^ 9 then 3600 * 10 ^ 9 else ttl.

(** What is recorded of a request. *)
Definition settlement_input (a : admission) (failed : bool) (fallbackID : string) (usage : LLMUsage)
    (providerMicros finished now : Z) : UsageInput :=
  let durationMS := milliseconds (finished - ad_startedAt a) in
  mkUsageInput (settlement_key a) (settlement_key a)
    (if is_empty fallbackID then ad_requestID a else fallbackID) (ad_attempt a) (ad_tenantID a) now
    KeyOwnershipPlatformPool (ad_model a) (if failed then UsageStatusFailed else UsageStatusSuccess)
    (Some (if durationMS <? 0 then 0 else durationMS)) (us_Prompt usage) (us_Completion usage)
    providerMicros (markup_of providerMicros) 0.

(** Charging the counter, then writing the ledger; a failure of either is logged. *)
Definition settle_usage (a : admission) (failed : bool) (fallbackID : string) (usage : LLMUsage) (w : W) : W :=
  let (providerMicros, w) := provider_cost a usage w in
  if (us_Total usage <=? 0) && (providerMicros <=? 0) then w else
  let chargeMicros := providerMicros +64 markup_of providerMicros in
  let (finished, w) := be_now w in
  let w := if cf_Counter p && (0 <? chargeMicros) then
             let (now, w) := be_now w in
             (be_ChargeOnce (ad_tenantID a) (ad_budget a) (settlement_key a) chargeMicros (charge_ttl a now) w).2
           else w in
  let (now, w) := be_now w in
  (be_RecordUsage (settlement_input a failed fallbackID usage providerMicros finished now) w).2.

(** [stream] and [final]: the request is a stream and this chunk is its last. *)
Definition PostLLMHook (stream final : bool) (fallbackID : string) (resp : option Response)
    (bifrostErr : option BifrostError) (st : option admission) (w : W) : option admission * W :=
  match st with
  | None => (None, w)
  | Some a =>
      if stream && negb (bool_decide (is_Some bifrostErr)) && negb final then (Some a, w) else
      if ad_settled a then (Some a, w) else
      let a := settle_state a in
      let w := (be_Release (ad_lease a) w).2 in
      match responseUsage resp bifrostErr with
      | None => (Some a, w)
      | Some usage =>
          (Some a, settle_usage a (bool_decide (is_Some bifrostErr)) fallbackID (billed_usage usage) w)
      end
  end.

(** keepLeaseAlive: a renewal per tick, until the request ends or the lease is gone. *)
Inductive tick := Tick | Ended.
Fixpoint keepLeaseAlive (lease : Lease) (events : list tick) (w : W) : W :=
  match events with
  | [] | Ended :: _ => w
  | Tick :: rest =>
      match be_Renew lease (cf_LeaseTTL p) w with
      | (inl e, w) => if errors_is e ErrLeaseExpired then w else keepLeaseAlive lease rest w
      | (inr _, w) => keepLeaseAlive lease rest w
      end
  end.

End Hooks.

(** ** One request is settled once *)
Section Settled.
  Context {W : Type} `{UsageBackends W} `{Bifrost} (p : Plugin).

(** A call of PostLLMHook. *)
Record post_call := mkPostCall {
  pc_stream : bool; pc_final : bool; pc_fallback : string;
  pc_resp : option Response; pc_err : option BifrostError }.

Definition post (c : post_call) : option admission -> W -> option admission * W :=
  PostLLMHook p (pc_stream c) (pc_final c) (pc_fallback c) (pc_resp c) (pc_err c).

Fixpoint posts (l : list post_call) (st : option admission) (w : W) : option admission * W :=
  match l with [] => (st, w) | c :: l' => let (st, w) := post c st w in posts l' st w end.

(** The calls that end a request: its response, its error, the last chunk of its stream. *)
Definition ends (c : post_call) : bool :=
  negb (pc_stream c && negb (bool_decide (is_Some (pc_err c))) && negb (pc_final c)).

Lemma post_not_ending c a w : ends c = false -> post c (Some a) w = (Some a, w).
Proof. intros E. unfold post, PostLLMHook. unfold ends in E. apply negb_false_iff in E. by rewrite E. Qed.

Lemma post_settled c a w : ad_settled a = true -> post c (Some a) w = (Some a, w).
Proof. intros E. unfold post, PostLLMHook. destruct (_ && _); [done|]. by rewrite E. Qed.

Lemma post_ending c a w : ends c = true -> ad_settled a = false ->
  exists w', post c (Some a) w = (Some (settle_state a), w').
Proof.
  intros E Hs. unfold post, PostLLMHook. unfold ends in E. apply negb_true_iff in E. rewrite E, Hs.
  destruct (responseUsage _ _); by eexists.
Qed.

(** C19. A request is settled exactly once: however many chunks, responses and
    errors PostLLMHook is called with, the lease is released, the counter
    charged and the usage recorded by the first call that ends the request and
    by no other, and a request that was not admitted, or does not end, leaves
    the world untouched. *)
Theorem post_hooks_settle_once calls a w :
  posts calls None w = (None, w) /\
  posts calls (Some a) w =
    if ad_settled a then (Some a, w)
    else match List.find ends calls with
         | Some c => post c (Some a) w
         | None => (Some a, w)
         end.
Proof.
  split; [by induction calls|].
  assert (Hset : forall calls a w, ad_settled a = true -> posts calls (Some a) w = (Some a, w)).
  { clear. intros calls a w Ha. induction calls as [|c calls IH]; [done|]. cbn [posts]. by rewrite post_settled. }
  destruct (ad_settled a) eqn:Ea; [by apply Hset|].
  induction calls as [|c calls IH]; [done|]. cbn [posts List.find]. destruct (ends c) eqn:Ec; [|by rewrite post_not_ending].
  destruct (post_ending c a w Ec Ea) as [w' ->]. by apply Hset.
Qed.

(** Each attempt of each request has a settlement key of its own: two
    admissions share one exactly when they are the same attempt of the same
    request, or, without a request identifier, of the same lease. *)
Theorem settlement_key_injective a b :
  settlement_key a = settlement_key b <->
  ad_attempt a = ad_attempt b /\
  (if is_empty (ad_requestID a) then "lease:" +:+ ls_Token (ad_lease a) else ad_requestID a) =
  (if is_empty (ad_requestID b) then "lease:" +:+ ls_Token (ad_lease b) else ad_requestID b).
Proof.
  unfold settlement_key. generalize (if is_empty (ad_requestID a) then "lease:" +:+ ls_Token (ad_lease a) else ad_requestID a).
  generalize (if is_empty (ad_requestID b) then "lease:" +:+ ls_Token (ad_lease b) else ad_requestID b).
  intros sb sa. split; [|by intros [-> ->]]. intros E.
  assert (Hsplit : forall s t, s +:+ ":attempt:" +:+ t = (s +:+ ":attempt") +:+ String ":" t)
    by (intros s t; by rewrite sapp_assoc).
  rewrite !Hsplit in E.
  apply (split_last_byte _ _ _ _ ":"%char) in E as [E1 E2]; [|by apply pretty_Z_no_byte..].
  split; [by apply (inj pretty)|by apply sapp_inj_suffix in E1].
Qed.

Lemma admit_request_spec tenantID provider sku requestID attempt now budget to allowance w :
  match admit_request p tenantID provider sku requestID attempt now budget to allowance w with
  | (None, Some a, w') => as_Allowed allowance = true /\ exists lease,
      be_Acquire tenantID provider (as_MaxConcurrent allowance) (cf_ProviderMaxConcurrent p) (cf_LeaseTTL p) w = (inr lease, w') /\
      a = mkAdmission false tenantID provider sku requestID attempt budget to now lease
  | (None, None, _) => False
  | (Some sc, adm, _) => adm = None /\ (sc_Status sc = 403 \/ sc_Status sc = 429 \/ sc_Status sc = 503)
  end.
Proof.
  unfold admit_request. destruct (as_Allowed allowance); simpl; [|tauto].
  destruct (be_Acquire _ _ _ _ _ w) as [[e|lease] w']; [destruct (errors_is _ _); simpl; tauto|].
  split; [done|]. by exists lease.
Qed.

(** Admission fails closed: a request is admitted only when it names a tenant,
    the plan check answered that the model is allowed and priced, credit is
    left by the ledger and by the shared counter, and a concurrency slot was
    obtained under the plan's limit and the provider's; the admission then
    carries that tenant, slot and window.  Every other answer, backend errors
    included, is a refusal without an admission; only a request without a
    model passes unmetered. *)
Theorem admission_fails_closed tenantID provider model requestID attempt w :
  match PreLLMHook p tenantID provider model requestID attempt w with
  | (None, Some a, w') =>
      let provider := if is_empty provider then "unresolved" else provider in
      let sku := canonicalSKU provider model in
      let now := (be_now w).1 in
      exists allowance final w2 w3 lease, tenantID <> EmptyString /\
        be_CheckAllowance tenantID sku now (monthWindow now).1 (monthWindow now).2 0 (be_now w).2 = (inr allowance, w2) /\
        as_ModelAllowed allowance = true /\ as_PricingConfigured allowance = true /\
        (if cf_Counter p
         then exists used, be_Usage tenantID (counterBudget (monthWindow now).1) w2 = (inr used, w3) /\
                final = with_counter allowance used
         else w3 = w2 /\ final = allowance) /\
        as_Allowed final = true /\
        be_Acquire tenantID provider (as_MaxConcurrent final) (cf_ProviderMaxConcurrent p) (cf_LeaseTTL p) w3 = (inr lease, w') /\
        a = mkAdmission false tenantID provider sku requestID attempt (counterBudget (monthWindow now).1)
              (monthWindow now).2 now lease
  | (None, None, w') => model = EmptyString /\ tenantID <> EmptyString /\ w' = w
  | (Some sc, adm, _) => adm = None /\ (sc_Status sc = 403 \/ sc_Status sc = 429 \/ sc_Status sc = 503)
  end.
Proof.
  unfold PreLLMHook. destruct (is_empty tenantID) eqn:Et; [simpl; tauto|].
  assert (Hne : tenantID <> EmptyString) by (unfold is_empty in Et; by bools).
  destruct (is_empty model) eqn:Em; [unfold is_empty in Em; by bools|].
  set (pr := if is_empty provider then "unresolved" else provider).
  destruct (be_now w) as [now w1]. cbn [fst snd]. destruct (monthWindow now) as [from to]. cbn [fst snd].
  destruct (be_CheckAllowance _ _ _ _ _ _ w1) as [[e|allowance] w2] eqn:Ec; [simpl; tauto|].
  destruct (as_ModelAllowed allowance) eqn:E1; [|simpl; tauto].
  destruct (as_PricingConfigured allowance) eqn:E2; [|simpl; tauto]. cbn [negb].
  destruct (cf_Counter p) eqn:Ecf.
  - destruct (be_Usage _ _ w2) as [[e|used] w3] eqn:Eu; [simpl; tauto|].
    pose proof (admit_request_spec tenantID pr (canonicalSKU pr model) requestID attempt now (counterBudget from) to
      (with_counter allowance used) w3) as Ha.
    destruct (admit_request _ _ _ _ _ _ _ _ _ _ _) as [[[sc|] [a|]] w']; [exact Ha..| |done].
    destruct Ha as (Hal & lease & Hl & ->). exists allowance, (with_counter allowance used), w2, w3, lease.
    split_and!; try done. by exists used.
  - pose proof (admit_request_spec tenantID pr (canonicalSKU pr model) requestID attempt now (counterBudget from) to allowance w2) as Ha.
    destruct (admit_request _ _ _ _ _ _ _ _ _ _ _) as [[[sc|] [a|]] w']; [exact Ha..| |done].
    destruct Ha as (Hal & lease & Hl & ->). by exists allowance, allowance, w2, w2, lease.
Qed.

End Settled.
