(* ===== verification/Gateway.v ===== *)
(** * The stores behind the plugin (cmd/maas-gateway/main.go)

    The gateway builds the usage plugin over the billing store, the fairness
    semaphore and the shared counter, both under their default prefixes on one
    Redis server.  Here that assembly is an instance of the plugin's interface,
    and what one settled request leaves in the two books is proved of it.  The
    clock moves between hooks, not within one. *)
From S2P Require Import Prelude GoStrings Sql Redis Lifecycle Billing Ledger Plans Quota Fairness Calendar TenantUsage.

Section Gateway.
  Context `{Sql} `{Redis} `{Sha256}.

(** [gw_schedule] and [gw_network]: the driver and network failures to come. *)
Record Gateway := mkGateway {
  gw_billing : Billing; gw_schedule : schedule; gw_server : server; gw_network : list delivery;
  gw_tokens : list (error + string); gw_clock : Z }.

Definition semaphore : Semaphore := NewSemaphore "".
Definition counter : Counter := NewCounter "".

Definition on_billing {A} (m : M Billing A) (w : Gateway) : (error + A) * Gateway :=
  let '(r, b, sc) := m (gw_billing w) (gw_schedule w) in
  (r, mkGateway b sc (gw_server w) (gw_network w) (gw_tokens w) (gw_clock w)).

(** The server's instant, in milliseconds. *)
Definition server_time (w : Gateway) : Z := gw_clock w / 10 ^ 6.

Definition on_server {A} (f : Z -> delivery -> script A) (w : Gateway) : (error + A) * Gateway :=
  let (r, s) := f (server_time w) (hd Delivered (gw_network w)) (gw_server w) in
  (r, mkGateway (gw_billing w) (gw_schedule w) s (tl (gw_network w)) (gw_tokens w) (gw_clock w)).

Definition next_token (w : Gateway) : error + string := hd (inl (Driver "no entropy")) (gw_tokens w).
Definition drop_token (w : Gateway) : Gateway :=
  mkGateway (gw_billing w) (gw_schedule w) (gw_server w) (gw_network w) (tl (gw_tokens w)) (gw_clock w).

#[global] Instance gateway_backends : UsageBackends Gateway := {|
  be_CheckAllowance := fun tenantID sku now from to additional => on_billing (CheckAllowance tenantID sku now from to additional);
  be_RecordUsage := fun inp w => on_billing (RecordUsage inp (gw_clock w)) w;
  be_PriceUsage := fun model prompt completion => on_billing (PriceUsage model prompt completion);
  be_Acquire := fun tenantID provider limit cap ttl w =>
    on_server (fun t => Acquire semaphore tenantID provider limit cap ttl (next_token w) t t) (drop_token w);
  be_Renew := fun lease ttl => on_server (fun t => Renew semaphore lease ttl t t);
  be_Release := fun lease => on_server (fun t => Release semaphore lease t);
  be_Usage := fun tenantID budget => on_server (fun t => Usage counter tenantID budget t);
  be_ChargeOnce := fun tenantID budget requestID amount ttl =>
    on_server (fun t => ChargeOnce counter tenantID budget requestID amount ttl t);
  be_now := fun w => (gw_clock w, w) |}.

(** ** Releasing a lease leaves the counters alone *)
Lemma zrem_frame t k m s s' j : zrem t k m s = inr s' -> j <> k -> live t s' j = live t s j.
Proof.
  unfold zrem, zset, put_zset. intros E Hj. destruct (live t s k) as [[[v|z] x]|] eqn:El; [done| |].
  - injection E as <-. rewrite live_put; [by rewrite decide_False|]. case_decide; [done|]. intros e [= <-].
    by apply (live_unexpired t s k) in El.
  - injection E as <-. rewrite live_put; [by rewrite decide_False|]. case_decide; [done|]. by intros e [= <-].
Qed.

Lemma del_frame t k s j : j <> k -> live t (del t k s).2 j = live t s j.
Proof. intros Hj. unfold del. destruct (exists_key t k s); [|done]. simpl. by rewrite live_put, decide_False. Qed.

Lemma release_frame lease t d s j :
  (forall x, j <> tenant_key semaphore x) -> (forall x, j <> provider_key semaphore x) -> (forall x, j <> lease_key semaphore x) ->
  live t (Release semaphore lease t d s).2 j = live t s j.
Proof.
  intros Ht Hp Hl. unfold Release. destruct (_ || _); [done|].
  set (f := releaseScript _ _ _ _ _). assert (Hf : live t (f s).2 j = live t s j).
  { unfold f, releaseScript, step_. destruct (zrem t _ _ s) as [e|s1] eqn:E1; [done|].
    destruct (zrem t _ _ s1) as [e|s2] eqn:E2; simpl; [by apply zrem_frame with (j := j) in E1|].
    rewrite del_frame by done. rewrite (zrem_frame _ _ _ _ _ j E2) by done. by apply (zrem_frame _ _ _ _ _ j E1). }
  destruct d; simpl; [|done|done]. by destruct (f s) as [[e|z] s'].
Qed.

(** The two prefixes keep counters and leases apart. *)
Lemma counter_not_lease id budget k :
  key counter id budget = inr k ->
  forall rid, (forall x, k <> tenant_key semaphore x /\ k <> provider_key semaphore x /\ k <> lease_key semaphore x) /\
    (forall x, idempotencyKey k rid <> tenant_key semaphore x /\ idempotencyKey k rid <> provider_key semaphore x /\
       idempotencyKey k rid <> lease_key semaphore x).
Proof.
  unfold key. destruct (_ || _); [done|]. intros [= <-] rid.
  split; intros x; split_and!; intros E; discriminate E.
Qed.

(** ** Settling over the two books *)
Section Books.
  Context `{Bifrost} (p : Plugin).
  Implicit Types (w : Gateway).

Definition healthy w : Prop := gw_schedule w = [] /\ gw_network w = [].

(** The counter holds [n], for the requests [seen], until the claims of a
    charge made now would expire. *)
Definition counter_holds w (a : admission) k (seen : list string) (n : Z) : Prop :=
  window_inv k (server_time w) (ttlMillis (charge_ttl a (gw_clock w))) (server_time w) (gw_server w) seen n.

Lemma wp_first_sku_reads h (b : Billing) candidates : wp h (first_sku candidates) b (fun _ b' => b' = b).
Proof.
  induction candidates as [|candidate rest IH]; simpl; [by wp_step|]. wp_step. wp_step. apply wp_take.
  - intros _ msg. wp_step; [by wp_step|]. destruct rest; [by wp_step|exact IH].
  - intros _. wp_step; [by wp_step|]. destruct rest; [by wp_step|exact IH].
  - intros k r _ _. by wp_step.
Qed.

Lemma provider_cost_reads a u w : healthy w -> exists cost, provider_cost a u w = (cost, w).
Proof.
  intros [Hs _]. unfold provider_cost. destruct (costMicros (us_Cost u) =? 0); [|by eexists]. simpl. unfold on_billing.
  assert (Hwp : wp true (PriceUsage (ad_model a) (us_Prompt u) (us_Completion u)) (gw_billing w) (fun _ b => b = gw_billing w)).
  { unfold PriceUsage. generalize (skuCandidates (ad_model a)). intros candidates. wp_step; [by wp_step|]. wp_step. eapply wp_mono; [apply wp_first_sku_reads|].
    intros [e|sku] b ->; [done|by wp_step]. }
  apply wp_runs in Hwp as (r & b & Hr & ->). rewrite Hs, Hr. rewrite <-Hs.
  destruct w as [wb wsc ws wn wt wc]. destruct r; by eexists.
Qed.

Lemma settlement_key_not_blank a : blank (settlement_key a) = false.
Proof.
  apply (not_blank_byte ":"%char); [by repeat constructor|]. unfold settlement_key. intros E.
  apply index_byte_none_app in E as [_ E]. by apply index_byte_none_app in E as [E _].
Qed.

Lemma charge_ttl_positive a now : 0 < ttlMillis (charge_ttl a now).
Proof.
  unfold ttlMillis, charge_ttl. set (ttl := if _ <? _ then _ else _).
  assert (Httl : 3600 * 10 ^ 9 <= ttl) by (unfold ttl; destruct (_ <? _) eqn:E; bools; lia).
  rewrite (proj2 (Z.leb_gt ttl 0)) by lia. destruct (milliseconds ttl =? 0) eqn:E; [done|].
  unfold milliseconds in *. bools. pose proof (Z.quot_pos ttl (10 ^ 6)). lia.
Qed.

(** One charge of the counter: it counts unless the identity was claimed. *)
Lemma charge_step a k w seen n rid amount :
  healthy w -> key counter (ad_tenantID a) (ad_budget a) = inr k -> counter_holds w a k seen n ->
  blank rid = false -> 0 < amount -> 0 <= n < 2 ^ 63 -> (rid ∉ seen -> n + amount < 2 ^ 63) ->
  exists s',
    (be_ChargeOnce (ad_tenantID a) (ad_budget a) rid amount (charge_ttl a (gw_clock w)) w).2 =
      mkGateway (gw_billing w) [] s' [] (gw_tokens w) (gw_clock w) /\
    counter_holds (mkGateway (gw_billing w) [] s' [] (gw_tokens w) (gw_clock w)) a k
      (if decide (rid ∈ seen) then seen else rid :: seen) (if decide (rid ∈ seen) then n else n + amount).
Proof.
  intros [Hs Hn] Hk Hw Hb Ha Hn0 Hmax. cbn [be_ChargeOnce gateway_backends]. unfold on_server. rewrite Hn, Hs. cbn [hd tl].
  set (t := server_time w). pose proof (charge_ttl_positive a (gw_clock w)) as Hms.
  destruct (ChargeOnce_run counter (ad_tenantID a) (ad_budget a) k (charge_ttl a (gw_clock w)) t t (gw_server w) seen n
    (mkRequest rid amount t Delivered)) as (s' & Hrun & Hinv); simpl; try done; [split; [lia|right; lia]|lia|lia| |].
  { unfold total_after, claims. simpl. case_bool_decide; simpl; [lia|by apply Hmax]. }
  exists s'. simpl in Hrun. rewrite Hrun. split; [done|]. unfold counter_holds, server_time. cbn [gw_clock gw_server].
  unfold seen_after, total_after, claims in Hinv. simpl in Hinv.
  destruct (decide (rid ∈ seen)) as [Hin|Hin];
    [rewrite (bool_decide_eq_true_2 _ Hin) in Hinv|rewrite (bool_decide_eq_false_2 _ Hin) in Hinv]; exact Hinv.
Qed.

(** One settlement, counter and ledger, when nothing fails. *)
Lemma settle_run a failed fallback u w k seen n cost :
  healthy w -> metering_ok (gw_billing w) -> cf_Counter p = true ->
  key counter (ad_tenantID a) (ad_budget a) = inr k -> counter_holds w a k seen n -> provider_cost a u w = (cost, w) ->
  let amount := cost +64 markup_of p cost in
  let rid := settlement_key a in
  let nothing := (us_Total u <=? 0) && (cost <=? 0) in
  let counted := bool_decide (rid ∉ seen) && negb nothing && (0 <? amount) in
  0 <= n < 2 ^ 63 -> (rid ∉ seen -> n + amount < 2 ^ 63) ->
  let w' := settle_usage p a failed fallback u w in
  healthy w' /\ gw_clock w' = gw_clock w /\
  counter_holds w' a k (if counted then rid :: seen else seen) (if counted then n + amount else n) /\
  if nothing then gw_billing w' = gw_billing w else exists r, record_usage_post true (gw_billing w)
    (settlement_input p a failed fallback u cost (gw_clock w) (gw_clock w)) (gw_clock w) r (gw_billing w').
Proof.
  intros Hw Hm Hc Hk Hcount Hcost amount rid nothing counted Hn Hmax w'. subst w'. unfold settle_usage. rewrite Hcost.
  fold nothing amount. destruct nothing eqn:Enothing; [by unfold counted; rewrite andb_false_r|].
  cbn [be_now gateway_backends]. rewrite Hc. cbn [andb].
  set (w1 := if 0 <? amount then _ else w).
  assert (Hst : healthy w1 /\ gw_clock w1 = gw_clock w /\ gw_billing w1 = gw_billing w /\
    counter_holds w1 a k (if counted then rid :: seen else seen) (if counted then n + amount else n)).
  { unfold w1, counted. rewrite andb_true_r. destruct (0 <? amount) eqn:Ea; [|by rewrite andb_false_r]. bools.
    destruct (charge_step a k w seen n rid amount) as (s' & E & Hc'); try done; [apply settlement_key_not_blank|].
    unfold rid in E. rewrite E.
    split; [done|]. split; [done|]. split; [done|]. destruct (decide (rid ∈ seen)) as [Hin|Hin].
    - by rewrite bool_decide_eq_false_2 by (by intros ?).
    - by rewrite bool_decide_eq_true_2. }
  destruct Hst as ([Hs1 Hn1] & Hclock & Hbill & Hcount1). clearbody w1. cbn [be_RecordUsage gateway_backends].
  unfold on_billing. rewrite Hclock, Hbill, Hs1.
  destruct (wp_runs _ _ _ (wp_RecordUsage true (gw_billing w)
    (settlement_input p a failed fallback u cost (gw_clock w) (gw_clock w)) (gw_clock w) Hm)) as (r & b' & Hr & Hpost).
  unfold runs in Hr. rewrite Hr. split; [by split|]. split; [done|]. split.
  - unfold counter_holds, server_time in *. cbn [snd gw_clock gw_server]. by rewrite Hclock in Hcount1.
  - exists r. exact Hpost.
Qed.

(** The release that precedes it. *)
Lemma released a w k seen n :
  healthy w -> key counter (ad_tenantID a) (ad_budget a) = inr k -> counter_holds w a k seen n ->
  let w1 := (be_Release (ad_lease a) w).2 in
  healthy w1 /\ gw_clock w1 = gw_clock w /\ gw_billing w1 = gw_billing w /\ counter_holds w1 a k seen n.
Proof.
  intros [Hs Hn] Hk Hcount. cbn [be_Release gateway_backends]. unfold on_server. rewrite Hn. cbn [hd tl].
  set (t := server_time w) in *. pose proof (release_frame (ad_lease a) t Delivered (gw_server w)) as Hframe.
  destruct (Release semaphore (ad_lease a) t Delivered (gw_server w)) as [r s']. cbn [snd] in *.
  split; [by split|]. split; [done|]. split; [done|]. intros t' Ht' Hin. unfold counter_holds, server_time in *.
  cbn [gw_clock gw_server] in *. destruct (Hcount t' Ht' Hin) as [Hst Hcl].
  assert (Hsame : forall j, live t s' j = live t (gw_server w) j -> live t' s' j = live t' (gw_server w) j)
    by (intros j E; rewrite !(live_later t t') by done; by rewrite E).
  split.
  - rewrite Hsame; [done|]. apply Hframe; intros x; by apply (counter_not_lease _ _ _ Hk EmptyString).
  - intros rid. unfold exists_key in *. rewrite Hsame; [apply Hcl|].
    apply Hframe; intros x; by apply (counter_not_lease _ _ _ Hk rid).
Qed.

(** What PostLLMHook does to the world when it settles. *)
Lemma post_settles c a w usage :
  ends c = true -> ad_settled a = false -> responseUsage (pc_resp c) (pc_err c) = Some usage ->
  (post p c (Some a) w).2 =
  settle_usage p (settle_state a) (bool_decide (is_Some (pc_err c))) (pc_fallback c) (billed_usage usage)
    (be_Release (ad_lease a) w).2.
Proof.
  intros Hc Ha Hu. unfold post, PostLLMHook. unfold ends in Hc. apply negb_true_iff in Hc. by rewrite Hc, Ha, Hu.
Qed.

(** The price depends on the ledger only. *)
Lemma provider_cost_billing a u w w1 cost :
  healthy w -> healthy w1 -> gw_billing w1 = gw_billing w -> provider_cost a u w = (cost, w) -> provider_cost a u w1 = (cost, w1).
Proof.
  intros Hw Hw1 E Hc. destruct (provider_cost_reads a u w1 Hw1) as [cost' Hc']. rewrite Hc'. f_equal.
  revert Hc Hc'. unfold provider_cost. destruct (costMicros (us_Cost u) =? 0); [|by intros [= <-] [= <-]].
  destruct Hw as [Hs _], Hw1 as [Hs1 _]. cbn [be_PriceUsage gateway_backends]. unfold on_billing. rewrite E, Hs, Hs1.
  destruct (PriceUsage _ _ _ (gw_billing w) []) as [[[e|z] b] sc]; by intros [= <- _] [= <- _].
Qed.

(** What a charge needs to be recordable: a billed request of a tenant. *)
Definition billable (a : admission) (u : LLMUsage) (cost : Z) w : Prop :=
  0 <= us_Prompt u /\ 0 <= us_Completion u /\ 0 <= cost /\ 0 <= markup_of p cost /\
  0 < cost +64 markup_of p cost /\ is_zero_time (gw_clock w) = false /\ ad_tenantID a <> EmptyString.

Lemma billable_accepted a failed fallback u cost w :
  billable a u cost w -> (us_Total u <=? 0) && (cost <=? 0) = false /\
  usage_rejected (settlement_input p a failed fallback u cost (gw_clock w) (gw_clock w)) = false.
Proof.
  intros (Hp & Hc & Hcost & Hm & Ha & Ht & Hid). split.
  - apply andb_false_iff. right. apply Z.leb_gt. destruct (decide (cost = 0)) as [->|Hne]; [|lia].
    by vm_compute in Ha.
  - unfold usage_rejected, settlement_input. cbn [ui_TenantID ui_IdempotencyKey ui_PeriodStart ui_KeyOwnership
      ui_PromptTokens ui_CompletionTokens ui_ProviderCostMicros ui_MarkupMicros ui_ServiceFeeMicros ui_DurationMS ui_Status].
    rewrite settlement_key_not_blank, Ht, (proj2 (Z.ltb_ge _ _) Hp), (proj2 (Z.ltb_ge _ _) Hc), (proj2 (Z.ltb_ge _ _) Hcost),
      (proj2 (Z.ltb_ge _ _) Hm). unfold is_empty. rewrite bool_decide_eq_false_2 by done.
    set (d := if _ <? 0 then 0 else _). assert (Hd : d <? 0 = false) by (unfold d; destruct (_ <? 0) eqn:E; [done|exact E]).
    rewrite Hd. by destruct failed.
Qed.

(** A settled request the ledger has not seen yet is inserted into it. *)
Lemma settlement_inserted a failed fallback u cost w r b' :
  let inp := settlement_input p a failed fallback u cost (gw_clock w) (gw_clock w) in
  usage_rejected inp = false -> key_free (gw_billing w) (settlement_key a) ->
  rows (billing_usage_events (gw_billing w)) !! settlement_key a = None ->
  record_usage_post true (gw_billing w) inp (gw_clock w) r b' ->
  b' = usage_inserted (gw_billing w) (usage_row inp (gw_clock w)) /\ ue_ID (usage_row inp (gw_clock w)) = settlement_key a.
Proof.
  intros inp Hacc Hfree Hnone Hrec. assert (Hid : ue_ID (usage_row inp (gw_clock w)) = settlement_key a).
  { unfold usage_row, inp, settlement_input. simpl. by destruct (is_empty (settlement_key a)). }
  split; [|exact Hid]. destruct r as [e|ev]; simpl in Hrec.
  - destruct Hrec as [_ Hrec]. destruct (Hrec eq_refl) as [[E _]|(_ & k' & r & Hr & [(E & _)|(_ & E & _)])]; [congruence| |].
    + by destruct (Hfree _ _ Hr).
    + assert (Ek : k' = settlement_key a) by (rewrite E; exact Hid). by rewrite Ek, Hnone in Hr.
  - destruct Hrec as (_ & _ & Hkey & [[_ Hin]|(_ & -> & _ & ->)]); [|done]. by destruct (Hfree _ _ Hin).
Qed.

(** A redelivery finds the request in both books. *)
Lemma settled_again a c usage w k seen n ev :
  healthy w -> metering_ok (gw_billing w) -> cf_Counter p = true -> ad_settled a = false -> ends c = true ->
  responseUsage (pc_resp c) (pc_err c) = Some usage ->
  key counter (ad_tenantID a) (ad_budget a) = inr k -> counter_holds w a k seen n -> 0 <= n < 2 ^ 63 ->
  rows (billing_usage_events (gw_billing w)) !! settlement_key a = Some ev -> ue_IdempotencyKey ev = settlement_key a ->
  settlement_key a ∈ seen ->
  gw_billing (post p c (Some a) w).2 = gw_billing w /\ counter_holds (post p c (Some a) w).2 a k seen n.
Proof.
  intros Hw Hm Hcf Hset Hends Hu Hk Hcount Hn Hev Hkey Hseen. rewrite (post_settles c a w usage) by done.
  destruct (released a w k seen n Hw Hk Hcount) as (Hw' & Hclock & Hb & Hcount').
  set (failed := bool_decide (is_Some (pc_err c))). set (u := billed_usage usage).
  destruct (provider_cost_reads (settle_state a) u (be_Release (ad_lease a) w).2 Hw') as [cost Hcost].
  destruct (settle_run (settle_state a) failed (pc_fallback c) u (be_Release (ad_lease a) w).2 k seen n cost)
    as (_ & _ & Hc & Hrec); [done|by rewrite Hb|done|done|exact Hcount'|done|lia|done|].
  change (settlement_key (settle_state a)) with (settlement_key a) in Hc.
  rewrite bool_decide_eq_false_2 in Hc by (by intros Hno). split; [|exact Hc].
  rewrite Hb in Hrec. destruct ((us_Total u <=? 0) && (cost <=? 0)); [exact Hrec|]. destruct Hrec as [r Hrec].
  destruct r as [e|ev2]; [apply Hrec|]. destruct Hrec as (_ & _ & _ & [[E _]|(Hf & _)]); [done|]. by destruct (Hf _ _ Hev).
Qed.

(** C21. The two books agree on a settled request, and a redelivery changes
    neither: when a billed request that neither book has seen is settled over
    the real stores and nothing fails, the ledger gains exactly one event, under
    the request's settlement key, with the tenant and model of the admission and
    an amount of cost plus markup, and the shared counter of the tenant's month
    grows by exactly that amount; settling the same admission again leaves the
    ledger and the counter as they are. *)
Theorem settlement_books_agree w a c usage k seen n cost :
  healthy w -> metering_ok (gw_billing w) -> cf_Counter p = true -> ad_settled a = false -> ends c = true ->
  responseUsage (pc_resp c) (pc_err c) = Some usage ->
  provider_cost a (billed_usage usage) w = (cost, w) -> billable a (billed_usage usage) cost w ->
  key counter (ad_tenantID a) (ad_budget a) = inr k -> counter_holds w a k seen n ->
  0 <= n -> n + (cost +64 markup_of p cost) < 2 ^ 63 ->
  key_free (gw_billing w) (settlement_key a) ->
  rows (billing_usage_events (gw_billing w)) !! settlement_key a = None -> settlement_key a ∉ seen ->
  let amount := cost +64 markup_of p cost in
  let w1 := (post p c (Some a) w).2 in
  let w2 := (post p c (Some a) w1).2 in
  (exists ev, rows (billing_usage_events (gw_billing w1)) =
      <[settlement_key a := ev]> (rows (billing_usage_events (gw_billing w))) /\
    ue_IdempotencyKey ev = settlement_key a /\ ue_TenantID ev = ad_tenantID a /\ ue_Model ev = ad_model a /\
    ue_AmountMicros ev = amount) /\
  counter_holds w1 a k (settlement_key a :: seen) (n + amount) /\
  gw_billing w2 = gw_billing w1 /\ counter_holds w2 a k (settlement_key a :: seen) (n + amount).
Proof.
  intros Hw Hm Hcf Hset Hends Hu Hcost Hbill Hk Hcount Hn Hmax Hfree Hnone Hseen amount w1 w2.
  set (u := billed_usage usage) in *. set (failed := bool_decide (is_Some (pc_err c))).
  assert (Hamount : 0 < amount) by apply Hbill.
  destruct (billable_accepted a failed (pc_fallback c) u cost w Hbill) as [Hsome Hacc].
  destruct (released a w k seen n Hw Hk Hcount) as (Hw' & Hclock' & Hb' & Hcount').
  assert (E1 : w1 = settle_usage p (settle_state a) failed (pc_fallback c) u (be_Release (ad_lease a) w).2)
    by (by apply post_settles).
  destruct (settle_run (settle_state a) failed (pc_fallback c) u (be_Release (ad_lease a) w).2 k seen n cost) as (Hh1 & _ & Hc1 & Hrec);
    [done|by rewrite Hb'|done|done|exact Hcount'|by apply (provider_cost_billing a u w)|lia|intros _; exact Hmax|].
  rewrite <-E1 in Hh1, Hc1, Hrec. change (settlement_key (settle_state a)) with (settlement_key a) in *. fold amount in Hc1.
  rewrite Hsome, (bool_decide_eq_true_2 _ Hseen), (proj2 (Z.ltb_lt 0 amount) Hamount) in Hc1. cbn [negb andb] in Hc1.
  rewrite Hsome, Hclock', Hb' in Hrec. destruct Hrec as [r Hrec].
  change (settlement_input p (settle_state a)) with (settlement_input p a) in Hrec.
  destruct (settlement_inserted a failed (pc_fallback c) u cost w r (gw_billing w1) Hacc Hfree Hnone Hrec) as [Hev Hid].
  destruct (usage_inserted_rows (gw_billing w) (usage_row (settlement_input p a failed (pc_fallback c) u cost (gw_clock w) (gw_clock w))
    (gw_clock w))) as (Hrows & _). rewrite <-Hev, Hid in Hrows.
  split; [by eexists|]. split; [exact Hc1|]. eapply (settled_again a c usage w1); try done.
  - rewrite Hev. apply usage_inserted_ok; [done|done|done|by rewrite Hid].
  - lia.
  - rewrite Hrows. apply lookup_insert_eq.
  - done.
  - left.
Qed.

End Books.
End Gateway.

(** ** Witness: 2^-10 dollars, 977 micros after rounding, and a markup of 10 % *)
Definition plain_bifrost : Bifrost := {|
  NormalizeProviderCost := fun u => u; ResponsesUsage := unit; ToBifrostLLMUsage := fun _ => None;
  NormalizeImageCost := fun u => u; int64_of_unrepresentable := fun _ => - 2 ^ 63 |}.

#[local] Existing Instance id_sha.
Definition demo_clock : Z := 1709208000000000000.
Definition demo_world : @Gateway map_sql map_redis :=
  @mkGateway map_sql map_redis (@mkBilling map_sql ∅ ∅ ∅ ∅ ∅ ∅ ∅ ∅ ∅ ∅) [] no_server [] [] demo_clock.
Definition demo_plugin : Plugin := mkPlugin true (300 * 10 ^ 9) 0 1000.
Definition demo_admission : admission :=
  mkAdmission false "t1" "openai" "openai/gpt" "r1" 0 (counterBudget (monthWindow demo_clock).1) (monthWindow demo_clock).2
    demo_clock (mkLease "tok" "t1" "openai" 0).
Definition demo_usage : LLMUsage := mkLLMUsage 10 5 0 (Some (SpecFloat.S754_finite false 4503599627370496 (-62))).
Definition demo_call : @post_call plain_bifrost :=
  @mkPostCall plain_bifrost false true EmptyString
    (Some (@mkResponse plain_bifrost None (Some (Some demo_usage)) None None None None None None None None None None None None)) None.
Definition demo_settled : @Gateway map_sql map_redis :=
  (@post _ (@gateway_backends map_sql map_redis id_sha) plain_bifrost demo_plugin demo_call (Some demo_admission) demo_world).2.

Lemma settlement_books_agree_witness :
  (exists ev, rows (Sql := map_sql) (billing_usage_events (gw_billing demo_settled)) !! "r1:attempt:0" = Some ev /\
     ue_AmountMicros ev = 1074) /\
  (@be_Usage _ (@gateway_backends map_sql map_redis id_sha) "t1" "month:2024-02:credit" demo_settled).1 = inr 1074.
Proof.
  split; [|vm_compute; reflexivity].
  destruct (@settlement_books_agree map_sql map_redis id_sha plain_bifrost demo_plugin demo_world demo_admission demo_call demo_usage
    (match key counter "t1" (ad_budget demo_admission) with inr k => k | inl _ => EmptyString end) [] 0 977) as [(ev & Hrows & _ & _ & _ & Hamount) _].
  - by split.
  - apply metering_ok_empty; reflexivity.
  - reflexivity.
  - reflexivity.
  - reflexivity.
  - reflexivity.
  - unfold provider_cost. replace (costMicros _) with 977 by (vm_compute; reflexivity). reflexivity.
  - repeat split; vm_compute; congruence.
  - reflexivity.
  - intros t' _ _. split; [apply no_server_live|]. intros rid. unfold exists_key. cbn [gw_server demo_world]. by rewrite no_server_live.
  - lia.
  - vm_compute. reflexivity.
  - intros k r Hr. change ((∅ : gmap string UsageEvent) !! k = Some r) in Hr. by rewrite lookup_empty in Hr.
  - reflexivity.
  - apply not_elem_of_nil.
  - exists ev. split; [|rewrite Hamount; vm_compute; reflexivity].
    change demo_settled with (@post _ (@gateway_backends map_sql map_redis id_sha) plain_bifrost demo_plugin demo_call
      (Some demo_admission) demo_world).2. rewrite Hrows. reflexivity.
Defined.
