(* ===== verification/ModelAccess.v ===== *)
(** * The models a tenant is shown (internal/modelaccess/filter.go)

    The gateway's list of live models is cut down to those the tenant's plan
    and the price catalogue both allow, with the key statuses of the providers
    left and the page bounds of what is left.  Unicode's simple case folding
    ([strings.EqualFold]) is a parameter, equality up to case on ASCII texts. *)
From S2P Require Import Prelude GoStrings Sql Billing Plans TenantScope.

Definition ErrTenantRequired : error := New "modelaccess: resolved tenant is required".
Definition ErrInvalidFilter : error := New "modelaccess: policy store and response are required".

Class GoFold := {
  equal_fold : string -> string -> bool;
  equal_fold_ascii : forall a b, is_ascii a = true -> is_ascii b = true ->
    equal_fold a b = bool_decide (ascii_lower a = ascii_lower b) }.

(** The gateway's model, key status and response, as far as they are read. *)
Record Model := mkModel { mo_ID : string; mo_OwnedBy : option string }.
Record KeyStatus := mkKeyStatus { ks_Provider : string; ks_KeyID : string }.
Record ListModelsResponse := mkListModels {
  lm_Data : list Model; lm_KeyStatuses : list KeyStatus; lm_FirstID : option string; lm_LastID : option string }.

Definition providerFromQualifiedID (id : string) : string :=
  match index_byte id "/"%char with
  | Some (S _ as slash) => stake slash id
  | _ => EmptyString
  end.

Definition allowedModel (policy : ModelPolicy) (model : Model) (providerHint : string) : string * bool :=
  let id := trim_space (mo_ID model) in
  if is_empty id then (EmptyString, false) else
  let qualified := providerFromQualifiedID id in
  let provider := if is_empty qualified
                  then match mo_OwnedBy model with
                       | Some owner => if blank owner then providerHint else trim_space owner
                       | None => providerHint
                       end
                  else qualified in
  let candidates := if is_empty qualified && negb (is_empty provider)
                    then [provider +:+ "/" +:+ id; id] else [id] in
  if existsb (Allows policy) candidates then (provider, true) else (EmptyString, false).

Definition resetProviderPagination (response : ListModelsResponse) : ListModelsResponse :=
  if bool_decide (lm_FirstID response = None) && bool_decide (lm_LastID response = None) then response else
  mkListModels (lm_Data response) (lm_KeyStatuses response)
    (mo_ID <$> head (lm_Data response)) (mo_ID <$> last (lm_Data response)).

Section Filter.
  Context `{Sql} `{GoUnicode} `{GoFold}.

(** The one provider of the statuses, or the empty text. *)
Fixpoint status_provider (provider : string) (statuses : list KeyStatus) : string :=
  match statuses with
  | [] => provider
  | status :: rest =>
      let current := trim_space (ks_Provider status) in
      if is_empty current then status_provider provider rest else
      if negb (is_empty provider) && negb (equal_fold provider current) then EmptyString
      else status_provider current rest
  end.
Definition singleStatusProvider (statuses : list KeyStatus) : string := status_provider EmptyString statuses.

(** The loop over the models: those kept and their providers, lower-cased. *)
Fixpoint filter_models (policy : ModelPolicy) (hint : string) (l : list Model) : list Model * list string :=
  match l with
  | [] => ([], [])
  | model :: rest =>
      let (models, providers) := filter_models policy hint rest in
      match allowedModel policy model hint with
      | (_, false) => (models, providers)
      | (provider, true) => (model :: models, if is_empty provider then providers else to_lower provider :: providers)
      end
  end.

Definition filter_response (policy : ModelPolicy) (response : ListModelsResponse) : ListModelsResponse :=
  let (models, allowedProviders) := filter_models policy (singleStatusProvider (lm_KeyStatuses response)) (lm_Data response) in
  resetProviderPagination (mkListModels models
    (List.filter (fun status => existsb (fun q => bool_decide (q = to_lower (ks_Provider status))) allowedProviders)
       (lm_KeyStatuses response))
    (lm_FirstID response) (lm_LastID response)).

Definition FilterListModels (ctx : option Context) (response : option ListModelsResponse) (now : Z)
    : M Billing ListModelsResponse :=
  match response with
  | None => throw ErrInvalidFilter
  | Some response =>
      let tenantID := FromContext ctx in
      if is_empty tenantID then throw ErrTenantRequired else
      policy ← CurrentModelPolicy tenantID now;
      mret (filter_response policy response)
  end.

(** ** What is shown *)

(** The provider a model is attributed to. *)
Definition provider_of (model : Model) (hint : string) : string :=
  let id := trim_space (mo_ID model) in
  let qualified := providerFromQualifiedID id in
  if is_empty qualified
  then match mo_OwnedBy model with Some owner => if blank owner then hint else trim_space owner | None => hint end
  else qualified.

(** A model may be shown: the plan and the catalogue both name it, by its own
    identifier or, when that names no provider, with its provider in front. *)
Definition showable (policy : ModelPolicy) (hint : string) (model : Model) : Prop :=
  let id := trim_space (mo_ID model) in
  id <> EmptyString /\
  (Allows policy id = true \/
   providerFromQualifiedID id = EmptyString /\ provider_of model hint <> EmptyString /\
   Allows policy (provider_of model hint +:+ "/" +:+ id) = true).

Lemma allowedModel_spec policy model hint :
  match allowedModel policy model hint with
  | (provider, true) => showable policy hint model /\ provider = provider_of model hint
  | (provider, false) => ~ showable policy hint model /\ provider = EmptyString
  end.
Proof.
  unfold allowedModel, showable, provider_of. destruct (is_empty (trim_space (mo_ID model))) eqn:Ei.
  { unfold is_empty in Ei. bools. split; [|done]. intros [Hn _]. congruence. }
  assert (Hid : trim_space (mo_ID model) <> EmptyString) by (unfold is_empty in Ei; by bools).
  set (id := trim_space (mo_ID model)) in *. set (q := providerFromQualifiedID id).
  set (provider := if is_empty q then _ else q).
  destruct (is_empty q && negb (is_empty provider)) eqn:E.
  - apply andb_true_iff in E as [Eq Ep]. unfold is_empty in Eq, Ep. bools.
    cbn [existsb]. rewrite orb_false_r. destruct (Allows policy (provider +:+ "/" +:+ id)) eqn:E1; cbn [orb].
    + split; [|done]. split; [done|]. right. done.
    + destruct (Allows policy id) eqn:E2; (split; [|done]); [split; [done|by left]|].
      intros (_ & [Ha|(_ & _ & Ha)]); congruence.
  - cbn [existsb]. rewrite orb_false_r. destruct (Allows policy id) eqn:E2; (split; [|done]); [split; [done|by left]|].
    intros (_ & [Ha|(Hq & Hp & Ha)]); [congruence|]. apply andb_false_iff in E as [E|E]; unfold is_empty in E; bools; congruence.
Qed.

Lemma filter_models_spec policy hint l :
  (filter_models policy hint l).1 `sublist_of` l /\
  (forall model, model ∈ (filter_models policy hint l).1 <-> model ∈ l /\ showable policy hint model) /\
  (forall q, q ∈ (filter_models policy hint l).2 <-> exists model, model ∈ (filter_models policy hint l).1 /\
     provider_of model hint <> EmptyString /\ q = to_lower (provider_of model hint)).
Proof.
  induction l as [|m l (IH1 & IH2 & IH3)]; simpl.
  { split; [constructor|]. split; [set_solver|]. intros q. split; [by intros ?%elem_of_nil|]. by intros (? & ?%elem_of_nil & _). }
  pose proof (allowedModel_spec policy m hint) as Ha.
  destruct (filter_models policy hint l) as [models providers]. simpl in *.
  destruct (allowedModel policy m hint) as [provider [|]]; destruct Ha as [Hs ->]; simpl.
  - split; [by constructor|]. split.
    + intros model. rewrite !elem_of_cons, IH2. naive_solver.
    + intros q. unfold is_empty. case_bool_decide as Ep.
      * rewrite IH3. split; intros (model & Hin & Hp & ->); exists model; [set_solver|].
        apply elem_of_cons in Hin as [->|Hin]; [done|]. done.
      * rewrite elem_of_cons, IH3. split.
        -- intros [->|(model & Hin & Hp & ->)]; [exists m|exists model]; set_solver.
        -- intros (model & [->|Hin]%elem_of_cons & Hp & ->); [by left|]. right. by exists model.
  - split; [by constructor|]. split; [|exact IH3].
    intros model. rewrite elem_of_cons, IH2. naive_solver.
Qed.

(** Reading the policy writes nothing. *)
Lemma policy_read_only tenantID now w : wp false (CurrentModelPolicy tenantID now) w (fun _ w' => w' = w).
Proof.
  unfold CurrentModelPolicy, listPlanModels. repeat (wp_step; try done; intros).
Qed.

(** What a successful policy read leaves to the filter. *)
Lemma filter_outcome tenantID now response w r w' :
  outcome (policy ← CurrentModelPolicy tenantID now; mret (filter_response policy response)) w r w' ->
  w' = w /\ match r with
            | inl _ => True
            | inr out => exists policy, outcome (CurrentModelPolicy tenantID now) w (inr policy) w /\
                           out = filter_response policy response
            end.
Proof.
  intros (sc & sc' & E). unfold mbind, M_bind in E.
  destruct (CurrentModelPolicy tenantID now w sc) as [[r1 w1] sc1] eqn:E1.
  assert (Hw : w1 = w).
  { exact (wp_outcome _ _ _ _ _ (policy_read_only tenantID now w) (ex_intro _ sc (ex_intro _ sc1 E1))). }
  subst w1. destruct r1 as [e|policy]; injection E as <- <- <-; (split; [done|]); [exact I|].
  exists policy. split; [|done]. by exists sc, sc1.
Qed.

Lemma resetProviderPagination_spec response :
  let out := resetProviderPagination response in
  lm_Data out = lm_Data response /\ lm_KeyStatuses out = lm_KeyStatuses response /\
  (if bool_decide (lm_FirstID response = None) && bool_decide (lm_LastID response = None)
   then lm_FirstID out = None /\ lm_LastID out = None
   else lm_FirstID out = mo_ID <$> head (lm_Data out) /\ lm_LastID out = mo_ID <$> last (lm_Data out)).
Proof.
  simpl. unfold resetProviderPagination.
  destruct (bool_decide (lm_FirstID response = None) && bool_decide (lm_LastID response = None)) eqn:E; simpl; (split; [done|]; split; [done|]);
    [by bools|done].
Qed.

(** The key statuses kept are those of the providers collected. *)
Lemma elem_of_kept (providers : list string) (l : list KeyStatus) status :
  status ∈ List.filter (fun status => existsb (fun q => bool_decide (q = to_lower (ks_Provider status))) providers) l <->
  status ∈ l /\ to_lower (ks_Provider status) ∈ providers.
Proof.
  rewrite !list_elem_of_In, List.filter_In, existsb_exists. split; intros [? Hx]; (split; [done|]).
  - destruct Hx as (q & Hq & Eq). bools. by subst.
  - exists (to_lower (ks_Provider status)). split; [done|]. by apply bool_decide_eq_true_2.
Qed.

(** The filter shows exactly what the tenant may use: in the order they came,
    the models that the policy allows by their own identifier or, when that
    names no provider, under their provider's; of the key statuses those of the
    providers of the models shown; and as page bounds, where the page had any,
    the first and the last model shown.  Without a resolved tenant or a policy
    nothing is shown, and nothing is written. *)
Theorem filter_shows_exactly ctx response now w r w' :
  outcome (FilterListModels ctx (Some response) now) w r w' ->
  w' = w /\
  match r with
  | inl _ => True
  | inr out =>
      FromContext ctx <> EmptyString /\
      exists policy, outcome (CurrentModelPolicy (FromContext ctx) now) w (inr policy) w /\
        let hint := singleStatusProvider (lm_KeyStatuses response) in
        lm_Data out `sublist_of` lm_Data response /\
        (forall model, model ∈ lm_Data out <-> model ∈ lm_Data response /\ showable policy hint model) /\
        (forall status, status ∈ lm_KeyStatuses out <-> status ∈ lm_KeyStatuses response /\
           exists model, model ∈ lm_Data out /\ provider_of model hint <> EmptyString /\
             to_lower (ks_Provider status) = to_lower (provider_of model hint)) /\
        (if bool_decide (lm_FirstID response = None) && bool_decide (lm_LastID response = None)
         then lm_FirstID out = None /\ lm_LastID out = None
         else lm_FirstID out = mo_ID <$> head (lm_Data out) /\ lm_LastID out = mo_ID <$> last (lm_Data out))
  end.
Proof.
  unfold FilterListModels. destruct (is_empty (FromContext ctx)) eqn:Ht.
  { intros (sc & sc1 & E). injection E as <- <- <-. done. }
  intros [-> Hr]%filter_outcome. split; [done|]. destruct r as [e|out]; [done|].
  destruct Hr as (policy & Hp & ->). split; [unfold is_empty in Ht; by bools|].
  exists policy. split; [exact Hp|]. cbv zeta. unfold filter_response.
  set (hint := singleStatusProvider _).
  destruct (filter_models_spec policy hint (lm_Data response)) as (Hsub & Hin & Hq).
  destruct (filter_models policy hint (lm_Data response)) as [models providers].
  match goal with |- context [resetProviderPagination ?x] =>
    destruct (resetProviderPagination_spec x) as (Hdata & Hks & Hpage) end.
  simpl in Hdata, Hks, Hpage. rewrite Hdata in *. rewrite Hks.
  split; [exact Hsub|]. split; [exact Hin|]. split; [|exact Hpage].
  intros status. simpl. rewrite elem_of_kept, Hq. split.
  - intros (Hst & model & Hm & Hpr & E). eauto.
  - intros (Hst & model & Hm & Hpr & E). eauto.
Qed.

End Filter.

(** ** A concrete page *)
Definition ascii_fold : GoFold.
Proof. by refine {| equal_fold := fun a b => bool_decide (ascii_lower a = ascii_lower b) |}. Defined.

Definition demo_ctx : option Context := Some (WithTenant Background "t1").
Definition demo_page : ListModelsResponse :=
  mkListModels [mkModel "gpt" (Some "openai"); mkModel "anthropic/opus" None; mkModel "openai/gpt" None]
    [mkKeyStatus "OpenAI" "k1"; mkKeyStatus "anthropic" "k2"] (Some "gpt") (Some "openai/gpt").
Definition demo_shown : ListModelsResponse :=
  mkListModels [mkModel "gpt" (Some "openai"); mkModel "openai/gpt" None] [mkKeyStatus "OpenAI" "k1"]
    (Some "gpt") (Some "openai/gpt").

Lemma filter_shows_exactly_witness :
  outcome (@FilterListModels map_sql ascii_unicode ascii_fold demo_ctx (Some demo_page) 5) catalog_db
    (inr demo_shown) catalog_db /\
  exists policy, showable policy EmptyString (mkModel "gpt" (Some "openai")).
Proof.
  assert (Ho : outcome (@FilterListModels map_sql ascii_unicode ascii_fold demo_ctx (Some demo_page) 5) catalog_db
    (inr demo_shown) catalog_db) by (exists [], []; vm_compute; reflexivity).
  split; [exact Ho|].
  destruct (@filter_shows_exactly map_sql ascii_unicode ascii_fold demo_ctx demo_page 5 catalog_db (inr demo_shown)
    catalog_db Ho) as (_ & _ & policy & _ & _ & Hin & _).
  exists policy. apply (Hin (mkModel "gpt" (Some "openai"))). left.
Defined.
