(* ===== verification/TenantAuth.v ===== *)
(** * Data-plane authentication (internal/tenantauth/resolver.go,
    plugins/tenantauth/plugin.go)

    A virtual key names its tenant: the resolver looks the key up across
    tenants, in platform mode, and asks the registry whether its tenant may
    serve; the transport hooks bind the answer to the request's context.  The
    gateway's own parts are an interface: its hash of a key, its references to
    secrets, the columns of its key table and its reading of a credential from
    the request's headers.  [now] and [later] are the two readings of the clock. *)
From S2P Require Import Prelude GoStrings Sql Lifecycle ControlPlane TenantScope Isolation ModelAccess.

Definition ErrInvalidVirtualKey : error := New "tenantauth: invalid virtual key".
Definition ErrUnattributedKey : error := New "tenantauth: virtual key has no tenant".
Definition ErrTenantCannotServe : error := New "tenantauth: tenant cannot serve traffic".

(** The columns of a key that are read, but for its tenant. *)
Record KeyColumns := mkKeyColumns {
  kc_ID : string; kc_IsActive : option bool; kc_ExpiresAt : option Z; kc_PreviousValueExpiresAt : option Z;
  kc_ValueHash : option string; kc_PreviousValueHash : option string; kc_Value : option string }.

Class GatewayKeys := {
  HashSHA256 : string -> string;
  IsSecretRef : string -> bool;
  columns : gmap string string -> KeyColumns;
  ParseVirtualKeyFromFastHTTPRequest : list (string * string) -> option string }.

Definition keys_table : string := "governance_virtual_keys".

(** ** The resolver *)
Section Resolver.
  Context `{Sql} `{GatewayKeys}.

Record AuthDB := mkAuthDB { au_config : Conn; au_registry : table string Tenant }.
Definition on_config : field AuthDB Conn := Field au_config (fun c w => mkAuthDB c (au_registry w)).
Definition on_registry : field AuthDB (table string Tenant) := Field au_registry (fun t w => mkAuthDB (au_config w) t).

Definition cols (r : Row) : KeyColumns := columns (rw_Data r).

Record keyIdentity := mkKeyIdentity {
  ki_ID : string; ki_TenantID : string; ki_IsActive : option bool; ki_ExpiresAt : option Z;
  ki_PreviousValueExpiresAt : option Z }.

(** A NULL tenant scans as the empty text. *)
Definition identity_of (r : Row) : keyIdentity :=
  mkKeyIdentity (kc_ID (cols r)) (default EmptyString (rw_TenantID r)) (kc_IsActive (cols r)) (kc_ExpiresAt (cols r))
    (kc_PreviousValueExpiresAt (cols r)).

Definition value_hash_is (value : string) (r : Row) : bool := bool_decide (kc_ValueHash (cols r) = Some (HashSHA256 value)).
Definition previous_value_hash_is (value : string) (r : Row) : bool :=
  bool_decide (kc_PreviousValueHash (cols r) = Some (HashSHA256 value)).
Definition value_is (value : string) (r : Row) : bool := bool_decide (kc_Value (cols r) = Some value).

(** ORDER BY previous_value_expires_at DESC: NULL comes first. *)
Definition expires_later (a b : Row) : Prop :=
  match kc_PreviousValueExpiresAt (cols a), kc_PreviousValueExpiresAt (cols b) with
  | None, _ => True
  | Some _, None => False
  | Some x, Some y => y <= x
  end.
#[local] Instance expires_later_dec : RelDecision expires_later.
Proof. intros a b. unfold expires_later. repeat case_match; apply _. Defined.

Definition take_first (rows : list Row) : error + keyIdentity :=
  match rows with [] => inl ErrRecordNotFound | r :: _ => inr (identity_of r) end.

Definition take_key (p : Row -> bool) : M Conn keyIdentity :=
  rows ← exec (Select keys_table p); of_result (take_first rows).

Definition take_retired (p : Row -> bool) : M Conn keyIdentity :=
  rows ← exec (Select keys_table p); of_result (take_first (merge_sort expires_later rows)).

Definition before (now : Z) (t : option Z) : bool := match t with Some t => now <? t | None => false end.

Definition lookup_plain (value : string) : M Conn keyIdentity :=
  if IsSecretRef value then throw ErrInvalidVirtualKey else
  r ← attempt (take_key (value_is value));
  match r with
  | inl e => if errors_is e ErrRecordNotFound then throw ErrInvalidVirtualKey else throw e
  | inr key => mret key
  end.

Definition lookup_key (value : string) (now : Z) : M Conn keyIdentity :=
  r ← attempt (take_key (value_hash_is value));
  match r with
  | inr key => mret key
  | inl e =>
      if negb (errors_is e ErrRecordNotFound) then throw e else
      r ← attempt (take_retired (previous_value_hash_is value));
      match r with
      | inr key => if before now (ki_PreviousValueExpiresAt key) then mret key else lookup_plain value
      | inl e => if negb (errors_is e ErrRecordNotFound) then throw e else lookup_plain value
      end
  end.

Definition expired (now : Z) (t : option Z) : bool := match t with Some t => negb (now <? t) | None => false end.

(** [dialect]: that of the configuration store's pool, if it has one. *)
Definition ResolveVirtualKey (dialect : option string) (ctx : option Context) (value : string) (now later : Z) : M AuthDB string :=
  if is_empty value then throw ErrInvalidVirtualKey else
  if negb (bool_decide (dialect = Some "postgres")) then throw (New "tenantauth: a Postgres config database is required") else
  key ← wrapping "tenantauth: resolve credential: %w" (zoom on_config (RunAcrossTenants ctx (lookup_key value now)));
  if is_empty (ki_ID key) then throw (Wrap "%w: lookup returned no key identity" ErrInvalidVirtualKey) else
  if bool_decide (ki_IsActive key = Some false) then throw (Wrap "%w: key is inactive" ErrInvalidVirtualKey) else
  if expired now (ki_ExpiresAt key) then throw (Wrap "%w: key is expired" ErrInvalidVirtualKey) else
  if is_empty (ki_TenantID key) then throw ErrUnattributedKey else
  owner ← attempt (zoom on_registry (ControlPlane.Get (ki_TenantID key)));
  match owner with
  | inl e => if errors_is e ErrTenantNotFound then throw ErrTenantCannotServe
             else throw (Wrap "tenantauth: read tenant registry: %w" e)
  | inr owner =>
      if negb (bool_decide (tn_ID owner = ki_TenantID key)) || negb (CanServeTraffic (Some owner) later)
      then throw ErrTenantCannotServe else mret (ki_TenantID key)
  end.

End Resolver.

(** ** The transport hooks *)
Record HTTPRequest := mkHTTPRequest { hr_Path : string; hr_Headers : list (string * string) }.
Record HTTPResponse := mkHTTPResponse { hp_StatusCode : Z; hp_Code : string }.
Record BifrostContext := mkBifrostContext { bc_Context : Context; bc_VirtualKey : option string }.

Definition denied (status : Z) (code : string) : option HTTPResponse := Some (mkHTTPResponse status code).

Definition nonDataPlanePath (path : string) : bool :=
  has_prefix path "/api/" || bool_decide (path = "/api") || has_prefix path "/oauth2/" || bool_decide (path = "/oauth2") ||
  bool_decide (path = "/health") || bool_decide (path = "/ready") || bool_decide (path = "/metrics") || bool_decide (path = "/").

Section Credential.
  Context `{GoFold} `{GatewayKeys}.

Definition credential_headers : list string := ["x-bf-vk"; "authorization"; "x-api-key"; "x-goog-api-key"; "api-key"].

(** The value of a header in any case; [None]: two variants disagree. *)
Fixpoint header_value (headers : list (string * string)) (header : string) (seen : option string) : option (option string) :=
  match headers with
  | [] => Some seen
  | (key, candidate) :: rest =>
      if equal_fold key header then
        match seen with
        | Some value => if bool_decide (candidate = value) then header_value rest header seen else None
        | None => header_value rest header (Some candidate)
        end
      else header_value rest header seen
  end.

Fixpoint collect (headers : list (string * string)) (names : list string) : option (list (string * string)) :=
  match names with
  | [] => Some []
  | header :: rest =>
      match header_value headers header None with
      | None => None
      | Some seen =>
          match collect headers rest with
          | None => None
          | Some l => Some (match seen with Some value => (header, value) :: l | None => l end)
          end
      end
  end.

Definition credential (req : option HTTPRequest) : option string :=
  match req with
  | None => None
  | Some rq =>
      match collect (hr_Headers rq) credential_headers with
      | None => None
      | Some request => ParseVirtualKeyFromFastHTTPRequest request
      end
  end.

End Credential.

Section Plugin.
  Context `{GoFold} `{GatewayKeys} {W : Type}.
  (** [Resolver], the interface of the plugin. *)
  Variable resolve : option Context -> string -> M W string.

Definition refusal (e : error) : option HTTPResponse :=
  if errors_is e ErrInvalidVirtualKey then denied 401 "invalid_virtual_key"
  else if errors_is e ErrTenantCannotServe || errors_is e ErrUnattributedKey then denied 403 "tenant_unavailable"
  else denied 503 "authentication_unavailable".

Definition resolveAndBind (ctx : option BifrostContext) (req : option HTTPRequest)
    : M W (option HTTPResponse * option BifrostContext) :=
  match ctx, credential req with
  | Some c, Some value =>
      r ← attempt (resolve (Some (bc_Context c)) value);
      match r with
      | inl e => mret (refusal e, ctx)
      | inr id =>
          match SetResolvedTenant (Some (bc_Context c)) id with
          | (None, Some bound) => mret (None, Some (mkBifrostContext bound (Some value)))
          | _ => mret (denied 403 "tenant_identity_conflict", ctx)
          end
      end
  | _, _ => mret (denied 401 "invalid_virtual_key", ctx)
  end.

Definition HTTPTransportPreAuthHook (ctx : option BifrostContext) (req : option HTTPRequest)
    : M W (option HTTPResponse * option BifrostContext) :=
  if match req with Some rq => nonDataPlanePath (hr_Path rq) | None => false end then mret (None, ctx)
  else resolveAndBind ctx req.

Definition HTTPTransportPreHook (ctx : option BifrostContext) (req : option HTTPRequest)
    : M W (option HTTPResponse * option BifrostContext) :=
  if match req with Some rq => nonDataPlanePath (hr_Path rq) | None => false end then mret (None, ctx)
  else resolveAndBind ctx req.

End Plugin.

(** ** What a key opens *)
Section Opens.
  Context `{Sql} `{GatewayKeys}.

Definition stored_key (w : Conn) (row : Row) : Prop :=
  exists rel k, cn_tables w !! keys_table = Some rel /\ rows (rl_rows rel) !! k = Some row.

Definition opens (value : string) (now : Z) (row : Row) : Prop :=
  value_hash_is value row = true \/
  previous_value_hash_is value row = true /\ before now (kc_PreviousValueExpiresAt (cols row)) = true \/
  IsSecretRef value = false /\ value_is value row = true.

Lemma wp_select h name p (w : Conn) (Q : error + list Row -> Conn -> Prop) :
  (h = false -> forall msg, Q (inl (Driver msg)) w) ->
  (cn_tables w !! name = None -> Q (inl (Driver "relation does not exist")) w) ->
  (forall rel, cn_tables w !! name = Some rel -> Q (inr (where_ (fun r => reaches w rel r && p r) (rl_rows rel))) w) ->
  wp h (exec (Select name p)) w Q.
Proof.
  intros Hf Hn Hs. unfold exec, on_relation. apply wp_sql; [done|].
  destruct (cn_tables w !! name) as [rel|] eqn:Er; [|by apply Hn]. cbn [fst snd].
  replace (<[name := mkRelation (rl_rows rel) (rl_enabled rel) (rl_forced rel) (rl_policy rel)]> (cn_tables w)) with (cn_tables w).
  - specialize (Hs rel eq_refl). by destruct w.
  - symmetry. apply insert_id. rewrite Er. by destruct rel.
Qed.

Lemma take_first_in rows key : take_first rows = inr key -> exists r, r ∈ rows /\ key = identity_of r.
Proof. destruct rows as [|r rows]; [done|]. intros [= <-]. exists r. split; [by left|done]. Qed.

Lemma selected_stored (w : Conn) rel p r : cn_tables w !! keys_table = Some rel ->
  r ∈ where_ (fun r => reaches w rel r && p r) (rl_rows rel) -> stored_key w r /\ p r = true.
Proof. intros Hrel Hin. apply elem_of_where in Hin as (k & Hk & Hp). bools. split; [by exists rel, k|done]. Qed.

(** A lookup reads, and what it finds is stored and matches. *)
Definition found_key (w : Conn) (P : Row -> Prop) (r : error + keyIdentity) (w' : Conn) : Prop :=
  w' = w /\ match r with inl _ => True | inr key => exists row, stored_key w row /\ P row /\ key = identity_of row end.

Lemma wp_take_key h p (w : Conn) : wp h (take_key p) w (found_key w (fun r => p r = true)).
Proof.
  unfold take_key. wp_step. apply wp_select; [done|done|]. intros rel Hrel.
  destruct (take_first _) as [e|key] eqn:Et; cbn [of_result]; wp_step; [done|]. split; [done|].
  apply take_first_in in Et as (r & Hin & ->). apply (selected_stored w rel p r Hrel) in Hin as [Hs Hp]. by exists r.
Qed.

Lemma wp_take_retired h p (w : Conn) : wp h (take_retired p) w (found_key w (fun r => p r = true)).
Proof.
  unfold take_retired. wp_step. apply wp_select; [done|done|]. intros rel Hrel.
  destruct (take_first _) as [e|key] eqn:Et; cbn [of_result]; wp_step; [done|]. split; [done|].
  apply take_first_in in Et as (r & Hin & ->). rewrite merge_sort_Permutation in Hin.
  apply (selected_stored w rel p r Hrel) in Hin as [Hs Hp]. by exists r.
Qed.

Lemma wp_lookup_plain h value now (w : Conn) : wp h (lookup_plain value) w (found_key w (opens value now)).
Proof.
  unfold lookup_plain. wp_step; [by wp_step|]. wp_step. wp_step. eapply wp_mono; [apply wp_take_key|].
  intros [e|key] w' [-> Hk]; [case_match; by wp_step|]. wp_step. split; [done|]. destruct Hk as (row & Hs & Hp & ->).
  exists row. split; [done|]. split; [|done]. right. by right.
Qed.

Lemma wp_lookup_key h value now (w : Conn) : wp h (lookup_key value now) w (found_key w (opens value now)).
Proof.
  unfold lookup_key. wp_step. wp_step. eapply wp_mono; [apply wp_take_key|]. intros [e|key] w' [-> Hk].
  - wp_step; [by wp_step|]. wp_step. wp_step. eapply wp_mono; [apply wp_take_retired|]. intros [e'|key] w' [-> Hk'].
    + wp_step; [by wp_step|]. apply wp_lookup_plain.
    + wp_step; [|apply wp_lookup_plain]. wp_step. split; [done|]. destruct Hk' as (row & Hs & Hp & ->).
      exists row. split; [done|]. split; [|done]. right. by left.
  - wp_step. split; [done|]. destruct Hk as (row & Hs & Hp & ->). exists row. split; [done|]. split; [by left|done].
Qed.

(** Reading across tenants leaves the connection as it found it. *)
Definition left_clean (w w' : Conn) : Prop := cn_tables w' = cn_tables w /\ (clean w -> clean w').

Lemma stored_key_tables (w w' : Conn) row : cn_tables w' = cn_tables w -> stored_key w' row -> stored_key w row.
Proof. intros E (rel & k & Hr & Hk). rewrite E in Hr. by exists rel, k. Qed.

Lemma wp_enable h (w : Conn) :
  wp h enablePlatformMode w (fun _ w' => cn_tables w' = cn_tables w /\ cn_session w' = cn_session w).
Proof.
  unfold enablePlatformMode, set_config, read_setting. repeat wp_step.
  apply wp_sql; cbn [fst snd]; [done|]. repeat wp_step. apply wp_sql; cbn [fst snd]; [done|]. by repeat wp_step.
Qed.

Lemma wp_across h ctx value now (w : Conn) : clean w ->
  wp h (RunAcrossTenants ctx (lookup_key value now)) w (fun r w' => left_clean w w' /\ match r with
    | inl _ => True
    | inr key => FromContext ctx = EmptyString /\ exists row, stored_key w row /\ opens value now row /\ key = identity_of row
    end).
Proof.
  intros Hc. unfold RunAcrossTenants. wp_step; [by wp_step|]. destruct (clean_begin w Hc) as [_ Hn], (begin_scope w) as (_ & Et & Es).
  apply wp_Transaction. rewrite Hn. wp_step. eapply wp_mono; [apply wp_enable|]. intros [e|u] w1 [E1 E2]; [done|].
  eapply wp_mono; [apply wp_lookup_key|]. intros [e|key] w2 [-> Hk]; [done|].
  split; [done|]. split; [split; [cbn; congruence|intros _; apply (clean_end w); [done|congruence]]|].
  split; [unfold is_empty in *; by bools|]. destruct Hk as (row & Hs & Ho & ->). exists row.
  split; [apply (stored_key_tables w w1); [congruence|done]|done].
Qed.

Lemma expired_spec now t : expired now t = match t with Some t_end => t_end <=? now | None => false end.
Proof. destruct t as [t|]; [|done]. simpl. by rewrite <-Z.leb_antisym. Qed.

(** What stands behind a tenant the resolver names. *)
Definition authorized_by (w : AuthDB) (value : string) (now later : Z) (t : string) : Prop :=
  exists row owner, stored_key (au_config w) row /\ opens value now row /\ rw_TenantID row = Some t /\ t <> EmptyString /\
    kc_IsActive (cols row) <> Some false /\ (forall t_end, kc_ExpiresAt (cols row) = Some t_end -> now < t_end) /\
    (exists k, rows (au_registry w) !! k = Some owner) /\ tn_ID owner = t /\ CanServeTraffic (Some owner) later = true.

Lemma wp_ResolveVirtualKey dialect ctx value now later (w : AuthDB) : clean (au_config w) ->
  wp false (ResolveVirtualKey dialect ctx value now later) w (fun r w' =>
    au_registry w' = au_registry w /\ left_clean (au_config w) (au_config w') /\
    match r with inl _ => True | inr t => FromContext ctx = EmptyString /\ authorized_by w value now later t end).
Proof.
  intros Hc. assert (Hself : left_clean (au_config w) (au_config w)) by done.
  unfold ResolveVirtualKey. wp_step; [by wp_step|]. wp_step; [by wp_step|]. wp_step. wp_step. wp_step.
  eapply wp_mono; [by apply wp_across|]. intros [e|key] c [Hl Hk]; [done|].
  destruct Hk as (Hctx & row & Hs & Ho & ->). simpl.
  do 4 (wp_step; [by wp_step|]). wp_step. unfold ControlPlane.Get, lookup_tenant. repeat wp_step.
  - intros _ msg. repeat wp_step; done.
  - intros _. by repeat wp_step.
  - intros k owner Hk Hid. repeat wp_step; [done|]. split; [done|]. split; [done|]. split; [done|].
    bools. simpl in *.
    match goal with E : is_empty (default EmptyString _) = false |- _ => unfold is_empty in E; rename E into Ht end. bools.
    exists row, owner. destruct (rw_TenantID row) as [t|] eqn:Et; [|done]. simpl in *. split_and!; try done; [|by exists k].
    intros t_end E_end. match goal with E : expired _ _ = false |- _ => rewrite expired_spec, E_end in E end. by bools.
Qed.

(** ** The verdict on a current key *)
Definition verdict (w : AuthDB) (row : Row) (now later : Z) : error + string :=
  if is_empty (kc_ID (cols row)) then inl (Wrap "%w: lookup returned no key identity" ErrInvalidVirtualKey) else
  if bool_decide (kc_IsActive (cols row) = Some false) then inl (Wrap "%w: key is inactive" ErrInvalidVirtualKey) else
  if match kc_ExpiresAt (cols row) with Some t_end => t_end <=? now | None => false end
  then inl (Wrap "%w: key is expired" ErrInvalidVirtualKey) else
  match rw_TenantID row with
  | None | Some EmptyString => inl ErrUnattributedKey
  | Some t =>
      match rows (au_registry w) !! t with
      | Some owner => if CanServeTraffic (Some owner) later then inr t else inl ErrTenantCannotServe
      | None => inl ErrTenantCannotServe
      end
  end.

(** Every key of the table is reached once platform mode is on. *)
Lemma platform_reaches (w : Conn) rel r : policed w -> cn_tables w !! keys_table = Some rel ->
  current_setting w SettingName = EmptyString -> current_setting w PlatformModeSettingName = PlatformModeOn ->
  reaches w rel r = true.
Proof.
  intros Hp Hrel Ht Hm. destruct (Hp keys_table PolicyStrict rel eq_refl Hrel) as (E1 & E2 & E3).
  unfold reaches, governed. rewrite E1, E2, E3. cbn [andb].
  rewrite (proj1 (policy_rule PolicyStrict (current_setting w) (rw_TenantID r))), Ht, Hm. done.
Qed.

Lemma wp_enable_on (w : Conn) (Q : error + unit -> Conn -> Prop) : is_Some (cn_local w) ->
  current_setting w SettingName = EmptyString ->
  (forall w', cn_tables w' = cn_tables w -> current_setting w' SettingName = EmptyString ->
     current_setting w' PlatformModeSettingName = PlatformModeOn -> Q (inr tt) w') ->
  wp true enablePlatformMode w Q.
Proof.
  intros [l El] Ht HQ. unfold enablePlatformMode, set_config, read_setting. repeat wp_step.
  apply wp_sql; cbn [fst snd]; [done|]. rewrite El. simpl. repeat wp_step. apply wp_sql; cbn [fst snd]; [done|].
  destruct (current_setting_set w PlatformModeSettingName PlatformModeOn l El) as [Hset Hother]. rewrite Hset.
  rewrite bool_decide_eq_true_2 by done. simpl. wp_step. apply HQ; [done| |done]. by rewrite Hother.
Qed.

#[local] Arguments CanServeTraffic : simpl never.

Section Current.
  Variables (value : string) (now later : Z) (ctx : option Context) (w : AuthDB) (rel : Relation) (k : Z) (row : Row).
  Hypotheses (Hc : clean (au_config w)) (Hp : policed (au_config w)) (Hctx : FromContext ctx = EmptyString)
    (Hvalue : value <> EmptyString) (Hrel : cn_tables (au_config w) !! keys_table = Some rel)
    (Hrow : rows (rl_rows rel) !! k = Some row) (Hhash : value_hash_is value row = true)
    (Hunique : forall k' r', rows (rl_rows rel) !! k' = Some r' -> value_hash_is value r' = true -> k' = k)
    (Hkeyed : forall t owner, rows (au_registry w) !! t = Some owner -> tn_ID owner = t).

Lemma wp_take_current (c : Conn) : cn_tables c = cn_tables (au_config w) -> (forall r, reaches c rel r = true) ->
  wp true (take_key (value_hash_is value)) c (fun r c' => c' = c /\ r = inr (identity_of row)).
Proof.
  intros Et Hr. unfold take_key. wp_step. apply wp_select; [done|rewrite Et; congruence|]. intros rel' Hrel'.
  rewrite Et, Hrel in Hrel'. injection Hrel' as <-.
  destruct (where_ _ (rl_rows rel)) as [|r l] eqn:El.
  - exfalso. assert (Hin : row ∈ where_ (fun r => reaches c rel r && value_hash_is value r) (rl_rows rel)).
    { apply elem_of_where. exists k. by rewrite Hr, Hhash. }
    rewrite El in Hin. by apply elem_of_nil in Hin.
  - apply where_head in El as (k' & Hk' & Hp'). bools. assert (k' = k) as -> by by apply (Hunique k' r).
    rewrite Hrow in Hk'. injection Hk' as <-. cbn [take_first of_result]. by wp_step.
Qed.

Lemma wp_current : wp true (zoom on_config (RunAcrossTenants ctx (lookup_key value now))) w (fun r w' =>
  r = inr (identity_of row) /\ au_registry w' = au_registry w).
Proof.
  wp_step. unfold RunAcrossTenants. rewrite Hctx. cbn [is_empty negb]. destruct (clean_begin _ Hc) as [(Hs & Hl & Hm) Hn].
  destruct (begin_scope (au_config w)) as (_ & Et & _). apply wp_Transaction. wp_step.
  apply wp_enable_on; [done|done|]. intros c E1 E2 E3. unfold lookup_key. wp_step. wp_step.
  assert (Ec : cn_tables c = cn_tables (au_config w)) by congruence.
  eapply wp_mono; [apply wp_take_current; [done|]|].
  - intros r. apply platform_reaches; [|by rewrite Ec|done|done]. intros name kind rel'. rewrite Ec. apply Hp.
  - intros r c' [-> ->]. wp_step. done.
Qed.

Lemma wp_verdict : wp true (ResolveVirtualKey (Some "postgres") ctx value now later) w (fun r w' =>
  r = verdict w row now later).
Proof.
  unfold ResolveVirtualKey. unfold is_empty at 1. rewrite (bool_decide_eq_false_2 (value = EmptyString)) by done.
  rewrite bool_decide_eq_true_2 by done. cbn [negb]. wp_step. wp_step. eapply wp_mono; [apply wp_current|].
  intros r w' [-> Er]. cbn beta iota. unfold verdict. simpl ki_ID. simpl ki_IsActive. simpl ki_ExpiresAt. simpl ki_TenantID.
  rewrite expired_spec. do 3 (wp_step; [by wp_step|]). wp_step.
  { wp_step. destruct (rw_TenantID row) as [[|c t]|]; [done| |done]. simpl in *. unfold is_empty in *. by bools. }
  wp_step. unfold ControlPlane.Get, lookup_tenant. destruct (rw_TenantID row) as [t|]; [|done]. simpl default in *.
  assert (Hget : forall t0 owner, rows (au_registry w') !! t0 = Some owner -> has_id t owner = true -> t0 = t).
  { intros t0 owner Ho Hi. rewrite Er in Ho. unfold has_id in Hi. bools. by rewrite <-(Hkeyed _ _ Ho). }
  destruct t as [|a t]; [done|]. set (tt0 := String a t) in *.
  repeat wp_step; [done| |].
  - intros Hno. repeat wp_step. destruct (rows (au_registry w) !! tt0) as [owner|] eqn:Eo; [|done].
    exfalso. rewrite <-Er in Eo. specialize (Hno _ _ Eo). unfold has_id in Hno. rewrite Er in Eo.
    by rewrite (Hkeyed _ _ Eo), bool_decide_eq_true_2 in Hno.
  - intros t0 owner Ho Hi. pose proof (Hget _ _ Ho Hi) as ->. rewrite Er in Ho. rewrite Ho. repeat wp_step.
    + apply orb_true_iff in E3 as [E3|E3]; bools; [|by rewrite E3]. exfalso. apply E3. by apply Hkeyed.
    + bools. match goal with E : CanServeTraffic _ _ = true |- _ => by rewrite E end.
Qed.

End Current.

(** A current virtual key is decided by its own row: when exactly one key
    stores the hash of the presented value, whatever tenant it belongs to, the
    resolver answers what that row says and no other key, retired or stored in
    the clear, is considered: a row without an identifier, an inactive or an
    expired one is an invalid key, at the instant of expiry already; one without
    a tenant is unattributed; and otherwise the key's tenant is named just when
    the registry holds it and it may serve. *)
Theorem current_key_decides value now later ctx (w : AuthDB) rel k row :
  clean (au_config w) -> policed (au_config w) -> FromContext ctx = EmptyString -> value <> EmptyString ->
  cn_tables (au_config w) !! keys_table = Some rel -> rows (rl_rows rel) !! k = Some row -> value_hash_is value row = true ->
  (forall k' r', rows (rl_rows rel) !! k' = Some r' -> value_hash_is value r' = true -> k' = k) ->
  (forall t owner, rows (au_registry w) !! t = Some owner -> tn_ID owner = t) ->
  exists w', runs (ResolveVirtualKey (Some "postgres") ctx value now later) w (verdict w row now later) w'.
Proof.
  intros Hc Hp Hctx Hv Hrel Hrow Hh Hu Hk.
  destruct (wp_runs _ _ _ (wp_verdict value now later ctx w rel k row Hc Hp Hctx Hv Hrel Hrow Hh Hu Hk)) as (r & w' & Hr & ->).
  by exists w'.
Qed.

End Opens.

(** ** What the hooks let through *)
Section Hooks.
  Context `{Sql} `{GoFold} `{GatewayKeys}.

Definition resolver (dialect : option string) (now later : Z) (ctx : option Context) (value : string) : M AuthDB string :=
  ResolveVirtualKey dialect ctx value now later.

(** The context after a request was let through, and why it was. *)
Definition bound (w : AuthDB) (now later : Z) (ctx : option BifrostContext) (req : option HTTPRequest) (ctx' : option BifrostContext) : Prop :=
  exists c value t, ctx = Some c /\ credential req = Some value /\ FromContext (Some (bc_Context c)) = EmptyString /\
    authorized_by w value now later t /\
    ctx' = Some (mkBifrostContext (mkContext (Some t) (cx_platform (bc_Context c)) (cx_scope (bc_Context c))) (Some value)).

Definition hook_answer (w : AuthDB) (now later : Z) (ctx : option BifrostContext) (req : option HTTPRequest)
    (r : error + option HTTPResponse * option BifrostContext) (w' : AuthDB) : Prop :=
  au_registry w' = au_registry w /\ left_clean (au_config w) (au_config w') /\
  match r with
  | inl _ => False
  | inr (Some resp, ctx') => ctx' = ctx /\ In (hp_StatusCode resp) [401; 403; 503] /\ hp_Code resp <> "tenant_identity_conflict"
  | inr (None, ctx') => bound w now later ctx req ctx'
  end.

Lemma refusal_answer e : exists resp, refusal e = Some resp /\ In (hp_StatusCode resp) [401; 403; 503] /\
  hp_Code resp <> "tenant_identity_conflict".
Proof.
  unfold refusal, denied. destruct (errors_is e ErrInvalidVirtualKey); [eexists; split; [done|split; [left; done|discriminate]]|].
  destruct (_ || _); eexists; (split; [done|]); (split; [simpl; tauto|discriminate]).
Qed.

Lemma wp_resolveAndBind dialect now later ctx req (w : AuthDB) : clean (au_config w) ->
  wp false (resolveAndBind (resolver dialect now later) ctx req) w (hook_answer w now later ctx req).
Proof.
  intros Hc. assert (Hself : left_clean (au_config w) (au_config w)) by done. unfold resolveAndBind.
  assert (H401 : hook_answer w now later ctx req (inr (denied 401 "invalid_virtual_key", ctx)) w).
  { split; [done|]. split; [done|]. split; [done|]. split; [by left|discriminate]. }
  destruct ctx as [c|]; [|by wp_step]. destruct (credential req) as [value|] eqn:Ecr; [|by wp_step].
  wp_step. wp_step. eapply wp_mono; [by apply wp_ResolveVirtualKey|]. intros [e|t] w' (Er & Hl & Ht).
  - wp_step. split; [done|]. split; [done|]. destruct (refusal_answer e) as (resp & -> & Hin & Hne). done.
  - destruct Ht as [Hctx Ha].
    assert (Hne : is_empty t = false).
    { destruct Ha as (row & owner & _ & _ & _ & Hne & _). unfold is_empty. by apply bool_decide_eq_false_2. }
    simpl in Hctx. rewrite Hne, Hctx. cbn [is_empty negb andb].
    unfold is_empty at 1. rewrite bool_decide_eq_true_2 by done. cbn [negb andb]. wp_step. split; [done|]. split; [done|]. by exists c, value, t.
Qed.

(** C9. No request reaches the data plane without a tenant that owns its
    credential: for a request whose path is on the data plane, either hook
    answers 401, 403 or 503 and leaves the context as it was, or lets it through
    with exactly two things bound, the credential and a tenant, on a context
    that had none: a stored key that the credential opens (by its current hash,
    by a retired hash still in its grace period, or by its stored text) belongs
    to that tenant, is neither inactive nor expired, and the tenant is
    registered and may serve.  The lookup, though it reads the keys of every
    tenant, changes no row and leaves no platform mode on the connection. *)
Theorem credential_binds_owner dialect now later ctx req (w w' : AuthDB) r :
  clean (au_config w) -> match req with Some rq => nonDataPlanePath (hr_Path rq) = false | None => True end ->
  outcome (HTTPTransportPreAuthHook (resolver dialect now later) ctx req) w r w' \/
  outcome (HTTPTransportPreHook (resolver dialect now later) ctx req) w r w' ->
  hook_answer w now later ctx req r w'.
Proof.
  intros Hc Hpath Hout. assert (E : match req with Some rq => nonDataPlanePath (hr_Path rq) | None => false end = false) by by destruct req.
  unfold HTTPTransportPreAuthHook, HTTPTransportPreHook in Hout. rewrite E in Hout.
  destruct Hout as [Hout|Hout]; exact (wp_outcome _ _ _ _ _ (wp_resolveAndBind dialect now later ctx req w Hc) Hout).
Qed.

End Hooks.

(** ** The order of the headers *)
Section Headers.
  Context `{GoFold} `{GatewayKeys}.

(** The values of a header, one per variant of its name. *)
Definition values_of (headers : list (string * string)) (header : string) : list string :=
  snd <$> filter (fun kv => equal_fold kv.1 header = true) headers.

Lemma header_value_spec headers header seen :
  header_value headers header seen =
    match seen, values_of headers header with
    | None, [] => Some None
    | None, v :: l => if forallb (fun x => bool_decide (x = v)) l then Some (Some v) else None
    | Some v, l => if forallb (fun x => bool_decide (x = v)) l then Some (Some v) else None
    end.
Proof.
  revert seen. induction headers as [|[key candidate] rest IH]; intros seen; [by destruct seen|].
  unfold values_of. rewrite filter_cons. simpl. destruct (equal_fold key header) eqn:E; simpl.
  - destruct seen as [v|]; [|by rewrite IH]. case_bool_decide; [by rewrite IH|done].
  - by rewrite IH.
Qed.

(** What a list of values that must agree says. *)
Definition agreed (l : list string) : option (option string) :=
  match l with [] => Some None | v :: l => if forallb (fun x => bool_decide (x = v)) l then Some (Some v) else None end.

Lemma agreed_all l v : agreed l = Some (Some v) <-> l <> [] /\ forall x, x ∈ l -> x = v.
Proof.
  destruct l as [|a l]; simpl; [by split; [|intros [[]]]|].
  assert (Hall : forallb (fun x => bool_decide (x = a)) l = true <-> forall x, x ∈ l -> x = a).
  { rewrite forallb_forall. setoid_rewrite <-list_elem_of_In. by setoid_rewrite bool_decide_eq_true. }
  split.
  - case_match; [|done]. intros [= <-]. split; [done|]. intros x [->|Hx]%elem_of_cons; [done|]. by apply Hall.
  - intros [_ Hv]. rewrite (proj2 Hall); [by rewrite (Hv a) by left|]. intros x Hx. rewrite (Hv a) by left. apply Hv. by right.
Qed.

Lemma agreed_permutation l l' : l ≡ₚ l' -> agreed l = agreed l'.
Proof.
  intros E. assert (Hto : forall l l' v, l ≡ₚ l' -> agreed l = Some (Some v) -> agreed l' = Some (Some v)).
  { intros a b v Ep [Hne Hv]%agreed_all. apply agreed_all. split.
    - intros ->. apply Hne. by apply Permutation.Permutation_nil, symmetry.
    - intros x Hx. apply Hv. by rewrite Ep. }
  destruct (agreed l) as [[v|]|] eqn:E1.
  - by rewrite (Hto _ _ v E E1).
  - destruct l as [|a l]; [|simpl in E1; by case_match]. by rewrite (Permutation.Permutation_nil E).
  - destruct (agreed l') as [[v|]|] eqn:E2; [by rewrite (Hto _ _ v (symmetry E) E2) in E1| |done].
    destruct l' as [|a l']; [|simpl in E2; by case_match]. by rewrite (Permutation.Permutation_nil (symmetry E)) in E1.
Qed.

Lemma header_value_permutation headers headers' header : headers ≡ₚ headers' ->
  header_value headers header None = header_value headers' header None.
Proof.
  intros E. rewrite !header_value_spec. apply (agreed_permutation (values_of headers header) (values_of headers' header)).
  unfold values_of. by rewrite E.
Qed.

(** A request has one credential: the headers are a map, which the plugin
    walks in an arbitrary order, and whatever that order is the same credential
    comes out; and it is refused when two variants of a credential header's name
    carry different values. *)
Theorem credential_order path headers headers' : headers ≡ₚ headers' ->
  credential (Some (mkHTTPRequest path headers)) = credential (Some (mkHTTPRequest path headers')) /\
  forall header v v', header ∈ credential_headers -> v <> v' ->
    v ∈ values_of headers header -> v' ∈ values_of headers header -> credential (Some (mkHTTPRequest path headers)) = None.
Proof.
  intros E. assert (Hc : forall names, collect headers names = collect headers' names).
  { induction names as [|header names IH]; simpl; [done|]. by rewrite (header_value_permutation _ _ header E), IH. }
  split; [unfold credential; simpl hr_Headers; by rewrite Hc|].
  intros header v v' Hin Hne Hv Hv'. assert (Hn : header_value headers header None = None).
  { rewrite header_value_spec. change (agreed (values_of headers header) = None).
    destruct (agreed (values_of headers header)) as [[x|]|] eqn:Ea; [| |done].
    - apply agreed_all in Ea as [_ Hx]. destruct Hne. by rewrite (Hx v Hv), (Hx v' Hv').
    - destruct (values_of headers header) as [|a l]; [by apply elem_of_nil in Hv|]. simpl in Ea. by case_match. }
  assert (Hcol : forall names, header ∈ names -> collect headers names = None).
  { induction names as [|h names IH]; [by intros ?%elem_of_nil|]. intros [->|Hx]%elem_of_cons; simpl; [by rewrite Hn|].
    rewrite (IH Hx). by case_match. }
  unfold credential. simpl hr_Headers. by rewrite Hcol.
Qed.

End Headers.

(** ** Witnesses *)
(** A key per text, named by its hash; "gone" is a retired hash, "flat" text. *)
Definition toy_columns (row : gmap string string) : KeyColumns :=
  let data := default EmptyString (row !! "data") in
  if bool_decide (data = "live") then mkKeyColumns "vk_1" None (Some 100) None (Some "h:key") None None
  else if bool_decide (data = "old") then mkKeyColumns "vk_2" (Some false) None (Some 100) None (Some "h:key") None
  else mkKeyColumns "vk_3" None None None (Some "h:other") None None.
Definition toy_gateway : GatewayKeys := {|
  HashSHA256 v := "h:" +:+ v; IsSecretRef _ := false; columns := toy_columns;
  ParseVirtualKeyFromFastHTTPRequest l := match l with (_, v) :: _ => Some v | [] => None end |}.

Section Demo.
#[local] Existing Instances map_sql ascii_fold toy_gateway.

Definition auth_rows : gmap Z Row := {[1 := mkRow (Some "t1") (text "live"); 2 := mkRow (Some "t2") (text "old"); 3 := mkRow None (text "pool")]}.
Definition auth_relation : Relation := mkRelation auth_rows true true (Some (policyClauses PolicyStrict)).
Definition auth_conn : Conn := mkConn ∅ None {[ keys_table := auth_relation ]}.
Definition auth_tenants : gmap string Tenant := {["t1" := mkTenant "t1" "acme" "Acme" Lifecycle.StatusActive None 1 1 1]}.
Definition auth_db : AuthDB := mkAuthDB auth_conn auth_tenants.
Definition auth_request : HTTPRequest := mkHTTPRequest "/v1/chat/completions" [("X-BF-VK", "key"); ("accept", "*/*")].
Definition auth_hook : M AuthDB (option HTTPResponse * option BifrostContext) :=
  HTTPTransportPreHook (resolver (Some "postgres") 50 50) (Some (mkBifrostContext Background None)) (Some auth_request).

Lemma auth_clean : clean auth_conn.
Proof. split; [reflexivity|split; [reflexivity|discriminate]]. Qed.

Lemma auth_policed : policed auth_conn.
Proof.
  intros name kind rel Hk Hrel. simpl in Hrel. apply lookup_singleton_Some in Hrel as [<- <-]. injection Hk as <-. split_and!; reflexivity.
Qed.

Lemma current_key_decides_witness : exists w',
  runs (ResolveVirtualKey (Some "postgres") (Some Background) "key" 50 50) auth_db (inr "t1") w'.
Proof.
  destruct (current_key_decides "key" 50 50 (Some Background) auth_db auth_relation 1 (mkRow (Some "t1") (text "live"))
    auth_clean auth_policed) as [w' Hr].
  - reflexivity.
  - discriminate.
  - reflexivity.
  - reflexivity.
  - reflexivity.
  - assert (Hall : map_Forall (fun k r => value_hash_is "key" r = true -> k = 1) auth_rows)
      by (apply (bool_decide_unpack _); vm_compute; exact I).
    intros k' r' Hr'. exact (Hall k' r' Hr').
  - assert (Hall : map_Forall (fun t owner => tn_ID owner = t) auth_tenants) by (apply (bool_decide_unpack _); vm_compute; exact I).
    intros t owner Ho. exact (Hall t owner Ho).
  - exists w'. exact Hr.
Defined.

Lemma credential_binds_owner_witness :
  bound auth_db 50 50 (Some (mkBifrostContext Background None)) (Some auth_request)
    (Some (mkBifrostContext (mkContext (Some "t1") false None) (Some "key"))).
Proof.
  pose proof (outcome_after auth_hook auth_db) as Hout.
  assert (E : result auth_hook auth_db = inr (None, Some (mkBifrostContext (mkContext (Some "t1") false None) (Some "key"))))
    by (vm_compute; reflexivity).
  rewrite E in Hout.
  destruct (credential_binds_owner (Some "postgres") 50 50 (Some (mkBifrostContext Background None)) (Some auth_request)
    auth_db _ _ auth_clean eq_refl (or_intror Hout)) as (_ & _ & Hb). exact Hb.
Defined.

Lemma credential_order_witness :
  credential (Some (mkHTTPRequest "/v1" [("X-BF-VK", "key"); ("accept", "*/*")])) =
    credential (Some (mkHTTPRequest "/v1" [("accept", "*/*"); ("X-BF-VK", "key")])).
Proof.
  apply (proj1 (credential_order "/v1" [("X-BF-VK", "key"); ("accept", "*/*")] [("accept", "*/*"); ("X-BF-VK", "key")]
    (perm_swap _ _ _))).
Defined.

End Demo.
