(* ===== verification/Routing.v ===== *)
(** * The routes of the control-plane API (internal/httpapi: the path parsers of
    server.go, portal.go, members.go and requestlogs.go, and serveHTTP's switch)

    [url.PathUnescape] and [strings.Split] are the standard library's. *)
From S2P Require Import Prelude GoStrings Portal.

Definition MethodPost : string := "POST".
Definition MethodPut : string := "PUT".
Definition MethodPatch : string := "PATCH".
Definition MethodDelete : string := "DELETE".

(** ** The standard library *)
Definition hex_value (c : ascii) : option nat :=
  let n := nat_of_ascii c in
  if ((48 <=? n) && (n <=? 57))%nat then Some (n - 48)%nat
  else if ((97 <=? n) && (n <=? 102))%nat then Some (n - 87)%nat
  else if ((65 <=? n) && (n <=? 70))%nat then Some (n - 55)%nat
  else None.

(** [None]: an escape that is cut short or not hexadecimal. *)
Fixpoint PathUnescape (s : string) : option string :=
  match s with
  | EmptyString => Some EmptyString
  | String c rest =>
      if bool_decide (c = "%"%char) then
        match rest with
        | String a (String b rest') =>
            match hex_value a, hex_value b with
            | Some x, Some y => String (ascii_of_nat (16 * x + y)) <$> PathUnescape rest'
            | _, _ => None
            end
        | _ => None
        end
      else String c <$> PathUnescape rest
  end.

Definition trim_prefix (s p : string) : string := if has_prefix s p then sdrop (String.length p) s else s.

(** [strings.Split(s, "/")] *)
Fixpoint split_slash (s : string) : list string :=
  match s with
  | EmptyString => [EmptyString]
  | String c rest =>
      if bool_decide (c = "/"%char) then EmptyString :: split_slash rest
      else match split_slash rest with
           | part :: parts => String c part :: parts
           | [] => [String c EmptyString]
           end
  end.

Definition has_slash (s : string) : bool := match index_byte s "/"%char with Some _ => true | None => false end.

(** A path segment that must name something. *)
Definition segment (s : string) : option string :=
  match PathUnescape s with
  | Some v => if is_empty v || has_slash v then None else Some v
  | None => None
  end.

(** A tenant's segment: not empty as written, and without a slash once unescaped. *)
Definition tenant_segment (s : string) : option string :=
  if is_empty s then None else
  match PathUnescape s with
  | Some v => if has_slash v then None else Some v
  | None => None
  end.

(** ** The parsers *)
Definition tenants_prefix : string := "/api/admin/tenants/".

Definition parseAdminTenantPath (path : string) : option string :=
  if negb (has_prefix path tenants_prefix) then None else
  segment (trim_prefix path tenants_prefix).

Definition parseTenantKeyPath (path : string) : option (string * string * string) :=
  if negb (has_prefix path tenants_prefix) then None else
  match split_slash (trim_prefix path tenants_prefix) with
  | t :: kind :: rest =>
      if negb (bool_decide (kind = "keys")) then None else
      match tenant_segment t with
      | None => None
      | Some t =>
          match rest with
          | [] => Some (t, EmptyString, EmptyString)
          | [k] => match segment k with Some k => Some (t, k, EmptyString) | None => None end
          | [k; action] =>
              match segment k with
              | Some k => if bool_decide (action = "retry") then Some (t, k, "retry") else None
              | None => None
              end
          | _ => None
          end
      end
  | _ => None
  end.

Definition parseAdminMemberPath (path : string) : option (string * string) :=
  if negb (has_prefix path tenants_prefix) then None else
  match split_slash (trim_prefix path tenants_prefix) with
  | t :: kind :: rest =>
      if negb (bool_decide (kind = "members")) then None else
      match tenant_segment t with
      | None => None
      | Some t =>
          match rest with
          | [] => Some (t, EmptyString)
          | [m] => match segment m with Some m => Some (t, m) | None => None end
          | _ => None
          end
      end
  | _ => None
  end.

Definition parseAdminPlanPath (path : string) : option string :=
  if negb (has_prefix path tenants_prefix) || negb (has_suffix path "/plan") then None else
  let value := trim_suffix (trim_prefix path tenants_prefix) "/plan" in
  if has_slash value || is_empty value then None else
  match PathUnescape value with
  | Some decoded => if is_empty decoded then None else Some decoded
  | None => None
  end.

Definition parsePortalKeyPath (path : string) : option (string * string) :=
  if bool_decide (path = "/api/portal/keys") then Some (EmptyString, EmptyString) else
  if negb (has_prefix path "/api/portal/keys/") then None else
  match split_slash (trim_prefix path "/api/portal/keys/") with
  | [k] => match segment k with Some id => Some (id, EmptyString) | None => None end
  | [k; action] =>
      match segment k with
      | Some id => if bool_decide (action = "retry") || bool_decide (action = "reveal") then Some (id, action) else None
      | None => None
      end
  | _ => None
  end.

Definition parsePortalMemberPath (path : string) : option string :=
  if bool_decide (path = "/api/portal/members") then Some EmptyString else
  if negb (has_prefix path "/api/portal/members/") then None else
  segment (trim_prefix path "/api/portal/members/").

Definition parsePortalRequestLogPath (path : string) : option string :=
  if negb (has_prefix path "/api/portal/request-logs/") then None else
  segment (trim_prefix path "/api/portal/request-logs/").

Definition parsePortalUsageDetailPath (path : string) : option string :=
  if negb (has_prefix path "/api/portal/usage/") || negb (has_suffix path "/detail") then None else
  segment (trim_suffix (trim_prefix path "/api/portal/usage/") "/detail").

(** ** The switch *)
Inductive route :=
| RPreflight | RHealth
| RAdminMembers (tenantID memberID : string)
| RTenantKeys (tenantID keyID action : string)
| RPortalKeys (keyID action : string)
| RPortalMembers (memberID : string)
| RPortalRequestLog (id : string)
| RPortalUsageDetail (id : string)
| RLogin | RPortalLogin | RMe | RLogout | RPortalMe | RPortalUsage | RPortalRequestLogs | RPortalAudit
| RPortalPlan | RSummary | RTenants | RAudit | RPlans | RSKUs | RModels
| RTenantPlan (tenantID : string)
| RTenantLifecycle (tenantID : string)
| RMethodNotAllowed | RNotFound.

(** A route that takes one method only. *)
Definition only (method want : string) (r : route) : route :=
  if bool_decide (method = want) then r else RMethodNotAllowed.

Definition fixed_routes (method path : string) : option route :=
  if bool_decide (path = "/api/auth/login") then Some (only method MethodPost RLogin) else
  if bool_decide (path = "/api/portal/auth/login") then Some (only method MethodPost RPortalLogin) else
  if bool_decide (path = "/api/auth/me") then Some (only method MethodGet RMe) else
  if bool_decide (path = "/api/auth/logout") || bool_decide (path = "/api/portal/auth/logout")
  then Some (only method MethodPost RLogout) else
  if bool_decide (path = "/api/portal/me") then Some (only method MethodGet RPortalMe) else
  if bool_decide (path = "/api/portal/usage") then Some (only method MethodGet RPortalUsage) else
  if bool_decide (path = "/api/portal/request-logs") then Some (only method MethodGet RPortalRequestLogs) else
  if bool_decide (path = "/api/portal/audit") then Some (only method MethodGet RPortalAudit) else
  if bool_decide (path = "/api/portal/plan") then Some (only method MethodGet RPortalPlan) else
  if bool_decide (path = "/api/admin/summary") then Some (only method MethodGet RSummary) else
  if bool_decide (path = "/api/admin/tenants") then Some RTenants else
  if bool_decide (path = "/api/admin/audit") then Some (only method MethodGet RAudit) else
  if bool_decide (path = "/api/admin/plans") then Some RPlans else
  if bool_decide (path = "/api/admin/skus") then Some RSKUs else
  if bool_decide (path = "/api/admin/models") then Some (only method MethodGet RModels) else None.

Definition dispatch (method path : string) : route :=
  if bool_decide (method = MethodOptions) then RPreflight else
  if bool_decide (path = "/healthz") || bool_decide (path = "/api/health") then RHealth else
  match parseAdminMemberPath path with Some (t, m) => RAdminMembers t m | None =>
  match parseTenantKeyPath path with Some (t, k, action) => RTenantKeys t k action | None =>
  match parsePortalKeyPath path with Some (k, action) => RPortalKeys k action | None =>
  match parsePortalMemberPath path with Some m => RPortalMembers m | None =>
  match parsePortalRequestLogPath path with Some id => only method MethodGet (RPortalRequestLog id) | None =>
  match parsePortalUsageDetailPath path with Some id => only method MethodGet (RPortalUsageDetail id) | None =>
  match fixed_routes method path with Some r => r | None =>
  match parseAdminPlanPath path with Some t => RTenantPlan t | None =>
  match parseAdminTenantPath path with Some t => RTenantLifecycle t | None => RNotFound
  end end end end end end end end end.

(** ** The address of a route *)
Definition under (id rest : string) : string := if is_empty id then EmptyString else "/" +:+ id +:+ rest.

Definition path_of (r : route) : string :=
  match r with
  | RAdminMembers t m => tenants_prefix +:+ t +:+ "/members" +:+ under m EmptyString
  | RTenantKeys t k action => tenants_prefix +:+ t +:+ "/keys" +:+ under k (under action EmptyString)
  | RPortalKeys k action => "/api/portal/keys" +:+ under k (under action EmptyString)
  | RPortalMembers m => "/api/portal/members" +:+ under m EmptyString
  | RPortalRequestLog id => "/api/portal/request-logs/" +:+ id
  | RPortalUsageDetail id => "/api/portal/usage/" +:+ id +:+ "/detail"
  | RLogin => "/api/auth/login" | RPortalLogin => "/api/portal/auth/login" | RMe => "/api/auth/me"
  | RLogout => "/api/auth/logout" | RPortalMe => "/api/portal/me" | RPortalUsage => "/api/portal/usage"
  | RPortalRequestLogs => "/api/portal/request-logs" | RPortalAudit => "/api/portal/audit"
  | RPortalPlan => "/api/portal/plan" | RSummary => "/api/admin/summary" | RTenants => "/api/admin/tenants"
  | RAudit => "/api/admin/audit" | RPlans => "/api/admin/plans" | RSKUs => "/api/admin/skus"
  | RModels => "/api/admin/models"
  | RTenantPlan t => tenants_prefix +:+ t +:+ "/plan"
  | RTenantLifecycle t => tenants_prefix +:+ t
  | RPreflight | RHealth | RMethodNotAllowed | RNotFound => "/healthz"
  end.

(** An identifier that stands for itself in a path. *)
Definition plain_id (id : string) : Prop :=
  id <> EmptyString /\ index_byte id "/"%char = None /\ index_byte id "%"%char = None.

(** The routes that can be addressed: plain identifiers, actions that exist,
    and not the tenant whose identifier is the word plan. *)
Definition addressable (r : route) : Prop :=
  match r with
  | RAdminMembers t m => plain_id t /\ (m = EmptyString \/ plain_id m)
  | RTenantKeys t k action => plain_id t /\
      (k = EmptyString /\ action = EmptyString \/ plain_id k /\ (action = EmptyString \/ action = "retry"))
  | RPortalKeys k action =>
      k = EmptyString /\ action = EmptyString \/ plain_id k /\ (action = EmptyString \/ action = "retry" \/ action = "reveal")
  | RPortalMembers m => m = EmptyString \/ plain_id m
  | RPortalRequestLog id | RPortalUsageDetail id | RTenantPlan id => plain_id id
  | RTenantLifecycle id => plain_id id /\ id <> "plan"
  | RPreflight | RHealth | RMethodNotAllowed | RNotFound => False
  | _ => True
  end.

(** A method the switch lets through to the route. *)
Definition takes (r : route) (method : string) : Prop :=
  match r with
  | RLogin | RPortalLogin | RLogout => method = MethodPost
  | RMe | RPortalMe | RPortalUsage | RPortalRequestLogs | RPortalAudit | RPortalPlan | RSummary | RAudit | RModels
  | RPortalRequestLog _ | RPortalUsageDetail _ => method = MethodGet
  | _ => method <> MethodOptions
  end.

(** ** Facts about the parts of a path *)
Lemma trim_prefix_app p s : trim_prefix (p +:+ s) p = s.
Proof. unfold trim_prefix. by rewrite has_prefix_app, sdrop_app. Qed.

Lemma split_slash_plain s : index_byte s "/"%char = None -> split_slash s = [s].
Proof.
  induction s as [|c s IH]; [done|]. simpl. case_bool_decide; [done|]. intros E.
  rewrite IH; [done|]. by destruct (index_byte s "/"%char).
Qed.

Lemma split_slash_app a b : index_byte a "/"%char = None -> split_slash (a +:+ String "/" b) = a :: split_slash b.
Proof.
  induction a as [|c a IH]; [done|]. simpl. case_bool_decide; [done|]. intros E.
  rewrite IH; [done|]. by destruct (index_byte a "/"%char).
Qed.

Lemma PathUnescape_plain s : index_byte s "%"%char = None -> PathUnescape s = Some s.
Proof.
  induction s as [|c s IH]; [done|]. simpl. case_bool_decide; [done|]. intros E.
  rewrite IH; [done|]. by destruct (index_byte s "%"%char).
Qed.

Lemma plain_unescape id : plain_id id -> PathUnescape id = Some id /\ is_empty id = false /\ has_slash id = false.
Proof.
  intros (Hne & Hs & Hp). split; [by apply PathUnescape_plain|]. unfold is_empty, has_slash.
  rewrite Hs. split; [by apply bool_decide_eq_false_2|done].
Qed.

Lemma segment_plain id : plain_id id -> segment id = Some id.
Proof. intros (E1 & E2 & E3)%plain_unescape. unfold segment. by rewrite E1, E2, E3. Qed.

Lemma tenant_segment_plain id : plain_id id -> tenant_segment id = Some id.
Proof. intros (E1 & E2 & E3)%plain_unescape. unfold tenant_segment. by rewrite E2, E1, E3. Qed.

Lemma plain_split id rest : plain_id id -> split_slash (id +:+ String "/" rest) = id :: split_slash rest.
Proof. intros (_ & Hs & _). by apply split_slash_app. Qed.

Lemma plain_one id : plain_id id -> split_slash id = [id].
Proof. intros (_ & Hs & _). by apply split_slash_plain. Qed.

Lemma under_plain id rest : plain_id id -> under id rest = String "/" (id +:+ rest).
Proof. intros (_ & E & _)%plain_unescape. unfold under. by rewrite E. Qed.

(** A plain identifier after the last slash of a prefix ends in "/plan" only
    when it is that word. *)
Lemma plan_suffix id : plain_id id -> id <> "plan" -> has_suffix (tenants_prefix +:+ id) "/plan" = false.
Proof.
  intros (_ & Hs & _) Hne. destruct (has_suffix _ _) eqn:E; [|done]. apply has_suffix_spec in E as [r E].
  change (tenants_prefix +:+ id) with ("/api/admin/tenants" +:+ String "/" id) in E.
  change "/plan" with (String "/" "plan") in E. by apply split_last_byte in E as [_ ?].
Qed.

Lemma has_suffix_app a p : has_suffix (a +:+ p) p = true.
Proof. apply has_suffix_spec. by exists a. Qed.

(** Reducing a parser on an address. *)
Ltac parse_plain :=
  repeat (first
    [ rewrite trim_prefix_app | rewrite has_prefix_app
    | rewrite plain_split by assumption | rewrite plain_one by assumption
    | rewrite tenant_segment_plain by assumption | rewrite segment_plain by assumption
    | rewrite under_plain by assumption ]; cbn [negb bool_decide split_slash]).

Lemma parse_members t m : plain_id t -> m = EmptyString \/ plain_id m ->
  parseAdminMemberPath (path_of (RAdminMembers t m)) = Some (t, m).
Proof.
  intros Ht Hm. unfold parseAdminMemberPath, path_of. rewrite has_prefix_app, trim_prefix_app. cbn [negb].
  destruct Hm as [->|Hm].
  - change ("/members" +:+ under EmptyString EmptyString) with (String "/" "members"). by parse_plain.
  - rewrite under_plain by done. rewrite sapp_nil_r.
    change ("/members" +:+ String "/" m) with (String "/" ("members" +:+ String "/" m)).
    rewrite plain_split, (split_slash_app "members"), plain_one, tenant_segment_plain by done. simpl.
    by rewrite segment_plain.
Qed.

Lemma parse_tenant_keys t k action : addressable (RTenantKeys t k action) ->
  parseAdminMemberPath (path_of (RTenantKeys t k action)) = None /\
  parseTenantKeyPath (path_of (RTenantKeys t k action)) = Some (t, k, action).
Proof.
  intros [Ht Hk]. unfold parseAdminMemberPath, parseTenantKeyPath, path_of. rewrite has_prefix_app, trim_prefix_app.
  cbn [negb]. destruct Hk as [[-> ->]|[Hk Ha]].
  - change ("/keys" +:+ under EmptyString _) with (String "/" "keys"). rewrite plain_split by done. simpl.
    by rewrite tenant_segment_plain.
  - rewrite under_plain by done.
    change ("/keys" +:+ String "/" ?x) with (String "/" ("keys" +:+ String "/" x)).
    rewrite plain_split, (split_slash_app "keys") by done.
    destruct Ha as [->| ->].
    + change (under EmptyString EmptyString) with EmptyString. rewrite sapp_nil_r, plain_one by done. simpl.
      by rewrite tenant_segment_plain, segment_plain.
    + change (under "retry" EmptyString) with (String "/" "retry"). rewrite plain_split by done. simpl.
      by rewrite tenant_segment_plain, segment_plain.
Qed.

Lemma parse_portal_keys k action : addressable (RPortalKeys k action) ->
  parsePortalKeyPath (path_of (RPortalKeys k action)) = Some (k, action).
Proof.
  unfold parsePortalKeyPath, path_of. intros [[-> ->]|[Hk Ha]]; [done|]. rewrite under_plain by done.
  rewrite bool_decide_eq_false_2 by discriminate.
  change ("/api/portal/keys" +:+ String "/" ?x) with ("/api/portal/keys/" +:+ x).
  rewrite has_prefix_app, trim_prefix_app. cbn [negb]. destruct Ha as [-> |[-> | ->]].
  - change (under EmptyString EmptyString) with EmptyString. rewrite sapp_nil_r, plain_one by done. by rewrite segment_plain.
  - change (under "retry" EmptyString) with (String "/" "retry"). rewrite plain_split by done. simpl. by rewrite segment_plain.
  - change (under "reveal" EmptyString) with (String "/" "reveal"). rewrite plain_split by done. simpl. by rewrite segment_plain.
Qed.

Lemma parse_portal_member m : m = EmptyString \/ plain_id m ->
  parsePortalMemberPath (path_of (RPortalMembers m)) = Some m.
Proof.
  unfold parsePortalMemberPath, path_of. intros [->|Hm]; [done|]. rewrite under_plain by done.
  rewrite bool_decide_eq_false_2 by discriminate. rewrite sapp_nil_r.
  change ("/api/portal/members" +:+ String "/" ?x) with ("/api/portal/members/" +:+ x).
  rewrite has_prefix_app, trim_prefix_app. by rewrite segment_plain.
Qed.

Lemma parse_usage_detail id : plain_id id ->
  parsePortalUsageDetailPath (path_of (RPortalUsageDetail id)) = Some id.
Proof.
  intros Hid. unfold parsePortalUsageDetailPath, path_of. rewrite has_prefix_app, trim_prefix_app, trim_suffix_app.
  rewrite <-sapp_assoc, has_suffix_app. by rewrite segment_plain.
Qed.

Lemma parse_plan t : plain_id t ->
  parseAdminMemberPath (path_of (RTenantPlan t)) = None /\ parseTenantKeyPath (path_of (RTenantPlan t)) = None /\
  parseAdminPlanPath (path_of (RTenantPlan t)) = Some t.
Proof.
  intros Ht. unfold parseAdminMemberPath, parseTenantKeyPath, parseAdminPlanPath, path_of.
  rewrite has_prefix_app, trim_prefix_app, trim_suffix_app. rewrite <-(sapp_assoc tenants_prefix), has_suffix_app.
  destruct (plain_unescape t Ht) as (E1 & E2 & E3). rewrite E1, E2, E3. simpl.
  change "/plan" with (String "/" "plan"). by rewrite plain_split.
Qed.

Lemma parse_lifecycle t : plain_id t -> t <> "plan" ->
  parseAdminMemberPath (path_of (RTenantLifecycle t)) = None /\ parseTenantKeyPath (path_of (RTenantLifecycle t)) = None /\
  parseAdminPlanPath (path_of (RTenantLifecycle t)) = None /\ parseAdminTenantPath (path_of (RTenantLifecycle t)) = Some t.
Proof.
  intros Ht Hne. unfold parseAdminMemberPath, parseTenantKeyPath, parseAdminPlanPath, parseAdminTenantPath, path_of.
  rewrite has_prefix_app, trim_prefix_app, plan_suffix, plain_one, segment_plain by done. done.
Qed.

(** Every resource has an address and every address its resource: a route
    whose identifiers are non-empty and free of slash and percent sign is what
    the switch makes of its path, under every method the switch lets through to
    it, so no parser shadows another; the one exception is the tenant whose
    identifier is "plan". *)
Theorem dispatch_roundtrip r method :
  addressable r -> takes r method -> method <> MethodOptions -> dispatch method (path_of r) = r.
Proof.
  intros Hr Hm Ho. unfold dispatch. rewrite (bool_decide_eq_false_2 (method = MethodOptions)) by done.
  destruct r; try done; simpl in Hm; try subst method; try reflexivity.
  - destruct Hr as [Ht Hk]. rewrite parse_members by done. done.
  - destruct (parse_tenant_keys _ _ _ Hr) as [-> ->]. done.
  - rewrite parse_portal_keys by done. by destruct Hr as [[-> ->]|[? [-> |[-> | ->]]]].
  - rewrite parse_portal_member by done. by destruct Hr as [->|Hr].
  - unfold parsePortalRequestLogPath. cbn [path_of]. rewrite has_prefix_app, trim_prefix_app, segment_plain by done. done.
  - rewrite parse_usage_detail by done. done.
  - destruct (parse_plan _ Hr) as (-> & -> & ->). done.
  - destruct Hr as [Ht Hne]. destruct (parse_lifecycle _ Ht Hne) as (-> & -> & -> & ->). done.
Qed.

(** The tenant named "plan": its own address is read as the plan of a tenant. *)
Lemma plan_tenant_shadowed method : method <> MethodOptions ->
  dispatch method (path_of (RTenantLifecycle "plan")) = RTenantPlan "plan".
Proof. intros Ho. unfold dispatch. by rewrite bool_decide_eq_false_2. Qed.

(** The path a server sees is unescaped once already: an identifier with a
    percent sign is unescaped twice, hence refused or taken for another. *)
Lemma percent_aliases : dispatch MethodGet "/api/admin/tenants/a%41" = RTenantLifecycle "aA" /\
  dispatch MethodGet "/api/admin/tenants/50%" = RNotFound.
Proof. split; reflexivity. Qed.

(** ** Sides *)
Definition admin_route (r : route) : bool :=
  match r with
  | RAdminMembers _ _ | RTenantKeys _ _ _ | RSummary | RTenants | RAudit | RPlans | RSKUs | RModels
  | RTenantPlan _ | RTenantLifecycle _ => true
  | _ => false
  end.

Definition portal_route (r : route) : bool :=
  match r with
  | RPortalKeys _ _ | RPortalMembers _ | RPortalRequestLog _ | RPortalUsageDetail _ | RPortalUsage
  | RPortalRequestLogs | RPortalAudit | RPortalPlan => true
  | _ => false
  end.

(** A handler of either side is reached under that side's prefix only. *)
Definition on_its_side (path : string) (r : route) : Prop :=
  (admin_route r = true -> has_prefix path "/api/admin/" = true) /\
  (portal_route r = true -> has_prefix path "/api/portal/" = true).

Lemma has_prefix_short path p q : has_prefix path (q +:+ p) = true -> has_prefix path q = true.
Proof. intros [rest ->]%has_prefix_spec. rewrite sapp_assoc. apply has_prefix_app. Qed.

Lemma only_side path method want r : on_its_side path r -> on_its_side path (only method want r).
Proof. unfold only. by case_bool_decide. Qed.

Lemma admin_side path r : has_prefix path tenants_prefix = true -> portal_route r = false -> on_its_side path r.
Proof. intros Hp Hr. split; [|by rewrite Hr]. intros _. exact (has_prefix_short path "tenants/" "/api/admin/" Hp). Qed.

Lemma portal_side path p r : has_prefix path ("/api/portal/" +:+ p) = true -> admin_route r = false -> on_its_side path r.
Proof. intros Hp Hr. split; [by rewrite Hr|]. intros _. exact (has_prefix_short _ _ _ Hp). Qed.

Lemma fixed_side method path r : fixed_routes method path = Some r -> on_its_side path r.
Proof.
  unfold fixed_routes.
  repeat (match goal with |- context [if ?b then _ else _] => destruct b eqn:? end;
    [intros [= <-]; try apply only_side; bools; try (subst path; by split)|]).
  - destruct (bool_decide (path = "/api/auth/logout")); [by split|by split].
  - done.
Qed.

Lemma dispatch_side method path : on_its_side path (dispatch method path).
Proof.
  unfold dispatch. case_bool_decide; [by split|]. destruct (_ || _); [by split|].
  destruct (parseAdminMemberPath path) as [[t m]|] eqn:E1.
  { unfold parseAdminMemberPath in E1. case_in E1; [done|]. bools. by apply admin_side. }
  destruct (parseTenantKeyPath path) as [[[t k] action]|] eqn:E2.
  { unfold parseTenantKeyPath in E2. case_in E2; [done|]. bools. by apply admin_side. }
  destruct (parsePortalKeyPath path) as [[k action]|] eqn:E3.
  { unfold parsePortalKeyPath in E3. case_bool_decide as Ep; [subst path; by split|]. case_in E3; [done|]. bools.
    by apply (portal_side path "keys/"). }
  destruct (parsePortalMemberPath path) as [m|] eqn:E4.
  { unfold parsePortalMemberPath in E4. case_bool_decide as Ep; [subst path; by split|]. case_in E4; [done|]. bools.
    by apply (portal_side path "members/"). }
  destruct (parsePortalRequestLogPath path) as [id|] eqn:E5.
  { unfold parsePortalRequestLogPath in E5. case_in E5; [done|]. bools. apply only_side. by apply (portal_side path "request-logs/"). }
  destruct (parsePortalUsageDetailPath path) as [id|] eqn:E6.
  { unfold parsePortalUsageDetailPath in E6. destruct (_ || _) eqn:E; [done|]. bools. apply only_side.
    by apply (portal_side path "usage/"). }
  destruct (fixed_routes method path) as [r|] eqn:E7; [by eapply fixed_side|].
  destruct (parseAdminPlanPath path) as [t|] eqn:E8.
  { unfold parseAdminPlanPath in E8. destruct (_ || _) eqn:E; [done|]. bools. by apply admin_side. }
  destruct (parseAdminTenantPath path) as [t|] eqn:E9; [|by split].
  unfold parseAdminTenantPath in E9. case_in E9; [done|]. bools. by apply admin_side.
Qed.

(** ** A concrete address *)
Lemma dispatch_roundtrip_witness :
  dispatch MethodPost "/api/portal/keys/vk_1/reveal" = RPortalKeys "vk_1" "reveal".
Proof.
  apply (dispatch_roundtrip (RPortalKeys "vk_1" "reveal") MethodPost); [|simpl; discriminate|discriminate].
  right. split; [split_and!; [discriminate|reflexivity|reflexivity]|]. right. right. reflexivity.
Defined.
