(* ===== verification/HttpApi.v ===== *)
(** * The control-plane API: its state, sessions and responses
    (internal/httpapi: server.go and what its handlers share)

    One database holds the tables of every store; a store runs on its part of
    it.  A request carries its method, path, the headers the server reads, its
    body and its query; what the random sources yield for it and the instant of
    its handling are an environment, the clock standing still meanwhile.  The
    JSON codec is applied to the server's own types through an interface; the
    gateway's internal endpoints are reached over HTTP and answer as they like. *)
From S2P Require Import Prelude GoStrings Sql Redis Lifecycle ControlPlane ConfigBus Billing.
From S2P Require Import Plans Cipher VirtualKey Rbac Sessions AuditLog Portal Member.
From S2P Require Import Routing.

(** ** The database *)
Section Database.
  Context `{Sql}.

Record ApiDB := mkApiDB {
  ap_tenants : table string Tenant; ap_rbac : RbacDB; ap_audit : AuditDB; ap_billing : Billing;
  ap_members : table string Member; ap_keys : table string Key; ap_bus : Bus; ap_sessions : SessDB }.

Definition on_tenants : field ApiDB (table string Tenant) := Field ap_tenants (fun t w =>
  mkApiDB t (ap_rbac w) (ap_audit w) (ap_billing w) (ap_members w) (ap_keys w) (ap_bus w) (ap_sessions w)).
Definition on_rbac : field ApiDB RbacDB := Field ap_rbac (fun t w =>
  mkApiDB (ap_tenants w) t (ap_audit w) (ap_billing w) (ap_members w) (ap_keys w) (ap_bus w) (ap_sessions w)).
Definition on_audit : field ApiDB AuditDB := Field ap_audit (fun t w =>
  mkApiDB (ap_tenants w) (ap_rbac w) t (ap_billing w) (ap_members w) (ap_keys w) (ap_bus w) (ap_sessions w)).
Definition on_billing : field ApiDB Billing := Field ap_billing (fun t w =>
  mkApiDB (ap_tenants w) (ap_rbac w) (ap_audit w) t (ap_members w) (ap_keys w) (ap_bus w) (ap_sessions w)).
Definition on_bus : field ApiDB Bus := Field ap_bus (fun t w =>
  mkApiDB (ap_tenants w) (ap_rbac w) (ap_audit w) (ap_billing w) (ap_members w) (ap_keys w) t (ap_sessions w)).
Definition on_sessions : field ApiDB SessDB := Field ap_sessions (fun t w =>
  mkApiDB (ap_tenants w) (ap_rbac w) (ap_audit w) (ap_billing w) (ap_members w) (ap_keys w) (ap_bus w) t).

(** The member store works on tenants, members and roles, the key store on
    tenants, keys and the configuration bus. *)
Definition on_members : field ApiDB MemberDB := Field
  (fun w => mkMemberDB (ap_tenants w) (ap_members w) (ap_rbac w))
  (fun m w => mkApiDB (md_tenants m) (md_rbac m) (ap_audit w) (ap_billing w) (tenant_members m) (ap_keys w)
                (ap_bus w) (ap_sessions w)).
Definition on_keys : field ApiDB VKDB := Field
  (fun w => mkVKDB (ap_tenants w) (ap_keys w) (ap_bus w))
  (fun k w => mkApiDB (vk_tenants k) (ap_rbac w) (ap_audit w) (ap_billing w) (ap_members w) (tenant_virtual_keys k)
                (vk_bus k) (ap_sessions w)).

End Database.

(** ** Requests and responses *)
Record skuWriteRequest := mkSkuWrite {
  sw_ID : string; sw_Name : string; sw_PromptMicrosPer1M : option Z; sw_CompletionMicrosPer1M : option Z;
  sw_PromptMicrosPer1K : option Z; sw_CompletionMicrosPer1K : option Z }.

(** What an audit snapshot is taken of. *)
Inductive resource :=
| RsTenant (t : Tenant)
| RsKey (k : Key)
| RsKeyFacts (secret_fingerprint status : string)
| RsMember (v : View)
| RsPlan (p : PlanDetails)
| RsAssignment (t : TenantPlan)
| RsSKU (s : SKU).

(** encoding/json on the types of the server; a body that does not decode is
    [None].  The gateway's log records are opaque. *)
Class ApiJson := {
  LogList : Type;
  LogDetail : Type;
  decode_login : string -> option (string * string);
  decode_portal_login : string -> option (string * string * string);
  decode_tenant : string -> option (string * string * string);
  decode_tenant_patch : string -> option (option string * option string * option string);
  decode_key : string -> option string;
  decode_member : string -> option (string * string * string * string);
  decode_member_patch : string -> option UpdateInput;
  decode_plan : string -> option (Plan * list string);
  decode_plan_id : string -> option string;
  decode_sku : string -> option skuWriteRequest;
  decode_models : string -> option (list (string * string * string));
  decode_logs : string -> option LogList;
  decode_log : string -> option LogDetail;
  empty_logs : Z -> Z -> LogList;
  to_json : resource -> error + string }.

(** A call of the gateway's internal endpoints, with the identifiers of the
    virtual keys it is confined to. *)
Inductive gateway_call :=
| GModels
| GLogs (keyIDs : list string) (limit offset : Z)
| GLog (keyIDs : list string) (id : string).

Inductive reply := NoAnswer (e : error) | Answer (status : Z) (body : string).

Record request := mkRequest {
  rq_method : string; rq_path : string; rq_authorization : string; rq_csrf : string; rq_requestID : string;
  rq_remote : string; rq_query : string -> string; rq_body : string }.

Record environment := mkEnv {
  ev_now : Z; ev_keyID : error + string; ev_secret : error + string; ev_nonce : error + string;
  ev_memberID : error + string; ev_salt : string; ev_auditID : error + string;
  ev_sessionID : error + string; ev_access : error + string; ev_csrf : error + string }.

(** [cf_gateway]: the internal URL and token. *)
Record Config := mkConfig {
  cf_AdminUsername : string; cf_AdminPassword : string; cf_SessionLifetime : Z; cf_gateway : string * string;
  cf_notifier : option Notifier; cf_redis : bool }.

Section Api.
  Context `{Sql} `{Sha256} `{Aead} `{GoUnicode} `{GoJson} `{GoMail} `{Bcrypt} `{ApiJson}.

Inductive payload :=
| PEmpty
| PError (msg : string)
| PErr (e : error)
| PDetail (msg : string) (e : error)
| PHealth
| PTenant (t : Tenant)
| PTenants (l : list Tenant)
| PKeys (l : list Key)
| PKey (k : Key)
| PCreated (k : Key) (secret : string)
| PSecret (secret : string)
| PMembers (l : list View)
| PMember (v : View)
| PLogin (access csrf : string) (expires : Z) (type : string) (role : option string)
| PMe (c : SessionClaims)
| PPortalMe (p : Principal) (v : View) (t : string * string * string) (permissions : list string) (expires : Z)
| PSummary (tenants audits usage : Z) (redis : bool)
| PAudit (l : list Entry)
| PUsage (from to : Z) (summary : UsageSummary) (page : UsagePage) (limit offset : Z)
| PUsageDetail (u : UsageEvent) (log : option LogDetail)
| PLogs (l : LogList)
| PLog (l : LogDetail)
| PTenantPlan (d : TenantPlanDetails)
| PPlans (l : list PlanDetails)
| PPlan (d : PlanDetails)
| PSKUs (l : list SKU)
| PSKU (s : SKU)
| PModels (l : list (string * string * string)).

Record response := mkResponse { rp_status : Z; rp_body : payload }.

(** The server: its database and the calls it made of the gateway. *)
Record Api := mkApi { api_db : ApiDB; api_calls : list gateway_call }.
Definition on_db : field Api ApiDB := Field api_db (fun d w => mkApi d (api_calls w)).
Definition db {A} (m : M ApiDB A) : M Api A := zoom on_db m.

Definition failed (status : Z) (msg : string) : response := mkResponse status (PError msg).
Definition writeDBError (e : error) : response := mkResponse 500 (PDetail "database operation failed" e).
Definition methodNotAllowed : response := failed 405 "method not allowed".

(** [if err != nil { write; return }] *)
Definition catching {A} (m : M Api A) (onError : error -> response) (k : A -> M Api response) : M Api response :=
  r ← attempt m;
  match r with inl e => mret (onError e) | inr a => k a end.

(** ** Sessions *)
Definition zero_claims : SessionClaims := mkSessionClaims EmptyString (mkPrincipal EmptyString EmptyString EmptyString) EmptyString zero_time.

Definition bearerToken (rq : request) : string :=
  let auth := trim_space (rq_authorization rq) in
  if negb (has_prefix auth "Bearer ") then EmptyString else trim_space (trim_prefix auth "Bearer ").

(** The member a tenant user's session is of, when it may be served. *)
Definition active_member (p : Principal) (m : Member) : bool :=
  bool_decide (mb_ID m = p_ID p) && bool_decide (mb_TenantID m = p_TenantID p) && bool_decide (mb_Status m = StatusActive).

Definition members_table : field ApiDB (table string Member) := Field ap_members (fun t w =>
  mkApiDB (ap_tenants w) (ap_rbac w) (ap_audit w) (ap_billing w) t (ap_keys w) (ap_bus w) (ap_sessions w)).

Definition session (rq : request) (now : Z) : M Api (option SessionClaims) :=
  let token := bearerToken rq in
  if is_empty token then mret None else
  r ← attempt (db (zoom on_sessions (Sessions.Authenticate token now)));
  match r with
  | inl _ => mret None
  | inr claims =>
      if bool_decide (p_Type (sc_Principal claims) = PrincipalTenantUser) then
        n ← attempt (db (count members_table (active_member (sc_Principal claims))));
        match n with
        | inl _ => mret None
        | inr n => mret (if n =? 1 then Some claims else None)
        end
      else mret (Some claims)
  end.

(** The side of the API a principal may enter. *)
Definition wrong_side (path : string) (p : Principal) : bool :=
  has_prefix path "/api/admin/" && negb (bool_decide (p_Type p = PrincipalPlatformAdmin)) ||
  has_prefix path "/api/portal/" && negb (bool_decide (p_Type p = PrincipalTenantUser)).

Definition authorize (rq : request) (now : Z) (permission : string) (mutation : bool) : M Api (response + SessionClaims) :=
  s ← session rq now;
  match s with
  | None => mret (inl (failed 401 "authentication required"))
  | Some claims =>
      if wrong_side (rq_path rq) (sc_Principal claims) then mret (inl (failed 403 "permission denied")) else
      match WithPrincipal (sc_Principal claims) with
      | inl _ => mret (inl (failed 403 "permission denied"))
      | inr _ =>
          r ← attempt (db (zoom on_rbac (Authorize (sc_Principal claims) permission)));
          match r with
          | inl _ => mret (inl (failed 403 "permission denied"))
          | inr _ =>
              if mutation && negb (VerifyCSRF claims (rq_csrf rq))
              then mret (inl (failed 403 "csrf validation failed"))
              else mret (inr claims)
          end
      end
  end.

(** [claims, ok := s.authorize(...); if !ok { return }] *)
Definition authorized (rq : request) (now : Z) (permission : string) (mutation : bool)
    (k : SessionClaims -> M Api response) : M Api response :=
  c ← authorize rq now permission mutation;
  match c with inl resp => mret resp | inr claims => k claims end.

(** ** Mutations *)

(** A snapshot of a value, and of a pointer, which may be nil. *)
Definition snap (r : resource) : snapshot := Some (to_json r).
Definition snap_opt (r : option resource) : snapshot :=
  Some (match r with Some r => to_json r | None => inr "null" end).

(** The audit event every mutation writes in its own transaction. *)
Definition record (rq : request) (ev : environment) (claims : SessionClaims) (tenantID action type id : string)
    (before after : snapshot) : M ApiDB unit :=
  zoom on_audit (AuditLog.AppendTx (mkInput (sc_Principal claims) tenantID action type id before after
    (rq_remote rq) (rq_requestID rq)) (ev_auditID ev) (ev_now ev));;
  mret tt.

(** After the commit: the notification, and the mark of a change it reached. *)
Definition notifyChange (cfg : Config) (now : Z) (change : option Change) : M Api unit :=
  match change, cf_notifier cfg with
  | Some c, Some publish =>
      match publish c with
      | Some _ => mret tt
      | None => attempt (db (zoom on_bus (MarkPublished (ch_ID c) now)));; mret tt
      end
  | _, _ => mret tt
  end.

Definition queryInt (rq : request) (key : string) (fallback : Z) : Z :=
  match parse_int64 (rq_query rq key) with Some v => v | None => fallback end.

(** io.LimitReader: a body is read up to a bound, a request's up to a mebibyte. *)
Definition limited (n : N) (body : string) : string :=
  if (N.of_nat (String.length body) <=? n)%N then body else stake (N.to_nat n) body.
Definition decodeJSON {T} (decode : string -> option T) (rq : request) : option T := decode (limited 1048576 (rq_body rq)).

(** ** Calls of the gateway *)
Section Gateway.
  Variable gateway : list gateway_call -> gateway_call -> reply.

Definition gateway_configured (cfg : Config) : bool :=
  let (url, token) := cf_gateway cfg in
  let base := trim_space url in
  negb (forallb (fun c => bool_decide (c = "/"%char)) (String.list_ascii_of_string base)) && negb (blank token).

Definition call_gateway (c : gateway_call) : M Api reply :=
  effect (fun w => (gateway (api_calls w) c, mkApi (api_db w) (api_calls w ++ [c]))).

(** The decoded answer, or the status and error of a failed call. *)
Definition gatewayRequestLogs {T} (cfg : Config) (c : gateway_call) (decode : string -> option T) : M Api (Z * error + T) :=
  if negb (gateway_configured cfg)
  then mret (inl (503, New "gateway request logs are not configured")) else
  r ← call_gateway c;
  mret (match r with
        | NoAnswer e => inl (502, e)
        | Answer status body =>
            if negb (status =? 200) then inl (status, New "gateway returned HTTP %d") else
            match decode (limited 2097152 body) with
            | None => inl (502, New "invalid gateway response: %w")
            | Some v => inr v
            end
        end).

Definition writeGatewayLogError (failure : Z * error) : response :=
  if failure.1 =? 404 then failed 404 "request log not found"
  else mkResponse 502 (PDetail "gateway request logs are unavailable" failure.2).

End Gateway.
End Api.
