(* ===== verification/ApiHandlers.v ===== *)
(** * The handlers of the control-plane API (internal/httpapi: server.go,
    members.go, portal.go, requestlogs.go, models.go)

    One definition per handler, in the code's order: what it authorizes, what
    it decodes, the transaction it runs and what it answers. *)
From S2P Require Import Prelude GoStrings Sql Redis Lifecycle ControlPlane ConfigBus Billing.
From S2P Require Import Plans Cipher VirtualKey Rbac Sessions AuditLog Portal Member.
From S2P Require Import Calendar Routing HttpApi.

Definition errOwnerMutation : error := New "tenant users cannot modify owner membership".
Definition defaultPlanID : string := "developer".

(** ** Prices of a request *)
Definition convertLegacy (value : option Z) : error + Z :=
  match value with
  | None => inr 0
  | Some v => if (v <? 0) || ((2 ^ 63 - 1) / 1000 <? v) then inl ErrInvalidUsage else inr (v *64 1000)
  end.

Definition price_of (per1M per1K : option Z) : error + Z :=
  match per1M with Some v => inr v | None => convertLegacy per1K end.

Definition sku (inp : skuWriteRequest) : error + SKU :=
  match price_of (sw_PromptMicrosPer1M inp) (sw_PromptMicrosPer1K inp) with
  | inl e => inl e
  | inr prompt =>
      match price_of (sw_CompletionMicrosPer1M inp) (sw_CompletionMicrosPer1K inp) with
      | inl e => inl e
      | inr completion => inr (mkSKU (sw_ID inp) (sw_Name inp) prompt completion 0 0 zero_time)
      end
  end.

Section Handlers.
  Context `{Sql} `{Sha256} `{Aead} `{GoUnicode} `{GoJson} `{GoMail} `{Bcrypt} `{ApiJson}.
  Variable gateway : list gateway_call -> gateway_call -> reply.
  Variable lower : string -> string.
  Variables (cipher : Cipher) (cfg : Config).

(** ** Virtual keys *)
Definition writeKeyError (e : error) : response :=
  if errors_is e ErrKeyNotFound || errors_is e ErrTenantNotFound then failed 404 "tenant or key not found"
  else if errors_is e ErrInvalidTransition then mkResponse 409 (PErr e)
  else if errors_is e ErrKeyUnavailable then failed 409 "key is no longer available"
  else if errors_is e ErrNameRequired || errors_is e ErrTenantRequired then mkResponse 400 (PErr e)
  else writeDBError e.

Section Request.
  Variables (rq : request) (ev : environment).
#[local] Notation now := (ev_now ev).

Definition create_key (claims : SessionClaims) (tenantID name : string) : M ApiDB Mutation :=
  result ← zoom on_keys (VirtualKey.CreateTx cipher tenantID name (ev_keyID ev) (ev_secret ev) (ev_nonce ev) now now);
  record rq ev claims tenantID "virtual_key.create" "virtual_key" (ky_ID (mu_Key result)) None (snap (RsKey (mu_Key result)));;
  mret result.

Definition revoke_key (claims : SessionClaims) (tenantID keyID : string) : M ApiDB Mutation :=
  result ← zoom on_keys (RevokeTx tenantID keyID now now);
  match mu_Change result with
  | None => mret result
  | Some _ =>
      record rq ev claims tenantID "virtual_key.revoke" "virtual_key" (ky_ID (mu_Key result))
        (snap_opt (RsKey <$> mu_Before result)) (snap (RsKey (mu_Key result)));;
      mret result
  end.

Definition retry_key (claims : SessionClaims) (tenantID keyID : string) : M ApiDB Mutation :=
  result ← zoom on_keys (RetryTx tenantID keyID now now);
  record rq ev claims tenantID "virtual_key.retry" "virtual_key" (ky_ID (mu_Key result))
    (snap_opt (RsKey <$> mu_Before result)) (snap (RsKey (mu_Key result)));;
  mret result.

Definition reveal_key (claims : SessionClaims) (tenantID keyID : string) : M ApiDB (Key * string) :=
  result ← zoom on_keys (RevealTx cipher tenantID keyID);
  record rq ev claims tenantID "virtual_key.reveal" "virtual_key" (ky_ID result.1) None
    (snap (RsKeyFacts (ky_SecretFingerprint result.1) (ky_Status result.1)));;
  mret result.

(** A committed key mutation: its change is notified, then answered. *)
Definition committed (result : Mutation) (resp : response) : M Api response :=
  notifyChange cfg now (mu_Change result);;
  mret resp.

Definition handleTenantKeysAuthorized (claims : SessionClaims) (tenantID keyID action : string) : M Api response :=
  if is_empty tenantID then mret (failed 400 "tenant id is required") else
  let method := rq_method rq in
  if bool_decide (method = MethodGet) && is_empty keyID && is_empty action then
    catching (db (zoom on_keys (VirtualKey.List tenantID 200))) writeDBError (fun rows =>
    mret (mkResponse 200 (PKeys rows)))
  else if bool_decide (method = MethodPost) && is_empty keyID && is_empty action then
    match decodeJSON decode_key rq with
    | None => mret (failed 400 "name is required")
    | Some name =>
        if blank name then mret (failed 400 "name is required") else
        catching (db (transaction (create_key claims tenantID name))) writeKeyError (fun result =>
        committed result (mkResponse 201 (PCreated (mu_Key result) (mu_Secret result))))
    end
  else if bool_decide (method = MethodDelete) && negb (is_empty keyID) && is_empty action then
    catching (db (transaction (revoke_key claims tenantID keyID))) writeKeyError (fun result =>
    committed result (mkResponse 202 (PKey (mu_Key result))))
  else if bool_decide (method = MethodPost) && negb (is_empty keyID) && bool_decide (action = "retry") then
    catching (db (transaction (retry_key claims tenantID keyID))) writeKeyError (fun result =>
    committed result (mkResponse 202 (PKey (mu_Key result))))
  else if bool_decide (method = MethodPost) && negb (is_empty keyID) && bool_decide (action = "reveal") then
    if negb (bool_decide (p_Type (sc_Principal claims) = PrincipalTenantUser)) then mret (failed 403 "permission denied") else
    catching (db (transaction (reveal_key claims tenantID keyID))) writeKeyError (fun result =>
    mret (mkResponse 200 (PSecret result.2)))
  else mret methodNotAllowed.

Definition mutating_request : bool := negb (bool_decide (rq_method rq = MethodGet)).

Definition handleTenantKeys (tenantID keyID action : string) : M Api response :=
  authorized rq now PermissionKeyManage mutating_request (fun claims =>
  handleTenantKeysAuthorized claims tenantID keyID action).

(** serveHTTP's case of the portal's keys. *)
Definition handlePortalKeys (keyID action : string) : M Api response :=
  let permission := if bool_decide (action = "reveal") then PermissionKeyReveal else PermissionKeyManage in
  authorized rq now permission mutating_request (fun claims =>
  handleTenantKeysAuthorized claims (p_TenantID (sc_Principal claims)) keyID action).

(** ** Members *)
Definition writeMemberError (e : error) : response :=
  if errors_is e ErrNotFound then failed 404 "member not found"
  else if errors_is e ErrInvalidMember || errors_is e ErrInvalidRole then mkResponse 400 (PErr e)
  else if errors_is e ErrLastOwner then mkResponse 409 (PErr e)
  else writeDBError e.

Definition writeMutationError (e : error) : response :=
  if errors_is e errOwnerMutation then mkResponse 403 (PErr e) else writeMemberError e.

Definition create_member (claims : SessionClaims) (inp : CreateInput) : M ApiDB View :=
  row ← zoom on_members (Member.CreateTx inp (ev_salt ev) (ev_memberID ev) now);
  record rq ev claims (ci_TenantID inp) "member.create" "member" (mb_ID (vw_Member row)) None (snap (RsMember row));;
  mret row.

(** Owners are out of a tenant user's reach. *)
Definition owner_guard (platform : bool) (current : View) (role : option string) : M ApiDB unit :=
  if negb platform && (bool_decide (vw_Role current = RoleOwner) || bool_decide (role = Some RoleOwner))
  then throw errOwnerMutation else mret tt.

Definition update_member (claims : SessionClaims) (platform : bool) (tenantID memberID : string) (inp : UpdateInput)
    : M ApiDB View :=
  current ← zoom on_members (Member.Get tenantID memberID);
  owner_guard platform current (ui_Role inp);;
  row ← zoom on_members (Member.UpdateTx tenantID memberID inp (ev_salt ev) now);
  (match ui_Password inp with
   | None => mret tt
   | Some _ => zoom on_sessions (RevokePrincipalTx (mkPrincipal PrincipalTenantUser memberID tenantID))
   end);;
  let action := match ui_Password inp with None => "member.update" | Some _ => "member.password.reset" end in
  record rq ev claims tenantID action "member" (mb_ID (vw_Member row)) (snap (RsMember current)) (snap (RsMember row));;
  mret row.

Definition disable_member (claims : SessionClaims) (platform : bool) (tenantID memberID : string) : M ApiDB View :=
  current ← zoom on_members (Member.Get tenantID memberID);
  owner_guard platform current None;;
  row ← zoom on_members (Member.UpdateTx tenantID memberID (mkUpdateInput None None (Some StatusDisabled) None) (ev_salt ev) now);
  record rq ev claims tenantID "member.disable" "member" (mb_ID (vw_Member row)) (snap (RsMember current)) (snap (RsMember row));;
  mret row.

Definition handleMembersAuthorized (claims : SessionClaims) (tenantID memberID : string) (platform : bool) : M Api response :=
  if is_empty tenantID then mret (failed 400 "tenant id is required") else
  let method := rq_method rq in
  if bool_decide (method = MethodGet) && is_empty memberID then
    catching (db (zoom on_members (Member.List tenantID))) writeMemberError (fun rows =>
    mret (mkResponse 200 (PMembers rows)))
  else if bool_decide (method = MethodPost) && is_empty memberID then
    match decodeJSON decode_member rq with
    | None => mret (failed 400 "invalid member payload")
    | Some (email, name, password, role) =>
        if negb platform && bool_decide (role = RoleOwner) then mret (failed 403 "tenant users cannot grant owner") else
        catching (db (transaction (create_member claims (mkCreateInput tenantID email name password role)))) writeMemberError (fun row =>
        mret (mkResponse 201 (PMember row)))
    end
  else if (bool_decide (method = MethodPatch) || bool_decide (method = MethodPut)) && negb (is_empty memberID) then
    match decodeJSON decode_member_patch rq with
    | None => mret (failed 400 "invalid member payload")
    | Some inp =>
        catching (db (transaction (update_member claims platform tenantID memberID inp))) writeMutationError (fun row =>
        mret (mkResponse 200 (PMember row)))
    end
  else if bool_decide (method = MethodDelete) && negb (is_empty memberID) then
    catching (db (transaction (disable_member claims platform tenantID memberID))) writeMutationError (fun row =>
    mret (mkResponse 200 (PMember row)))
  else mret methodNotAllowed.

Definition handleMembers (tenantID memberID : string) : M Api response :=
  authorized rq now PermissionMemberManage mutating_request (fun claims =>
  handleMembersAuthorized claims tenantID memberID true).

Definition handlePortalMembers (memberID : string) : M Api response :=
  authorized rq now PermissionMemberManage mutating_request (fun claims =>
  handleMembersAuthorized claims (p_TenantID (sc_Principal claims)) memberID false).

(** ** Tenants *)
Definition patch_tenant (claims : SessionClaims) (tenantID : string) (slug name status : option string) : M ApiDB Tenant :=
  before ← zoom on_tenants (ControlPlane.GetTx tenantID);
  row ← zoom on_tenants (match status with
    | Some s => TransitionTx tenantID s now now
    | None => UpdateProfileTx lower tenantID (default (tn_Slug before) slug) (default (tn_Name before) name) now
    end);
  let action := match status with Some _ => "tenant.status.change" | None => "tenant.update" end in
  record rq ev claims tenantID action "tenant" tenantID (snap (RsTenant before)) (snap (RsTenant row));;
  mret row.

Definition writeTenantError (e : error) : response :=
  if errors_is e ErrTenantNotFound then failed 404 "tenant not found"
  else if errors_is e ErrTenantSlugRequired then failed 400 "tenant login identifier is required"
  else if errors_is e ErrTenantSlugConflict then failed 409 "tenant login identifier is already in use"
  else mkResponse 409 (PErr e).

Definition handleTenantLifecycle (tenantID : string) : M Api response :=
  if bool_decide (rq_method rq = MethodGet) then
    authorized rq now PermissionTenantRead false (fun _ =>
    catching (db (zoom on_tenants (ControlPlane.Get tenantID)))
      (fun e => if errors_is e ErrTenantNotFound then failed 404 "tenant not found" else writeDBError e) (fun row =>
    mret (mkResponse 200 (PTenant row))))
  else if negb (bool_decide (rq_method rq = MethodPatch)) then mret methodNotAllowed else
  authorized rq now PermissionTenantManage true (fun claims =>
  match decodeJSON decode_tenant_patch rq with
  | None => mret (failed 400 "invalid tenant payload")
  | Some (slug, name, status) =>
      let profileMutation := bool_decide (is_Some slug) || bool_decide (is_Some name) in
      let statusMutation := bool_decide (is_Some status) in
      if negb profileMutation && negb statusMutation then mret (failed 400 "slug, name or status is required") else
      if profileMutation && statusMutation then mret (failed 400 "profile and status must be updated separately") else
      if match status with Some s => negb (Status_Valid s) || bool_decide (s = StatusTrial) | None => false end
      then mret (failed 400 "a valid non-trial status is required") else
      catching (db (transaction (patch_tenant claims tenantID slug name status))) writeTenantError (fun row =>
      mret (mkResponse 200 (PTenant row)))
  end).

Definition create_tenant (claims : SessionClaims) (id slug name : string) : M ApiDB Tenant :=
  row ← zoom on_tenants (ControlPlane.CreateTx id slug name now now);
  zoom on_rbac (EnsureTenantRolesTx (tn_ID row) now);;
  zoom on_billing (SetTenantPlanTx (tn_ID row) defaultPlanID now);;
  record rq ev claims (tn_ID row) "tenant.create" "tenant" id None (snap (RsTenant row));;
  mret row.

Definition handleTenants : M Api response :=
  let permission := if mutating_request then PermissionTenantManage else PermissionTenantRead in
  authorized rq now permission mutating_request (fun _ =>
  if bool_decide (rq_method rq = MethodGet) then
    catching (db (zoom on_tenants (ControlPlane.List 200))) writeDBError (fun rows => mret (mkResponse 200 (PTenants rows)))
  else if bool_decide (rq_method rq = MethodPost) then
    match decodeJSON decode_tenant rq with
    | None => mret (failed 400 "id and slug are required")
    | Some (id, slug, name) =>
        if blank id || blank slug then mret (failed 400 "id and slug are required") else
        s ← session rq now;
        let claims := default zero_claims s in
        catching (db (transaction (create_tenant claims id slug name))) writeDBError (fun row =>
        mret (mkResponse 201 (PTenant row)))
    end
  else mret methodNotAllowed).

(** ** Plans and prices *)
Definition planDetailsTx (planID : string) : M Billing PlanDetails :=
  plan ← take_row plans (plan_is (trim_space planID));
  models ← listPlanModels (pl_ID plan);
  mret (mkPlanDetails plan models).

Definition write_plan (claims : SessionClaims) (put : bool) (plan : Plan) (models : list string) : M ApiDB PlanDetails :=
  before ← (if put then
      current ← zoom on_billing (planDetailsTx (pl_ID plan));
      zoom on_billing (UpdatePlanTx plan models);;
      mret (Some current)
    else zoom on_billing (CreatePlanTx plan models now);; mret None);
  after ← zoom on_billing (planDetailsTx (pl_ID plan));
  record rq ev claims EmptyString (if put then "plan.update" else "plan.create") "plan" (pl_ID plan)
    (snap_opt (RsPlan <$> before)) (snap (RsPlan after));;
  mret after.

Definition writeCatalogError (missing : string) (e : error) : response :=
  if errors_is e ErrInvalidUsage then mkResponse 400 (PErr e)
  else if errors_is e ErrRecordNotFound then failed 404 missing
  else writeDBError e.

Definition billing_permission : string := if mutating_request then PermissionBillingManage else PermissionBillingRead.

Definition handlePlans : M Api response :=
  authorized rq now billing_permission mutating_request (fun claims =>
  if bool_decide (rq_method rq = MethodGet) then
    catching (db (zoom on_billing ListPlans)) writeDBError (fun rows => mret (mkResponse 200 (PPlans rows)))
  else if bool_decide (rq_method rq = MethodPost) || bool_decide (rq_method rq = MethodPut) then
    match decodeJSON decode_plan rq with
    | None => mret (failed 400 "invalid plan payload")
    | Some (plan, models) =>
        let plan := trimmed_plan plan in
        let models := normalizeModels models in
        if negb (is_empty (pl_OveragePolicy plan)) && negb (bool_decide (pl_OveragePolicy plan = "reject")) &&
           negb (bool_decide (pl_OveragePolicy plan = "allow"))
        then mret (failed 400 "overage_policy must be reject or allow") else
        let put := bool_decide (rq_method rq = MethodPut) in
        catching (db (transaction (write_plan claims put plan models))) (writeCatalogError "plan not found") (fun after =>
        mret (mkResponse (if put then 200 else 201) (PPlan after)))
    end
  else mret methodNotAllowed).

Definition assigned_to (tenantID : string) (r : TenantPlan) : bool := bool_decide (tp_TenantID r = tenantID).

(** The row a lookup found, or none. *)
Definition found {W A} (r : error + A) : M W (option A) :=
  match r with
  | inr a => mret (Some a)
  | inl e => if errors_is e ErrRecordNotFound then mret None else throw e
  end.

Definition assign_plan (claims : SessionClaims) (tenantID planID : string) : M ApiDB TenantPlan :=
  current ← attempt (zoom on_billing (take_row tenant_plans (assigned_to tenantID)));
  before ← found current;
  zoom on_billing (SetTenantPlanTx tenantID planID now);;
  after ← zoom on_billing (take_row tenant_plans (assigned_to tenantID));
  record rq ev claims tenantID "tenant.plan.set" "tenant_plan" tenantID
    (snap_opt (RsAssignment <$> before)) (snap (RsAssignment after));;
  mret after.

Definition handleTenantPlanUpdate (tenantID : string) : M Api response :=
  authorized rq now PermissionBillingManage true (fun claims =>
  match decodeJSON decode_plan_id rq with
  | None => mret (failed 400 "plan_id is required")
  | Some planID =>
      if blank planID then mret (failed 400 "plan_id is required") else
      catching (db (transaction (assign_plan claims tenantID planID))) writeDBError (fun _ =>
      mret (mkResponse 204 PEmpty))
  end).

Definition show_plan (tenantID : string) : M Api response :=
  let (from, to) := monthWindow now in
  catching (db (zoom on_billing (CurrentTenantPlan tenantID now from to)))
    (fun e => if errors_is e ErrRecordNotFound then failed 404 "tenant has no active plan" else writeDBError e) (fun details =>
  mret (mkResponse 200 (PTenantPlan details))).

Definition handleTenantPlan (tenantID : string) : M Api response :=
  if bool_decide (rq_method rq = MethodGet) then authorized rq now PermissionBillingRead false (fun _ => show_plan tenantID)
  else if bool_decide (rq_method rq = MethodPut) then handleTenantPlanUpdate tenantID
  else mret methodNotAllowed.

Definition write_sku (claims : SessionClaims) (inp : SKU) : M ApiDB SKU :=
  current ← attempt (zoom on_billing (take_row skus (sku_is (trim_space (sk_ID inp)))));
  before ← found current;
  zoom on_billing (UpsertSKUTx inp now);;
  after ← zoom on_billing (take_row skus (sku_is (trim_space (sk_ID inp))));
  record rq ev claims EmptyString "sku.upsert" "sku" (sk_ID after) (snap_opt (RsSKU <$> before)) (snap (RsSKU after));;
  mret after.

Definition handleSKUs : M Api response :=
  authorized rq now billing_permission mutating_request (fun claims =>
  if bool_decide (rq_method rq = MethodGet) then
    catching (db (zoom on_billing ListSKUs)) writeDBError (fun rows => mret (mkResponse 200 (PSKUs rows)))
  else if bool_decide (rq_method rq = MethodPut) || bool_decide (rq_method rq = MethodPost) then
    match decodeJSON decode_sku rq with
    | None => mret (failed 400 "invalid SKU payload")
    | Some request =>
        match sku request with
        | inl e => mret (mkResponse 400 (PErr e))
        | inr inp =>
            catching (db (transaction (write_sku claims inp)))
              (fun e => if errors_is e ErrInvalidUsage then mkResponse 400 (PErr e) else writeDBError e) (fun after =>
            mret (mkResponse 200 (PSKU after)))
        end
    end
  else mret methodNotAllowed).

(** ** Logging in and out *)
Definition start_session (p : Principal) (role : option string) : M Api response :=
  catching (db (zoom on_sessions (CreateSession p (cf_SessionLifetime cfg) (ev_sessionID ev) (ev_access ev) (ev_csrf ev) now now)))
    (fun _ => failed 500 "session creation failed") (fun issued =>
  let '(access, csrf, claims) := issued in
  mret (mkResponse 200 (PLogin access csrf (sc_ExpiresAt claims) (p_Type p) role))).

Definition handleLogin : M Api response :=
  match decodeJSON decode_login rq with
  | None => mret (failed 400 "invalid login payload")
  | Some (username, password) =>
      if negb (bool_decide (username = cf_AdminUsername cfg)) || negb (bool_decide (password = cf_AdminPassword cfg))
      then mret (failed 401 "invalid credentials")
      else start_session (mkPrincipal PrincipalPlatformAdmin (cf_AdminUsername cfg) EmptyString) None
  end.

Definition handlePortalLogin : M Api response :=
  match decodeJSON decode_portal_login rq with
  | None => mret (failed 400 "invalid login payload")
  | Some (slug, email, password) =>
      catching (db (zoom on_members (Member.Authenticate lower slug email password now))) (fun _ => failed 401 "invalid credentials") (fun row =>
      start_session (mkPrincipal PrincipalTenantUser (mb_ID (vw_Member row)) (mb_TenantID (vw_Member row))) (Some (vw_Role row)))
  end.

Definition handleLogout : M Api response :=
  s ← session rq now;
  match s with
  | None => mret (failed 401 "authentication required")
  | Some claims =>
      if negb (VerifyCSRF claims (rq_csrf rq)) then mret (failed 403 "csrf validation failed") else
      catching (db (zoom on_sessions (Revoke (bearerToken rq)))) writeDBError (fun _ => mret (mkResponse 204 PEmpty))
  end.

(** ** Reads *)
Definition handleMe : M Api response :=
  s ← session rq now;
  mret (match s with None => failed 401 "authentication required" | Some claims => mkResponse 200 (PMe claims) end).

Definition handlePortalMe : M Api response :=
  s ← session rq now;
  match s with
  | None => mret (failed 401 "authentication required")
  | Some claims =>
      let p := sc_Principal claims in
      if negb (bool_decide (p_Type p = PrincipalTenantUser)) then mret (failed 401 "authentication required") else
      catching (db (zoom on_members (Member.Get (p_TenantID p) (p_ID p)))) (fun _ => failed 401 "member is unavailable") (fun row =>
      if negb (bool_decide (mb_Status (vw_Member row) = StatusActive)) then mret (failed 401 "member is unavailable") else
      catching (db (zoom on_rbac (Permissions p))) writeDBError (fun permissions =>
      catching (db (zoom on_tenants (take_row whole (has_id (mb_TenantID (vw_Member row)))))) writeDBError (fun t =>
      mret (mkResponse 200 (PPortalMe p row (tn_ID t, tn_Slug t, tn_Name t) permissions (sc_ExpiresAt claims))))))
  end.

Definition handleSummary : M Api response :=
  authorized rq now PermissionTenantRead false (fun _ =>
  catching (db (zoom on_tenants (count whole (fun _ => true)))) writeDBError (fun tenants =>
  catching (db (zoom on_audit (count entries (fun _ => true)))) writeDBError (fun audits =>
  catching (db (zoom on_billing (count usage_events (fun _ => true)))) writeDBError (fun usage =>
  mret (mkResponse 200 (PSummary tenants audits usage (cf_redis cfg))))))).

Definition handleAudit : M Api response :=
  authorized rq now PermissionAuditRead false (fun _ =>
  catching (db (zoom on_audit (ListPlatform 200))) writeDBError (fun rows => mret (mkResponse 200 (PAudit rows)))).

Definition handlePortalAudit : M Api response :=
  authorized rq now PermissionAuditRead false (fun claims =>
  catching (db (zoom on_audit (ListTenant (p_TenantID (sc_Principal claims)) 200))) writeDBError (fun rows =>
  mret (mkResponse 200 (PAudit rows)))).

Definition page_of (fallback : Z) : Z * Z :=
  let limit := queryInt rq "limit" fallback in
  let offset := queryInt rq "offset" 0 in
  (if 100 <? limit then 100 else limit, if offset <? 0 then 0 else offset).

Definition handlePortalUsage : M Api response :=
  authorized rq now PermissionBillingRead false (fun claims =>
  let (from, to) := monthWindow now in
  let (limit, offset) := page_of 20 in
  let status := trim_space (rq_query rq "status") in
  if negb (validUsageStatus status true) then mret (failed 400 "invalid usage status") else
  let t := p_TenantID (sc_Principal claims) in
  catching (db (zoom on_billing (ListUsagePage t from to
    (mkUsageListFilter (trim_space (rq_query rq "model")) status limit offset)))) writeDBError (fun page =>
  catching (db (zoom on_billing (SummarizeUsage t from to))) writeDBError (fun summary =>
  mret (mkResponse 200 (PUsage from to summary page limit offset))))).

Definition handlePortalPlan : M Api response :=
  authorized rq now PermissionBillingRead false (fun claims => show_plan (p_TenantID (sc_Principal claims))).

(** ** Request logs and models, from the gateway *)
Definition tenantVirtualKeyIDs (tenantID : string) : M Api (list string) :=
  keys ← db (zoom on_keys (VirtualKey.List tenantID 1000));
  mret (ky_ID <$> keys).

Definition handlePortalRequestLogs : M Api response :=
  authorized rq now PermissionRequestLogRead false (fun claims =>
  let (limit, offset) := page_of 50 in
  catching (tenantVirtualKeyIDs (p_TenantID (sc_Principal claims))) writeDBError (fun keyIDs =>
  match keyIDs with
  | [] => mret (mkResponse 200 (PLogs (empty_logs limit offset)))
  | _ =>
      r ← gatewayRequestLogs gateway cfg (GLogs keyIDs limit offset) decode_logs;
      mret (match r with inl failure => writeGatewayLogError failure | inr result => mkResponse 200 (PLogs result) end)
  end)).

Definition handlePortalRequestLogDetail (id : string) : M Api response :=
  authorized rq now PermissionRequestLogRead false (fun claims =>
  catching (tenantVirtualKeyIDs (p_TenantID (sc_Principal claims))) writeDBError (fun keyIDs =>
  match keyIDs with
  | [] => mret (failed 404 "request log not found")
  | _ =>
      r ← gatewayRequestLogs gateway cfg (GLog keyIDs id) decode_log;
      mret (match r with inl failure => writeGatewayLogError failure | inr detail => mkResponse 200 (PLog detail) end)
  end)).

Definition handlePortalUsageDetail (id : string) : M Api response :=
  authorized rq now PermissionRequestLogRead false (fun claims =>
  let t := p_TenantID (sc_Principal claims) in
  catching (db (zoom on_billing (GetUsage t id)))
    (fun e => if errors_is e ErrRecordNotFound then failed 404 "usage event not found" else writeDBError e) (fun usage =>
  catching (tenantVirtualKeyIDs t) writeDBError (fun keyIDs =>
  let unavailable := mkResponse 200 (PUsageDetail usage None) in
  match keyIDs with
  | [] => mret unavailable
  | _ =>
      if is_empty (EffectiveGatewayLogID usage) then mret unavailable else
      r ← gatewayRequestLogs gateway cfg (GLog keyIDs (EffectiveGatewayLogID usage)) decode_log;
      mret (match r with
            | inl failure => if failure.1 =? 404 then unavailable else writeGatewayLogError failure
            | inr detail => mkResponse 200 (PUsageDetail usage (Some detail))
            end)
  end))).

Definition handleModels : M Api response :=
  authorized rq now PermissionBillingRead false (fun _ =>
  if negb (gateway_configured cfg) then mret (failed 503 "gateway model catalog is not configured") else
  r ← call_gateway gateway GModels;
  mret (match r with
        | NoAnswer _ => failed 502 "gateway model catalog is unavailable"
        | Answer status body =>
            if negb (status =? 200) then failed 502 "gateway model catalog returned HTTP %d" else
            match decode_models (limited 4194304 body) with
            | None => failed 502 "gateway returned an invalid model catalog"
            | Some models => mkResponse 200 (PModels models)
            end
        end)).

(** ** The server *)
Definition serve (r : route) : M Api response :=
  match r with
  | RPreflight => mret (mkResponse 204 PEmpty)
  | RHealth => mret (mkResponse 200 PHealth)
  | RAdminMembers t m => handleMembers t m
  | RTenantKeys t k action => handleTenantKeys t k action
  | RPortalKeys k action => handlePortalKeys k action
  | RPortalMembers m => handlePortalMembers m
  | RPortalRequestLog id => handlePortalRequestLogDetail id
  | RPortalUsageDetail id => handlePortalUsageDetail id
  | RLogin => handleLogin
  | RPortalLogin => handlePortalLogin
  | RMe => handleMe
  | RLogout => handleLogout
  | RPortalMe => handlePortalMe
  | RPortalUsage => handlePortalUsage
  | RPortalRequestLogs => handlePortalRequestLogs
  | RPortalAudit => handlePortalAudit
  | RPortalPlan => handlePortalPlan
  | RSummary => handleSummary
  | RTenants => handleTenants
  | RAudit => handleAudit
  | RPlans => handlePlans
  | RSKUs => handleSKUs
  | RModels => handleModels
  | RTenantPlan t => handleTenantPlan t
  | RTenantLifecycle t => handleTenantLifecycle t
  | RMethodNotAllowed => mret methodNotAllowed
  | RNotFound => mret (failed 404 "not found")
  end.

Definition serveHTTP : M Api response := serve (dispatch (rq_method rq) (rq_path rq)).

End Request.

(** ** Starting up: what Migrate does after the tables exist *)
Definition bootstrap_permissions : list string :=
  [PermissionTenantRead; PermissionTenantManage; PermissionMemberManage; PermissionKeyManage; PermissionBudgetManage;
   PermissionBillingRead; PermissionBillingManage; PermissionRequestLogRead; PermissionAuditRead; PermissionAuditExport;
   PermissionPolicyManage].

Definition seedAdmin (now : Z) : M ApiDB unit :=
  role ← attempt (zoom on_rbac (take_row roles_f (same_role "platform-admin")));
  r ← found role;
  (match r with
   | Some _ => mret tt
   | None => zoom on_rbac (CreateRole (mkRole "platform-admin" None "Platform administrator"
               "Compose bootstrap administrator" zero_time zero_time) bootstrap_permissions now)
   end);;
  zoom on_rbac (GrantPermission "platform-admin" PermissionRequestLogRead);;
  zoom on_rbac (BindRole "platform-admin" (mkPrincipal PrincipalPlatformAdmin (cf_AdminUsername cfg) EmptyString) now).

Definition default_plan : Plan := mkPlan defaultPlanID "Developer" "USD" 0 100000000 5 "reject" zero_time.

Definition seed_assignment (now : Z) (row : Tenant) : M ApiDB unit :=
  n ← zoom on_billing (count tenant_plans (assigned_to (tn_ID row)));
  if n =? 0 then zoom on_billing (SetTenantPlan (tn_ID row) defaultPlanID now) else mret tt.

Definition seedDefaultPlan (now : Z) : M ApiDB unit :=
  zoom on_billing (UpsertSKU (mkSKU "*" "Default model pricing" 0 0 0 0 zero_time) now);;
  zoom on_billing (EnsurePlan default_plan ["*"] now);;
  rows ← zoom on_tenants (ControlPlane.List 10000);
  mapM (seed_assignment now) rows;;
  mret tt.

Definition Migrate (now : Z) : M ApiDB unit :=
  seedAdmin now;;
  tenants ← zoom on_tenants (ControlPlane.List 10000);
  mapM (fun row => zoom on_rbac (EnsureTenantRoles (tn_ID row) now)) tenants;;
  seedDefaultPlan now.

End Handlers.
