(* ===== verification/ApiSpec.v ===== *)
(** * What every request of the API is held to (internal/httpapi)

    Whatever fails, a request answers; it is let through only for a live
    session with the permission its route asks; and what it changes is one
    transaction that also writes the audit event, or nothing. *)
From S2P Require Import Prelude GoStrings Sql Redis Lifecycle ControlPlane ConfigBus Billing.
From S2P Require Import Plans Cipher VirtualKey Rbac Sessions AuditLog Portal Member.
From S2P Require Import Calendar Routing HttpApi ApiHandlers.

(** ** Frames *)
Section Frames.
  Context {W : Type}.

(** A program that writes nothing. *)
Definition read_only {A} (m : M W A) : Prop := forall w, wp false m w (fun _ w' => w' = w).

Lemma wp_read {A} (m : M W A) w (Q : error + A -> W -> Prop) :
  read_only m -> (forall r, Q r w) -> wp false m w Q.
Proof. intros Hm HQ. eapply wp_mono; [apply Hm|]. by intros r w' ->. Qed.

Lemma read_only_mapM {A B} (g : A -> M W B) l : (forall a, read_only (g a)) -> read_only (mapM g l).
Proof.
  intros Hg w. apply wp_mapM with (I := fun _ _ w' => w' = w); [done| |done].
  intros done a rest acc w' _ ->. apply wp_read; [apply Hg|]. by intros [e|b].
Qed.

Lemma read_only_bind {A B} (m : M W A) (k : A -> M W B) :
  read_only m -> (forall a, read_only (k a)) -> read_only (m ≫= k).
Proof. intros Hm Hk w. wp_step. apply wp_read; [done|]. intros [e|a]; [done|apply Hk]. Qed.

End Frames.

(** The laws of a component that is read back as written. *)
Class Lens {W T} (f : field W T) := { lens_same : forall w, fset f (fget f w) w = w }.

Section Zoom.
  Context {W T : Type} (f : field W T) `{!Lens f}.

Lemma read_only_zoom {A} (m : M T A) : read_only m -> read_only (zoom f m).
Proof. intros Hm w. wp_step. apply wp_read; [done|]. intros r. apply lens_same. Qed.

Lemma wp_zoom_any {A} (m : M T A) w (Q : error + A -> W -> Prop) :
  (forall r t, Q r (fset f t w)) -> wp false (zoom f m) w Q.
Proof. intros HQ. wp_step. by apply wp_any. Qed.

End Zoom.

Section Spec.
  Context `{Sql} `{Sha256} `{Aead} `{GoUnicode} `{GoJson} `{GoMail} `{Bcrypt} `{ApiJson}.

#[global] Instance lens_db : Lens on_db. Proof. split. by intros []. Qed.
#[global] Instance lens_tenants : Lens on_tenants. Proof. split. by intros []. Qed.
#[global] Instance lens_rbac : Lens on_rbac. Proof. split. by intros []. Qed.
#[global] Instance lens_audit : Lens on_audit. Proof. split. by intros []. Qed.
#[global] Instance lens_billing : Lens on_billing. Proof. split. by intros []. Qed.
#[global] Instance lens_bus : Lens on_bus. Proof. split. by intros []. Qed.
#[global] Instance lens_sessions : Lens on_sessions. Proof. split. by intros []. Qed.
#[global] Instance lens_members : Lens on_members. Proof. split. by intros []. Qed.
#[global] Instance lens_keys : Lens on_keys. Proof. split. by intros []. Qed.
#[global] Instance lens_member_roles : Lens Member.rbac_f. Proof. split. by intros []. Qed.

(** ** What counts as unchanged *)

(** The sessions but for the time of their last use. *)
Definition uses_forgotten (s : SessDB) : gmap string Session := touched 0 <$> rows s.

(** The rest of the database. *)
Definition same_core (d d' : ApiDB) : Prop :=
  ap_tenants d' = ap_tenants d /\ ap_rbac d' = ap_rbac d /\ ap_audit d' = ap_audit d /\ ap_billing d' = ap_billing d /\
  ap_members d' = ap_members d /\ ap_keys d' = ap_keys d /\ ap_bus d' = ap_bus d.

Definition quiet (d d' : ApiDB) : Prop := same_core d d' /\ uses_forgotten (ap_sessions d') = uses_forgotten (ap_sessions d).

Lemma quiet_refl d : quiet d d.
Proof. done. Qed.

Lemma quiet_trans d1 d2 d3 : quiet d1 d2 -> quiet d2 d3 -> quiet d1 d3.
Proof. unfold quiet, same_core. intros [H1' ->] [H2' ->]. split; [|done]. intuition congruence. Qed.

(** ** Who is let through *)

(** [claims] are those of a session in [d] that the request's token opens, of a
    principal on its own side of the API that is granted [permission], an active
    member when a tenant user, and the request carries its CSRF token when it
    is a mutation. *)
Definition admitted (d : ApiDB) (rq : request) (now : Z) (permission : string) (mutation : bool) (claims : SessionClaims) : Prop :=
  let p := sc_Principal claims in
  (exists k row, rows (ap_sessions d) !! k = Some row /\ se_AccessTokenHash row = tokenHash (bearerToken rq) /\
     claims = claims_of row) /\
  claims_valid claims now = true /\
  (p_Type p = PrincipalTenantUser -> exists k m, rows (ap_members d) !! k = Some m /\
     mb_ID m = p_ID p /\ mb_TenantID m = p_TenantID p /\ mb_Status m = StatusActive) /\
  (has_prefix (rq_path rq) "/api/admin/" = true -> p_Type p = PrincipalPlatformAdmin) /\
  (has_prefix (rq_path rq) "/api/portal/" = true -> p_Type p = PrincipalTenantUser) /\
  grants (ap_rbac d) p permission /\
  (mutation = true -> VerifyCSRF claims (rq_csrf rq) = true).

Lemma wp_Authenticate_used (s : SessDB) token now :
  wp false (Sessions.Authenticate token now) s (fun r s' => uses_forgotten s' = uses_forgotten s /\
    match r with
    | inl _ => True
    | inr claims => claims_valid claims now = true /\
        exists k row, rows s !! k = Some row /\ se_AccessTokenHash row = tokenHash token /\ claims = claims_of row
    end).
Proof.
  unfold Sessions.Authenticate. wp_step; [by wp_step|]. repeat wp_step; try done.
  intros k row Hr Hp. bools. wp_step; [by wp_step|]. bools. repeat wp_step.
    + intros _ msg. wp_step. split; [done|]. split; [done|]. by exists k, row.
    + split; [|split; [done|]; by exists k, row]. unfold uses_forgotten. rewrite rows_update. apply map_eq. intros k'.
      rewrite !lookup_fmap. destruct (rows s !! k') as [r'|]; [|done]. simpl. by case_bool_decide.
Qed.

Lemma read_only_Authorize p permission : read_only (Authorize p permission).
Proof. intros w. eapply wp_mono; [apply wp_Authorize|]. intros r w' Hr. apply Hr. Qed.

Lemma count_one {K} `{Countable K} {R} (t : table K R) p :
  Z.of_nat (length (where_ p t)) = 1 -> exists k r, rows t !! k = Some r /\ p r = true.
Proof.
  intros E. destruct (where_ p t) as [|r l] eqn:El; [done|]. apply where_head in El as (k & ? & ?). eauto.
Qed.

Lemma wp_session rq now (w : Api) (Q : error + option SessionClaims -> Api -> Prop) :
  (forall d' c, quiet (api_db w) d' -> match c with
     | None => True
     | Some claims => claims_valid claims now = true /\
         (exists k row, rows (ap_sessions (api_db w)) !! k = Some row /\
            se_AccessTokenHash row = tokenHash (bearerToken rq) /\ claims = claims_of row) /\
         (p_Type (sc_Principal claims) = PrincipalTenantUser -> exists k m, rows (ap_members (api_db w)) !! k = Some m /\
            mb_ID m = p_ID (sc_Principal claims) /\ mb_TenantID m = p_TenantID (sc_Principal claims) /\ mb_Status m = StatusActive)
     end -> Q (inr c) (mkApi d' (api_calls w))) ->
  wp false (session rq now) w Q.
Proof.
  intros HQ. unfold session, db. assert (Hq : Q (inr None) w).
  { replace w with (mkApi (api_db w) (api_calls w)) by by destruct w. by apply HQ. }
  wp_step; [by wp_step|]. repeat wp_step. eapply wp_mono; [apply wp_Authenticate_used|].
  intros r s' [Hs Hr]. set (d' := mkApiDB _ _ _ _ _ _ _ _).
  assert (Hd : quiet (api_db w) d') by (split; [done|exact Hs]).
  destruct r as [e|claims]; [wp_step; by apply HQ|]. destruct Hr as [Hv Hrow]. wp_step; bools.
  - repeat wp_step.
    + intros _ msg. wp_step. by apply HQ.
    + apply HQ; [done|]. destruct (_ =? 1) eqn:En; [|done]. bools. split; [done|]. split; [exact Hrow|].
      intros _. apply count_one in En as (k & m & Hm & Ha). exists k, m. unfold active_member in Ha. bools. done.
  - wp_step. apply HQ; [done|]. split; [done|]. split; [exact Hrow|]. done.
Qed.

Lemma WithPrincipal_ok p e : WithPrincipal p = inl e -> Valid p = false.
Proof. unfold WithPrincipal. by destruct (Valid p). Qed.

Lemma wp_authorize rq now permission mutation (w : Api) (Q : error + (response + SessionClaims) -> Api -> Prop) :
  (forall d' resp, quiet (api_db w) d' -> 300 <= rp_status resp -> Q (inr (inl resp)) (mkApi d' (api_calls w))) ->
  (forall d' claims, quiet (api_db w) d' -> admitted (api_db w) rq now permission mutation claims ->
     Q (inr (inr claims)) (mkApi d' (api_calls w))) ->
  wp false (authorize rq now permission mutation) w Q.
Proof.
  intros Hno Hyes. unfold authorize. wp_step. apply wp_session. intros d' [claims|] Hd Hc; [|wp_step; by apply Hno].
  destruct Hc as (Hv & Hrow & Hm). unfold wrong_side. wp_step; [wp_step; by apply Hno|].
  apply orb_false_iff in E as [E1 E2].
  destruct (WithPrincipal _) as [e|ctx]; [wp_step; by apply Hno|]. unfold db. repeat wp_step.
  eapply wp_mono; [apply wp_Authorize|]. intros r x' (-> & Hg & _). simpl.
  destruct r as [e|[]]; [wp_step; by apply Hno|]. destruct (Hg eq_refl) as [_ Hgr].
  wp_step; [wp_step; by apply Hno|]. wp_step. assert (Hx : forall d0 : ApiDB, mkApi (mkApiDB (ap_tenants d0) (ap_rbac d0) (ap_audit d0) (ap_billing d0) (ap_members d0) (ap_keys d0) (ap_bus d0) (ap_sessions d0)) (api_calls w) = mkApi d0 (api_calls w)) by by intros [].
  simpl. rewrite Hx. apply Hyes; [done|]. unfold admitted.
  assert (Er : ap_rbac d' = ap_rbac (api_db w)) by apply Hd. rewrite Er in Hgr.
  split_and!; try done.
  - intros Hp. rewrite Hp in E1. simpl in E1. by bools.
  - intros Hp. rewrite Hp in E2. simpl in E2. by bools.
  - intros ->. simpl in E. by bools.
Qed.

(** ** What a request may answer *)
Definition event_of (rq : request) (ev : environment) (claims : SessionClaims) (e : Entry) : Prop :=
  Valid (sc_Principal claims) = true /\
  (en_PrincipalType e, en_PrincipalID e) = (p_Type (sc_Principal claims), p_ID (sc_Principal claims)) /\
  (p_Type (sc_Principal claims) = PrincipalTenantUser -> en_TenantID e = tenantPtr (p_TenantID (sc_Principal claims))) /\
  (en_SourceIP e, en_RequestID e, en_CreatedAt e) = (rq_remote rq, rq_requestID rq, ev_now ev).

(** The audit trail has grown by one new event of the request's principal. *)
Definition audited (rq : request) (ev : environment) (claims : SessionClaims) (d d' : ApiDB) : Prop :=
  exists e, event_of rq ev claims e /\ (forall k r, rows (ap_audit d) !! k = Some r -> en_ID r <> en_ID e) /\
    rows (ap_audit d') = <[en_ID e := e]> (rows (ap_audit d)).

Definition writes (rq : request) : Prop := rq_method rq <> MethodGet.

Definition answered (rq : request) (ev : environment) (admits : SessionClaims -> Prop) (d d' : ApiDB) (resp : response) : Prop :=
  300 <= rp_status resp /\ quiet d d' \/
  rp_status resp < 300 /\ exists claims, admits claims /\ (quiet d d' \/ writes rq /\ audited rq ev claims d d').

Definition answers (rq : request) (ev : environment) (admits : SessionClaims -> Prop) (w : Api)
    (r : error + response) (w' : Api) : Prop :=
  exists resp, r = inr resp /\ answered rq ev admits (api_db w) (api_db w') resp.

Section Rules.
  Variables (rq : request) (ev : environment) (admits : SessionClaims -> Prop) (w : Api).

Lemma answers_failed w' status body : quiet (api_db w) (api_db w') -> 300 <= status ->
  answers rq ev admits w (inr (mkResponse status body)) w'.
Proof. intros Hq Hs. eexists. split; [done|]. by left. Qed.

Lemma answers_read w' status body claims : quiet (api_db w) (api_db w') -> admits claims ->
  answers rq ev admits w (inr (mkResponse status body)) w'.
Proof.
  intros Hq Ha. eexists. split; [done|]. destruct (decide (300 <= status)); [by left|]. right.
  split; [simpl; lia|]. exists claims. split; [done|]. by left.
Qed.

Lemma answers_written w' status body claims : audited rq ev claims (api_db w) (api_db w') -> admits claims -> writes rq -> status < 300 ->
  answers rq ev admits w (inr (mkResponse status body)) w'.
Proof. intros Hq Ha Hw Hs. eexists. split; [done|]. right. split; [done|]. exists claims. split; [done|]. by right. Qed.

End Rules.

Lemma wp_authorized rq ev permission mutation k (w : Api) :
  (forall claims d', admitted (api_db w) rq (ev_now ev) permission mutation claims -> quiet (api_db w) d' ->
     wp false (k claims) (mkApi d' (api_calls w)) (answers rq ev (admitted (api_db w) rq (ev_now ev) permission mutation) w)) ->
  wp false (authorized rq (ev_now ev) permission mutation k) w
    (answers rq ev (admitted (api_db w) rq (ev_now ev) permission mutation) w).
Proof.
  intros Hk. unfold authorized. wp_step. apply wp_authorize.
  - intros d' resp Hd Hs. wp_step. eexists. split; [done|]. by left.
  - intros d' claims Hd Ha. by apply Hk.
Qed.

(** A branch on the method that GET does not take. *)
Ltac writing :=
  let Hget := fresh in
  intros Hget; rewrite ?Hget in *;
  repeat match goal with
  | E : context [bool_decide (MethodGet = ?m)] |- _ => rewrite (bool_decide_eq_false_2 (MethodGet = m)) in E by discriminate
  end; simpl in *; try discriminate; done.

(** ** Steps of a handler *)
Lemma wp_catching {A} (m : M Api A) onError k w (Q : error + response -> Api -> Prop) :
  wp false m w (fun r w' => match r with inl e => Q (inr (onError e)) w' | inr a => wp false (k a) w' Q end) ->
  wp false (catching m onError k) w Q.
Proof.
  intros Hm. unfold catching. wp_step. wp_step. eapply wp_mono; [exact Hm|]. intros [e|a] w' Hr; [|exact Hr].
  by wp_step.
Qed.

Lemma wp_read_db {A} (m : M ApiDB A) (w : Api) (Q : error + A -> Api -> Prop) :
  read_only m -> (forall r, Q r w) -> wp false (db m) w Q.
Proof. intros Hm HQ. apply wp_read; [|done]. unfold db. by apply read_only_zoom; [apply _|]. Qed.

Lemma wp_record rq ev claims tenantID action type id before after d0 d :
  ap_audit d = ap_audit d0 ->
  wp false (record rq ev claims tenantID action type id before after) d (fun r d' => match r with
    | inl _ => True
    | inr _ => audited rq ev claims d0 d' /\ ap_sessions d' = ap_sessions d /\ ap_members d' = ap_members d /\
               ap_keys d' = ap_keys d /\ ap_rbac d' = ap_rbac d /\ ap_tenants d' = ap_tenants d /\
               ap_billing d' = ap_billing d /\ ap_bus d' = ap_bus d
    end).
Proof.
  intros Ea. unfold record. wp_step. wp_step. eapply wp_mono; [apply wp_AppendTx|]. intros [e|e] a'; [done|].
  intros (Hv & Ht & _ & Hid & Hf & _ & _ & Hfresh & Hrows). wp_step. split; [|done].
  exists e. rewrite <-Ea. split; [|by split]. simpl in Hid, Hf. split; [exact Hv|]. split; [congruence|].
  split; [by apply Ht|done].
Qed.

Lemma audited_from rq ev claims d d1 d2 : ap_audit d1 = ap_audit d -> audited rq ev claims d1 d2 -> audited rq ev claims d d2.
Proof. intros E. unfold audited. by rewrite E. Qed.

Lemma audited_same rq ev claims d d1 d2 : ap_audit d2 = ap_audit d1 -> audited rq ev claims d d1 -> audited rq ev claims d d2.
Proof. intros E. unfold audited. by rewrite E. Qed.

(** One transaction, then its answer. *)
Lemma wp_mutate {A} (R : A -> ApiDB -> Prop) rq ev admits (m : M ApiDB A) onError k (w : Api) d calls :
  quiet (api_db w) d ->
  (forall e, 300 <= rp_status (onError e)) ->
  wp false m d (fun r d' => match r with inl _ => True | inr a => R a d' end) ->
  (forall a d', R a d' -> wp false (k a) (mkApi d' calls) (answers rq ev admits w)) ->
  wp false (catching (db (transaction m)) onError k) (mkApi d calls) (answers rq ev admits w).
Proof.
  intros Hq Hs Hm Hk. assert (Hfail : forall e, answers rq ev admits w (inr (onError e)) (mkApi d calls)).
  { intros e. eexists. split; [done|]. left. by split. }
  apply wp_catching. unfold db. wp_step. simpl. wp_step. eapply wp_mono; [exact Hm|]. intros [e|a] d' HR.
  - apply Hfail.
  - split; [intros _ msg; apply Hfail|]. by apply Hk.
Qed.

Lemma wp_notifyChange cfg now change (w : Api) :
  wp false (notifyChange cfg now change) w (fun r w' => r = inr tt /\
    ap_audit (api_db w') = ap_audit (api_db w) /\ (change = None -> w' = w)).
Proof.
  unfold notifyChange. destruct change as [c|]; [|by wp_step]. destruct (cf_notifier cfg) as [publish|]; [|by wp_step].
  destruct (publish c); [by wp_step|]. unfold db. repeat wp_step. apply wp_any. intros r x. by wp_step.
Qed.

(** ** The error answers *)
Lemma writeDBError_failed e : 300 <= rp_status (writeDBError e).
Proof. simpl. lia. Qed.

Lemma writeKeyError_failed e : 300 <= rp_status (writeKeyError e).
Proof. unfold writeKeyError. repeat (case_match; simpl; [lia|]). simpl. lia. Qed.

Lemma writeMemberError_failed e : 300 <= rp_status (writeMemberError e).
Proof. unfold writeMemberError. repeat (case_match; simpl; [lia|]). simpl. lia. Qed.

Lemma writeMutationError_failed e : 300 <= rp_status (writeMutationError e).
Proof. unfold writeMutationError. case_match; [simpl; lia|]. apply writeMemberError_failed. Qed.

Lemma writeTenantError_failed e : 300 <= rp_status (writeTenantError e).
Proof. unfold writeTenantError. repeat (case_match; simpl; [lia|]). simpl. lia. Qed.

Lemma writeCatalogError_failed missing e : 300 <= rp_status (writeCatalogError missing e).
Proof. unfold writeCatalogError. repeat (case_match; simpl; [lia|]). simpl. lia. Qed.

(** ** The transactions: each ends with its event *)
Section Transactions.
  Variables (lower : string -> string) (cipher : Cipher) (rq : request) (ev : environment) (claims : SessionClaims).

Definition written {A} (d : ApiDB) (r : error + A) (d' : ApiDB) : Prop :=
  match r with inl _ => True | inr _ => audited rq ev claims d d' end.

(** Any step that leaves the audit table alone, before the event. *)
Lemma wp_before_record {T A B} (f : field ApiDB T) (m : M T A) (k : A -> M ApiDB B) d0 d :
  (forall t, ap_audit (fset f t d) = ap_audit d) -> ap_audit d = ap_audit d0 ->
  (forall a d', ap_audit d' = ap_audit d0 -> wp false (k a) d' (written d0)) ->
  wp false (zoom f m ≫= k) d (written d0).
Proof.
  intros Hf E Hk. wp_step. apply wp_zoom_any. intros [e|a] t; [exact I|]. apply Hk. by rewrite Hf.
Qed.

Lemma wp_record_value {A} tenantID action type id before after (a : A) d0 d :
  ap_audit d = ap_audit d0 ->
  wp false (record rq ev claims tenantID action type id before after;; mret a) d (fun r d' =>
    match r with inl _ => True | inr b => b = a /\ audited rq ev claims d0 d' end).
Proof.
  intros E. wp_step. eapply wp_mono; [by apply (wp_record _ _ _ _ _ _ _ _ _ d0)|]. intros [e|u] d' Hr; [done|].
  wp_step. split; [done|apply Hr].
Qed.

Lemma wp_record_end {A} tenantID action type id before after (a : A) d0 d :
  ap_audit d = ap_audit d0 ->
  wp false (record rq ev claims tenantID action type id before after;; mret a) d (written d0).
Proof.
  intros E. eapply wp_mono; [by apply (wp_record_value _ _ _ _ _ _ _ d0)|]. intros [e|b] d' Hr; [exact I|apply Hr].
Qed.

Lemma wp_create_key tenantID name d : wp false (create_key cipher rq ev claims tenantID name) d (written d).
Proof.
  unfold create_key. apply (wp_before_record _ _ _ d); [done..|]. intros result d1 E1. by apply wp_record_end.
Qed.

Lemma wp_retry_key tenantID keyID d : wp false (retry_key rq ev claims tenantID keyID) d (written d).
Proof.
  unfold retry_key. apply (wp_before_record _ _ _ d); [done..|]. intros result d1 E1. by apply wp_record_end.
Qed.

Lemma wp_reveal_key tenantID keyID d : wp false (reveal_key cipher rq ev claims tenantID keyID) d (written d).
Proof.
  unfold reveal_key. apply (wp_before_record _ _ _ d); [done..|]. intros result d1 E1. by apply wp_record_end.
Qed.

Lemma RevokeTx_idle tenantID keyID stamp now (w : VKDB) :
  wp false (RevokeTx tenantID keyID stamp now) w (fun r w' =>
    match r with inr m => mu_Change m = None -> w' = w | inl _ => True end).
Proof.
  unfold RevokeTx, lockKey, load_key. wp_step. wp_step; [by wp_step|]. repeat wp_step; try done.
  intros k row _ _. wp_step. wp_step; [by wp_step|]. wp_step. wp_step. apply wp_any. intros [e|c] b; [done|].
    wp_step. apply wp_any. intros [e|u] x; [done|]. by wp_step.
Qed.

Lemma wp_revoke_key tenantID keyID d :
  wp false (revoke_key rq ev claims tenantID keyID) d (fun r d' => match r with
    | inl _ => True
    | inr m => match mu_Change m with None => d' = d | Some _ => audited rq ev claims d d' end
    end).
Proof.
  unfold revoke_key. wp_step. wp_step. eapply wp_mono; [apply RevokeTx_idle|]. intros [e|m] x Hi; [done|].
  destruct (mu_Change m) as [c|] eqn:Ec.
  - eapply wp_mono; [by apply (wp_record_value _ _ _ _ _ _ _ d)|]. intros [e|m'] d' Hw; [done|].
    destruct Hw as [-> Hw]. by rewrite Ec.
  - wp_step. rewrite Ec, (Hi eq_refl). by destruct d.
Qed.

Lemma wp_create_member inp d : wp false (create_member rq ev claims inp) d (written d).
Proof.
  unfold create_member. apply (wp_before_record _ _ _ d); [done..|]. intros row d1 E1. by apply wp_record_end.
Qed.

Lemma wp_owner_guard platform current role d (Q : error + unit -> ApiDB -> Prop) :
  (forall e, Q (inl e) d) -> Q (inr tt) d -> wp false (owner_guard platform current role) d Q.
Proof. intros He Ht. unfold owner_guard. wp_step; by wp_step. Qed.

Lemma wp_update_member platform tenantID memberID inp d :
  wp false (update_member rq ev claims platform tenantID memberID inp) d (written d).
Proof.
  unfold update_member. apply (wp_before_record _ _ _ d); [done..|]. intros current d1 E1.
  wp_step. apply wp_owner_guard; [done|]. apply (wp_before_record _ _ _ d); [done..|]. intros row d2 E2.
  destruct (ui_Password inp) as [pw|].
  - apply (wp_before_record _ _ _ d); [done..|]. intros u d3 E3. by apply wp_record_end.
  - wp_step. wp_step. by apply wp_record_end.
Qed.

Lemma wp_disable_member platform tenantID memberID d :
  wp false (disable_member rq ev claims platform tenantID memberID) d (written d).
Proof.
  unfold disable_member. apply (wp_before_record _ _ _ d); [done..|]. intros current d1 E1.
  wp_step. apply wp_owner_guard; [done|]. apply (wp_before_record _ _ _ d); [done..|]. intros row d2 E2.
  by apply wp_record_end.
Qed.

Lemma wp_patch_tenant tenantID slug name status d :
  wp false (patch_tenant lower rq ev claims tenantID slug name status) d (written d).
Proof.
  unfold patch_tenant. apply (wp_before_record _ _ _ d); [done..|]. intros before d1 E1.
  apply (wp_before_record _ _ _ d); [done..|]. intros row d2 E2. by apply wp_record_end.
Qed.

Lemma wp_create_tenant id slug name d : wp false (create_tenant rq ev claims id slug name) d (written d).
Proof.
  unfold create_tenant. apply (wp_before_record _ _ _ d); [done..|]. intros row d1 E1.
  apply (wp_before_record _ _ _ d); [done..|]. intros _ d2 E2.
  apply (wp_before_record _ _ _ d); [done..|]. intros _ d3 E3. by apply wp_record_end.
Qed.

Lemma wp_write_plan put plan models d : wp false (write_plan rq ev claims put plan models) d (written d).
Proof.
  unfold write_plan. wp_step.
  assert (Hend : forall before d1, ap_audit d1 = ap_audit d ->
    wp false (after ← zoom on_billing (planDetailsTx (pl_ID plan));
      record rq ev claims EmptyString (if put then "plan.update" else "plan.create") "plan" (pl_ID plan)
        (snap_opt (RsPlan <$> before)) (snap (RsPlan after));; mret after) d1 (written d)).
  { intros before d1 E1. apply (wp_before_record _ _ _ d); [done..|]. intros after d2 E2. by apply wp_record_end. }
  destruct put.
  - wp_step. apply wp_zoom_any. intros [e|current] t; [done|]. wp_step. apply wp_zoom_any. intros [e|u] t'; [done|].
    wp_step. apply (Hend (Some current)). reflexivity.
  - wp_step. apply wp_zoom_any. intros [e|u] t; [done|]. wp_step. apply (Hend None). reflexivity.
Qed.

Lemma wp_found {W A} (r : error + A) (w : W) (Q : error + option A -> W -> Prop) :
  (forall e, Q (inl e) w) -> (forall a, Q (inr a) w) -> wp false (found r) w Q.
Proof. intros He Ha. unfold found. destruct r; [case_match|]; by wp_step. Qed.

Lemma wp_assign_plan tenantID planID d : wp false (assign_plan rq ev claims tenantID planID) d (written d).
Proof.
  unfold assign_plan. wp_step. wp_step. apply wp_zoom_any. intros r t. wp_step. apply wp_found; [done|]. intros before.
  apply (wp_before_record _ _ _ d); [done..|]. intros _ d2 E2.
  apply (wp_before_record _ _ _ d); [done..|]. intros after d3 E3. by apply wp_record_end.
Qed.

Lemma wp_write_sku inp d : wp false (write_sku rq ev claims inp) d (written d).
Proof.
  unfold write_sku. wp_step. wp_step. apply wp_zoom_any. intros r t. wp_step. apply wp_found; [done|]. intros before.
  apply (wp_before_record _ _ _ d); [done..|]. intros _ d2 E2.
  apply (wp_before_record _ _ _ d); [done..|]. intros after d3 E3. by apply wp_record_end.
Qed.

End Transactions.

(** ** Reads *)
Lemma ro_keys_list t n : read_only (VirtualKey.List t n).
Proof. intros w. unfold VirtualKey.List. by repeat wp_step. Qed.

Lemma ro_tenants_list n : read_only (ControlPlane.List n).
Proof. intros w. unfold ControlPlane.List. by repeat wp_step. Qed.

Lemma ro_tenant_get id : read_only (ControlPlane.Get id).
Proof.
  intros w. unfold ControlPlane.Get, lookup_tenant. by repeat wp_step.
Qed.

Lemma ro_member_role row : read_only (memberRole row).
Proof. intros w. unfold memberRole. repeat wp_step; try done. intros k b _ _. by repeat wp_step. Qed.

Lemma ro_member_list t : read_only (Member.List t).
Proof.
  intros w. unfold Member.List. wp_step; [by wp_step|]. wp_step. wp_step. wp_step; [done|]. simpl.
  apply read_only_mapM. intros row. apply read_only_bind; [|intros role w'; by wp_step].
  by apply (read_only_zoom Member.rbac_f), ro_member_role.
Qed.

Lemma ro_load_member t id : read_only (load_member t id).
Proof. intros w. unfold load_member. by repeat wp_step. Qed.

Lemma ro_member_get t id : read_only (Member.Get t id).
Proof.
  apply read_only_bind; [apply ro_load_member|]. intros row. apply read_only_bind; [|intros role w; by wp_step].
  by apply (read_only_zoom Member.rbac_f), ro_member_role.
Qed.

Lemma ro_plan_models id : read_only (listPlanModels id).
Proof. intros w. unfold listPlanModels. by repeat wp_step. Qed.

Lemma ro_list_plans : read_only ListPlans.
Proof.
  intros w. unfold ListPlans. repeat wp_step; [done|]. apply read_only_mapM. intros plan.
  apply read_only_bind; [apply ro_plan_models|]. intros models w'. by wp_step.
Qed.

Lemma ro_list_skus : read_only ListSKUs.
Proof. intros w. unfold ListSKUs. by repeat wp_step. Qed.

Lemma ro_permissions p : read_only (Permissions p).
Proof. intros w. unfold Permissions. wp_step; [by wp_step|]. wp_step. by apply wp_sql. Qed.

Lemma ro_list_platform n : read_only (ListPlatform n).
Proof. intros w. unfold ListPlatform. by repeat wp_step. Qed.

Lemma ro_list_tenant t n : read_only (ListTenant t n).
Proof. intros w. unfold ListTenant. wp_step; [by wp_step|]. by repeat wp_step. Qed.

Lemma ro_usage_page t from to filter : read_only (ListUsagePage t from to filter).
Proof. intros w. unfold ListUsagePage. wp_step; [by wp_step|]. by repeat wp_step. Qed.

Lemma ro_summary t from to : read_only (SummarizeUsage t from to).
Proof. intros w. unfold SummarizeUsage. wp_step; [by wp_step|]. by repeat wp_step. Qed.

Lemma ro_get_usage t id : read_only (GetUsage t id).
Proof. intros w. unfold GetUsage. wp_step; [by wp_step|]. by repeat wp_step. Qed.

Lemma ro_allowance t planID plan model from to extra : read_only (allowanceStatus t planID plan model from to extra).
Proof.
  intros w. unfold allowanceStatus. wp_step. wp_step; repeat wp_step; try done; by destruct (int64_sum _ _); [|wp_step].
Qed.

Lemma ro_tenant_plan t at_ from to : read_only (CurrentTenantPlan t at_ from to).
Proof.
  intros w. unfold CurrentTenantPlan. wp_step; [by wp_step|]. repeat wp_step; try done.
  intros k assignment _ _. repeat wp_step; try done. intros k' plan _ _. wp_step.
  apply wp_read; [apply ro_plan_models|]. intros [e|models]; [done|]. wp_step.
  apply wp_read; [apply ro_allowance|]. intros [e|credit]; [done|]. by wp_step.
Qed.

(** ** The handlers behind the authorization *)
Section Authorized.
  Variables (gateway : list gateway_call -> gateway_call -> reply) (lower : string -> string) (cipher : Cipher) (cfg : Config).
  Variables (rq : request) (ev : environment) (admits : SessionClaims -> Prop) (w : Api).
  Variables (claims : SessionClaims) (d : ApiDB) (calls : list gateway_call).
  Hypotheses (Hq : quiet (api_db w) d) (Ha : admits claims).

Notation ok := (answers rq ev admits w).
Notation here := (mkApi d calls).

Lemma wp_refused status body : 300 <= status -> wp false (mret (mkResponse status body)) here ok.
Proof. intros Hs. wp_step. by apply answers_failed. Qed.

Lemma wp_shown status body calls' : wp false (mret (mkResponse status body)) (mkApi d calls') ok.
Proof. wp_step. by eapply answers_read. Qed.

Lemma wp_reads {A} (m : M ApiDB A) onError k :
  read_only m -> (forall e, 300 <= rp_status (onError e)) -> (forall a, wp false (k a) here ok) ->
  wp false (catching (db m) onError k) here ok.
Proof.
  intros Hm He Hk. apply wp_catching. apply wp_read_db; [done|]. intros [e|a]; [|apply Hk].
  eexists. split; [done|]. by left.
Qed.

Lemma wp_commits {A} (m : M ApiDB A) onError k :
  (forall e, 300 <= rp_status (onError e)) -> wp false m d (written rq ev claims d) ->
  (forall a d', audited rq ev claims (api_db w) d' -> wp false (k a) (mkApi d' calls) ok) ->
  wp false (catching (db (transaction m)) onError k) here ok.
Proof.
  intros He Hm Hk. apply wp_mutate with (R := fun _ d' => audited rq ev claims (api_db w) d'); [done|done| |done].
  eapply wp_mono; [exact Hm|]. intros [e|a] d' Hw; [done|]. eapply audited_from; [|exact Hw]. apply Hq.
Qed.

Lemma wp_done status body d' : status < 300 -> writes rq -> audited rq ev claims (api_db w) d' ->
  wp false (mret (mkResponse status body)) (mkApi d' calls) ok.
Proof. intros Hs Hm Hw. wp_step. by eapply answers_written. Qed.

Lemma wp_committed result status body d' : status < 300 -> writes rq -> audited rq ev claims (api_db w) d' ->
  wp false (committed cfg ev result (mkResponse status body)) (mkApi d' calls) ok.
Proof.
  intros Hs Hm Hw. unfold committed. wp_step. eapply wp_mono; [apply wp_notifyChange|]. intros r w' (-> & E & _).
  wp_step. eapply answers_written; [|done..]. by eapply audited_same.
Qed.

Lemma wp_tenant_keys tenantID keyID action :
  wp false (handleTenantKeysAuthorized cipher cfg rq ev claims tenantID keyID action) here ok.
Proof.
  unfold handleTenantKeysAuthorized. wp_step; [by apply wp_refused|]. wp_step.
  { apply wp_reads; [by apply read_only_zoom, ro_keys_list; apply _|apply writeDBError_failed|]. intros rows. apply wp_shown. }
  wp_step.
  { destruct (decodeJSON _ _) as [name|]; [|by apply wp_refused]. wp_step; [by apply wp_refused|].
    apply wp_commits; [apply writeKeyError_failed|apply wp_create_key|]. intros result d' Hw. apply wp_committed; [lia|writing|exact Hw]. }
  wp_step.
  { eapply wp_mutate; [done|apply writeKeyError_failed|apply wp_revoke_key|]. intros result d' HR. cbv beta in HR.
    destruct (mu_Change result) as [c|] eqn:Ec.
    - apply wp_committed; [lia|writing|]. eapply audited_from; [apply Hq|exact HR].
    - subst d'. unfold committed. rewrite Ec. simpl. wp_step. wp_step. apply wp_shown. }
  wp_step.
  { apply wp_commits; [apply writeKeyError_failed|apply wp_retry_key|]. intros result d' Hw. apply wp_committed; [lia|writing|exact Hw]. }
  wp_step; [|by apply wp_refused]. wp_step; [by apply wp_refused|].
  apply wp_commits; [apply writeKeyError_failed|apply wp_reveal_key|]. intros result d' Hw. apply wp_done; [lia|writing|exact Hw].
Qed.

Lemma wp_members tenantID memberID platform :
  wp false (handleMembersAuthorized rq ev claims tenantID memberID platform) here ok.
Proof.
  unfold handleMembersAuthorized. wp_step; [by apply wp_refused|]. wp_step.
  { apply wp_reads; [by apply read_only_zoom, ro_member_list; apply _|apply writeMemberError_failed|]. intros rows. apply wp_shown. }
  wp_step.
  { destruct (decodeJSON _ _) as [[[[email name] password] role]|]; [|by apply wp_refused]. wp_step; [by apply wp_refused|].
    apply wp_commits; [apply writeMemberError_failed|apply wp_create_member|]. intros row d' Hw. apply wp_done; [lia|writing|exact Hw]. }
  wp_step.
  { destruct (decodeJSON _ _) as [inp|]; [|by apply wp_refused].
    apply wp_commits; [apply writeMutationError_failed|apply wp_update_member|]. intros row d' Hw. apply wp_done; [lia|writing|exact Hw]. }
  wp_step; [|by apply wp_refused].
  apply wp_commits; [apply writeMutationError_failed|apply wp_disable_member|]. intros row d' Hw. apply wp_done; [lia|writing|exact Hw].
Qed.

Lemma wp_show_plan tenantID : wp false (show_plan ev tenantID) here ok.
Proof.
  unfold show_plan. destruct (monthWindow (ev_now ev)) as [from to].
  apply wp_reads; [by apply read_only_zoom, ro_tenant_plan; apply _| |intros details; apply wp_shown].
  intros e. case_match; simpl; lia.
Qed.

Lemma wp_log_error failure calls' : wp false (mret (writeGatewayLogError failure)) (mkApi d calls') ok.
Proof. unfold writeGatewayLogError. case_match; apply wp_shown. Qed.

(** The verdict of a gateway call is pure: any answer of it may be given. *)
Lemma wp_gateway {T} c (decode : string -> option T) (answer : Z * error + T -> response) :
  wp false (r ← gatewayRequestLogs gateway cfg c decode; mret (answer r)) here ok.
Proof.
  assert (Hshown : forall r calls', wp false (mret (answer r)) (mkApi d calls') ok).
  { intros r calls'. destruct (answer r) as [status body]. apply wp_shown. }
  wp_step. unfold gatewayRequestLogs. wp_step; [wp_step; apply Hshown|]. unfold call_gateway. repeat wp_step.
  match goal with |- context [answer ?x] => destruct (answer x) end. by eapply answers_read.
Qed.

End Authorized.

(** ** Every route *)

(** The permission a route asks for, and whether the request must carry the
    CSRF token; [None] is a route without authorization. *)
Definition needs (r : route) (method : string) : option (string * bool) :=
  let mutation := negb (bool_decide (method = MethodGet)) in
  match r with
  | RAdminMembers _ _ | RPortalMembers _ => Some (PermissionMemberManage, mutation)
  | RTenantKeys _ _ _ => Some (PermissionKeyManage, mutation)
  | RPortalKeys _ action =>
      Some (if bool_decide (action = "reveal") then PermissionKeyReveal else PermissionKeyManage, mutation)
  | RPortalRequestLog _ | RPortalUsageDetail _ | RPortalRequestLogs => Some (PermissionRequestLogRead, false)
  | RPortalUsage | RPortalPlan | RModels => Some (PermissionBillingRead, false)
  | RPortalAudit | RAudit => Some (PermissionAuditRead, false)
  | RSummary => Some (PermissionTenantRead, false)
  | RTenants | RTenantLifecycle _ => Some (if mutation then PermissionTenantManage else PermissionTenantRead, mutation)
  | RPlans | RSKUs | RTenantPlan _ => Some (if mutation then PermissionBillingManage else PermissionBillingRead, mutation)
  | _ => None
  end.

Section Serve.
  Variables (gateway : list gateway_call -> gateway_call -> reply) (lower : string -> string) (cipher : Cipher) (cfg : Config).
  Variables (rq : request) (ev : environment) (w : Api).

Definition guarded (m : M Api response) (permission : string) (mutation : bool) : Prop :=
  wp false m w (answers rq ev (admitted (api_db w) rq (ev_now ev) permission mutation) w).

Lemma guarded_refused status body permission mutation : 300 <= status -> guarded (mret (mkResponse status body)) permission mutation.
Proof. intros Hs. unfold guarded. wp_step. by apply answers_failed. Qed.

Lemma guarded_lifecycle t :
  guarded (handleTenantLifecycle lower rq ev t)
    (if mutating_request rq then PermissionTenantManage else PermissionTenantRead) (mutating_request rq).
Proof.
  unfold handleTenantLifecycle, mutating_request. case_bool_decide as Eg; simpl.
  - apply wp_authorized. intros claims d Ha Hq.
    eapply wp_reads; [done|by apply read_only_zoom, ro_tenant_get; apply _| |intros row; by eapply wp_shown].
    intros e. case_match; simpl; lia.
  - case_bool_decide; simpl; [|by apply guarded_refused]. apply wp_authorized. intros claims d Ha Hq.
    destruct (decodeJSON _ _) as [[[slug name] status]|]; [|by apply wp_refused].
    wp_step; [by apply wp_refused|]. wp_step; [by apply wp_refused|]. wp_step; [by apply wp_refused|].
    eapply wp_commits; [done|apply writeTenantError_failed|apply wp_patch_tenant|]. intros row d' Hw. eapply wp_done; [exact Ha|lia|writing|exact Hw].
Qed.

(** The claims a token opens are the same on every reading of a request. *)
Lemma same_claims d k1 k2 row1 row2 :
  sessions_ok (ap_sessions (api_db w)) -> quiet (api_db w) d ->
  rows (ap_sessions (api_db w)) !! k1 = Some row1 -> rows (ap_sessions d) !! k2 = Some row2 ->
  se_AccessTokenHash row1 = se_AccessTokenHash row2 -> claims_of row2 = claims_of row1.
Proof.
  intros Hs [_ Hu] H1' H2' E. assert (Hf : uses_forgotten (ap_sessions d) !! k2 = Some (touched 0 row2)).
  { unfold uses_forgotten. by rewrite lookup_fmap, H2'. }
  rewrite Hu in Hf. unfold uses_forgotten in Hf. rewrite lookup_fmap in Hf.
  destruct (rows (ap_sessions (api_db w)) !! k2) as [row3|] eqn:E3; [|done]. apply (inj Some) in Hf.
  assert (Hc : claims_of row2 = claims_of row3 /\ se_AccessTokenHash row2 = se_AccessTokenHash row3).
  { destruct row2, row3. unfold touched in Hf. cbn in Hf. injection Hf; intros; subst; done. }
  destruct Hc as [-> Et]. assert (k1 = k2) as -> by (eapply (so_token _ Hs); [done|done|congruence]). congruence.
Qed.

Lemma guarded_tenants : sessions_ok (ap_sessions (api_db w)) ->
  guarded (handleTenants rq ev) (if mutating_request rq then PermissionTenantManage else PermissionTenantRead) (mutating_request rq).
Proof.
  intros Hs. unfold handleTenants. apply wp_authorized. intros claims d Ha Hq. wp_step.
  { eapply wp_reads; [done|by apply read_only_zoom, ro_tenants_list; apply _|apply writeDBError_failed|]. intros rows. by eapply wp_shown. }
  wp_step; [|by apply wp_refused]. destruct (decodeJSON _ _) as [[[id slug] name]|]; [|by apply wp_refused].
  wp_step; [by apply wp_refused|]. wp_step. apply wp_session. intros d1 c Hd Hc. simpl in Hd, Hc.
  assert (Hq1 : quiet (api_db w) d1) by by eapply quiet_trans.
  eapply wp_mutate with (R := fun _ d' => exists c0, audited rq ev c0 d1 d' /\ c = Some c0); [done|apply writeDBError_failed| |].
  - eapply wp_mono; [apply wp_create_tenant|]. intros [e|row] d' Hw; [done|]. destruct c as [c0|]; [by exists c0|].
    destruct Hw as (e & (Hv & _) & _). simpl in Hv. by vm_compute in Hv.
  - intros row d' (c0 & Hw & ->). wp_step. destruct Hc as (_ & (k2 & row2 & H2' & Et2 & ->) & _).
    destruct (Ha) as ((k1 & row1 & H1' & Et1 & ->) & _).
    rewrite (same_claims d k1 k2 row1 row2 Hs Hq H1' H2') in Hw by congruence.
    eapply answers_written; [|exact Ha|writing|done]. eapply audited_from; [apply Hq1|exact Hw].
Qed.

Lemma guarded_plans : guarded (handlePlans rq ev)
  (if mutating_request rq then PermissionBillingManage else PermissionBillingRead) (mutating_request rq).
Proof.
  unfold handlePlans. apply wp_authorized. intros claims d Ha Hq. wp_step.
  { eapply wp_reads; [done|by apply read_only_zoom, ro_list_plans; apply _|apply writeDBError_failed|]. intros rows. by eapply wp_shown. }
  wp_step; [|by apply wp_refused]. destruct (decodeJSON _ _) as [[plan models]|]; [|by apply wp_refused].
  wp_step; [by apply wp_refused|].
  eapply wp_commits; [done|apply writeCatalogError_failed|apply wp_write_plan|]. intros row d' Hw.
  eapply wp_done; [exact Ha| |writing|exact Hw]. destruct (bool_decide (rq_method rq = MethodPut)); lia.
Qed.

Lemma guarded_skus : guarded (handleSKUs rq ev)
  (if mutating_request rq then PermissionBillingManage else PermissionBillingRead) (mutating_request rq).
Proof.
  unfold handleSKUs. apply wp_authorized. intros claims d Ha Hq. wp_step.
  { eapply wp_reads; [done|by apply read_only_zoom, ro_list_skus; apply _|apply writeDBError_failed|]. intros rows. by eapply wp_shown. }
  wp_step; [|by apply wp_refused]. destruct (decodeJSON _ _) as [request|]; [|by apply wp_refused].
  destruct (sku request) as [e|inp]; [by apply wp_refused|].
  eapply wp_commits; [done| |apply wp_write_sku|].
  - intros e. cbv beta. destruct (errors_is e ErrInvalidUsage); simpl; lia.
  - intros row d' Hw. eapply wp_done; [exact Ha|lia|writing|exact Hw].
Qed.

Lemma guarded_tenant_plan t : guarded (handleTenantPlan rq ev t)
  (if mutating_request rq then PermissionBillingManage else PermissionBillingRead) (mutating_request rq).
Proof.
  unfold handleTenantPlan, mutating_request. case_bool_decide as Eg; simpl.
  - apply wp_authorized. intros claims d Ha Hq. by eapply wp_show_plan.
  - case_bool_decide; [|by apply guarded_refused]. unfold handleTenantPlanUpdate. apply wp_authorized. intros claims d Ha Hq.
    destruct (decodeJSON _ _) as [planID|]; [|by apply wp_refused]. wp_step; [by apply wp_refused|].
    eapply wp_commits; [done|apply writeDBError_failed|apply wp_assign_plan|]. intros row d' Hw. eapply wp_done; [exact Ha|lia|writing|exact Hw].
Qed.

Lemma guarded_portal_reads :
  guarded (handlePortalAudit rq ev) PermissionAuditRead false /\
  guarded (handlePortalUsage rq ev) PermissionBillingRead false /\
  guarded (handlePortalPlan rq ev) PermissionBillingRead false.
Proof.
  split_and!; apply wp_authorized; intros claims d Ha Hq.
  - eapply wp_reads; [done|by apply read_only_zoom, ro_list_tenant; apply _|apply writeDBError_failed|]. intros rows. by eapply wp_shown.
  - destruct (monthWindow (ev_now ev)) as [from to], (page_of rq 20) as [limit offset]. cbv zeta. wp_step; [by apply wp_refused|].
    eapply wp_reads; [done|by apply read_only_zoom, ro_usage_page; apply _|apply writeDBError_failed|]. intros page.
    eapply wp_reads; [done|by apply read_only_zoom, ro_summary; apply _|apply writeDBError_failed|]. intros summary. by eapply wp_shown.
  - by eapply wp_show_plan.
Qed.

Lemma ro_key_ids t : read_only (tenantVirtualKeyIDs t).
Proof.
  apply read_only_bind; [|intros keys w'; by wp_step]. unfold db. do 2 (apply read_only_zoom; [apply _|]). apply ro_keys_list.
Qed.

Lemma wp_key_ids t onError k admits d :
  quiet (api_db w) d -> (forall e, 300 <= rp_status (onError e)) ->
  (forall l, wp false (k l) (mkApi d (api_calls w)) (answers rq ev admits w)) ->
  wp false (catching (tenantVirtualKeyIDs t) onError k) (mkApi d (api_calls w)) (answers rq ev admits w).
Proof.
  intros Hq He Hk. apply wp_catching. apply wp_read; [apply ro_key_ids|]. intros [e|l]; [|apply Hk].
  eexists. split; [done|]. by left.
Qed.

Lemma guarded_logs : guarded (handlePortalRequestLogs gateway cfg rq ev) PermissionRequestLogRead false.
Proof.
  unfold handlePortalRequestLogs. apply wp_authorized. intros claims d Ha Hq. destruct (page_of rq 50) as [limit offset].
  apply wp_key_ids; [done|apply writeDBError_failed|]. intros [|key keys]; [by eapply wp_shown|].
  eapply (wp_gateway _ _ _ _ _ _ _ _ _ Hq Ha _ _ (fun r => match r with
    | inl failure => writeGatewayLogError failure | inr result => mkResponse 200 (PLogs result) end)).
Qed.

Lemma guarded_members t m : guarded (handleMembers rq ev t m) PermissionMemberManage (mutating_request rq).
Proof. unfold handleMembers. apply wp_authorized. intros claims d Ha Hq. by apply wp_members. Qed.

Lemma guarded_portal_members m : guarded (handlePortalMembers rq ev m) PermissionMemberManage (mutating_request rq).
Proof. unfold handlePortalMembers. apply wp_authorized. intros claims d Ha Hq. by apply wp_members. Qed.

Lemma guarded_tenant_keys t k action :
  guarded (handleTenantKeys cipher cfg rq ev t k action) PermissionKeyManage (mutating_request rq).
Proof. unfold handleTenantKeys. apply wp_authorized. intros claims d Ha Hq. by apply wp_tenant_keys. Qed.

Lemma guarded_portal_keys k action :
  guarded (handlePortalKeys cipher cfg rq ev k action)
    (if bool_decide (action = "reveal") then PermissionKeyReveal else PermissionKeyManage) (mutating_request rq).
Proof. unfold handlePortalKeys. apply wp_authorized. intros claims d Ha Hq. by apply wp_tenant_keys. Qed.

Lemma guarded_log id : guarded (handlePortalRequestLogDetail gateway cfg rq ev id) PermissionRequestLogRead false.
Proof.
  unfold handlePortalRequestLogDetail. apply wp_authorized. intros claims d Ha Hq.
  apply wp_key_ids; [done|apply writeDBError_failed|]. intros [|key keys]; [by apply wp_refused|].
  eapply (wp_gateway _ _ _ _ _ _ _ _ _ Hq Ha _ _ (fun r => match r with
    | inl failure => writeGatewayLogError failure | inr detail => mkResponse 200 (PLog detail) end)).
Qed.

Lemma guarded_usage id : guarded (handlePortalUsageDetail gateway cfg rq ev id) PermissionRequestLogRead false.
Proof.
  unfold handlePortalUsageDetail. apply wp_authorized. intros claims d Ha Hq.
  eapply wp_reads; [done|by apply read_only_zoom, ro_get_usage; apply _| |].
  { intros e. cbv beta. destruct (errors_is e ErrRecordNotFound); simpl; lia. }
  intros usage. apply wp_key_ids; [done|apply writeDBError_failed|]. intros [|key keys]; [by eapply wp_shown|].
  wp_step; [by eapply wp_shown|].
  eapply (wp_gateway _ _ _ _ _ _ _ _ _ Hq Ha _ _ (fun r => match r with
    | inl failure => if failure.1 =? 404 then mkResponse 200 (PUsageDetail usage None) else writeGatewayLogError failure
    | inr detail => mkResponse 200 (PUsageDetail usage (Some detail)) end)).
Qed.

Lemma guarded_catalog : guarded (handleModels gateway cfg rq ev) PermissionBillingRead false.
Proof.
  unfold handleModels. apply wp_authorized. intros claims d Ha Hq. wp_step; [by apply wp_refused|].
  unfold call_gateway. repeat wp_step. destruct (gateway _ _) as [e|status body]; [by eapply answers_read|].
  destruct (negb (status =? 200)); [by eapply answers_read|]. destruct (decode_models _); by eapply answers_read.
Qed.

Lemma ro_count {W R} (f : field W (table string R)) p : read_only (count f p).
Proof. intros w'. by repeat wp_step. Qed.

Lemma guarded_summary : guarded (handleSummary cfg rq ev) PermissionTenantRead false.
Proof.
  unfold handleSummary. apply wp_authorized. intros claims d Ha Hq.
  eapply wp_reads; [done|by apply read_only_zoom, ro_count; apply _|apply writeDBError_failed|]. intros tenants.
  eapply wp_reads; [done|by apply read_only_zoom, ro_count; apply _|apply writeDBError_failed|]. intros audits.
  eapply wp_reads; [done|by apply read_only_zoom, ro_count; apply _|apply writeDBError_failed|]. intros usage.
  by eapply wp_shown.
Qed.

Lemma guarded_audit : guarded (handleAudit rq ev) PermissionAuditRead false.
Proof.
  unfold handleAudit. apply wp_authorized. intros claims d Ha Hq.
  eapply wp_reads; [done|by apply read_only_zoom, ro_list_platform; apply _|apply writeDBError_failed|]. intros rows.
  by eapply wp_shown.
Qed.

Lemma wp_serve r permission mutation : sessions_ok (ap_sessions (api_db w)) ->
  needs r (rq_method rq) = Some (permission, mutation) ->
  guarded (serve gateway lower cipher cfg rq ev r) permission mutation.
Proof.
  intros Hs. destruct guarded_portal_reads as (Ha & Hu & Hp).
  destruct r; simpl; try done; intros [= <- <-].
  - apply guarded_members.
  - apply guarded_tenant_keys.
  - apply guarded_portal_keys.
  - apply guarded_portal_members.
  - apply guarded_log.
  - apply guarded_usage.
  - done.
  - apply guarded_logs.
  - done.
  - done.
  - apply guarded_summary.
  - by apply guarded_tenants.
  - apply guarded_audit.
  - apply guarded_plans.
  - apply guarded_skus.
  - apply guarded_catalog.
  - apply guarded_tenant_plan.
  - apply guarded_lifecycle.
Qed.

(** A route that asks for no CSRF token takes GET only. *)
Lemma reads_are_gets method path permission :
  needs (dispatch method path) method = Some (permission, false) -> method = MethodGet.
Proof.
  intros Hn. apply (bool_decide_eq_true (method = MethodGet)). destruct (bool_decide (method = MethodGet)) eqn:E; [done|exfalso].
  assert (Ho : forall r, only method MethodGet r = RMethodNotAllowed) by (intros r; unfold only; by rewrite E).
  revert Hn. unfold dispatch, fixed_routes. rewrite !Ho. unfold only.
  repeat (match goal with |- context [match ?x with _ => _ end] =>
    lazymatch x with context [match _ with _ => _ end] => fail | _ => destruct x end end; simpl; rewrite ?E; try discriminate).
Qed.

(** The principal of an admitted request is on the side its route belongs to. *)
Lemma admitted_side d permission mutation claims :
  needs (dispatch (rq_method rq) (rq_path rq)) (rq_method rq) = Some (permission, mutation) ->
  admitted d rq (ev_now ev) permission mutation claims ->
  p_Type (sc_Principal claims) =
    (if admin_route (dispatch (rq_method rq) (rq_path rq)) then PrincipalPlatformAdmin else PrincipalTenantUser).
Proof.
  intros Hn (_ & _ & _ & Hadmin & Hportal & _). destruct (dispatch_side (rq_method rq) (rq_path rq)) as [Sa Sp].
  destruct (admin_route _) eqn:Er; [by apply Hadmin, Sa|]. apply Hportal, Sp. by destruct (dispatch _ _).
Qed.

Lemma wp_served permission mutation :
  sessions_ok (ap_sessions (api_db w)) ->
  needs (dispatch (rq_method rq) (rq_path rq)) (rq_method rq) = Some (permission, mutation) ->
  wp false (serveHTTP gateway lower cipher cfg rq ev) w
    (answers rq ev (admitted (api_db w) rq (ev_now ev) permission mutation) w).
Proof. apply wp_serve. Qed.

(** C5. No request gets past a closed door: whatever the database, the random
    sources and the gateway do, a request to a route that asks for a permission
    is answered, and the answer is below 300 only for the claims of a stored,
    unexpired session that its bearer token opens, whose principal is a platform
    administrator on the administration side and an active member of its tenant
    on the portal side, is granted the route's permission, and carries its CSRF
    token when the request mutates; an answer of 300 and more leaves the whole
    database as it was, the time of last use of a session apart. *)
Theorem requests_guarded permission mutation r w' :
  sessions_ok (ap_sessions (api_db w)) ->
  needs (dispatch (rq_method rq) (rq_path rq)) (rq_method rq) = Some (permission, mutation) ->
  outcome (serveHTTP gateway lower cipher cfg rq ev) w r w' ->
  exists resp, r = inr resp /\
    (300 <= rp_status resp -> quiet (api_db w) (api_db w')) /\
    (rp_status resp < 300 -> exists claims,
       admitted (api_db w) rq (ev_now ev) permission mutation claims /\
       p_Type (sc_Principal claims) =
         (if admin_route (dispatch (rq_method rq) (rq_path rq)) then PrincipalPlatformAdmin else PrincipalTenantUser)).
Proof.
  intros Hs Hn Hout. eapply wp_outcome in Hout; [|by apply wp_served].
  destruct Hout as (resp & -> & [[Hs' Hq]|(Hs' & claims & Ha & _)]); exists resp; (split; [done|split; intros; [done || lia|]]);
    [lia|]. exists claims. split; [done|]. by eapply admitted_side.
Qed.

(** C6. The audit trail misses nothing and invents nothing: after any request
    to a route that asks for a permission, either the database is as it was,
    the time of last use of a session apart, or the request was a mutation of an
    admitted principal, answered below 300, and the audit trail has grown by
    exactly one event, under an identifier of its own, that names that
    principal, its tenant, the caller's address, the request and the instant. *)
Theorem mutations_audited permission mutation r w' :
  sessions_ok (ap_sessions (api_db w)) ->
  needs (dispatch (rq_method rq) (rq_path rq)) (rq_method rq) = Some (permission, mutation) ->
  outcome (serveHTTP gateway lower cipher cfg rq ev) w r w' ->
  quiet (api_db w) (api_db w') \/
  mutation = true /\ exists resp claims, r = inr resp /\ rp_status resp < 300 /\
    admitted (api_db w) rq (ev_now ev) permission true claims /\ audited rq ev claims (api_db w) (api_db w').
Proof.
  intros Hs Hn Hout. eapply wp_outcome in Hout; [|by apply wp_served].
  destruct Hout as (resp & -> & [[_ Hq]|(Hs' & claims & Ha & [Hq|[Hm Hw]])]); [by left|by left|]. right.
  destruct mutation; [|by apply reads_are_gets in Hn]. split; [done|]. by exists resp, claims.
Qed.

End Serve.

End Spec.


(** ** Witnesses: an administrator creates a tenant *)
Definition demo_api_json : ApiJson := {|
  LogList := unit; LogDetail := unit;
  decode_login _ := Some ("root", "pw"); decode_portal_login _ := Some ("acme", "ann@x.io", "correct horse");
  decode_tenant _ := Some ("t1", "acme", "Acme"); decode_tenant_patch _ := None; decode_key _ := Some "ci";
  decode_member _ := Some ("ann@x.io", "Ann", "correct horse", RoleOwner);
  decode_member_patch _ := Some (mkUpdateInput None (Some "battery staple") None None);
  decode_plan _ := None; decode_plan_id _ := None; decode_sku _ := None; decode_models _ := None;
  decode_logs _ := Some tt; decode_log _ := Some tt; empty_logs _ _ := tt;
  to_json _ := inr (@Marshal toy_json (JObj [])) |}.

Section Demo.
#[local] Existing Instances map_sql id_sha toy_aead ascii_unicode toy_json plain_mail plain_bcrypt demo_api_json.

Definition demo_config : Config := mkConfig "root" "pw" (3600 * 10 ^ 9) ("http://gateway", "token") None true.
Definition demo_env (n : string) (now : Z) : environment :=
  mkEnv now (inr n) (inr ("secret" +:+ n)) (inr "nonce") (inr n) "salt" (inr n) (inr n) (inr ("acc" +:+ n)) (inr "csr").
Definition demo_request (method path token : string) : request :=
  mkRequest method path ("Bearer " +:+ token) (b64_encode "csr") "req_1" "::1" (fun _ => EmptyString) "{}".
Definition demo_gateway (calls : list gateway_call) (c : gateway_call) : reply := Answer 200 EmptyString.
#[local] Notation demo_serve := (serveHTTP demo_gateway ascii_lower toy_key demo_config).

Definition demo_empty : Api := mkApi (mkApiDB ∅ (mkRbacDB ∅ ∅ ∅) ∅ (mkBilling ∅ ∅ ∅ ∅ ∅ ∅ ∅ ∅ ∅ ∅) ∅ ∅ (mkBus ∅ ∅) ∅) [].
Definition demo_started : Api := after (db (Migrate demo_config 10)) demo_empty.
Definition demo_admin : Api := after (demo_serve (demo_request MethodPost "/api/auth/login" EmptyString) (demo_env "A" 20)) demo_started.

Lemma one_session_ok (k : string) (row : Session) :
  se_ID row = k -> se_TenantID row <> Some EmptyString -> sessions_ok ({[k := row]} : gmap string Session).
Proof.
  intros Hk Ht. assert (Hin : forall k' r, rows (Sql := map_sql) ({[k := row]} : gmap string Session) !! k' = Some r -> k' = k /\ r = row).
  { intros k' r Hr. change (({[k := row]} : gmap string Session) !! k' = Some r) in Hr.
    apply lookup_singleton_Some in Hr as [-> ->]. done. }
  split; [intros k' r [-> ->]%Hin; done| |intros k' r [-> ->]%Hin; done].
  intros k1 k2 r1 r2 [-> ->]%Hin [-> ->]%Hin _. done.
Qed.

Definition demo_row : Session :=
  mkSession (b64_encode "A") (tokenHash (b64_encode "accA")) (hashToken (b64_encode "csr")) PrincipalPlatformAdmin "root" None
    3600000000020 20 20.

Lemma demo_admin_sessions : sessions_ok (ap_sessions (api_db demo_admin)).
Proof.
  assert (E : ap_sessions (api_db demo_admin) = ({[b64_encode "A" := demo_row]} : gmap string Session)) by (vm_compute; reflexivity).
  rewrite E. by apply one_session_ok.
Qed.

Definition demo_create : request := demo_request MethodPost "/api/admin/tenants" (b64_encode "accA").
Definition demo_created : Api := after (demo_serve demo_create (demo_env "B" 30)) demo_admin.

Lemma demo_create_answer : exists body, result (demo_serve demo_create (demo_env "B" 30)) demo_admin = inr (mkResponse 201 body).
Proof. eexists. vm_compute. reflexivity. Qed.

Lemma demo_create_outcome :
  outcome (demo_serve demo_create (demo_env "B" 30)) demo_admin
    (result (demo_serve demo_create (demo_env "B" 30)) demo_admin) demo_created.
Proof. unfold demo_created. apply outcome_after. Qed.

Lemma requests_guarded_witness : exists claims,
  admitted (api_db demo_admin) demo_create 30 PermissionTenantManage true claims /\
  p_Type (sc_Principal claims) = PrincipalPlatformAdmin.
Proof.
  destruct demo_create_answer as [body Hr].
  destruct (requests_guarded demo_gateway ascii_lower toy_key demo_config demo_create (demo_env "B" 30) demo_admin
    PermissionTenantManage true (inr (mkResponse 201 body)) demo_created demo_admin_sessions) as (resp & E & _ & Hok).
  - vm_compute. reflexivity.
  - rewrite <-Hr. exact demo_create_outcome.
  - injection E as <-. destruct Hok as (claims & Ha & Hp); [reflexivity|]. exists claims. split; [exact Ha|exact Hp].
Defined.

Lemma mutations_audited_witness : exists claims,
  audited demo_create (demo_env "B" 30) claims (api_db demo_admin) (api_db demo_created).
Proof.
  destruct (mutations_audited demo_gateway ascii_lower toy_key demo_config demo_create (demo_env "B" 30) demo_admin
    PermissionTenantManage true (result (demo_serve demo_create (demo_env "B" 30)) demo_admin) demo_created demo_admin_sessions)
    as [Hq|(_ & resp & claims & _ & _ & _ & Ha)].
  - vm_compute. reflexivity.
  - exact demo_create_outcome.
  - exfalso. destruct Hq as [(_ & _ & E & _) _]. revert E. vm_compute. discriminate.
  - exists claims. exact Ha.
Defined.

End Demo.
