(* ===== verification/ApiPublic.v ===== *)
(** * Logging in and out, and what leaves the server (internal/httpapi)

    The routes without authorization open no session without credentials and
    change nothing else; a password reset ends the member's sessions; the
    gateway's request logs are asked for a tenant's own keys only. *)
From S2P Require Import Prelude GoStrings Sql Redis Lifecycle ControlPlane ConfigBus Billing.
From S2P Require Import Plans Cipher VirtualKey Rbac Sessions AuditLog Portal Member.
From S2P Require Import Calendar Routing HttpApi ApiHandlers ApiSpec.

Lemma wp_and {W A} (m : M W A) w (P Q : error + A -> W -> Prop) :
  wp false m w P -> wp false m w Q -> wp false m w (fun r w' => P r w' /\ Q r w').
Proof.
  intros HP HQ sc Hsc. specialize (HP sc Hsc). specialize (HQ sc Hsc).
  destruct (m w sc) as [[r w'] sc']. destruct HP, HQ. by split.
Qed.

Section Public.
  Context `{Sql} `{Sha256} `{Aead} `{GoUnicode} `{GoJson} `{GoMail} `{Bcrypt} `{ApiJson}.
  Variables (gateway : list gateway_call -> gateway_call -> reply) (lower : string -> string) (cipher : Cipher) (cfg : Config).
  Variables (rq : request) (ev : environment).

(** ** The routes without authorization *)

(** The members but for their last login. *)
Definition logins_forgotten (d : ApiDB) : gmap string Member := logged_in 0 <$> rows (ap_members d).

(** Whose session the credentials of a login open. *)
Definition opens (d : ApiDB) (p : Principal) : Prop :=
  p = mkPrincipal PrincipalPlatformAdmin (cf_AdminUsername cfg) EmptyString /\
    decodeJSON decode_login rq = Some (cf_AdminUsername cfg, cf_AdminPassword cfg) \/
  exists slug email password m, decodeJSON decode_portal_login rq = Some (slug, email, password) /\
    rows (ap_members d) !! mb_ID m = Some m /\ mb_Status m = StatusActive /\ normalizeEmail email = inr (mb_Email m) /\
    (exists k t, rows (ap_tenants d) !! k = Some t /\ tn_ID t = mb_TenantID m /\ lower (tn_Slug t) = to_lower (trim_space slug)) /\
    CompareHashAndPassword (mb_PasswordHash m) password = true /\
    p = mkPrincipal PrincipalTenantUser (mb_ID m) (mb_TenantID m).

Definition same_but_people (d d' : ApiDB) : Prop :=
  ap_tenants d' = ap_tenants d /\ ap_rbac d' = ap_rbac d /\ ap_audit d' = ap_audit d /\ ap_billing d' = ap_billing d /\
  ap_keys d' = ap_keys d /\ ap_bus d' = ap_bus d /\ logins_forgotten d' = logins_forgotten d.

Definition public_change (d d' : ApiDB) : Prop :=
  same_but_people d d' /\
  (uses_forgotten (ap_sessions d') = uses_forgotten (ap_sessions d) \/
   (exists k row, rows (ap_sessions d) !! k = None /\ rows (ap_sessions d') = <[k := row]> (rows (ap_sessions d)) /\
      opens d (sc_Principal (claims_of row))) \/
   (exists k row, rows (ap_sessions d) !! k = Some row /\ se_AccessTokenHash row = tokenHash (bearerToken rq) /\
      VerifyCSRF (claims_of row) (rq_csrf rq) = true /\
      uses_forgotten (ap_sessions d') =
        filter (fun kr => se_AccessTokenHash kr.2 <> tokenHash (bearerToken rq)) (uses_forgotten (ap_sessions d)))).

Definition public (w : Api) (r : error + response) (w' : Api) : Prop :=
  (exists resp, r = inr resp) /\ public_change (api_db w) (api_db w').

Lemma public_quiet w resp w' : quiet (api_db w) (api_db w') -> public w (inr resp) w'.
Proof.
  intros [(E1 & E2 & E3 & E4 & E5 & E6 & E7) Hs]. split; [by exists resp|]. split; [|by left].
  unfold same_but_people, logins_forgotten. by rewrite E5.
Qed.

Lemma principal_of_row id access p claims now : sc_Principal (claims_of (session_row id access p claims now)) = p.
Proof.
  destruct p as [ty pid t]. unfold tenantPtr. simpl. f_equal. unfold tenantPtr. destruct (is_empty t) eqn:Et; [|done].
  unfold is_empty in Et. by bools.
Qed.

(** Starting a session over a database [d] that differs from the first one in
    logins only. *)
Lemma wp_start_session p role (w : Api) d calls :
  sessions_ok (ap_sessions (api_db w)) -> ap_sessions d = ap_sessions (api_db w) -> same_but_people (api_db w) d ->
  opens (api_db w) p ->
  wp false (start_session cfg ev p role) (mkApi d calls) (public w).
Proof.
  intros Hs Es Hd Hp. unfold start_session. apply wp_catching. unfold db. wp_step. wp_step. rewrite Es.
  eapply wp_mono; [by apply wp_CreateSession|]. intros [e|[[access csrf] claims]] s' Hr.
  - subst s'. split; [eauto|]. split; [exact Hd|]. by left.
  - destruct Hr as (_ & _ & _ & Hnone & E & _). wp_step. split; [eauto|]. split; [exact Hd|]. right. left.
    eexists _, _. split; [exact Hnone|]. split; [exact E|]. by rewrite principal_of_row.
Qed.

Lemma public_login w : sessions_ok (ap_sessions (api_db w)) -> wp false (handleLogin cfg rq ev) w (public w).
Proof.
  intros Hs. assert (Hq : quiet (api_db w) (api_db w)) by apply quiet_refl. unfold handleLogin.
  destruct (decodeJSON decode_login rq) as [[username password]|] eqn:Ed; [|wp_step; by apply public_quiet].
  wp_step; [wp_step; by apply public_quiet|]. bools. subst username password.
  destruct w as [d calls]. by apply wp_start_session; [..|left].
Qed.

Lemma wp_login_forgotten slug email password now (x : MemberDB) :
  wp false (Member.Authenticate lower slug email password now) x (fun _ x' => md_tenants x' = md_tenants x /\
    md_rbac x' = md_rbac x /\ logged_in 0 <$> rows (tenant_members x') = logged_in 0 <$> rows (tenant_members x)).
Proof.
  unfold Member.Authenticate. destruct (normalizeEmail email) as [e|normalized]; [by wp_step|]. wp_step; [by wp_step|].
  wp_step. wp_step. apply wp_sql; simpl; [by intros _ msg; wp_step|]. destruct (login_row _ _ _ _) as [e|row]; [by wp_step|].
  wp_step; [by wp_step|]. wp_step. wp_step; [done|]. wp_step. wp_step. wp_step. apply wp_read; [apply ro_member_role|].
  assert (Hf : logged_in 0 <$> rows (update_rows (fun r => bool_decide (mb_ID r = mb_ID row)) (logged_in now) (tenant_members x)) =
    logged_in 0 <$> rows (tenant_members x)).
  { rewrite rows_update. apply map_eq. intros k. rewrite !lookup_fmap. destruct (rows (tenant_members x) !! k) as [r|]; [|done].
    simpl. by case_bool_decide. }
  intros [e|role]; by wp_step.
Qed.

Lemma public_portal_login w :
  sessions_ok (ap_sessions (api_db w)) -> members_ok (fget on_members (api_db w)) ->
  wp false (handlePortalLogin lower cfg rq ev) w (public w).
Proof.
  intros Hs Hm. assert (Hq : quiet (api_db w) (api_db w)) by apply quiet_refl. unfold handlePortalLogin.
  destruct (decodeJSON decode_portal_login rq) as [[[slug email] password]|] eqn:Ed; [|wp_step; by apply public_quiet].
  apply wp_catching. unfold db. wp_step. wp_step.
  eapply wp_mono; [apply wp_and; [by apply wp_AuthenticateMember|apply wp_login_forgotten]|].
  intros r x' [(_ & _ & Hr) (Et & Er & El)]. simpl in Et, Er, El.
  assert (Hd : same_but_people (api_db w) (mkApiDB (md_tenants x') (md_rbac x') (ap_audit (api_db w)) (ap_billing (api_db w))
    (tenant_members x') (ap_keys (api_db w)) (ap_bus (api_db w)) (ap_sessions (api_db w)))) by (by split_and!).
  destruct r as [e|v]; [split; [eauto|]; split; [exact Hd|by left]|].
  apply wp_start_session; [done|done|exact Hd|]. right.
  destruct Hr as (k & row & Hrow & Hst & Hn & Ht & Hc & _ & _ & <- & ->). simpl in Hrow, Ht.
  assert (Hk : mb_ID row = mb_ID (vw_Member v)) by exact (mo_id _ Hm _ _ Hrow).
  exists slug, email, password, row. rewrite Hk. by split_and!.
Qed.

Lemma public_logout w : sessions_ok (ap_sessions (api_db w)) -> wp false (handleLogout rq ev) w (public w).
Proof.
  intros Hs. unfold handleLogout. wp_step. apply wp_session. intros d' [claims|] Hd Hc; [|wp_step; by apply public_quiet].
  wp_step; [wp_step; by apply public_quiet|]. bools. destruct Hc as (_ & (k & row & Hrow & Htok & ->) & _).
  apply wp_catching. unfold db, Revoke. wp_step. wp_step. wp_step; [wp_step; by apply public_quiet|].
  wp_step; [intros _ msg; by apply public_quiet|]. wp_step. split; [eauto|]. destruct Hd as [(E1 & E2 & E3 & E4 & E5 & E6 & E7) Eu].
  split; [unfold same_but_people, logins_forgotten; simpl; rewrite E5; by split_and!|]. right. right.
  exists k, row. split_and!; try done. rewrite <-Eu. unfold uses_forgotten. simpl. apply map_eq. intros k'.
  rewrite rows_delete, lookup_fmap, !map_lookup_filter, lookup_fmap.
  destruct (rows (ap_sessions d') !! k') as [r|]; [|done]. simpl. 
  destruct (decide (se_AccessTokenHash r = tokenHash (bearerToken rq))) as [E'|E'].
  - rewrite bool_decide_eq_true_2 by done. rewrite !option_guard_False; [done| |done]. intros Hx. by apply Hx.
  - rewrite bool_decide_eq_false_2 by done. by rewrite !option_guard_True.
Qed.

Lemma public_portal_me w : wp false (handlePortalMe rq ev) w (public w).
Proof.
  unfold handlePortalMe. wp_step. apply wp_session. intros d' [claims|] Hd _; [|wp_step; by apply public_quiet].
  cbv zeta. wp_step; [wp_step; by apply public_quiet|].
  apply wp_catching, wp_read_db; [by apply read_only_zoom, ro_member_get; apply _|]. intros [e|v]; [by apply public_quiet|].
  wp_step; [wp_step; by apply public_quiet|].
  apply wp_catching, wp_read_db; [by apply read_only_zoom, ro_permissions; apply _|]. intros [e|ps]; [by apply public_quiet|].
  apply wp_catching, wp_read_db; [apply read_only_zoom; [apply _|]; intros w'; by repeat wp_step|].
  intros [e|t]; [by apply public_quiet|]. wp_step. by apply public_quiet.
Qed.

Lemma wp_public r w : sessions_ok (ap_sessions (api_db w)) -> members_ok (fget on_members (api_db w)) ->
  needs r (rq_method rq) = None -> wp false (serve gateway lower cipher cfg rq ev r) w (public w).
Proof.
  intros Hs Hm. assert (Hq : quiet (api_db w) (api_db w)) by apply quiet_refl.
  destruct r; simpl; try done; intros _; try (wp_step; by apply public_quiet).
  - by apply public_login.
  - by apply public_portal_login.
  - unfold handleMe. wp_step. apply wp_session. intros d' c Hd _. wp_step. by apply public_quiet.
  - by apply public_logout.
  - apply public_portal_me.
Qed.

(** C7. No session without credentials: whatever the database and the random
    sources do, a request to a route without authorization is answered and
    leaves every table but the members' and the sessions' as it was, the
    members' up to the time of the last login; and the sessions change in one
    of three ways only: not at all, the time of last use apart; by one new
    session, of the administrator whose name and password the request carries or
    of the active member whose tenant, address and password it carries; or by the
    end of the sessions its bearer token opens, one of which has the CSRF token
    the request carries. *)
Theorem public_requests w r w' :
  sessions_ok (ap_sessions (api_db w)) -> members_ok (fget on_members (api_db w)) ->
  needs (dispatch (rq_method rq) (rq_path rq)) (rq_method rq) = None ->
  outcome (serveHTTP gateway lower cipher cfg rq ev) w r w' ->
  (exists resp, r = inr resp) /\ public_change (api_db w) (api_db w').
Proof. intros Hs Hm Hn Hout. exact (wp_outcome _ _ _ _ _ (wp_public _ w Hs Hm Hn) Hout). Qed.

(** ** Password resets *)
Lemma quiet_sessions_ok (d d' : ApiDB) : sessions_ok (ap_sessions d) -> quiet d d' -> sessions_ok (ap_sessions d').
Proof.
  intros Hs [_ Hu].
  assert (Hin : forall k r, rows (ap_sessions d') !! k = Some r -> exists r0, rows (ap_sessions d) !! k = Some r0 /\
    se_ID r = se_ID r0 /\ se_AccessTokenHash r = se_AccessTokenHash r0 /\ se_TenantID r = se_TenantID r0).
  { intros k r Hr. assert (Hf : uses_forgotten (ap_sessions d') !! k = Some (touched 0 r)) by (unfold uses_forgotten; by rewrite lookup_fmap, Hr).
    rewrite Hu in Hf. unfold uses_forgotten in Hf. rewrite lookup_fmap in Hf. destruct (rows (ap_sessions d) !! k) as [r0|]; [|done].
    exists r0. split; [done|]. destruct r, r0. cbn in Hf. injection Hf; intros; subst; done. }
  split.
  - intros k r (r0 & Hr & -> & _)%Hin. by apply (so_key _ Hs).
  - intros k1 k2 r1 r2 (a & Ha & _ & -> & _)%Hin (b & Hb & _ & -> & _)%Hin. by apply (so_token _ Hs).
  - intros k r (r0 & Hr & _ & _ & ->)%Hin. by apply (so_tenant _ Hs k).
Qed.

Definition signed_out (m : string) (d d' : ApiDB) : Prop :=
  exists row, rows (ap_members d) !! m = Some row /\ forall k s, rows (ap_sessions d') !! k = Some s ->
    sc_Principal (claims_of s) <> mkPrincipal PrincipalTenantUser m (mb_TenantID row).

Lemma wp_reset claims platform t m inp pw d :
  sessions_ok (ap_sessions d) -> members_ok (fget on_members d) -> ui_Password inp = Some pw ->
  wp false (update_member rq ev claims platform t m inp) d (fun r d' => match r with inl _ => True | inr _ => signed_out m d d' end).
Proof.
  intros Hs Hm Hpw. unfold update_member. rewrite Hpw. wp_step. apply wp_read; [by apply read_only_zoom, ro_member_get; apply _|].
  intros [e|current]; [done|].
  wp_step. apply wp_owner_guard; [done|]. wp_step. wp_step. eapply wp_mono; [by apply wp_UpdateMember|].
  intros [e|v] x; [done|]. intros (_ & _ & _ & (row & Hrow & <-) & _). wp_step. wp_step. unfold RevokePrincipalTx.
  wp_step; [by wp_step|]. wp_step; [done|]. wp_step.
  eapply wp_mono; [by eapply (wp_record _ _ _ _ _ _ _ _ _ _ _ eq_refl)|]. intros [e|u] d' Hr; [done|]. wp_step.
  exists row. split; [exact Hrow|]. destruct Hr as (_ & -> & _). simpl. intros k s [Hk Hno]%lookup_deleted Ep.
  apply (session_of_claims _ _ k s Hs Hk) in Ep. congruence.
Qed.

(** The member a route changes. *)
Definition changed_member (r : route) : option string :=
  match r with RAdminMembers _ m | RPortalMembers m => Some m | _ => None end.

Definition resets (w : Api) (m : string) (r : error + response) (w' : Api) : Prop :=
  forall body, r = inr (mkResponse 200 body) -> signed_out m (api_db w) (api_db w').

Lemma resets_failed (w : Api) m resp w' : 300 <= rp_status resp -> resets w m (inr resp) w'.
Proof. intros Hs body [= ->]. simpl in Hs. lia. Qed.

Section Reset.
  Variables (w : Api) (m pw : string) (inp : UpdateInput).
  Hypotheses (Hs : sessions_ok (ap_sessions (api_db w))) (Hm : members_ok (fget on_members (api_db w)))
    (Hmethod : rq_method rq = MethodPatch \/ rq_method rq = MethodPut) (Hne : m <> EmptyString)
    (Hin : decodeJSON decode_member_patch rq = Some inp) (Hpw : ui_Password inp = Some pw).

Lemma wp_reset_members claims t platform d calls :
  quiet (api_db w) d -> wp false (handleMembersAuthorized rq ev claims t m platform) (mkApi d calls) (resets w m).
Proof.
  intros Hq. assert (He : is_empty m = false) by (unfold is_empty; by apply bool_decide_eq_false_2).
  unfold handleMembersAuthorized. rewrite He, Hin. wp_step; [wp_step; by apply resets_failed|].
  rewrite !andb_false_r. cbn [negb]. rewrite !andb_true_r.
  assert (Hb : bool_decide (rq_method rq = MethodPatch) || bool_decide (rq_method rq = MethodPut) = true)
    by (destruct Hmethod as [->| ->]; reflexivity).
  rewrite Hb. apply wp_catching. unfold db. wp_step. wp_step.
  assert (Hmd : members_ok (fget on_members d)).
  { destruct Hq as [(E1 & E2 & _ & _ & E5 & _) _]. simpl. by rewrite E1, E2, E5. }
  eapply wp_mono; [eapply (wp_reset claims platform t m inp pw d); [by eapply quiet_sessions_ok|done|done]|].
  intros [e|v] d' Hr; [apply resets_failed, writeMutationError_failed|].
  split; [intros _ msg; apply resets_failed, writeMutationError_failed|]. wp_step. intros body _.
  destruct Hr as (row & Hrow & Hno). exists row. split; [|exact Hno]. destruct Hq as [(_ & _ & _ & _ & E5 & _) _]. by rewrite <-E5.
Qed.

Lemma wp_reset_request :
  changed_member (dispatch (rq_method rq) (rq_path rq)) = Some m ->
  wp false (serveHTTP gateway lower cipher cfg rq ev) w (resets w m).
Proof.
  unfold serveHTTP. destruct (dispatch _ _) as [| |t' m'| | |m'| | | | | | | | | | | | | | | | | | | | |]; intros Em; try discriminate;
    injection Em as Em; rewrite Em; simpl; unfold handleMembers, handlePortalMembers, authorized; wp_step;
    (apply wp_authorize; [intros d' resp Hq Hf; wp_step; by apply resets_failed|]);
    intros d' claims Hq _; by apply wp_reset_members.
Qed.

(** A password reset throws everybody out: when an administrator, or a
    member of the portal, changes a member's password and is answered 200, no
    session of that member is left in the database, not even the one the
    request came with. *)
Theorem password_reset_revokes body w' :
  changed_member (dispatch (rq_method rq) (rq_path rq)) = Some m ->
  outcome (serveHTTP gateway lower cipher cfg rq ev) w (inr (mkResponse 200 body)) w' ->
  signed_out m (api_db w) (api_db w').
Proof. intros Hr Hout. exact (wp_outcome _ _ _ _ _ (wp_reset_request Hr) Hout body eq_refl). Qed.

End Reset.

(** ** Calls of the gateway *)
Definition silent {A} (m : M Api A) : Prop := forall w, wp false m w (fun _ w' => api_calls w' = api_calls w).

Lemma silent_ret {A} (a : A) : silent (mret a).
Proof. intros w. by wp_step. Qed.

Lemma silent_db {A} (m : M ApiDB A) : silent (db m).
Proof. intros w. unfold db. wp_step. by apply wp_any. Qed.

Lemma silent_bind {A B} (m : M Api A) (k : A -> M Api B) : silent m -> (forall a, silent (k a)) -> silent (m ≫= k).
Proof.
  intros Hm Hk w. wp_step. eapply wp_mono; [apply Hm|]. intros [e|a] w' E; [done|]. rewrite <-E. apply Hk.
Qed.

Lemma silent_attempt {A} (m : M Api A) : silent m -> silent (attempt m).
Proof. intros Hm w. wp_step. apply Hm. Qed.

Lemma silent_throw {A} e : silent (throw e : M Api A).
Proof. intros w. by wp_step. Qed.

Ltac silence :=
  repeat first
    [ apply silent_ret | apply silent_db | apply silent_throw | apply silent_attempt
    | apply silent_bind; [|intros ?]
    | match goal with
      | |- silent (if ?b then _ else _) => destruct b
      | |- silent (match ?x with _ => _ end) => destruct x
      end ].

Lemma silent_session now : silent (session rq now).
Proof. unfold session. cbv zeta. silence. Qed.

Lemma silent_authorized now permission mutation k :
  (forall claims, silent (k claims)) -> silent (authorized rq now permission mutation k).
Proof.
  intros Hk. unfold authorized. apply silent_bind; [|intros [resp|claims]; [apply silent_ret|apply Hk]].
  unfold authorize. apply silent_bind; [apply silent_session|]. intros c. silence.
Qed.

Lemma silent_catching {A} (m : M Api A) onError k : silent m -> (forall a, silent (k a)) -> silent (catching m onError k).
Proof. intros Hm Hk. unfold catching. apply silent_bind; [by apply silent_attempt|]. intros [e|a]; [apply silent_ret|apply Hk]. Qed.

Lemma silent_notifyChange now change : silent (notifyChange cfg now change).
Proof. unfold notifyChange. silence. Qed.

Ltac quietly :=
  cbv zeta;
  repeat first
    [ apply silent_ret | apply silent_db | apply silent_throw | apply silent_session | apply silent_notifyChange
    | apply silent_attempt
    | apply silent_authorized; intros ?
    | apply silent_catching; [|intros ?]
    | apply silent_bind; [|intros ?]
    | match goal with
      | |- silent (if ?b then _ else _) => destruct b
      | |- silent (match ?x with _ => _ end) => destruct x
      end ].

(** A call that asks the gateway for the logs of a tenant's own keys only. *)
Definition own_keys (d : ApiDB) (tenantID : string) (ids : list string) : Prop :=
  ids <> [] /\ Forall (fun id => exists k key, rows (ap_keys d) !! k = Some key /\ ky_ID key = id /\ ky_TenantID key = tenantID) ids.

Definition asks (d : ApiDB) (tenantID : string) (c : gateway_call) : Prop :=
  match c with
  | GModels => True
  | GLogs ids _ _ | GLog ids _ => own_keys d tenantID ids
  end.

Definition scoped_calls (permission : string) (w : Api) (r : error + response) (w' : Api) : Prop :=
  api_calls w' = api_calls w \/
  exists c claims, api_calls w' = api_calls w ++ [c] /\ admitted (api_db w) rq (ev_now ev) permission false claims /\
    asks (api_db w) (p_TenantID (sc_Principal claims)) c.

Lemma wp_own_keys t (w : Api) :
  wp false (tenantVirtualKeyIDs t) w (fun r w' => w' = w /\ match r with
    | inl _ => True
    | inr ids => ids = [] \/ own_keys (api_db w) t ids
    end).
Proof.
  unfold tenantVirtualKeyIDs, db. wp_step. wp_step. wp_step. unfold VirtualKey.List. destruct w as [[] calls].
  wp_step; [by wp_step|]. repeat wp_step; [done|]. split; [done|].
  set (l := take _ _). destruct l as [|key l'] eqn:El; [by left|right]. split; [done|].
  assert (Hl : Forall (fun key => exists k, rows ap_keys !! k = Some key /\ ky_TenantID key = t) l).
  { subst l. apply Forall_take. apply Forall_forall. intros x Hx. rewrite merge_sort_Permutation in Hx.
    apply elem_of_where in Hx as (k & Hk & Hp). bools. by exists k. }
  rewrite El in Hl. apply Forall_fmap. eapply Forall_impl; [exact Hl|]. intros x (k & Hk & Ht). by exists k, x.
Qed.

Section Calls.
  Variables (w : Api) (permission : string).

Lemma wp_call {T} claims d c decode (answer : Z * error + T -> response) :
  admitted (api_db w) rq (ev_now ev) permission false claims -> asks (api_db w) (p_TenantID (sc_Principal claims)) c ->
  wp false (r ← gatewayRequestLogs gateway cfg c decode; mret (answer r)) (mkApi d (api_calls w)) (scoped_calls permission w).
Proof.
  intros Ha Hc. wp_step. unfold gatewayRequestLogs, call_gateway. wp_step; [wp_step; wp_step; by left|].
  repeat wp_step. right. by exists c, claims.
Qed.

Lemma wp_scoped k :
  (forall claims d, admitted (api_db w) rq (ev_now ev) permission false claims -> quiet (api_db w) d ->
     wp false (k claims) (mkApi d (api_calls w)) (scoped_calls permission w)) ->
  wp false (authorized rq (ev_now ev) permission false k) w (scoped_calls permission w).
Proof.
  intros Hk. unfold authorized. wp_step. apply wp_authorize; [intros d' resp Hd _; wp_step; by left|].
  intros d' claims Hd Ha. by apply Hk.
Qed.

(** The identifiers of the keys of [t], and what is done with them. *)
Lemma wp_with_keys t d onError k : quiet (api_db w) d ->
  (forall ids, ids = [] \/ own_keys (api_db w) t ids -> wp false (k ids) (mkApi d (api_calls w)) (scoped_calls permission w)) ->
  wp false (catching (tenantVirtualKeyIDs t) onError k) (mkApi d (api_calls w)) (scoped_calls permission w).
Proof.
  intros [(_ & _ & _ & _ & _ & Ek & _) _] Hk. apply wp_catching. eapply wp_mono; [apply wp_own_keys|]. intros [e|ids] w' [-> Hi]; [by left|].
  apply Hk. destruct Hi as [Hi|[Hne Hi]]; [by left|right]. split; [done|]. simpl in Hi. by rewrite Ek in Hi.
Qed.

End Calls.

Lemma scoped_logs w : wp false (handlePortalRequestLogs gateway cfg rq ev) w (scoped_calls PermissionRequestLogRead w).
Proof.
  unfold handlePortalRequestLogs. apply wp_scoped. intros claims d Ha Hq. destruct (page_of rq 50) as [limit offset].
  apply wp_with_keys; [done|]. intros [|id ids] [Hi|Hi]; try done; [wp_step; by left|by destruct Hi|].
  apply (wp_call w _ claims d _ _ (fun r => match r with
    | inl failure => writeGatewayLogError failure | inr result => mkResponse 200 (PLogs result) end)); done.
Qed.

Lemma scoped_log w id : wp false (handlePortalRequestLogDetail gateway cfg rq ev id) w (scoped_calls PermissionRequestLogRead w).
Proof.
  unfold handlePortalRequestLogDetail. apply wp_scoped. intros claims d Ha Hq.
  apply wp_with_keys; [done|]. intros [|key ids] [Hi|Hi]; try done; [wp_step; by left|by destruct Hi|].
  apply (wp_call w _ claims d _ _ (fun r => match r with
    | inl failure => writeGatewayLogError failure | inr detail => mkResponse 200 (PLog detail) end)); done.
Qed.

Lemma scoped_usage w id : wp false (handlePortalUsageDetail gateway cfg rq ev id) w (scoped_calls PermissionRequestLogRead w).
Proof.
  unfold handlePortalUsageDetail. apply wp_scoped. intros claims d Ha Hq. cbv zeta.
  apply wp_catching, wp_read_db; [by apply read_only_zoom, ro_get_usage; apply _|]. intros [e|usage]; [by left|].
  apply wp_with_keys; [done|]. intros [|key ids] [Hi|Hi]; try done; [wp_step; by left|by destruct Hi|].
  wp_step; [wp_step; by left|].
  apply (wp_call w _ claims d _ _ (fun r => match r with
    | inl failure => if failure.1 =? 404 then mkResponse 200 (PUsageDetail usage None) else writeGatewayLogError failure
    | inr detail => mkResponse 200 (PUsageDetail usage (Some detail)) end)); done.
Qed.

Lemma scoped_models w : wp false (handleModels gateway cfg rq ev) w (scoped_calls PermissionBillingRead w).
Proof.
  unfold handleModels. apply wp_scoped. intros claims d Ha Hq. wp_step; [wp_step; by left|].
  unfold call_gateway. repeat wp_step. right. by exists GModels, claims.
Qed.

Lemma silent_route r :
  match r with RPortalRequestLogs | RPortalRequestLog _ | RPortalUsageDetail _ | RModels => False | _ => True end ->
  silent (serve gateway lower cipher cfg rq ev r).
Proof.
  intros Hr. destruct r; try done; cbn [serve];
    unfold handleMembers, handlePortalMembers, handleMembersAuthorized, handleTenantKeys, handlePortalKeys,
      handleTenantKeysAuthorized, committed, handleLogin, handlePortalLogin, start_session, handleMe, handleLogout, handlePortalMe,
      handlePortalUsage, handlePortalAudit, handlePortalPlan, handleSummary, handleTenants, handleAudit, handlePlans,
      handleSKUs, handleTenantPlan, handleTenantPlanUpdate, show_plan, handleTenantLifecycle; quietly.
Qed.

(** C8. A tenant sees its own request logs only: a request makes at most one
    call of the gateway, and only for an admitted principal of the route's
    permission; and a call for request logs names a list of virtual keys that is
    not empty, each of which is stored as a key of that principal's tenant. *)
Theorem logs_scoped w r w' :
  outcome (serveHTTP gateway lower cipher cfg rq ev) w r w' ->
  api_calls w' = api_calls w \/
  exists c permission claims, api_calls w' = api_calls w ++ [c] /\
    needs (dispatch (rq_method rq) (rq_path rq)) (rq_method rq) = Some (permission, false) /\
    admitted (api_db w) rq (ev_now ev) permission false claims /\ asks (api_db w) (p_TenantID (sc_Principal claims)) c.
Proof.
  assert (Hgo : forall permission, scoped_calls permission w r w' ->
    needs (dispatch (rq_method rq) (rq_path rq)) (rq_method rq) = Some (permission, false) ->
    api_calls w' = api_calls w \/ exists c permission claims, api_calls w' = api_calls w ++ [c] /\
      needs (dispatch (rq_method rq) (rq_path rq)) (rq_method rq) = Some (permission, false) /\
      admitted (api_db w) rq (ev_now ev) permission false claims /\ asks (api_db w) (p_TenantID (sc_Principal claims)) c).
  { intros permission [E|(c & claims & E & Ha & Hc)] Hn; [by left|right]. by exists c, permission, claims. }
  intros Hout. unfold serveHTTP in Hout. destruct (dispatch (rq_method rq) (rq_path rq)) as [] eqn:Er;
    try (left; eapply wp_outcome in Hout; [exact Hout|by apply silent_route]); cbn [serve] in Hout.
  - eapply Hgo; [exact (wp_outcome _ _ _ _ _ (scoped_log w id) Hout)|done].
  - eapply Hgo; [exact (wp_outcome _ _ _ _ _ (scoped_usage w id) Hout)|done].
  - eapply Hgo; [exact (wp_outcome _ _ _ _ _ (scoped_logs w) Hout)|done].
  - eapply Hgo; [exact (wp_outcome _ _ _ _ _ (scoped_models w) Hout)|done].
Qed.

End Public.

(** ** Witnesses: an owner logs in, asks for its logs and is thrown out *)
Section Demo.
#[local] Existing Instances map_sql id_sha toy_aead ascii_unicode toy_json plain_mail plain_bcrypt demo_api_json.
#[local] Notation demo_serve := (serveHTTP demo_gateway ascii_lower toy_key demo_config).

Definition demo_hire : request := demo_request MethodPost "/api/admin/tenants/t1/members" (b64_encode "accA").
Definition demo_sign_in : request := demo_request MethodPost "/api/portal/auth/login" EmptyString.
Definition demo_issue : request := demo_request MethodPost "/api/portal/keys" (b64_encode "accD").
Definition demo_ask : request := demo_request MethodGet "/api/portal/request-logs" (b64_encode "accD").
Definition demo_throw : request := demo_request MethodPatch "/api/admin/tenants/t1/members/mem_43" (b64_encode "accA").

Definition demo_hired : Api := after (demo_serve demo_hire (demo_env "C" 40)) demo_created.
Definition demo_signed_in : Api := after (demo_serve demo_sign_in (demo_env "D" 50)) demo_hired.
Definition demo_issued : Api := after (demo_serve demo_issue (demo_env "E" 60)) demo_signed_in.
Definition demo_asked : Api := after (demo_serve demo_ask (demo_env "F" 70)) demo_issued.
Definition demo_thrown : Api := after (demo_serve demo_throw (demo_env "G" 80)) demo_signed_in.

Lemma checked_sessions (t : gmap string Session) :
  map_Forall (fun k r => se_ID r = k /\ se_TenantID r <> Some EmptyString /\
    map_Forall (fun k2 r2 => se_AccessTokenHash r = se_AccessTokenHash r2 -> k = k2) t) t -> sessions_ok t.
Proof.
  intros Ht. split.
  - intros k r Hr. by apply (Ht k r).
  - intros k1 k2 r1 r2 H1' H2'. destruct (Ht k1 r1 H1') as (_ & _ & Hk). by apply (Hk k2 r2).
  - intros k r Hr. by apply (Ht k r).
Qed.

Lemma checked_members (w : MemberDB) :
  map_Forall (fun k m => mb_ID m = k /\
    Exists (fun role => is_Some (bindings_of w !! (RoleID (mb_TenantID m) role, PrincipalTenantUser, k)) /\
      Forall (fun role' => is_Some (bindings_of w !! (RoleID (mb_TenantID m) role', PrincipalTenantUser, k)) -> role' = role)
        [RoleOwner; RoleAdmin; RoleDeveloper; RoleViewer]) [RoleOwner; RoleAdmin; RoleDeveloper; RoleViewer])
    (tenant_members w : gmap string Member) ->
  map_Forall (fun k b => (rb_RoleID b, rb_PrincipalType b, rb_PrincipalID b) = k /\
    (k.1.2 = PrincipalTenantUser -> is_Some ((tenant_members w : gmap string Member) !! k.2)) /\
    map_Forall (fun km m => Forall (fun role => k = (RoleID (mb_TenantID m) role, PrincipalTenantUser, km) ->
       rb_TenantID b = Some (mb_TenantID m)) [RoleOwner; RoleAdmin; RoleDeveloper; RoleViewer]) (tenant_members w : gmap string Member))
    (bindings_of w) ->
  members_ok w.
Proof.
  assert (Hv : forall role, ValidRole role = true <-> role ∈ [RoleOwner; RoleAdmin; RoleDeveloper; RoleViewer]).
  { intros role. unfold ValidRole. rewrite !orb_true_iff, !bool_decide_eq_true. set_solver. }
  intros Hm Hb. split.
  - intros k m Hr. by apply (Hm k m).
  - intros k b Hr. by apply (Hb k b).
  - intros rid p b Hr. destruct (Hb _ _ Hr) as (_ & Hd & _). by apply Hd.
  - intros k m role b Hr Hrole Hbk. destruct (Hb _ _ Hbk) as (_ & _ & Ht). specialize (Ht k m Hr). rewrite Forall_forall in Ht.
    by apply (Ht role), eq_refl; apply Hv.
  - intros k m Hr. destruct (Hm k m Hr) as (Hk & He). apply Exists_exists in He as (role & Hin & Hof & Hu).
    exists role. unfold role_of. rewrite Hk. split_and!; [by apply Hv|done|]. rewrite Forall_forall in Hu.
    intros role' Hr' Hof'. apply Hu; [by apply Hv|done].
Qed.

Lemma demo_signed_in_sessions : sessions_ok (ap_sessions (api_db demo_signed_in)).
Proof. apply checked_sessions, (bool_decide_unpack _). vm_compute. exact I. Qed.

Lemma demo_signed_in_members : members_ok (fget on_members (api_db demo_signed_in)).
Proof. apply checked_members; apply (bool_decide_unpack _); vm_compute; exact I. Qed.

Lemma demo_asked_outcome : outcome (demo_serve demo_ask (demo_env "F" 70)) demo_issued
  (result (demo_serve demo_ask (demo_env "F" 70)) demo_issued) demo_asked.
Proof. unfold demo_asked. apply outcome_after. Qed.

Lemma demo_thrown_outcome : exists body, outcome (demo_serve demo_throw (demo_env "G" 80)) demo_signed_in
  (inr (mkResponse 200 body)) demo_thrown.
Proof.
  assert (E : exists body, result (demo_serve demo_throw (demo_env "G" 80)) demo_signed_in = inr (mkResponse 200 body))
    by (eexists; vm_compute; reflexivity).
  destruct E as [body E]. exists body. unfold demo_thrown. rewrite <-E. apply outcome_after.
Qed.

Lemma demo_again_outcome : outcome (demo_serve demo_sign_in (demo_env "H" 90)) demo_signed_in
  (result (demo_serve demo_sign_in (demo_env "H" 90)) demo_signed_in) (after (demo_serve demo_sign_in (demo_env "H" 90)) demo_signed_in).
Proof. apply outcome_after. Qed.

Lemma logs_scoped_witness : exists c claims,
  api_calls demo_asked = api_calls demo_issued ++ [c] /\ asks (api_db demo_issued) (p_TenantID (sc_Principal claims)) c.
Proof.
  destruct (logs_scoped demo_gateway ascii_lower toy_key demo_config demo_ask (demo_env "F" 70) demo_issued
    (result (demo_serve demo_ask (demo_env "F" 70)) demo_issued) demo_asked demo_asked_outcome)
    as [E|(c & permission & claims & E & _ & _ & Hc)].
  - exfalso. revert E. vm_compute. discriminate.
  - exists c, claims. split; [exact E|exact Hc].
Defined.

Lemma password_reset_revokes_witness : signed_out "mem_43" (api_db demo_signed_in) (api_db demo_thrown).
Proof.
  destruct demo_thrown_outcome as [body Hout].
  apply (password_reset_revokes demo_gateway ascii_lower toy_key demo_config demo_throw (demo_env "G" 80) demo_signed_in
    "mem_43" "battery staple" (mkUpdateInput None (Some "battery staple") None None)
    demo_signed_in_sessions demo_signed_in_members) with (body := body).
  - left. reflexivity.
  - discriminate.
  - reflexivity.
  - reflexivity.
  - vm_compute. reflexivity.
  - exact Hout.
Defined.

Lemma public_requests_witness :
  public_change ascii_lower demo_config demo_sign_in (api_db demo_signed_in)
    (api_db (after (demo_serve demo_sign_in (demo_env "H" 90)) demo_signed_in)).
Proof.
  apply (public_requests demo_gateway ascii_lower toy_key demo_config demo_sign_in (demo_env "H" 90) demo_signed_in
    (result (demo_serve demo_sign_in (demo_env "H" 90)) demo_signed_in)
    (after (demo_serve demo_sign_in (demo_env "H" 90)) demo_signed_in) demo_signed_in_sessions demo_signed_in_members).
  - vm_compute. reflexivity.
  - exact demo_again_outcome.
Defined.

End Demo.
