(* ===== verification/RequestLog.v ===== *)
(** * The tenant-safe projection of request logs (internal/requestlog/requestlog.go)

    A log entry comes as a [Source]: four maps of values of which only the
    outcome of [json.Marshal] matters.  [ProjectDetail] copies them under one
    budget of nodes and bytes.  Go walks a map in an order of its choosing; the
    choice is a parameter, made anew at every visit of a map, and a map that
    was built is a value with its members sorted. *)
From S2P Require Import Prelude GoStrings Sql AuditLog.

Definition maxStringBytes : Z := 32768.
Definition maxArrayItems : Z := 100.
Definition maxMapItems : Z := 100.
Definition maxDepth : nat := 12.
Definition maxTotalBytes : Z := 524288.
Definition maxTotalNodes : Z := 2000.

(** A float64 is its text, as in [JNum]. *)
Record ListItem := mkItem {
  li_ID : string; li_Timestamp : Z; li_Status : string; li_Provider : string; li_Model : string;
  li_Object : string; li_LatencyMS : option string; li_TotalTokens : Z; li_Cost : option string;
  li_Stream : bool; li_VirtualKeyID : string; li_ContentHidden : bool }.

Record ListResponse := mkListResponse {
  lr_Logs : list ListItem; lr_Limit : Z; lr_Offset : Z; lr_TotalCount : Z }.

Record Detail := mkDetail {
  dt_Summary : ListItem; dt_Request : option json; dt_Response : option json; dt_Routing : option json;
  dt_Error : option json; dt_ContentAvailable : bool; dt_ContentHidden : bool; dt_Redacted : bool;
  dt_Truncated : bool }.

(** A map[string]any, each value as [json.Marshal] writes it or fails to. *)
Definition values : Type := gmap string (error + string).

Record Source := mkSource {
  so_ID : string; so_Status : string; so_Provider : string; so_Model : string; so_Object : string;
  so_VirtualKeyID : string; so_Timestamp : Z; so_LatencyMS : option string; so_TotalTokens : Z;
  so_Cost : option string; so_Stream : bool; so_ContentHidden : bool;
  so_Request : values; so_Response : values; so_Routing : values; so_Error : values }.

Definition ProjectList (source : Source) : ListItem :=
  mkItem (so_ID source) (so_Timestamp source) (so_Status source) (so_Provider source) (so_Model source)
    (so_Object source) (so_LatencyMS source) (so_TotalTokens source) (so_Cost source) (so_Stream source)
    (so_VirtualKeyID source) (so_ContentHidden source).

Definition Owns (virtualKeyID : string) (allowed : gset string) : bool := bool_decide (virtualKeyID ∈ allowed).

(** ** Maps as values *)
Definition key_le (a b : string * json) : Prop := String.leb a.1 b.1 = true.
#[export] Instance key_le_dec : RelDecision key_le.
Proof. intros a b. unfold key_le. apply _. Defined.

Definition members (m : gmap string json) : list (string * json) := merge_sort key_le (map_to_list m).

Definition two_quotes : string := String (ascii_of_nat 34) (String (ascii_of_nat 34) EmptyString).
Definition vacuous (data : string) : bool := bool_decide (data ∈ ["null"; "[]"; "{}"; two_quotes]).

Definition normalize `{GoJson} (r : error + string) : option json :=
  match r with
  | inl _ => None
  | inr data => if vacuous data then None else match Unmarshal data with inr v => Some v | inl _ => None end
  end.

Definition compactMap `{GoJson} (vs : values) : gmap string json := omap normalize vs.

(** ** The budget *)
Record sanitizeBudget := mkBudget { bg_remaining : Z; bg_nodes : Z; bg_redacted : bool; bg_truncated : bool }.

Definition take_node (b : sanitizeBudget) : sanitizeBudget :=
  mkBudget (bg_remaining b) (bg_nodes b - 1) (bg_redacted b) (bg_truncated b).
Definition spend (n : Z) (b : sanitizeBudget) : sanitizeBudget :=
  mkBudget (bg_remaining b - n) (bg_nodes b) (bg_redacted b) (bg_truncated b).
Definition set_redacted (b : sanitizeBudget) : sanitizeBudget :=
  mkBudget (bg_remaining b) (bg_nodes b) true (bg_truncated b).
Definition set_truncated (b : sanitizeBudget) : sanitizeBudget :=
  mkBudget (bg_remaining b) (bg_nodes b) (bg_redacted b) true.
Definition truncated_if (c : bool) (b : sanitizeBudget) : sanitizeBudget := if c then set_truncated b else b.

Definition str_len (s : string) : Z := Z.of_nat (String.length s).
Definition marker : string := "[TRUNCATED]".
Definition suffix : string := "...[TRUNCATED]".

Section Clean.
  Context `{GoUnicode}.

Definition sensitiveKey (key : string) : bool :=
  let normalized := to_lower (drop_separators key) in
  if bool_decide (normalized ∈ ["authorization"; "cookie"; "setcookie"; "apikey"; "xapikey"; "accesskey";
                                "secret"; "clientsecret"; "password"]) then true
  else has_suffix normalized "token" || has_suffix normalized "secret" || has_suffix normalized "password".

Definition clean_string (s : string) (b : sanitizeBudget) : json * sanitizeBudget :=
  let length := str_len s in
  let limit := Z.min length maxStringBytes in
  let b := truncated_if (maxStringBytes <? length) b in
  let b := truncated_if (bg_remaining b <? limit) b in
  let limit := Z.min limit (bg_remaining b) in
  let b := spend limit b in
  (JStr (if limit <? length then stake (Z.to_nat limit) s +:+ suffix else s), b).

(** The two loops over children, [visit] being the recursive call. *)
Fixpoint clean_members (visit : json -> string -> sanitizeBudget -> json * sanitizeBudget)
    (limit : nat) (l : list (string * json)) (b : sanitizeBudget) : list (string * json) * sanitizeBudget :=
  match limit, l with
  | S limit, (childKey, child) :: l =>
      if bg_remaining b <? str_len childKey then ([], set_truncated b) else
      let '(x, b) := visit child childKey (spend (str_len childKey) b) in
      let '(out, b) := clean_members visit limit l b in
      ((childKey, x) :: out, b)
  | _, _ => ([], b)
  end.

Fixpoint clean_items (visit : json -> sanitizeBudget -> json * sanitizeBudget)
    (l : list json) (b : sanitizeBudget) : list json * sanitizeBudget :=
  match l with
  | [] => ([], b)
  | v :: l =>
      let '(x, b) := visit v b in
      let '(out, b) := clean_items visit l b in
      (x :: out, b)
  end.

(** [walk n l]: the order in which the members [l] are met by the visit that
    leaves [n] nodes, which no other visit of the walk does. *)
Variable walk : Z -> list (string * json) -> list (string * json).

(** [clean levels] is the call at depth [maxDepth + 1 - levels]: no level is
    left exactly when the depth exceeds [maxDepth].  The values of [compactMap]
    have been through [json.Unmarshal], so the default case is not reached. *)
Fixpoint clean (levels : nat) (value : json) (key : string) (b : sanitizeBudget) : json * sanitizeBudget :=
  if bg_nodes b <=? 0 then (JStr marker, set_truncated b) else
  let b := take_node b in
  if sensitiveKey key then (redacted, set_redacted b) else
  match levels with
  | O => (JStr marker, set_truncated b)
  | S levels =>
      if bg_remaining b <=? 0 then (JStr marker, set_truncated b) else
      match value with
      | JStr s => clean_string s b
      | JObj l =>
          let length := Z.of_nat (length l) in
          let limit := Z.min length maxMapItems in
          let b := truncated_if (maxMapItems <? length) b in
          let '(out, b) := clean_members (clean levels) (Z.to_nat limit) (walk (bg_nodes b) l) b in
          (JObj (merge_sort key_le out), b)
      | JArr l =>
          let length := Z.of_nat (length l) in
          let limit := Z.min length maxArrayItems in
          let b := truncated_if (maxArrayItems <? length) b in
          let '(out, b) := clean_items (fun v => clean levels v key) (take (Z.to_nat limit) l) b in
          (JArr out, b)
      | leaf => (leaf, b)
      end
  end.

(** One field of the detail: cleaned at depth 0 when it is to be shown. *)
Definition clean_part (shown : bool) (m : gmap string json) (b : sanitizeBudget) : option json * sanitizeBudget :=
  if shown && (0 <? Z.of_nat (size m))
  then let '(v, b) := clean (S maxDepth) (JObj (members m)) EmptyString b in (Some v, b)
  else (None, b).

Definition ProjectDetail `{GoJson} (source : Source) : Detail :=
  let request := compactMap (so_Request source) in
  let response := compactMap (so_Response source) in
  let routing := compactMap (so_Routing source) in
  let errorDetails := compactMap (so_Error source) in
  let shown := negb (so_ContentHidden source) in
  let available := shown && ((0 <? Z.of_nat (size request)) || (0 <? Z.of_nat (size response))
                             || (0 <? Z.of_nat (size errorDetails))) in
  let b := mkBudget maxTotalBytes maxTotalNodes false false in
  let '(req, b) := clean_part shown request b in
  let '(resp, b) := clean_part shown response b in
  let '(rout, b) := clean_part true routing b in
  let '(err, b) := clean_part shown errorDetails b in
  mkDetail (ProjectList source) req resp rout err available (so_ContentHidden source)
    (bg_redacted b) (bg_truncated b).

End Clean.

(** ** Measures of a value *)
Section Sum.
  Context {A : Type} (f : A -> Z).
Fixpoint sum_of (l : list A) : Z := match l with [] => 0 | x :: l => f x + sum_of l end.
End Sum.

#[export] Instance sum_of_perm {A} (f : A -> Z) : Proper ((≡ₚ) ==> (=)) (sum_of f).
Proof. intros l l'. induction 1; simpl; lia. Qed.

(** The number of values in a value, itself included. *)
Fixpoint json_size (v : json) : Z :=
  match v with
  | JArr l => 1 + sum_of json_size l
  | JObj l => 1 + sum_of (fun kv => json_size kv.2) l
  | _ => 1
  end.

(** The bytes of its strings and keys. *)
Fixpoint json_text (v : json) : Z :=
  match v with
  | JStr s => str_len s
  | JArr l => sum_of json_text l
  | JObj l => sum_of (fun kv => str_len kv.1 + json_text kv.2) l
  | _ => 0
  end.

Definition is_marker (v : json) : bool :=
  match v with JStr s => bool_decide (s ∈ ["[REDACTED]"; "[TRUNCATED]"]) | _ => false end.

(** At every depth, the value of a sensitive key is one of the two markers. *)
Fixpoint safe `{GoUnicode} (v : json) : bool :=
  match v with
  | JArr l => forallb safe l
  | JObj l => forallb (fun kv => implb (sensitiveKey kv.1) (is_marker kv.2) && safe kv.2) l
  | _ => true
  end.

(** What a stretch of the traversal that wrote [n] values in a row costs: its
    nodes and bytes come out of the budget, and once the nodes are gone every
    further value is a marker. *)
Record spends (levels : nat) (n size text : Z) (b b' : sanitizeBudget) : Prop := {
  sp_count : 0 <= n;
  sp_remaining : 0 <= bg_remaining b' <= bg_remaining b;
  sp_nodes : 0 <= bg_nodes b' <= bg_nodes b;
  sp_empty : bg_nodes b = 0 -> size = n;
  sp_within : 0 < bg_nodes b' -> size <= bg_nodes b - bg_nodes b';
  sp_size : size <= bg_nodes b - bg_nodes b' + 100 * Z.of_nat levels + n;
  sp_text : text <= bg_remaining b - bg_remaining b' + 14 * size }.

Record flags_le (b b' : sanitizeBudget) : Prop := {
  fl_redacted : bg_redacted b = true -> bg_redacted b' = true;
  fl_truncated : bg_truncated b = true -> bg_truncated b' = true }.

Definition budget_ok (b : sanitizeBudget) : Prop := 0 <= bg_remaining b /\ 0 <= bg_nodes b.
Definition unflagged (b : sanitizeBudget) : Prop := bg_redacted b = false /\ bg_truncated b = false.

#[export] Instance flags_le_preorder : PreOrder flags_le.
Proof. split; [by split|]. intros a b c [] []. split; auto. Qed.

Lemma unflagged_before b b' : flags_le b b' -> unflagged b' -> unflagged b.
Proof. intros [Hr Ht] [Er Et]. split; apply not_true_is_false; intros E; [rewrite Hr in Er|rewrite Ht in Et]; done. Qed.

Lemma spends_nil levels b : budget_ok b -> spends levels 0 0 0 b b.
Proof. intros []. split; lia. Qed.

Lemma spends_app levels n1 s1 t1 n2 s2 t2 b b1 b2 :
  spends levels n1 s1 t1 b b1 -> spends levels n2 s2 t2 b1 b2 -> spends levels (n1 + n2) (s1 + s2) (t1 + t2) b b2.
Proof. intros [] []. split; lia. Qed.

Lemma spends_ok levels n s t b b' : spends levels n s t b b' -> budget_ok b'.
Proof. intros []. split; lia. Qed.

Lemma str_len_app a b : str_len (a +:+ b) = str_len a + str_len b.
Proof. unfold str_len. rewrite slength_app. lia. Qed.

Lemma stake_len n s : str_len (stake n s) <= Z.of_nat n.
Proof. unfold str_len. revert s. induction n as [|n IH]; intros [|c s]; simpl; try lia. specialize (IH s). lia. Qed.

#[local] Arguments String.length : simpl never.
#[local] Arguments str_len : simpl never.

(** *** The members of a map in order *)
Lemma members_perm m : members m ≡ₚ map_to_list m.
Proof. apply merge_sort_Permutation. Qed.

Lemma members_nodup m : NoDup (members m).*1.
Proof. rewrite members_perm. apply NoDup_fst_map_to_list. Qed.

#[local] Instance key_le_total : Total key_le.
Proof. intros a b. apply (total string_le). Qed.
#[local] Instance key_le_trans : Transitive key_le.
Proof. intros a b c. apply (transitivity (R := string_le)). Qed.

Lemma sorted_keys_sorted l : sorted_keys l.*1 = true -> Sorted key_le l.
Proof.
  induction l as [|[a x] [|[b y] l] IH]; [constructor|by repeat constructor|].
  intros [Hab%string_ltb_le Hl]%andb_true_iff. constructor; [by apply IH|]. constructor. apply Hab.
Qed.

Lemma sorted_keys_nodup l : sorted_keys l = true -> NoDup l.
Proof.
  assert (Hlt : forall l, sorted_keys l = true -> Sorted (fun a b => string_le a b /\ a <> b) l).
  { clear. induction l as [|a [|b l] IH]; [constructor|by repeat constructor|].
    intros [Hab%string_ltb_le Hl]%andb_true_iff. constructor; [by apply IH|by constructor]. }
  intros Hs%Hlt%Sorted_StronglySorted.
  - induction Hs as [|a l _ IH Ha]; constructor; [|done]. intros Hin.
    rewrite Forall_forall in Ha. by destruct (Ha _ Hin) as [_ []].
  - intros a b c [? Hab] [? Hbc]. split; [by etrans|]. intros ->. by destruct Hab, (anti_symm string_le b c).
Qed.

Lemma NoDup_fst_inj {A B} (l : list (A * B)) x y : NoDup l.*1 -> x ∈ l -> y ∈ l -> x.1 = y.1 -> x = y.
Proof.
  intros Hn Hx Hy E. destruct x as [a x], y as [b y]. simpl in E. subst b. f_equal.
  induction l as [|[c z] l IH]; [by apply elem_of_nil in Hx|]. apply NoDup_cons in Hn as [Hc Hn].
  apply elem_of_cons in Hx as [Ex|Hx]; apply elem_of_cons in Hy as [Ey|Hy]; simplify_eq/=; [done|..|by apply IH];
    by destruct Hc; apply list_elem_of_fmap; eexists (_, _).
Qed.

Lemma sorted_members l out : sorted_keys l.*1 = true -> out ≡ₚ l -> merge_sort key_le out = l.
Proof.
  intros Hs Hp. apply (Sorted_unique_strong key_le).
  - intros x y Hx Hy Hxy Hyx. rewrite merge_sort_Permutation, Hp in Hx.
    eapply NoDup_fst_inj; [by apply sorted_keys_nodup|done|done|]. by apply (anti_symm string_le).
  - apply Sorted_merge_sort, _.
  - by apply sorted_keys_sorted.
  - by rewrite merge_sort_Permutation.
Qed.

(** ** What a traversal gives *)
Section Cleaned.
  Context `{GoUnicode} (text_ok number_ok : string -> bool).
  Implicit Types (b : sanitizeBudget) (v x : json) (visit : json -> string -> sanitizeBudget -> json * sanitizeBudget).

Record cleaned (levels : nat) v (key : string) b x b' : Prop := {
  cl_spends : spends levels 1 (json_size x) (json_text x) b b';
  cl_flags : flags_le b b';
  cl_safe : safe x = true;
  cl_marker : sensitiveKey key = true -> is_marker x = true;
  cl_same : canonical_with text_ok number_ok v = true -> unflagged b' -> x = v }.

Definition cleans levels visit : Prop := forall v key b, budget_ok b ->
  cleaned levels v key b (visit v key b).1 (visit v key b).2.

Record cleaned_list {A} (levels limit : nat) (size text : A -> Z) (safe_item canonical_item : A -> bool)
    (l : list A) b (r : list A * sanitizeBudget) : Prop := {
  cs_spends : spends levels (Z.of_nat (length r.1)) (sum_of size r.1) (sum_of text r.1) b r.2;
  cs_flags : flags_le b r.2;
  cs_safe : forallb safe_item r.1 = true;
  cs_limit : (length r.1 <= limit)%nat;
  cs_same : forallb canonical_item l = true -> (length l <= limit)%nat -> unflagged r.2 -> r.1 = l }.

Lemma members_cleaned levels visit limit l b :
  cleans levels visit -> budget_ok b ->
  cleaned_list levels limit (fun kv => json_size kv.2) (fun kv => str_len kv.1 + json_text kv.2)
    (fun kv => implb (sensitiveKey kv.1) (is_marker kv.2) && safe kv.2)
    (fun kv => canonical_with text_ok number_ok kv.2) l b (clean_members visit limit l b).
Proof.
  intros Hv. revert l b. induction limit as [|limit IH]; intros [|[k v] l] b Hb; simpl;
    try (split; simpl; [by apply spends_nil|reflexivity|done|lia|simpl; intros; lia || done]).
  destruct (bg_remaining b <? str_len k) eqn:Ek.
  { bools. destruct Hb. split; simpl; [split; simpl; lia|split; simpl; auto|done|lia|]. intros _ _ []. done. }
  bools. assert (Hk : 0 <= str_len k) by (unfold str_len; lia).
  assert (Hb1 : budget_ok (spend (str_len k) b)) by (destruct Hb; split; simpl; lia).
  destruct (Hv v k _ Hb1) as [S1 F1 Sf1 M1 E1]. destruct (visit v k _) as [x b1]. simpl in *.
  destruct (IH l b1 (spends_ok _ _ _ _ _ _ S1)) as [S2 F2 Sf2 L2 E2].
  destruct (clean_members visit limit l b1) as [out b2]. simpl in *. split; simpl.
  - assert (S1' : spends levels 1 (json_size x) (str_len k + json_text x) b b1).
    { destruct S1, Hb; simpl in *. split; lia. }
    pose proof (spends_app _ _ _ _ _ _ _ _ _ _ S1' S2) as S. by rewrite <-Nat2Z.inj_succ, Zplus_comm, Z.add_1_r in S || (destruct S; split; lia).
  - etrans; [|exact F2]. destruct F1; split; simpl in *; auto.
  - rewrite Sf1, Sf2. destruct (sensitiveKey k); simpl; [by rewrite M1|done].
  - lia.
  - intros [Hc Hl]%andb_true_iff Hlen Hu. rewrite E1, E2; try done; [lia|]. by eapply unflagged_before.
Qed.

Lemma items_cleaned levels visit key l b :
  cleans levels visit -> budget_ok b ->
  cleaned_list levels (length l) json_size json_text safe (canonical_with text_ok number_ok) l b
    (clean_items (fun v => visit v key) l b).
Proof.
  intros Hv. revert b. induction l as [|v l IH]; intros b Hb; simpl.
  { split; simpl; [by apply spends_nil|reflexivity|done..]. }
  destruct (Hv v key _ Hb) as [S1 F1 Sf1 M1 E1]. destruct (visit v key _) as [x b1]. simpl in *.
  destruct (IH b1 (spends_ok _ _ _ _ _ _ S1)) as [S2 F2 Sf2 L2 E2].
  destruct (clean_items _ l b1) as [out b2]. simpl in *. split; simpl.
  - pose proof (spends_app _ _ _ _ _ _ _ _ _ _ S1 S2) as S. destruct S; split; lia.
  - by etrans.
  - by rewrite Sf1, Sf2.
  - lia.
  - intros [Hc Hl]%andb_true_iff Hlen Hu. rewrite E1, E2; try done. by eapply unflagged_before.
Qed.

Lemma string_cleaned levels s key b b0 :
  budget_ok b -> bg_nodes b0 = bg_nodes b + 1 -> bg_remaining b0 = bg_remaining b -> flags_le b0 b ->
  sensitiveKey key = false ->
  cleaned (S levels) (JStr s) key b0 (clean_string s b).1 (clean_string s b).2.
Proof.
  intros [Hr Hn] En Er Hf Hk. unfold clean_string. simpl. assert (Hs : 0 <= str_len s) by (unfold str_len; lia).
  set (limit := Z.min (str_len s) maxStringBytes). set (c1 := maxStringBytes <? str_len s).
  assert (E1 : bg_remaining (truncated_if c1 b) = bg_remaining b /\ bg_nodes (truncated_if c1 b) = bg_nodes b)
    by (by destruct c1).
  destruct E1 as [R1 N1]. rewrite R1. set (c2 := bg_remaining b <? limit).
  assert (E2 : bg_remaining (truncated_if c2 (truncated_if c1 b)) = bg_remaining b /\
               bg_nodes (truncated_if c2 (truncated_if c1 b)) = bg_nodes b) by (by destruct c2).
  destruct E2 as [R2 N2]. rewrite R2. set (limit' := Z.min limit (bg_remaining b)).
  assert (Hlim : 0 <= limit' <= bg_remaining b /\ limit' <= str_len s) by (unfold limit', limit, maxStringBytes; lia).
  split.
  - assert (Ht : str_len (if limit' <? str_len s then stake (Z.to_nat limit') s +:+ suffix else s) <= limit' + 14).
    { destruct (limit' <? str_len s) eqn:E; bools; [|lia]. rewrite str_len_app.
      pose proof (stake_len (Z.to_nat limit') s). change (str_len suffix) with 14. lia. }
    simpl. split; simpl; lia.
  - etrans; [exact Hf|]. split; simpl; destruct c1, c2; auto.
  - done.
  - congruence.
  - intros _ [_ Hu]. simpl in Hu. assert (c2 = false /\ c1 = false) as [C2 C1] by (by destruct c1, c2).
    unfold c1, c2 in C1, C2. bools.
    assert (limit' <? str_len s = false) as -> by (apply Z.ltb_ge; unfold limit', limit in *; lia). done.
Qed.

(** A marker in place of a value leaves a flag. *)
Lemma marker_cleaned levels v key b x b' :
  budget_ok b -> is_marker x = true -> bg_remaining b' = bg_remaining b ->
  bg_nodes b' = Z.max 0 (bg_nodes b - 1) -> flags_le b b' -> ~ unflagged b' -> cleaned levels v key b x b'.
Proof.
  intros [Hr Hn] Hx Er En Hf Hu. assert (E : json_size x = 1 /\ json_text x <= 14 /\ safe x = true).
  { destruct x as [| | |s| |]; try done. apply bool_decide_eq_true in Hx. set_unfold in Hx.
    destruct Hx as [->|[->|[]]]; by vm_compute. }
  destruct E as (E1 & E2 & E3). split; [split; lia|done..].
Qed.

Ltac close_marker :=
  apply marker_cleaned; [done|by vm_compute|done|simpl; lia|by split; simpl; auto|by intros []].

Lemma container_spends levels n s t b0 b1 b' :
  bg_nodes b0 = bg_nodes b1 + 1 -> bg_remaining b0 = bg_remaining b1 -> n <= 100 ->
  spends levels n s t b1 b' -> spends (S levels) 1 (1 + s) t b0 b'.
Proof. intros E1 E2 Hn []. split; lia. Qed.

Variable walk : Z -> list (string * json) -> list (string * json).
Hypothesis walk_perm : forall n l, walk n l ≡ₚ l.

Lemma clean_cleaned levels : cleans levels (clean walk levels).
Proof using walk_perm.
  induction levels as [|levels IH]; intros v key b Hb; cbn [clean]; pose proof Hb as [Hr Hn];
    (destruct (bg_nodes b <=? 0) eqn:En; bools;
      [close_marker|]);
    (destruct (sensitiveKey key) eqn:Ek;
      [close_marker|]).
  { close_marker. }
  destruct (bg_remaining (take_node b) <=? 0) eqn:Er; bools;
    [close_marker|].
  assert (Hleaf : forall x, json_size x = 1 -> json_text x = 0 -> safe x = true -> cleaned (S levels) x key b x (take_node b)).
  { intros x Hs Ht Hsafe. split; [split; simpl; lia|by split; simpl; auto|done|congruence|done]. }
  destruct v as [|c|n|s|l|l]; try by apply Hleaf.
  - apply string_cleaned; [split; simpl in *; lia|simpl; lia|done|by split; simpl; auto|done].
  - set (c := maxArrayItems <? Z.of_nat (length l)). set (b1 := truncated_if c (take_node b)).
    assert (B1 : budget_ok b1 /\ bg_nodes b = bg_nodes b1 + 1 /\ bg_remaining b = bg_remaining b1 /\ flags_le b b1).
    { unfold b1, budget_ok. destruct c; simpl; split_and!; try lia; split; simpl; auto. }
    destruct B1 as (Hb1 & N1 & R1 & F1). set (l' := take _ l).
    destruct (items_cleaned levels (clean walk levels) key l' b1 IH Hb1) as [S2 F2 Sf2 L2 E2].
    destruct (clean_items _ l' b1) as [out b2]. simpl in *. split; simpl; try done.
    + eapply container_spends; [done|done| |exact S2]. subst l'. rewrite length_take in L2. unfold maxArrayItems in *. lia.
    + by etrans.
    + congruence.
    + intros Hc Hu. f_equal. destruct (unflagged_before _ _ F2 Hu) as [_ Ht].
      assert (C : c = false) by (by unfold b1 in Ht; destruct c). unfold c in C. bools.
      assert (l' = l) as E by (apply firstn_all2; lia). rewrite E in *. by apply E2.
  - set (c := maxMapItems <? Z.of_nat (length l)). set (b1 := truncated_if c (take_node b)).
    assert (B1 : budget_ok b1 /\ bg_nodes b = bg_nodes b1 + 1 /\ bg_remaining b = bg_remaining b1 /\ flags_le b b1).
    { unfold b1, budget_ok. destruct c; simpl; split_and!; try lia; split; simpl; auto. }
    destruct B1 as (Hb1 & N1 & R1 & F1). set (n := Z.to_nat _).
    destruct (members_cleaned levels (clean walk levels) n (walk (bg_nodes b1) l) b1 IH Hb1) as [S2 F2 Sf2 L2 E2].
    destruct (clean_members _ n _ b1) as [out b2]. simpl in *. split; simpl; try done.
    + rewrite !(merge_sort_Permutation key_le out). eapply container_spends; [done|done| |exact S2].
      unfold n, maxMapItems in *. lia.
    + by etrans.
    + apply forallb_forall. intros kv Hin%list_elem_of_In. rewrite merge_sort_Permutation in Hin.
      rewrite forallb_forall in Sf2. by apply Sf2, list_elem_of_In.
    + congruence.
    + intros Hc Hu. f_equal. apply andb_true_iff in Hc as [[Hs _]%andb_true_iff Hc].
      destruct (unflagged_before _ _ F2 Hu) as [_ Ht].
      assert (C : c = false) by (by unfold b1 in Ht; destruct c). unfold c in C. bools.
      apply sorted_members; [done|]. rewrite E2; [by apply walk_perm| |rewrite walk_perm; lia|done].
      apply forallb_forall. intros kv Hin%list_elem_of_In. rewrite walk_perm in Hin.
      rewrite forallb_forall in Hc. by apply Hc, list_elem_of_In.
Qed.

End Cleaned.

(** ** The detail of a log *)
Lemma canonical_weaken (t n : string -> bool) v :
  canonical_with t n v = true -> canonical_with (fun _ => true) (fun _ => true) v = true.
Proof.
  induction v as [|b|m|s|l Hl|l Hl] using json_nested_ind; try done; cbn [canonical_with].
  - rewrite !forallb_forall. rewrite Forall_forall in Hl. intros Hc x Hx. apply Hl; [by apply list_elem_of_In|by apply Hc].
  - intros [[Hs _]%andb_true_iff Hc]%andb_true_iff. rewrite Hs. simpl. apply andb_true_iff. split.
    + by apply forallb_forall.
    + rewrite !forallb_forall in Hc |- *. rewrite Forall_forall in Hl. intros x Hx.
      apply Hl; [by apply list_elem_of_In|by apply Hc].
Qed.

Lemma sorted_nodup_keys l : Sorted string_le l -> NoDup l -> sorted_keys l = true.
Proof.
  induction l as [|a [|b l] IH]; [done..|]. intros [Hs Hab]%Sorted_inv [Ha Hn]%NoDup_cons.
  apply HdRel_inv in Hab. cbn [sorted_keys]. apply andb_true_iff. split; [|by apply IH].
  apply string_ltb_le. split; [done|]. intros ->. apply Ha. left.
Qed.

Lemma sorted_fst l : Sorted key_le l -> Sorted string_le l.*1.
Proof. induction 1 as [|a l _ IH Ha]; constructor; [done|]. destruct Ha; by constructor. Qed.

Lemma members_canonical `{GoJson} vs :
  canonical_with (fun _ => true) (fun _ => true) (JObj (members (compactMap vs))) = true.
Proof.
  cbn [canonical_with]. rewrite sorted_nodup_keys; [simpl|apply sorted_fst, Sorted_merge_sort, _|apply members_nodup].
  apply andb_true_iff. split; [by apply forallb_forall|]. apply forallb_forall. intros [k v] Hin%list_elem_of_In.
  rewrite members_perm, elem_of_map_to_list in Hin. unfold compactMap in Hin. rewrite lookup_omap_Some in Hin.
  destruct Hin as (r & Hr & _). simpl in *. unfold normalize in Hr. destruct r as [e|data]; [done|].
  destruct (vacuous data); [done|]. destruct (Unmarshal data) as [e|w] eqn:E; [done|]. simplify_eq.
  eapply canonical_weaken, unmarshal_canonical, E.
Qed.

Definition part_size (o : option json) : Z := from_option json_size 0 o.
Definition part_text (o : option json) : Z := from_option json_text 0 o.
Definition part_safe `{GoUnicode} (o : option json) : bool := from_option safe true o.

(** What a field shows when nothing is withheld from it. *)
Definition content `{GoJson} (shown : bool) (vs : values) : option json :=
  if shown && (0 <? Z.of_nat (size (compactMap vs))) then Some (JObj (members (compactMap vs))) else None.

Section Details.
  Context `{GoUnicode} `{GoJson}.
  Variable walk : Z -> list (string * json) -> list (string * json).
  Hypothesis walk_perm : forall n l, walk n l ≡ₚ l.

Record part_spec (shown : bool) vs (b : sanitizeBudget) (o : option json) b' : Prop := {
  ps_spends : exists n, n <= 1 /\ spends (S maxDepth) n (part_size o) (part_text o) b b';
  ps_flags : flags_le b b';
  ps_safe : part_safe o = true;
  ps_shown : shown = false -> o = None;
  ps_same : unflagged b' -> o = content shown vs }.

Lemma clean_part_spec shown vs b : budget_ok b ->
  part_spec shown vs b (clean_part walk shown (compactMap vs) b).1 (clean_part walk shown (compactMap vs) b).2.
Proof using walk_perm.
  intros Hb. assert (Hc : content shown vs = if shown && (0 <? Z.of_nat (size (compactMap vs)))
    then Some (JObj (members (compactMap vs))) else None) by done.
  unfold clean_part. destruct (shown && _) eqn:E.
  - destruct (clean_cleaned (fun _ => true) (fun _ => true) walk walk_perm (S maxDepth)
      (JObj (members (compactMap vs))) EmptyString b Hb) as [S F Sf _ Sm].
    destruct (clean walk _ _ _ b) as [x b']. simpl in *. split; simpl; try done.
    + by exists 1.
    + by intros ->.
    + intros Hu. rewrite Hc, Sm; [done|apply members_canonical|done].
  - split; simpl; try done. exists 0. split; [lia|by apply spends_nil].
Qed.

Lemma part_then shown vs b : budget_ok b -> exists o b',
  clean_part walk shown (compactMap vs) b = (o, b') /\ part_spec shown vs b o b' /\ budget_ok b'.
Proof using walk_perm.
  intros Hb. pose proof (clean_part_spec shown vs b Hb) as S. destruct (clean_part _ _ _ _) as [o b'].
  exists o, b'. split_and!; [done|done|]. destruct S as [(n & _ & S) _ _ _ _]. by eapply spends_ok.
Qed.

(** The four fields, one after the other. *)
Lemma detail_parts source :
  let shown := negb (so_ContentHidden source) in
  let d := ProjectDetail walk source in
  exists b1 b2 b3 b4,
    part_spec shown (so_Request source) (mkBudget maxTotalBytes maxTotalNodes false false) (dt_Request d) b1 /\
    part_spec shown (so_Response source) b1 (dt_Response d) b2 /\
    part_spec true (so_Routing source) b2 (dt_Routing d) b3 /\
    part_spec shown (so_Error source) b3 (dt_Error d) b4 /\
    dt_Redacted d = bg_redacted b4 /\ dt_Truncated d = bg_truncated b4.
Proof using walk_perm.
  intros shown. unfold ProjectDetail. fold shown.
  destruct (part_then shown (so_Request source) (mkBudget maxTotalBytes maxTotalNodes false false))
    as (o1 & b1 & -> & S1 & Hb1); [split; simpl; unfold maxTotalBytes, maxTotalNodes; lia|].
  destruct (part_then shown (so_Response source) b1 Hb1) as (o2 & b2 & -> & S2 & Hb2).
  destruct (part_then true (so_Routing source) b2 Hb2) as (o3 & b3 & -> & S3 & Hb3).
  destruct (part_then shown (so_Error source) b3 Hb3) as (o4 & b4 & -> & S4 & _).
  exists b1, b2, b3, b4. by split_and!.
Qed.

(** C35. What leaves the gateway is safe, in whatever order maps are walked: in
    each of the four fields, at every depth, the value of a sensitive key is
    "[REDACTED]" or "[TRUNCATED]"; when content is hidden, there is no request,
    response or error, and none is said to be available. *)
Theorem detail_safe source :
  let d := ProjectDetail walk source in
  part_safe (dt_Request d) = true /\ part_safe (dt_Response d) = true /\
  part_safe (dt_Routing d) = true /\ part_safe (dt_Error d) = true /\
  dt_Summary d = ProjectList source /\ dt_ContentHidden d = so_ContentHidden source /\
  (so_ContentHidden source = true ->
     dt_Request d = None /\ dt_Response d = None /\ dt_Error d = None /\ dt_ContentAvailable d = false).
Proof using walk_perm.
  simpl. destruct (detail_parts source) as (b1 & b2 & b3 & b4 & [] & [] & [] & [] & _). split_and!; try done.
  - unfold ProjectDetail. by repeat destruct (clean_part _ _ _ _).
  - unfold ProjectDetail. by repeat destruct (clean_part _ _ _ _).
  - intros Hh. rewrite Hh in *. split_and!; auto. unfold ProjectDetail. rewrite Hh.
    by repeat destruct (clean_part _ _ _ _).
Qed.

(** The two flags are honest: when a detail says that nothing was redacted and
    nothing truncated, each field it may show is the log's own content, every
    value included, whatever the order of the walk. *)
Theorem flags_honest source :
  let d := ProjectDetail walk source in
  let shown := negb (so_ContentHidden source) in
  dt_Redacted d = false -> dt_Truncated d = false ->
  dt_Request d = content shown (so_Request source) /\ dt_Response d = content shown (so_Response source) /\
  dt_Routing d = content true (so_Routing source) /\ dt_Error d = content shown (so_Error source).
Proof using walk_perm.
  simpl. destruct (detail_parts source) as (b1 & b2 & b3 & b4 & [] & [] & [] & [] & -> & ->). intros Hr Ht.
  assert (U4 : unflagged b4) by done. assert (U3 : unflagged b3) by (by eapply unflagged_before).
  assert (U2 : unflagged b2) by (by eapply unflagged_before). assert (U1 : unflagged b1) by (by eapply unflagged_before).
  split_and!; auto.
Qed.

(** C40. A detail is bounded, however large the stored log: its four fields hold
    at most 3304 values (the 2000 nodes, and the markers written once they are
    gone: at most a hundred at each of the thirteen levels) and at most 570 544
    bytes of strings and keys (the 512 KiB, and fourteen bytes of marker or
    suffix for a value). *)
Theorem detail_bounded source :
  let d := ProjectDetail walk source in
  part_size (dt_Request d) + part_size (dt_Response d) + part_size (dt_Routing d) + part_size (dt_Error d) <= 3304 /\
  part_text (dt_Request d) + part_text (dt_Response d) + part_text (dt_Routing d) + part_text (dt_Error d) <= 570544.
Proof using walk_perm.
  simpl. destruct (detail_parts source) as (b1 & b2 & b3 & b4 & [(n1 & N1 & S1) _ _ _ _] & [(n2 & N2 & S2) _ _ _ _] &
    [(n3 & N3 & S3) _ _ _ _] & [(n4 & N4 & S4) _ _ _ _] & _ & _).
  pose proof (spends_app _ _ _ _ _ _ _ _ _ _ (spends_app _ _ _ _ _ _ _ _ _ _ (spends_app _ _ _ _ _ _ _ _ _ _ S1 S2) S3) S4) as [].
  simpl in *. unfold maxTotalBytes, maxTotalNodes, maxDepth in *. lia.
Qed.

End Details.

(** ** Witnesses: maps walked backwards *)
#[local] Existing Instances ascii_unicode toy_json.

Definition backwards (n : Z) (l : list (string * json)) : list (string * json) := reverse l.
Lemma backwards_perm n l : backwards n l ≡ₚ l.
Proof. apply reverse_Permutation. Qed.

Definition demo_source (message : json) : Source :=
  mkSource "log_1" "success" "openai" "gpt-4o" "chat" "vk_1" 5 None 12 None false false
    (list_to_map [("messages", inr (Marshal message)); ("tools", inr "null")]) ∅
    (list_to_map [("provider", inr (Marshal (JStr "openai")))]) (list_to_map [("details", inl (New "no"))]).

Definition demo_secret : json := JObj [("a", JNum "1"); ("api_key", JArr [JStr "sk-1"]); ("x-Auth-Token", JNull)].
Definition demo_plain : json := JObj [("content", JStr "hi"); ("role", JStr "user")].

Lemma demo_secret_detail :
  let d := ProjectDetail backwards (demo_source demo_secret) in
  dt_Redacted d = true /\ dt_Truncated d = false /\ dt_ContentAvailable d = true /\
  dt_Request d = Some (JObj [("messages", JObj [("a", JNum "1"); ("api_key", redacted); ("x-Auth-Token", redacted)])]).
Proof. by vm_compute. Qed.

Lemma detail_safe_witness :
  let d := ProjectDetail backwards (demo_source demo_secret) in
  part_safe (dt_Request d) = true /\ dt_Redacted d = true /\ dt_Truncated d = false /\ dt_ContentAvailable d = true /\
  dt_Request d = Some (JObj [("messages", JObj [("a", JNum "1"); ("api_key", redacted); ("x-Auth-Token", redacted)])]).
Proof.
  split; [exact (proj1 (detail_safe backwards backwards_perm (demo_source demo_secret)))|].
  exact demo_secret_detail.
Defined.

Lemma demo_plain_flags :
  dt_Redacted (ProjectDetail backwards (demo_source demo_plain)) = false /\
  dt_Truncated (ProjectDetail backwards (demo_source demo_plain)) = false.
Proof. by vm_compute. Qed.

Lemma demo_plain_content :
  content true (so_Request (demo_source demo_plain)) = Some (JObj [("messages", demo_plain)]).
Proof. by vm_compute. Qed.

Lemma flags_honest_witness :
  dt_Request (ProjectDetail backwards (demo_source demo_plain)) = Some (JObj [("messages", demo_plain)]).
Proof.
  exact (eq_trans (proj1 (flags_honest backwards backwards_perm (demo_source demo_plain)
    (proj1 demo_plain_flags) (proj2 demo_plain_flags))) demo_plain_content).
Defined.

Lemma detail_bounded_witness :
  let d := ProjectDetail backwards (demo_source demo_plain) in
  part_size (dt_Request d) = 4 /\ part_text (dt_Request d) = 25 /\
  part_size (dt_Request d) + part_size (dt_Response d) + part_size (dt_Routing d) + part_size (dt_Error d) <= 3304.
Proof.
  split; [by vm_compute|]. split; [by vm_compute|]. exact (proj1 (detail_bounded backwards backwards_perm (demo_source demo_plain))).
Defined.
