(* ===== verification/InternalApi.v ===== *)
(** * The gateway's internal endpoints (cmd/maas-gateway/main.go)

    The model catalog and the request logs that the control plane asks the
    gateway for.  The catalog, the provider list and the log manager are
    Bifrost's: arguments, and an interface with the documented effect of the
    search filter.  Query strings are lists of pairs. *)
From S2P Require Import Prelude GoStrings Sql AuditLog RequestLog.

(** [strings.Split] at a one-byte separator. *)
Fixpoint split_byte (c : ascii) (s : string) : list string :=
  match s with
  | EmptyString => [EmptyString]
  | String d s' =>
      if bool_decide (d = c) then EmptyString :: split_byte c s' else
      match split_byte c s' with
      | [] => [String d EmptyString]
      | h :: t => String d h :: t
      end
  end.

(** A handler either sends an error with a status or answers with 200. *)
Inductive answer (A : Type) :=
| Refused (status : Z) (msg : string)
| Sent (a : A).
#[global] Arguments Refused {A}.
#[global] Arguments Sent {A}.

(** [subtle.ConstantTimeCompare] is 1 exactly on equal texts. *)
Definition token_ok (token provided : string) : bool :=
  negb (is_empty token) && bool_decide (provided = token).

(** A value is kept unless it is empty or was met before. *)
Definition keep_new (candidate : string) (acc : list string) : list string :=
  if is_empty candidate then acc else
  if bool_decide (candidate ∈ acc) then acc else acc ++ [candidate].

(** ** The model catalog *)
Record catalogModel := mkCatalogModel { cm_ID : string; cm_Provider : string; cm_Model : string }.

Definition model_by_id (a b : catalogModel) : Prop := string_le (cm_ID a) (cm_ID b).
#[export] Instance model_by_id_dec : RelDecision model_by_id.
Proof. intros a b. unfold model_by_id. apply _. Defined.

Definition model_id (provider model : string) : string := provider +:+ "/" +:+ model.

Definition add_model (provider : string) (models : list catalogModel) (model : string) : list catalogModel :=
  let model := trim_space model in
  if is_empty model then models else
  let id := model_id provider model in
  if bool_decide (id ∈ cm_ID <$> models) then models else models ++ [mkCatalogModel id provider model].

Definition registerInternalModelCatalog (token provided : string) (catalog : option (string -> list string))
    (providers : error + list string) : answer (list catalogModel) :=
  if negb (token_ok token provided) then Refused 401 "unauthorized" else
  match providers, catalog with
  | inr providers, Some catalog =>
      let models := foldl (fun models provider => foldl (add_model provider) models (catalog provider)) [] providers in
      Sent (merge_sort model_by_id models)
  | _, _ => Refused 503 "model catalog unavailable"
  end.

(** ** The request logs *)

(** A field of a log as [json.Marshal] writes it or fails to. *)
Definition outcome_of_marshal : Type := error + string.

Record Log := mkLog {
  lg_ID : string; lg_Timestamp : Z; lg_Status : string; lg_Provider : string; lg_Model : string; lg_Object : string;
  lg_Latency : option string; lg_TotalTokens : Z; lg_Cost : option string; lg_Stream : bool;
  lg_VirtualKeyID : option string; lg_ContentHidden : bool;
  lg_InputHistoryParsed : outcome_of_marshal; lg_ResponsesInputHistoryParsed : outcome_of_marshal;
  lg_ParamsParsed : outcome_of_marshal; lg_ToolsParsed : outcome_of_marshal;
  lg_SpeechInputParsed : outcome_of_marshal; lg_TranscriptionInputParsed : outcome_of_marshal;
  lg_OCRInputParsed : outcome_of_marshal; lg_ImageGenerationInputParsed : outcome_of_marshal;
  lg_ImageEditInputParsed : outcome_of_marshal; lg_ImageVariationInputParsed : outcome_of_marshal;
  lg_VideoGenerationInputParsed : outcome_of_marshal; lg_VideoEditInputParsed : outcome_of_marshal;
  lg_OutputMessageParsed : outcome_of_marshal; lg_ResponsesOutputParsed : outcome_of_marshal;
  lg_EmbeddingOutputParsed : outcome_of_marshal; lg_RerankOutputParsed : outcome_of_marshal;
  lg_OCROutputParsed : outcome_of_marshal; lg_SpeechOutputParsed : outcome_of_marshal;
  lg_TranscriptionOutputParsed : outcome_of_marshal; lg_ImageGenerationOutputParsed : outcome_of_marshal;
  lg_ListModelsOutputParsed : outcome_of_marshal; lg_VideoGenerationOutputParsed : outcome_of_marshal;
  lg_VideoRetrieveOutputParsed : outcome_of_marshal; lg_VideoDownloadOutputParsed : outcome_of_marshal;
  lg_VideoListOutputParsed : outcome_of_marshal; lg_VideoDeleteOutputParsed : outcome_of_marshal;
  lg_TokenUsageParsed : outcome_of_marshal; lg_StopReason : outcome_of_marshal;
  lg_ServedModel : outcome_of_marshal; lg_Alias : outcome_of_marshal; lg_RoutingEnginesUsed : outcome_of_marshal;
  lg_NumberOfRetries : outcome_of_marshal; lg_FallbackIndex : outcome_of_marshal;
  lg_UpstreamLatency : outcome_of_marshal; lg_OverheadLatency : outcome_of_marshal;
  lg_ErrorDetailsParsed : outcome_of_marshal }.

Section Logs.
  Context `{GoUnicode} `{GoJson}.

(** The marshalled form of a text and of an optional number. *)
Definition marshal_text (s : string) : outcome_of_marshal := inr (Marshal (JStr s)).
Definition marshal_number (n : option string) : outcome_of_marshal :=
  inr (match n with None => "null" | Some x => Marshal (JNum x) end).

Definition empty_source : Source :=
  mkSource EmptyString EmptyString EmptyString EmptyString EmptyString EmptyString zero_time None 0 None
    false false ∅ ∅ ∅ ∅.

Definition requestLogSource (log : option Log) : Source :=
  match log with
  | None => empty_source
  | Some log =>
      mkSource (lg_ID log) (lg_Status log) (lg_Provider log) (lg_Model log) (lg_Object log)
        (default EmptyString (lg_VirtualKeyID log)) (lg_Timestamp log) (lg_Latency log) (lg_TotalTokens log)
        (lg_Cost log) (lg_Stream log) (lg_ContentHidden log)
        (list_to_map [
          ("messages", lg_InputHistoryParsed log); ("responses_input", lg_ResponsesInputHistoryParsed log);
          ("parameters", lg_ParamsParsed log); ("tools", lg_ToolsParsed log);
          ("speech", lg_SpeechInputParsed log); ("transcription", lg_TranscriptionInputParsed log);
          ("ocr", lg_OCRInputParsed log); ("image_generation", lg_ImageGenerationInputParsed log);
          ("image_edit", lg_ImageEditInputParsed log); ("image_variation", lg_ImageVariationInputParsed log);
          ("video_generation", lg_VideoGenerationInputParsed log); ("video_edit", lg_VideoEditInputParsed log)])
        (list_to_map [
          ("message", lg_OutputMessageParsed log); ("responses_output", lg_ResponsesOutputParsed log);
          ("embeddings", lg_EmbeddingOutputParsed log); ("rerank", lg_RerankOutputParsed log);
          ("ocr", lg_OCROutputParsed log); ("speech", lg_SpeechOutputParsed log);
          ("transcription", lg_TranscriptionOutputParsed log); ("image_generation", lg_ImageGenerationOutputParsed log);
          ("models", lg_ListModelsOutputParsed log); ("video_generation", lg_VideoGenerationOutputParsed log);
          ("video_retrieve", lg_VideoRetrieveOutputParsed log); ("video_download", lg_VideoDownloadOutputParsed log);
          ("video_list", lg_VideoListOutputParsed log); ("video_delete", lg_VideoDeleteOutputParsed log);
          ("token_usage", lg_TokenUsageParsed log); ("stop_reason", lg_StopReason log)])
        (list_to_map [
          ("provider", marshal_text (lg_Provider log)); ("model", marshal_text (lg_Model log));
          ("served_model", lg_ServedModel log); ("alias", lg_Alias log);
          ("routing_engines", lg_RoutingEnginesUsed log); ("number_of_retries", lg_NumberOfRetries log);
          ("fallback_index", lg_FallbackIndex log); ("latency_ms", marshal_number (lg_Latency log));
          ("upstream_latency_ms", lg_UpstreamLatency log); ("overhead_latency_ms", lg_OverheadLatency log)])
        (list_to_map [("details", lg_ErrorDetailsParsed log)])
  end.

(** The log manager of Bifrost's logging plugin: a page of the root logs whose
    virtual key is one of those asked for, with their number; a log by its id. *)
Class LogManager := {
  Search : list string -> Z -> Z -> error + list Log * Z;
  GetLog : string -> error + option Log;
  search_scoped : forall ids limit offset logs n, Search ids limit offset = inr (logs, n) ->
    forall log, log ∈ logs -> exists id, id ∈ ids /\ lg_VirtualKeyID log = Some id }.

Definition keyIDs (query : list (string * string)) : list string :=
  foldl (fun acc kv =>
    if bool_decide (kv.1 = "virtual_key_id")
    then foldl (fun acc candidate => keep_new (trim_space candidate) acc) acc (split_byte "," kv.2)
    else acc) [] query.

(** [QueryArgs().Peek]: the first value of a key, or the empty text. *)
Definition peek (key : string) (query : list (string * string)) : string :=
  default EmptyString (snd <$> head (filter (fun kv => kv.1 = key) query)).

Definition log_limit (text : string) : Z :=
  let limit := match parse_int64 text with Some n => if n <=? 0 then 50 else n | None => 50 end in
  if 100 <? limit then 100 else limit.
Definition log_offset (text : string) : Z :=
  match parse_int64 text with Some n => if n <? 0 then 0 else n | None => 0 end.

Definition internalLogs (token provided : string) (query : list (string * string)) (manager : option LogManager)
    : answer ListResponse :=
  if negb (token_ok token provided) then Refused 401 "unauthorized" else
  let ids := keyIDs query in
  match ids with
  | [] => Refused 400 "virtual_key_id is required"
  | _ =>
      let limit := log_limit (peek "limit" query) in
      let offset := log_offset (peek "offset" query) in
      match manager with
      | None => Refused 503 "request log store unavailable"
      | Some logManager =>
          match Search ids limit offset with
          | inl _ => Refused 500 "request log search failed"
          | inr (logs, n) =>
              Sent (mkListResponse ((fun log => ProjectList (requestLogSource (Some log))) <$> logs) limit offset n)
          end
      end
  end.

Definition internalLog (walk : Z -> list (string * json) -> list (string * json)) (token provided : string)
    (query : list (string * string)) (id : string) (manager : option LogManager) : answer Detail :=
  if negb (token_ok token provided) then Refused 401 "unauthorized" else
  let ids := keyIDs query in
  match ids with
  | [] => Refused 400 "virtual_key_id is required"
  | _ =>
      if blank id then Refused 404 "request log not found" else
      match manager with
      | None => Refused 503 "request log store unavailable"
      | Some logManager =>
          let allowed : gset string := list_to_set ids in
          match GetLog id with
          | inl _ => Refused 404 "request log not found"
          | inr entry =>
              let virtualKeyID := match entry with
                                  | Some log => default EmptyString (lg_VirtualKeyID log)
                                  | None => EmptyString
                                  end in
              if negb (Owns virtualKeyID allowed) then Refused 404 "request log not found"
              else Sent (ProjectDetail walk (requestLogSource entry))
          end
      end
  end.

End Logs.

(** The query the control plane sends (internal/httpapi/requestlogs.go): the
    keys it is confined to, and a page. *)
Definition log_query (ids : list string) (limit offset : Z) : list (string * string) :=
  [("limit", pretty limit); ("offset", pretty offset)] ++ ((fun id => ("virtual_key_id", id)) <$> ids).
Definition detail_query (ids : list string) : list (string * string) :=
  (fun id => ("virtual_key_id", id)) <$> ids.

(** ** The identifiers a query names *)
Lemma elem_of_keep_new x c acc : x ∈ keep_new c acc <-> x ∈ acc \/ (x = c /\ x <> EmptyString).
Proof.
  unfold keep_new, is_empty. case_bool_decide as Ec; [subst; tauto|].
  case_bool_decide as Hin; [|rewrite elem_of_app, list_elem_of_singleton]; split; intros; destruct_or?; destruct_and?;
    subst; tauto.
Qed.

Lemma elem_of_keep_all x l acc :
  x ∈ foldl (fun acc c => keep_new (trim_space c) acc) acc l <-> x ∈ acc \/ (x <> EmptyString /\ x ∈ trim_space <$> l).
Proof.
  revert acc. induction l as [|c l IH]; intros acc; simpl; [|rewrite IH, elem_of_keep_new, elem_of_cons; tauto].
  rewrite elem_of_nil. tauto.
Qed.

Lemma elem_of_keyIDs x query :
  x ∈ keyIDs query <->
  x <> EmptyString /\ exists v, ("virtual_key_id", v) ∈ query /\ x ∈ trim_space <$> split_byte "," v.
Proof.
  unfold keyIDs. enough (forall acc, x ∈ foldl (fun acc kv => if bool_decide (kv.1 = "virtual_key_id")
      then foldl (fun acc candidate => keep_new (trim_space candidate) acc) acc (split_byte "," kv.2) else acc) acc query <->
    x ∈ acc \/ (x <> EmptyString /\ exists v, ("virtual_key_id", v) ∈ query /\ x ∈ trim_space <$> split_byte "," v)) as E
    by (rewrite E, elem_of_nil; tauto).
  induction query as [|[k v] query IH]; intros acc; simpl.
  { split; [tauto|]. intros [?|(_ & v & Hv & _)]; [done|by apply elem_of_nil in Hv]. }
  rewrite IH. setoid_rewrite elem_of_cons. case_bool_decide as Ek.
  - subst k. rewrite elem_of_keep_all. split.
    + intros [[?|[? ?]]|(? & w & ? & ?)]; eauto 10.
    + intros [?|(? & w & [[= ->]|?] & ?)]; eauto 10.
  - split; [intros [?|(? & w & ? & ?)]; eauto 10|]. intros [?|(? & w & [E|?] & ?)]; [by left|by injection E as <- _|eauto 10].
Qed.

(** A virtual key's identifier as the store makes it: nothing to trim, no comma. *)
Definition plain_id (id : string) : Prop :=
  id <> EmptyString /\ trim_space id = id /\ index_byte id "," = None.

Lemma split_byte_none c s : index_byte s c = None -> split_byte c s = [s].
Proof.
  induction s as [|d s IH]; simpl; [done|]. case_bool_decide; [done|].
  destruct (index_byte s c) eqn:E; [done|]. intros _. by rewrite IH.
Qed.

Lemma detail_query_ids ids x : Forall plain_id ids -> x ∈ keyIDs (detail_query ids) <-> x ∈ ids.
Proof.
  rewrite Forall_forall. intros Hp. rewrite elem_of_keyIDs. unfold detail_query. split.
  - intros (_ & v & Hv & Hx). apply list_elem_of_fmap in Hv as (id & [= ->] & Hid). destruct (Hp _ Hid) as (_ & Ht & Hc).
    rewrite split_byte_none in Hx by done. simpl in Hx. rewrite Ht in Hx. by apply list_elem_of_singleton in Hx as ->.
  - intros Hx. destruct (Hp _ Hx) as (He & Ht & Hc). split; [done|]. exists x. split.
    + apply list_elem_of_fmap. by exists x.
    + rewrite split_byte_none by done. simpl. rewrite Ht. by apply list_elem_of_singleton.
Qed.

Lemma log_query_ids ids limit offset : keyIDs (log_query ids limit offset) = keyIDs (detail_query ids).
Proof. reflexivity. Qed.

Lemma Owns_ids k ids : Owns k (list_to_set ids) = true <-> k ∈ ids.
Proof. unfold Owns. by rewrite bool_decide_eq_true, elem_of_list_to_set. Qed.

Lemma token_ok_spec token provided : token_ok token provided = true <-> provided = token /\ token <> EmptyString.
Proof. unfold token_ok, is_empty. rewrite andb_true_iff, negb_true_iff, bool_decide_eq_false, bool_decide_eq_true. tauto. Qed.

#[local] Arguments requestLogSource : simpl never.
#[local] Arguments ProjectDetail : simpl never.

(** ** What the endpoints answer *)
Section Answers.
  Context `{GoUnicode} `{GoJson}.

(** The control plane's query for one log is answered with a detail exactly
    when the token is the configured, non-empty one, the store has the log, and
    the log was made with one of the keys the control plane named; the detail is
    the projection of that log.  A log without a key, an error of the store and
    an unknown log are all refused. *)
Theorem internal_log_exact walk token provided ids id (m : LogManager) d :
  Forall plain_id ids ->
  internalLog walk token provided (detail_query ids) id (Some m) = Sent d <->
  provided = token /\ token <> EmptyString /\ blank id = false /\
  exists log k, GetLog id = inr (Some log) /\ lg_VirtualKeyID log = Some k /\ k ∈ ids /\
    d = ProjectDetail walk (requestLogSource (Some log)).
Proof.
  intros Hp. assert (Hids : forall x, x ∈ keyIDs (detail_query ids) <-> x ∈ ids) by (intros; by apply detail_query_ids).
  unfold internalLog. pose proof (token_ok_spec token provided) as Htok.
  destruct (token_ok token provided) eqn:Et; simpl.
  2: { split; [done|]. intros (E1 & E2 & _). by pose proof (proj2 Htok (conj E1 E2)). }
  destruct (proj1 Htok eq_refl) as [E1 E2].
  set (l := keyIDs (detail_query ids)) in *. assert (El : l = [] \/ l <> []) by (destruct l; auto).
  destruct El as [El|El].
  { rewrite El. split; [done|]. intros (_ & _ & _ & log & k & _ & _ & Hk & _). apply Hids in Hk. rewrite El in Hk.
    by apply elem_of_nil in Hk. }
  transitivity ((if blank id then Refused 404 "request log not found" else
    match GetLog id with
    | inl _ => Refused 404 "request log not found"
    | inr entry => if negb (Owns (match entry with Some log => default EmptyString (lg_VirtualKeyID log) | None => EmptyString end)
                                  (list_to_set l)) then Refused 404 "request log not found"
                   else Sent (ProjectDetail walk (requestLogSource entry))
    end) = Sent d); [by destruct l|].
  destruct (blank id) eqn:Eb; [by split; [|intros (_ & _ & ? & _)]|].
  assert (Hown : forall k, Owns k (list_to_set l) = true <-> k ∈ ids /\ k <> EmptyString).
  { intros k. rewrite Owns_ids, Hids. split; [|tauto]. intros Hk. split; [done|]. by apply (elem_of_keyIDs k (detail_query ids)), Hids. }
  destruct (GetLog id) as [e|[log|]] eqn:Eg.
  - split; [done|]. intros (_ & _ & _ & log & k & ? & _). done.
  - destruct (Owns _ _) eqn:Eo; simpl.
    + apply Hown in Eo as [Ho Hne]. destruct (lg_VirtualKeyID log) as [k|] eqn:Ek; [|done]. split.
      * intros [= <-]. split_and!; try done. by exists log, k.
      * intros (_ & _ & _ & log' & k' & [= <-] & _ & _ & ->). done.
    + split; [done|]. intros (_ & _ & _ & log' & k & [= <-] & Ek & Hk & _). rewrite Ek in Eo. simpl in Eo.
      apply not_true_iff_false in Eo. destruct Eo. apply Hown. split; [done|]. rewrite Forall_forall in Hp. by destruct (Hp _ Hk).
  - destruct (Owns _ _) eqn:Eo; simpl; [by apply Hown in Eo as [_ []]|]. split; [done|].
    intros (_ & _ & _ & log & k & ? & _). done.
Qed.

(** A page of logs goes to a caller with the token only, holds logs of the
    keys named and no others, and is asked of the store within its bounds: 1 to
    100 logs from a position that is not negative, whatever the query says. *)
Theorem internal_logs_scoped token provided ids limit offset (m : LogManager) page :
  Forall plain_id ids ->
  internalLogs token provided (log_query ids limit offset) (Some m) = Sent page ->
  provided = token /\ token <> EmptyString /\
  (forall item, item ∈ lr_Logs page -> li_VirtualKeyID item ∈ ids) /\
  1 <= lr_Limit page <= 100 /\ 0 <= lr_Offset page.
Proof.
  intros Hp. unfold internalLogs. destruct (token_ok token provided) eqn:Et; simpl; [|done].
  apply token_ok_spec in Et as [E1 E2]. rewrite log_query_ids. destruct (keyIDs (detail_query ids)) as [|id0 l] eqn:El; [done|].
  destruct (Search _ _ _) as [e|[logs n]] eqn:Es; [done|]. intros [= <-]. simpl. split_and!; try done.
  - intros item (log & -> & Hlog)%list_elem_of_fmap. destruct (search_scoped _ _ _ _ _ Es _ Hlog) as (k & Hk & Ev).
    simpl. rewrite Ev. apply detail_query_ids; [done|]. by rewrite El.
  - unfold log_limit. destruct (parse_int64 _) as [z|]; [destruct (z <=? 0) eqn:Ez|]; case_match; bools; lia.
  - unfold log_limit. destruct (parse_int64 _) as [z|]; [destruct (z <=? 0) eqn:Ez|]; case_match; bools; lia.
  - unfold log_offset. destruct (parse_int64 _) as [z|]; [destruct (z <? 0) eqn:Ez|]; bools; lia.
Qed.

End Answers.

(** ** The catalog *)
Section Catalog.
  Variable catalog : string -> list string.

(** The models of the providers met so far, every identifier once. *)
Definition lists (seen : list (string * string)) (models : list catalogModel) : Prop :=
  NoDup (cm_ID <$> models) /\
  (forall m, m ∈ models -> exists model, (cm_Provider m, model) ∈ seen /\ cm_Model m = trim_space model /\
     blank model = false /\ cm_ID m = model_id (cm_Provider m) (cm_Model m)) /\
  (forall p model, (p, model) ∈ seen -> blank model = false -> model_id p (trim_space model) ∈ cm_ID <$> models).

Lemma add_model_lists seen models p model :
  lists seen models -> lists (seen ++ [(p, model)]) (add_model p models model).
Proof.
  intros (Hn & Hs & Hc). unfold add_model.
  assert (Hs' : forall m, m ∈ models -> exists model', (cm_Provider m, model') ∈ seen ++ [(p, model)] /\
     cm_Model m = trim_space model' /\ blank model' = false /\ cm_ID m = model_id (cm_Provider m) (cm_Model m)).
  { intros m Hm. destruct (Hs m Hm) as (x & Hx & ?). exists x. split; [|done]. apply elem_of_app. by left. }
  destruct (is_empty (trim_space model)) eqn:Eb; [|case_bool_decide as Hin].
  - split_and!; [done..|]. intros q x [Hx|Hx]%elem_of_app; [by apply Hc|]. apply list_elem_of_singleton in Hx as [= -> ->].
    unfold blank. by rewrite Eb.
  - split_and!; [done..|]. intros q x [Hx|Hx]%elem_of_app; [by apply Hc|]. by apply list_elem_of_singleton in Hx as [= -> ->].
  - split_and!.
    + rewrite fmap_app. apply NoDup_app. split_and!; [done| |apply NoDup_singleton].
      intros x Hx Hx'. apply list_elem_of_singleton in Hx'. by subst.
    + intros m [Hm|Hm]%elem_of_app; [by apply Hs'|]. apply list_elem_of_singleton in Hm as ->. exists model. simpl.
      split_and!; try done. apply elem_of_app. right. by apply list_elem_of_singleton.
    + intros q x Hx Hb. rewrite fmap_app, elem_of_app. apply elem_of_app in Hx as [Hx|Hx]; [left; by apply Hc|].
      apply list_elem_of_singleton in Hx as [= -> ->]. right. by apply list_elem_of_singleton.
Qed.

Lemma add_models_lists seen models p l :
  lists seen models -> lists (seen ++ ((fun m => (p, m)) <$> l)) (foldl (add_model p) models l).
Proof.
  revert seen models. induction l as [|x l IH]; intros seen models Hl; simpl; [by rewrite app_nil_r|].
  apply (add_model_lists _ _ p x), IH in Hl. by rewrite <-app_assoc in Hl.
Qed.

Lemma add_providers_lists seen models ps :
  lists seen models ->
  lists (seen ++ concat ((fun p => (fun m => (p, m)) <$> catalog p) <$> ps))
    (foldl (fun models p => foldl (add_model p) models (catalog p)) models ps).
Proof.
  revert seen models. induction ps as [|p ps IH]; intros seen models Hl; simpl; [by rewrite app_nil_r|].
  apply (add_models_lists _ _ p (catalog p)), IH in Hl. by rewrite <-app_assoc in Hl.
Qed.

End Catalog.

(** The catalog that is sent is in the order of the identifiers, with none
    twice; each entry is a non-blank model of a listed provider under the
    identifier "provider/model", and every such identifier is there. *)
Theorem catalog_exact token provided catalog providers models :
  registerInternalModelCatalog token provided (Some catalog) (inr providers) = Sent models ->
  provided = token /\ token <> EmptyString /\
  Sorted model_by_id models /\ NoDup (cm_ID <$> models) /\
  (forall m, m ∈ models -> exists model, cm_Provider m ∈ providers /\ model ∈ catalog (cm_Provider m) /\
     cm_Model m = trim_space model /\ blank model = false /\ cm_ID m = model_id (cm_Provider m) (cm_Model m)) /\
  (forall p model, p ∈ providers -> model ∈ catalog p -> blank model = false ->
     model_id p (trim_space model) ∈ cm_ID <$> models).
Proof.
  unfold registerInternalModelCatalog. destruct (token_ok token provided) eqn:Et; simpl; [|done].
  apply token_ok_spec in Et as [E1 E2]. intros [= <-]. set (l := foldl _ [] providers).
  assert (Hl : lists (concat ((fun p => (fun m => (p, m)) <$> catalog p) <$> providers)) l).
  { apply (add_providers_lists catalog [] [] providers). split_and!; [constructor|..]; intros ? *; by intros ?%elem_of_nil. }
  destruct Hl as (Hn & Hs & Hc). assert (Hp : merge_sort model_by_id l ≡ₚ l) by apply merge_sort_Permutation.
  assert (Hseen : forall p model, (p, model) ∈ concat ((fun p => (fun m => (p, m)) <$> catalog p) <$> providers) <->
    p ∈ providers /\ model ∈ catalog p).
  { intros p model. rewrite list_elem_of_In, in_concat. split.
    - intros (x & Hx & Hin). apply list_elem_of_In, list_elem_of_fmap in Hx as (q & -> & Hq).
      apply list_elem_of_In, list_elem_of_fmap in Hin as (y & [= -> ->] & Hy). done.
    - intros [Hq Hy]. eexists. split; [apply list_elem_of_In, list_elem_of_fmap; eauto|].
      apply list_elem_of_In, list_elem_of_fmap. eauto. }
  split_and!; try done.
  - apply Sorted_merge_sort. intros a b. apply (total string_le).
  - by rewrite Hp.
  - intros m Hm. rewrite Hp in Hm. destruct (Hs m Hm) as (x & Hx%Hseen & ?). exists x. tauto.
  - intros p x Hq Hx Hb. rewrite Hp. by apply Hc; [apply Hseen|].
Qed.

(** ** Witnesses: a log manager over a list *)
#[local] Existing Instances ascii_unicode toy_json.

Definition no_field : outcome_of_marshal := inr "null".
Definition demo_log (id : string) (key : option string) : Log :=
  mkLog id 5 "success" "openai" "gpt-4o" "chat" None 12 None false key false
    no_field no_field no_field no_field no_field no_field no_field no_field no_field no_field no_field no_field
    (inr (Marshal (JStr "hello"))) no_field no_field no_field no_field no_field no_field no_field no_field no_field no_field
    no_field no_field no_field no_field no_field no_field no_field no_field no_field no_field no_field no_field no_field.

Definition demo_logs : list Log := [demo_log "l1" (Some "vk_1"); demo_log "l2" (Some "vk_2"); demo_log "l3" None].

Definition named_key (ids : list string) (log : Log) : bool :=
  existsb (fun id => bool_decide (lg_VirtualKeyID log = Some id)) ids.

#[refine] Definition list_logs : LogManager := {|
  Search := fun ids limit offset =>
    let found := List.filter (named_key ids) demo_logs in
    inr (take (Z.to_nat limit) (drop (Z.to_nat offset) found), Z.of_nat (length found));
  GetLog := fun id => inr (List.find (fun log => bool_decide (lg_ID log = id)) demo_logs) |}.
Proof.
  intros ids limit offset logs n [= <- _] log Hlog.
  assert (Hin : log ∈ List.filter (named_key ids) demo_logs).
  { rewrite <-(take_drop (Z.to_nat offset) (List.filter _ _)), elem_of_app. right.
    rewrite <-(take_drop (Z.to_nat limit) (drop _ _)), elem_of_app. by left. }
  apply list_elem_of_In, filter_In in Hin as [_ Hn].
  unfold named_key in Hn. apply existsb_exists in Hn as (id & Hid & E%bool_decide_eq_true).
  exists id. split; [by apply list_elem_of_In|done].
Defined.

Lemma demo_ids_plain : Forall plain_id ["vk_1"; "vk_9"].
Proof. repeat constructor; by vm_compute. Qed.

Lemma internal_log_exact_witness :
  internalLog backwards "t" "t" (detail_query ["vk_1"; "vk_9"]) "l1" (Some list_logs)
    = Sent (ProjectDetail backwards (requestLogSource (Some (demo_log "l1" (Some "vk_1"))))) /\
  internalLog backwards "t" "t" (detail_query ["vk_1"; "vk_9"]) "l2" (Some list_logs) = Refused 404 "request log not found".
Proof.
  split; [|by vm_compute].
  apply (proj2 (internal_log_exact backwards "t" "t" ["vk_1"; "vk_9"] "l1" list_logs _ demo_ids_plain)).
  split; [done|]. split; [done|]. split; [by vm_compute|]. exists (demo_log "l1" (Some "vk_1")), "vk_1".
  split; [done|]. split; [done|]. split; [left|done].
Defined.

Lemma internal_logs_scoped_witness : exists page,
  internalLogs "t" "t" (log_query ["vk_1"; "vk_9"] 500 (-3)) (Some list_logs) = Sent page /\
  (li_ID <$> lr_Logs page) = ["l1"] /\ lr_Limit page = 100 /\ 1 <= lr_Limit page <= 100.
Proof.
  destruct (internalLogs "t" "t" (log_query ["vk_1"; "vk_9"] 500 (-3)) (Some list_logs)) as [s m|page] eqn:E;
    [exfalso; revert E; vm_compute; discriminate|].
  exists page. split; [done|].
  destruct (internal_logs_scoped "t" "t" ["vk_1"; "vk_9"] 500 (-3) list_logs page demo_ids_plain E) as (_ & _ & _ & Hl & _).
  revert E. vm_compute. intros [= <-]. split; [done|]. split; [done|]. split; intros Hx; done.
Defined.

Lemma catalog_exact_witness :
  let catalog := fun p : string => if bool_decide (p = "openai") then ["gpt-4o"; " "; "gpt-4"; " gpt-4o"] else ["claude"] in
  exists models, registerInternalModelCatalog "t" "t" (Some catalog) (inr ["openai"; "anthropic"]) = Sent models /\
    (cm_ID <$> models) = ["anthropic/claude"; "openai/gpt-4"; "openai/gpt-4o"] /\ Sorted model_by_id models.
Proof.
  eexists. split; [reflexivity|]. split; [by vm_compute|].
  eapply (catalog_exact "t" "t"). reflexivity.
Defined.
