(* ===== verification/Catalog.v ===== *)
(** * The catalogue of the database: columns, indexes, constraints

    What the statements of internal/migrate do to a PostgreSQL schema, over the
    tables and the row-level security of Isolation: columns with their NOT NULL
    mark, indexes by name, the constraints of each table, validated against the
    rows when they are added, and the table of applied migrations.  There is one
    schema; the application owns its tables. *)
From S2P Require Import Prelude GoStrings Sql TenantScope Isolation.

(** A column's value; [None] is NULL. *)
Definition tenant_id : string := "tenant_id".
Definition value (r : Row) (c : string) : option string :=
  if bool_decide (c = tenant_id) then rw_TenantID r else rw_Data r !! c.

Definition clear (c : string) (r : Row) : Row :=
  if bool_decide (c = tenant_id) then mkRow None (rw_Data r) else mkRow (rw_TenantID r) (delete c (rw_Data r)).

(** The values of some columns, when none is NULL. *)
Definition tuple (r : Row) (cs : list string) : option (list string) := mapM (value r) cs.

(** Conditions of CHECK constraints, with SQL's third truth value. *)
Inductive check_expr :=
| ColumnIsNull (c : string)
| ColumnIsNotNull (c : string)
| ColumnIn (c : string) (l : list string)
| CheckAnd (a b : check_expr)
| CheckOr (a b : check_expr).

Fixpoint eval_check (r : Row) (e : check_expr) : option bool :=
  match e with
  | ColumnIsNull c => Some (bool_decide (value r c = None))
  | ColumnIsNotNull c => Some (bool_decide (value r c <> None))
  | ColumnIn c l => match value r c with Some v => Some (bool_decide (v ∈ l)) | None => None end
  | CheckAnd a b => and3 (eval_check r a) (eval_check r b)
  | CheckOr a b => or3 (eval_check r a) (eval_check r b)
  end.

Fixpoint check_columns (e : check_expr) : list string :=
  match e with
  | ColumnIsNull c | ColumnIsNotNull c | ColumnIn c _ => [c]
  | CheckAnd a b | CheckOr a b => check_columns a ++ check_columns b
  end.

(** A FOREIGN KEY is MATCH SIMPLE, with no referential action. *)
Inductive constraint :=
| Unique (cs : list string)
| ForeignKey (cs : list string) (parent : string) (parent_cs : list string)
| CheckThat (e : check_expr).

#[export] Instance check_expr_eq_dec : EqDecision check_expr.
Proof. solve_decision. Defined.
#[export] Instance constraint_eq_dec : EqDecision constraint.
Proof. solve_decision. Defined.

(** The columns of its own table, and of its parent, that a constraint needs. *)
Definition own_columns (k : constraint) : list string :=
  match k with Unique cs | ForeignKey cs _ _ => cs | CheckThat e => check_columns e end.
Definition parent_columns (k : constraint) : list (string * string) :=
  match k with ForeignKey _ parent cs => (fun c => (parent, c)) <$> cs | _ => [] end.

Record Index := mkIndex { ix_Table : string; ix_Columns : list string }.

Definition ErrNoRelation : error := Driver "relation does not exist".
Definition ErrNoColumn : error := Driver "column does not exist".
Definition ErrDuplicateObject : error := Driver "constraint already exists".
Definition ErrContainsNull : error := Driver "column contains null values".
Definition ErrViolated : error := Driver "constraint is violated by some row".
Definition ErrNoUnique : error := Driver "there is no unique constraint matching given keys for referenced table".
Definition ErrDependent : error := Driver "cannot drop because other objects depend on it".

Section Catalog.
  Context `{Sql}.

(** [pg_columns]: by table and column, whether it is NOT NULL. *)
Record Pg := mkPg {
  pg_conn : Conn; pg_columns : gmap (string * string) bool; pg_indexes : gmap string Index;
  pg_constraints : gmap (string * string) constraint; pg_applied : gset string }.

Definition on_conn : field Pg Conn :=
  Field pg_conn (fun c w => mkPg c (pg_columns w) (pg_indexes w) (pg_constraints w) (pg_applied w)).

Definition tables (w : Pg) : gmap string Relation := cn_tables (pg_conn w).

Definition set_columns (cs : gmap (string * string) bool) (w : Pg) : Pg :=
  mkPg (pg_conn w) cs (pg_indexes w) (pg_constraints w) (pg_applied w).
Definition set_indexes (ix : gmap string Index) (w : Pg) : Pg :=
  mkPg (pg_conn w) (pg_columns w) ix (pg_constraints w) (pg_applied w).
Definition set_constraints (ks : gmap (string * string) constraint) (w : Pg) : Pg :=
  mkPg (pg_conn w) (pg_columns w) (pg_indexes w) ks (pg_applied w).
Definition set_applied (l : gset string) (w : Pg) : Pg :=
  mkPg (pg_conn w) (pg_columns w) (pg_indexes w) (pg_constraints w) l.

Definition all_rows (rel : Relation) : list Row := where_ (fun _ => true) (rl_rows rel).

(** Whether the rows of the table, as they stand, meet a constraint. *)
Definition satisfied (w : Pg) (rel : Relation) (k : constraint) : bool :=
  match k with
  | Unique cs => bool_decide (NoDup (omap (fun r => tuple r cs) (all_rows rel)))
  | ForeignKey cs parent parent_cs =>
      forallb (fun r =>
        match tuple r cs, tables w !! parent with
        | None, _ => true
        | Some t, Some prel => existsb (fun p => bool_decide (tuple p parent_cs = Some t)) (all_rows prel)
        | Some _, None => false
        end) (all_rows rel)
  | CheckThat e => forallb (fun r => negb (bool_decide (eval_check r e = Some false))) (all_rows rel)
  end.

Definition has_columns (w : Pg) (table : string) (cs : list string) : bool :=
  forallb (fun c => bool_decide (is_Some (pg_columns w !! (table, c)))) cs.

(** ** Statements *)
Definition ddl (f : Pg -> error + Pg) : M Pg unit := sql (fun w =>
  match f w with inl e => (inl e, w) | inr w' => (inr tt, w') end).

(** A statement on a table that must exist. *)
Definition on_table (table : string) (f : Relation -> Pg -> error + Pg) : M Pg unit := ddl (fun w =>
  match tables w !! table with None => inl ErrNoRelation | Some rel => f rel w end).

(** ALTER TABLE table ADD COLUMN IF NOT EXISTS c TEXT *)
Definition add_column (table c : string) : M Pg unit := on_table table (fun _ w =>
  inr (match pg_columns w !! (table, c) with
       | Some _ => w
       | None => set_columns (<[(table, c) := false]> (pg_columns w)) w
       end)).

(** ALTER TABLE table DROP COLUMN IF EXISTS c: its indexes and the table's
    constraints on it go, a policy or another table's key on it forbids it. *)
Definition mentions (table c : string) (key : string * string) (k : constraint) : bool :=
  bool_decide (key.1 = table) && bool_decide (c ∈ own_columns k).
Definition drop_column (table c : string) : M Pg unit := on_table table (fun rel w =>
  match pg_columns w !! (table, c) with
  | None => inr w
  | Some _ =>
      if bool_decide (c = tenant_id) && bool_decide (is_Some (rl_policy rel)) then inl ErrDependent else
      if bool_decide (map_Exists (fun key k => (table, c) ∈ parent_columns k) (pg_constraints w)) then inl ErrDependent else
      let rel' := mkRelation (update_rows (fun _ => true) (clear c) (rl_rows rel)) (rl_enabled rel) (rl_forced rel) (rl_policy rel) in
      inr (mkPg (mkConn (cn_session (pg_conn w)) (cn_local (pg_conn w)) (<[table := rel']> (tables w)))
             (delete (table, c) (pg_columns w))
             (filter (fun nx => negb (bool_decide (ix_Table nx.2 = table) && bool_decide (c ∈ ix_Columns nx.2)) = true) (pg_indexes w))
             (filter (fun kk => mentions table c kk.1 kk.2 = false) (pg_constraints w)) (pg_applied w))
  end).

(** CREATE INDEX IF NOT EXISTS name ON table (cs) *)
Definition create_index (name table : string) (cs : list string) : M Pg unit := on_table table (fun _ w =>
  match pg_indexes w !! name with
  | Some _ => inr w
  | None => if has_columns w table cs then inr (set_indexes (<[name := mkIndex table cs]> (pg_indexes w)) w)
            else inl ErrNoColumn
  end).

(** DROP INDEX IF EXISTS name *)
Definition drop_index (name : string) : M Pg unit := ddl (fun w => inr (set_indexes (delete name (pg_indexes w)) w)).

(** ALTER TABLE table ALTER COLUMN c SET NOT NULL: every row is looked at,
    whatever its policy. *)
Definition set_not_null (table c : string) : M Pg unit := on_table table (fun rel w =>
  match pg_columns w !! (table, c) with
  | None => inl ErrNoColumn
  | Some _ => if forallb (fun r => bool_decide (value r c <> None)) (all_rows rel)
              then inr (set_columns (<[(table, c) := true]> (pg_columns w)) w) else inl ErrContainsNull
  end).

(** ALTER TABLE table ALTER COLUMN c DROP NOT NULL *)
Definition drop_not_null (table c : string) : M Pg unit := on_table table (fun _ w =>
  match pg_columns w !! (table, c) with
  | None => inl ErrNoColumn
  | Some _ => inr (set_columns (<[(table, c) := false]> (pg_columns w)) w)
  end).

(** ALTER TABLE table ADD CONSTRAINT name ...: a FOREIGN KEY asks for a unique
    constraint on just the columns it references, and every row is validated. *)
Definition unique_on (w : Pg) (table : string) (cs : list string) : bool :=
  bool_decide (map_Exists (fun key k => key.1 = table /\ k = Unique cs) (pg_constraints w)).
Definition add_constraint (table name : string) (k : constraint) : M Pg unit := on_table table (fun rel w =>
  if negb (has_columns w table (own_columns k)) ||
     negb (forallb (fun tc => bool_decide (is_Some (pg_columns w !! tc))) (parent_columns k)) then inl ErrNoColumn else
  if bool_decide (is_Some (pg_constraints w !! (table, name))) then inl ErrDuplicateObject else
  if match k with ForeignKey _ parent cs => negb (unique_on w parent cs) | _ => false end then inl ErrNoUnique else
  if satisfied w rel k then inr (set_constraints (<[(table, name) := k]> (pg_constraints w)) w) else inl ErrViolated).

(** ALTER TABLE table DROP CONSTRAINT IF EXISTS name: a key that a FOREIGN KEY
    references cannot go. *)
Definition references (table : string) (cs : list string) (k : constraint) : bool :=
  match k with ForeignKey _ parent pcs => bool_decide (parent = table) && bool_decide (pcs = cs) | _ => false end.
Definition referenced (w : Pg) (table : string) (cs : list string) : bool :=
  bool_decide (map_Exists (fun _ k => references table cs k = true) (pg_constraints w)).
Definition drop_constraint (table name : string) : M Pg unit := on_table table (fun _ w =>
  match pg_constraints w !! (table, name) with
  | None => inr w
  | Some k =>
      if match k with Unique cs => referenced w table cs | _ => false end then inl ErrDependent else
      inr (set_constraints (delete (table, name) (pg_constraints w)) w)
  end).

(** SELECT count of the rows of a table that its policy shows and [p] holds of. *)
Definition count_rows (table : string) (cs : list string) (p : Row -> bool) : M Pg Z := sql (fun w =>
  match tables w !! table with
  | None => (inl ErrNoRelation, w)
  | Some rel =>
      if negb (has_columns w table cs) then (inl ErrNoColumn, w)
      else (inr (Z.of_nat (length (where_ (fun r => reaches (pg_conn w) rel r && p r) (rl_rows rel)))), w)
  end).

(** A transaction over the whole database, and one in platform mode. *)
Definition Transaction {A} (fn : M Pg A) : M Pg A :=
  transaction (nested ← zoom on_conn (effect begin_local); a ← fn; zoom on_conn (effect (end_local nested));; mret a).

Definition RunAcrossTenants {A} (ctx : option Context) (fn : M Pg A) : M Pg A :=
  if negb (is_empty (FromContext ctx))
  then throw (Wrap "%w: tenant %q is resolved on this context" ErrPlatformModeWithTenant) else
  Transaction (zoom on_conn enablePlatformMode;; fn).

End Catalog.

(** ** Well-formed catalogues *)
Lemma value_clear_ne r c c' : c' <> c -> value (clear c r) c' = value r c'.
Proof.
  intros Hne. unfold value, clear. repeat case_bool_decide; subst; try done. simpl. by rewrite lookup_delete_ne.
Qed.

Lemma value_clear r c : value (clear c r) c = None.
Proof. unfold value, clear. repeat case_bool_decide; [done|]. simpl. apply lookup_delete_eq. Qed.

Lemma tuple_clear r c cs : c ∉ cs -> tuple (clear c r) cs = tuple r cs.
Proof.
  intros Hc. unfold tuple. induction cs as [|d cs IH]; [done|]. apply not_elem_of_cons in Hc as [Hd Hc].
  simpl. rewrite value_clear_ne by done. by rewrite (IH Hc).
Qed.

Lemma eval_clear r c e : c ∉ check_columns e -> eval_check (clear c r) e = eval_check r e.
Proof.
  induction e as [d|d|d l|a IHa b IHb|a IHa b IHb]; simpl; intros Hc;
    try (apply not_elem_of_cons in Hc as [Hd _]; rewrite value_clear_ne by done; done);
    apply not_elem_of_app in Hc as [Ha Hb]; by rewrite IHa, IHb.
Qed.

Section Wf.
  Context `{Sql}.
  Implicit Types (w : Pg) (t c n : string) (rel : Relation) (k : constraint).

Lemma elem_of_all_rows rel r : r ∈ all_rows rel <-> exists i, rows (rl_rows rel) !! i = Some r.
Proof. unfold all_rows. rewrite elem_of_where. split; intros (i & Hi); [destruct Hi as [Hi _]|]; by exists i. Qed.

(** The constraints of [t] are about columns there are, a FOREIGN KEY has the
    unique constraint it needs, and the rows meet them. *)
Record constraint_ok w t k : Prop := {
  ok_own : has_columns w t (own_columns k) = true;
  ok_parent : forall tc, tc ∈ parent_columns k -> is_Some (pg_columns w !! tc);
  ok_key : match k with ForeignKey _ parent cs => unique_on w parent cs = true | _ => True end;
  ok_rows_meet : exists rel, tables w !! t = Some rel /\ satisfied w rel k = true }.

(** A row has values in the columns of its table only, all of them where a
    column is NOT NULL; indexes and constraints are sound. *)
Record wf w : Prop := {
  wf_columns : forall t c b, pg_columns w !! (t, c) = Some b -> is_Some (tables w !! t);
  wf_rows : forall t rel r c, tables w !! t = Some rel -> r ∈ all_rows rel -> is_Some (value r c) ->
    is_Some (pg_columns w !! (t, c));
  wf_not_null : forall t rel r c, pg_columns w !! (t, c) = Some true -> tables w !! t = Some rel ->
    r ∈ all_rows rel -> is_Some (value r c);
  wf_indexes : forall n ix, pg_indexes w !! n = Some ix -> has_columns w (ix_Table ix) (ix_Columns ix) = true;
  wf_constraints : forall t n k, pg_constraints w !! (t, n) = Some k -> constraint_ok w t k }.

Lemma has_columns_spec w t cs : has_columns w t cs = true <-> forall c, c ∈ cs -> is_Some (pg_columns w !! (t, c)).
Proof.
  unfold has_columns. rewrite forallb_forall. setoid_rewrite bool_decide_eq_true. split; intros Hf x Hx; by apply Hf, list_elem_of_In.
Qed.

Lemma wp_on_table h t f w (Q : error + unit -> Pg -> Prop) :
  (h = false -> forall msg, Q (inl (Driver msg)) w) -> (tables w !! t = None -> Q (inl ErrNoRelation) w) ->
  (forall rel, tables w !! t = Some rel -> match f rel w with inl e => Q (inl e) w | inr w' => Q (inr tt) w' end) ->
  wp h (on_table t f) w Q.
Proof.
  intros Hd Hn Hs. unfold on_table, ddl. apply wp_sql; [done|]. destruct (tables w !! t) as [rel|] eqn:E; [|by apply Hn].
  specialize (Hs rel eq_refl). by destruct (f rel w).
Qed.

(** A constraint stays sound while columns are only added and its rows, and its
    parent's, are kept. *)
Lemma constraint_ok_mono w w' t k :
  tables w' = tables w -> (forall tc, is_Some (pg_columns w !! tc) -> is_Some (pg_columns w' !! tc)) ->
  (match k with ForeignKey _ parent cs => unique_on w parent cs = true -> unique_on w' parent cs = true | _ => True end) ->
  constraint_ok w t k -> constraint_ok w' t k.
Proof.
  intros Ht Hc Hu [H1 H2 H3 (rel & Hrel & Hs)]. split.
  - rewrite has_columns_spec in *. auto.
  - auto.
  - destruct k; auto.
  - exists rel. rewrite Ht. split; [done|]. destruct k; try done. simpl in *. by rewrite Ht.
Qed.

Lemma wf_set_columns w cs : wf w ->
  (forall tc, is_Some (pg_columns w !! tc) -> is_Some (cs !! tc)) ->
  (forall t c b, cs !! (t, c) = Some b -> is_Some (tables w !! t) /\
     (b = true -> forall rel r, tables w !! t = Some rel -> r ∈ all_rows rel -> is_Some (value r c))) ->
  wf (set_columns cs w).
Proof.
  intros [] Hm Hn. split; simpl.
  - intros t c b Hb. by apply Hn in Hb as [].
  - intros t rel r c Hrel Hr Hv. by eapply Hm, wf_rows0.
  - intros t rel r c Hb Hrel Hr. apply Hn in Hb as [_ Hb]. by eapply Hb.
  - intros n ix Hix. specialize (wf_indexes0 _ _ Hix). rewrite has_columns_spec in *. simpl. auto.
  - intros t n k Hk. eapply (constraint_ok_mono w); [done|done|by destruct k|by eapply wf_constraints0].
Qed.

Lemma wf_set_indexes w ixs : wf w ->
  (forall n ix, ixs !! n = Some ix -> has_columns w (ix_Table ix) (ix_Columns ix) = true) -> wf (set_indexes ixs w).
Proof. intros [] Hi. split; simpl; try done. intros t n k Hk. destruct (wf_constraints0 _ _ _ Hk). by split. Qed.

Lemma wf_set_constraints w ks : wf w ->
  (forall t n k, ks !! (t, n) = Some k -> constraint_ok (set_constraints ks w) t k) -> wf (set_constraints ks w).
Proof. intros [] Hk. by split. Qed.

Lemma wf_set_applied w l : wf w -> wf (set_applied l w).
Proof. intros []. split; try done. intros t n k Hk. destruct (wf_constraints0 _ _ _ Hk). by split. Qed.

Lemma unique_on_spec w t cs :
  unique_on w t cs = true <-> exists n, pg_constraints w !! (t, n) = Some (Unique cs).
Proof.
  unfold unique_on. rewrite bool_decide_eq_true. unfold map_Exists. split.
  - intros ([t' n] & k & Hk & Et & ->). simpl in Et. subst t'. by exists n.
  - intros [n Hn]. by exists (t, n), (Unique cs).
Qed.

Lemma wp_add_column h t c w : wf w -> wp h (add_column t c) w (fun _ w' => wf w').
Proof.
  intros Hw. apply wp_on_table; [done|done|]. intros rel Hrel. destruct (pg_columns w !! (t, c)) eqn:E; [done|].
  apply wf_set_columns; [done|..].
  - intros tc [b Hb]. destruct (decide (tc = (t, c))) as [->|Hne]; [by rewrite E in Hb|]. rewrite lookup_insert_ne by done. by exists b.
  - intros t' c' b Hb. apply lookup_insert_Some in Hb as [[[= <- <-] <-]|[_ Hb]].
    + split; [by exists rel|done].
    + split; [by eapply wf_columns|]. intros -> rel' r Hrel' Hr. by eapply wf_not_null.
Qed.

Lemma wp_set_not_null h t c w : wf w -> wp h (set_not_null t c) w (fun _ w' => wf w').
Proof.
  intros Hw. apply wp_on_table; [done|done|]. intros rel Hrel. destruct (pg_columns w !! (t, c)) eqn:E; [|done].
  destruct (forallb _ _) eqn:Ef; [|done]. rewrite forallb_forall in Ef. apply wf_set_columns; [done|..].
  - intros tc Htc. destruct (decide (tc = (t, c))) as [->|Hne]; [by rewrite lookup_insert_eq|by rewrite lookup_insert_ne].
  - intros t' c' b' Hb. apply lookup_insert_Some in Hb as [[[= <- <-] <-]|[_ Hb]].
    + split; [by exists rel|]. intros _ rel' r Hrel' Hr. assert (rel' = rel) as -> by congruence.
      apply not_eq_None_Some, (bool_decide_eq_true_1 (value r c <> None)), Ef. by apply list_elem_of_In.
    + split; [by eapply wf_columns|]. intros -> rel' r Hrel' Hr. by eapply wf_not_null.
Qed.

Lemma wp_drop_not_null h t c w : wf w -> wp h (drop_not_null t c) w (fun _ w' => wf w').
Proof.
  intros Hw. apply wp_on_table; [done|done|]. intros rel Hrel. destruct (pg_columns w !! (t, c)) eqn:E; [|done].
  apply wf_set_columns; [done|..].
  - intros tc Htc. destruct (decide (tc = (t, c))) as [->|Hne]; [by rewrite lookup_insert_eq|by rewrite lookup_insert_ne].
  - intros t' c' b' Hb. apply lookup_insert_Some in Hb as [[[= <- <-] <-]|[_ Hb]].
    + split; [by exists rel|done].
    + split; [by eapply wf_columns|]. intros -> rel' r Hrel' Hr. by eapply wf_not_null.
Qed.

Lemma wp_create_index h n t cs w : wf w -> wp h (create_index n t cs) w (fun _ w' => wf w').
Proof.
  intros Hw. apply wp_on_table; [done|done|]. intros rel Hrel. destruct (pg_indexes w !! n) eqn:E; [done|].
  destruct (has_columns w t cs) eqn:Ec; [|done]. apply wf_set_indexes; [done|]. intros n' ix Hix.
  apply lookup_insert_Some in Hix as [[<- <-]|[_ Hix]]; [done|]. by eapply wf_indexes.
Qed.

Lemma wp_drop_index h n w : wf w -> wp h (drop_index n) w (fun _ w' => wf w').
Proof.
  intros Hw. apply wp_sql; [done|]. simpl. apply wf_set_indexes; [done|]. intros n' ix [_ Hix]%lookup_delete_Some.
  by eapply wf_indexes.
Qed.

Lemma wp_add_constraint h t n k w : wf w -> wp h (add_constraint t n k) w (fun _ w' => wf w').
Proof.
  intros Hw. apply wp_on_table; [done|done|]. intros rel Hrel.
  destruct (_ || _) eqn:Ec; [done|]. apply orb_false_iff in Ec as [Eo%negb_false_iff Ep%negb_false_iff].
  case_bool_decide as En; [done|]. destruct (match k with ForeignKey _ _ _ => _ | _ => false end) eqn:Eu; [done|].
  destruct (satisfied w rel k) eqn:Es; [|done].
  assert (Hu : forall p cs, unique_on w p cs = true -> unique_on (set_constraints (<[(t, n):=k]> (pg_constraints w)) w) p cs = true).
  { intros p cs [m Hm]%unique_on_spec. apply unique_on_spec. exists m. simpl.
    rewrite lookup_insert_ne; [done|]. intros [= -> ->]. apply En. by eexists. }
  apply wf_set_constraints; [done|]. intros t' n' k' Hk'. apply lookup_insert_Some in Hk' as [[[= <- <-] <-]|[_ Hk']].
  - split.
    + done.
    + intros tc Htc. rewrite forallb_forall in Ep. by apply list_elem_of_In, Ep, bool_decide_eq_true in Htc.
    + destruct k; try done. by apply Hu, negb_false_iff.
    + exists rel. split; [done|]. by destruct k.
  - eapply (constraint_ok_mono w); [done|done| |by eapply wf_constraints]. destruct k'; try done. apply Hu.
Qed.

Lemma wp_drop_constraint h t n w : wf w -> wp h (drop_constraint t n) w (fun _ w' => wf w').
Proof.
  intros Hw. apply wp_on_table; [done|done|]. intros rel Hrel. destruct (pg_constraints w !! (t, n)) as [k|] eqn:Ek; [|done].
  destruct (match k with Unique cs => _ | _ => false end) eqn:Eu; [done|].
  apply wf_set_constraints; [done|]. intros t' n' k' [Hne Hk']%lookup_delete_Some.
  eapply (constraint_ok_mono w); [done|done| |by eapply wf_constraints]. destruct k' as [|cs p pcs|]; try done.
  intros [m Hm]%unique_on_spec. apply unique_on_spec. exists m. simpl. rewrite lookup_delete_ne; [done|].
  intros [= -> ->]. rewrite Ek in Hm. injection Hm as ->. apply bool_decide_eq_false in Eu. apply Eu.
  exists (t', n'), (ForeignKey cs p pcs). split; [done|]. simpl. by rewrite !bool_decide_eq_true_2.
Qed.

(** *** Dropping a column *)
Definition cleared c rel : Relation :=
  mkRelation (update_rows (fun _ => true) (clear c) (rl_rows rel)) (rl_enabled rel) (rl_forced rel) (rl_policy rel).

Lemma all_rows_cleared c rel : all_rows (cleared c rel) ≡ₚ clear c <$> all_rows rel.
Proof.
  unfold all_rows. rewrite !where_perm. simpl. rewrite rows_update, map_to_list_fmap, <-list_fmap_compose.
  assert (Hall : forall l : list Row, filter (fun _ => true = true) l = l).
  { intros l. induction l as [|x l IH]; [done|]. by rewrite filter_cons_True, IH. }
  rewrite !Hall, <-list_fmap_compose. apply Permutation_refl'. apply list_fmap_ext. by intros ? [? ?] ?.
Qed.

(** The rows of a table with one column cleared meet what they met before,
    unless it was about the column. *)
Lemma satisfied_cleared w w' t c rel0 t' rel k :
  tables w !! t = Some rel0 -> tables w' = <[t := cleared c rel0]> (tables w) ->
  (t' = t -> c ∉ own_columns k) -> (t, c) ∉ parent_columns k ->
  tables w !! t' = Some rel -> satisfied w rel k = true ->
  satisfied w' (if bool_decide (t' = t) then cleared c rel0 else rel) k = true.
Proof.
  intros H0 Ew Ho Hp Hrel Hs.
  assert (Hrows : forall r', r' ∈ all_rows (if bool_decide (t' = t) then cleared c rel0 else rel) ->
    exists r, r ∈ all_rows rel /\ (r' = r \/ (r' = clear c r /\ c ∉ own_columns k))).
  { intros r' Hr'. case_bool_decide as E; [|by exists r'; auto]. subst t'. assert (rel = rel0) as -> by congruence.
    rewrite all_rows_cleared in Hr'. apply list_elem_of_fmap in Hr' as (r & -> & Hr). exists r. auto. }
  destruct k as [cs|cs p pcs|e]; simpl in *.
  - apply bool_decide_eq_true in Hs. apply bool_decide_eq_true. case_bool_decide as E; [|done].
    subst t'. assert (rel = rel0) as -> by congruence.
    enough (Eq : omap (fun r => tuple r cs) (all_rows (cleared c rel0)) ≡ₚ omap (fun r => tuple r cs) (all_rows rel0)) by by rewrite Eq.
    rewrite all_rows_cleared. specialize (Ho eq_refl). clear Hrows Hs. induction (all_rows rel0) as [|r l IH]; simpl; [done|].
    rewrite tuple_clear by done. destruct (tuple r cs); [by apply Permutation_skip|done].
  - rewrite forallb_forall in Hs |- *. intros r' Hr'%list_elem_of_In. apply Hrows in Hr' as (r & Hr & Er).
    specialize (Hs r (proj1 (list_elem_of_In _ _) Hr)).
    assert (Et : tuple r' cs = tuple r cs) by (destruct Er as [->|[-> Hc]]; [done|by apply tuple_clear]). rewrite Et.
    destruct (tuple r cs) as [tu|]; [|done]. rewrite Ew. destruct (decide (p = t)) as [->|Hne].
    + rewrite lookup_insert_eq, H0 in *. apply existsb_exists in Hs as (q & Hq & Eq). apply existsb_exists.
      exists (clear c q). split.
      * apply list_elem_of_In. rewrite all_rows_cleared. apply list_elem_of_fmap. exists q. split; [done|]. by apply list_elem_of_In.
      * rewrite tuple_clear; [done|]. intros Hin. apply Hp. apply list_elem_of_fmap. by exists c.
    + by rewrite lookup_insert_ne.
  - rewrite forallb_forall in Hs |- *. intros r' Hr'%list_elem_of_In. apply Hrows in Hr' as (r & Hr & Er).
    specialize (Hs r (proj1 (list_elem_of_In _ _) Hr)).
    destruct Er as [->|[-> Hc]]; [done|]. by rewrite eval_clear.
Qed.

Lemma wp_drop_column h t c w : wf w -> wp h (drop_column t c) w (fun _ w' => wf w').
Proof.
  intros Hw. apply wp_on_table; [done|done|]. intros rel Hrel. destruct (pg_columns w !! (t, c)) as [b|] eqn:Eb; [|done].
  destruct (_ && _) eqn:E1; [done|]. destruct (bool_decide (map_Exists _ _)) eqn:Hfk; [done|]. apply bool_decide_eq_false in Hfk. cbv beta iota zeta. fold (cleared c rel). match goal with |- wf ?x => set (w' := x) end.
  assert (Etab : tables w' = <[t := cleared c rel]> (tables w)) by done.
  assert (Ecol : pg_columns w' = delete (t, c) (pg_columns w)) by done.
  assert (Hcols : forall tc, is_Some (pg_columns w' !! tc) <-> is_Some (pg_columns w !! tc) /\ tc <> (t, c)).
  { intros tc. simpl. destruct (decide (tc = (t, c))) as [->|Hne].
    - rewrite lookup_delete_eq. split; [by intros []|by intros [_ []]].
    - rewrite lookup_delete_ne by done. tauto. }
  assert (Htab : forall t' rel', tables w' !! t' = Some rel' -> exists rel0, tables w !! t' = Some rel0 /\
    rel' = if bool_decide (t' = t) then cleared c rel else rel0).
  { intros t' rel'. rewrite Etab. intros [[<- <-]|[Hne Ht']]%lookup_insert_Some.
    - exists rel. by rewrite bool_decide_eq_true_2.
    - exists rel'. by rewrite bool_decide_eq_false_2. }
  assert (Hrow : forall t' rel' r', tables w' !! t' = Some rel' -> r' ∈ all_rows rel' -> exists rel0 r,
    tables w !! t' = Some rel0 /\ r ∈ all_rows rel0 /\ (if bool_decide (t' = t) then r' = clear c r else r' = r)).
  { intros t' rel' r' (rel0 & H0 & ->)%Htab Hr. case_bool_decide as E; [|by exists rel0, r'].
    subst t'. rewrite all_rows_cleared in Hr. apply list_elem_of_fmap in Hr as (r & -> & Hr). by exists rel, r. }
  destruct Hw as [W1 W2 W3 W4 W5]. split.
  - intros t' c' b' Hb'. rewrite Ecol in Hb'. apply lookup_delete_Some in Hb' as [_ Hb']. apply W1 in Hb' as [x Hx].
    rewrite Etab. destruct (decide (t' = t)) as [->|Hne]; [by rewrite lookup_insert_eq|rewrite lookup_insert_ne by done; by exists x].
  - intros t' rel' r c' Hrel' Hr Hv. destruct (Hrow _ _ _ Hrel' Hr) as (rel0 & r0 & H0 & Hr0 & E). apply Hcols.
    case_bool_decide as Et; subst.
    + destruct (decide (c' = c)) as [->|Hne]; [rewrite value_clear in Hv; by destruct Hv|].
      rewrite value_clear_ne in Hv by done. split; [by eapply W2|congruence].
    + split; [by eapply W2|congruence].
  - intros t' rel' r c' Hb' Hrel' Hr. rewrite Ecol in Hb'. apply lookup_delete_Some in Hb' as [Hne Hb'].
    destruct (Hrow _ _ _ Hrel' Hr) as (rel0 & r0 & H0 & Hr0 & E). case_bool_decide as Et; subst.
    + rewrite value_clear_ne by congruence. by eapply W3.
    + by eapply W3.
  - intros n ix [Hix Hm]%map_lookup_filter_Some. apply W4 in Hix. rewrite has_columns_spec in *. intros c' Hc'.
    apply Hcols. split; [by apply Hix|]. intros [= E ->]. simpl in Hm. apply negb_true_iff, andb_false_iff in Hm.
    destruct Hm as [Hm%bool_decide_eq_false|Hm%bool_decide_eq_false]; done.
  - intros t' n k [Hk Hm]%map_lookup_filter_Some. simpl in Hm. pose proof (W5 _ _ _ Hk) as [K1 K2 K3 (rel0 & K4 & K5)].
    assert (Hno : t' = t -> c ∉ own_columns k).
    { intros -> Hin. unfold mentions in Hm. simpl in Hm. by rewrite !bool_decide_eq_true_2 in Hm. }
    assert (Hnp : (t, c) ∉ parent_columns k) by (intros Hin; apply Hfk; by exists (t', n), k).
    split.
    + rewrite has_columns_spec in *. intros c' Hc'. apply Hcols. split; [by apply K1|]. intros [= -> ->]. by apply Hno.
    + intros tc Htc. apply Hcols. split; [by apply K2|]. by intros ->.
    + destruct k as [cs|cs p pcs|e]; try done. apply unique_on_spec in K3 as [m Hu]. apply unique_on_spec. exists m. simpl.
      apply map_lookup_filter_Some. split; [done|]. unfold mentions. simpl. apply andb_false_iff.
      destruct (decide (p = t)) as [->|Hne]; [right|left; by apply bool_decide_eq_false].
      apply bool_decide_eq_false. intros Hin. apply Hnp. apply list_elem_of_fmap. by exists c.
    + exists (if bool_decide (t' = t) then cleared c rel else rel0). split.
      * rewrite Etab. destruct (decide (t' = t)) as [->|Hne].
        { by rewrite lookup_insert_eq, bool_decide_eq_true_2. }
        { by rewrite lookup_insert_ne, bool_decide_eq_false_2. }
      * by eapply satisfied_cleared.
Qed.

End Wf.
