(* ===== verification/Migrate.v ===== *)
(** * The tenant migrations (internal/migrate)

    The three migration sets over the catalogue: columns and policies
    (runner.go, tenantcolumn.go, sessions.go), composite indexes (indexes.go),
    and the constraints that wait for the backfill (tighten.go, compositefk.go).
    Upstream's migrator and configuration store are interfaces: the migrator
    runs the migrations it is handed in order, skipping those recorded as
    applied, each in a transaction that also records it, and stops at the first
    error; the store runs a function on a pool of its own. *)
From S2P Require Import Prelude GoStrings Sql TenantScope Isolation Catalog.

Definition ErrBackfillRequired : error :=
  New "migrate: table has rows with no tenant_id; backfill before installing its policy".
Definition ErrTenantColumnNullable : error := New "migrate: child tenant_id is still nullable".

Definition SessionPrincipalTypeColumn : string := "principal_type".
Definition SessionUserIDColumn : string := "user_id".
Definition PrincipalPlatformAdmin : string := "platform_admin".
Definition PrincipalTenantUser : string := "tenant_user".
Definition sessionPrincipalCheck : string := "sessions_principal_type_check".
Definition sessionOwnershipCheck : string := "sessions_principal_tenant_consistency_check".
Definition sessionPrincipalIndex : string := "idx_sessions_principal".

Definition tenantIndexName (table : string) : string := "idx_" +:+ table +:+ "_tenant_id".
Definition ParentKeyName (parent : string) : string := "uq_" +:+ parent +:+ "_tenant_id_id".

(** ** The edges that must not cross tenants *)
Record TenantFK := mkFK { fk_Name : string; fk_Child : string; fk_ChildColumn : string; fk_Parent : string; fk_Nullable : bool }.

Definition TenantFKs : list TenantFK :=
  [mkFK "fk_teams_tenant_customer" "governance_teams" "customer_id" "governance_customers" true;
   mkFK "fk_vk_tenant_team" "governance_virtual_keys" "team_id" "governance_teams" true;
   mkFK "fk_vk_tenant_customer" "governance_virtual_keys" "customer_id" "governance_customers" true;
   mkFK "fk_vk_tenant_ratelimit" "governance_virtual_keys" "rate_limit_id" "governance_rate_limits" true;
   mkFK "fk_vkpc_tenant_vk" "governance_virtual_key_provider_configs" "virtual_key_id" "governance_virtual_keys" false;
   mkFK "fk_vkpc_tenant_ratelimit" "governance_virtual_key_provider_configs" "rate_limit_id" "governance_rate_limits" true;
   mkFK "fk_vkmc_tenant_vk" "governance_virtual_key_mcp_configs" "virtual_key_id" "governance_virtual_keys" false;
   mkFK "fk_vkpck_tenant_vkpc" "governance_virtual_key_provider_config_keys" "table_virtual_key_provider_config_id"
     "governance_virtual_key_provider_configs" false;
   mkFK "fk_budget_tenant_vk" "governance_budgets" "virtual_key_id" "governance_virtual_keys" true;
   mkFK "fk_budget_tenant_team" "governance_budgets" "team_id" "governance_teams" true;
   mkFK "fk_budget_tenant_customer" "governance_budgets" "customer_id" "governance_customers" true;
   mkFK "fk_budget_tenant_vkpc" "governance_budgets" "provider_config_id" "governance_virtual_key_provider_configs" true;
   mkFK "fk_prompts_tenant_folder" "prompts" "folder_id" "folders" true;
   mkFK "fk_pv_tenant_prompt" "prompt_versions" "prompt_id" "prompts" false;
   mkFK "fk_ps_tenant_prompt" "prompt_sessions" "prompt_id" "prompts" false;
   mkFK "fk_ps_tenant_version" "prompt_sessions" "version_id" "prompt_versions" true;
   mkFK "fk_psm_tenant_prompt" "prompt_session_messages" "prompt_id" "prompts" false;
   mkFK "fk_psm_tenant_session" "prompt_session_messages" "session_id" "prompt_sessions" false;
   mkFK "fk_sv_tenant_skill" "skill_versions" "skill_id" "skills" false;
   mkFK "fk_sf_tenant_version" "skill_files" "skill_version_id" "skill_versions" false;
   mkFK "fk_sf_tenant_blob" "skill_files" "blob_id" "skill_file_blobs" true;
   mkFK "fk_mcptg_vk_tenant_group" "enterprise_mcp_tool_group_virtual_keys" "tool_group_id" "enterprise_mcp_tool_groups" false;
   mkFK "fk_mcptg_vk_tenant_vk" "enterprise_mcp_tool_group_virtual_keys" "virtual_key_id" "governance_virtual_keys" false].

(** Every table an edge points at, once, sorted. *)
Definition ParentTables : list string :=
  sort_strings (foldl (fun out fk => if bool_decide (fk_Parent fk ∈ out) then out else out ++ [fk_Parent fk]) [] TenantFKs).

(** ** The composite indexes *)
Record CompositeIndex := mkCompositeIndex { ci_Name : string; ci_Table : string; ci_Column : string }.

Definition CompositeIndexes : list CompositeIndex :=
  [mkCompositeIndex "idx_gc_tenant_id" "governance_customers" "id";
   mkCompositeIndex "idx_gt_tenant_customer" "governance_teams" "customer_id";
   mkCompositeIndex "idx_gvk_tenant_hash" "governance_virtual_keys" "value_hash";
   mkCompositeIndex "idx_gvkpc_tenant_vk" "governance_virtual_key_provider_configs" "virtual_key_id";
   mkCompositeIndex "idx_gvkpck_tenant_vkpc" "governance_virtual_key_provider_config_keys" "table_virtual_key_provider_config_id";
   mkCompositeIndex "idx_gvkmc_tenant_vk" "governance_virtual_key_mcp_configs" "virtual_key_id";
   mkCompositeIndex "idx_gb_tenant_vk" "governance_budgets" "virtual_key_id";
   mkCompositeIndex "idx_grl_tenant_id" "governance_rate_limits" "id";
   mkCompositeIndex "idx_prompts_tenant_id" "prompts" "id";
   mkCompositeIndex "idx_pv_tenant_prompt" "prompt_versions" "prompt_id";
   mkCompositeIndex "idx_ps_tenant_prompt" "prompt_sessions" "prompt_id";
   mkCompositeIndex "idx_psm_tenant_prompt" "prompt_session_messages" "prompt_id";
   mkCompositeIndex "idx_folders_tenant_id" "folders" "id";
   mkCompositeIndex "idx_skills_tenant_id" "skills" "id";
   mkCompositeIndex "idx_sv_tenant_skill" "skill_versions" "skill_id";
   mkCompositeIndex "idx_sf_tenant_version" "skill_files" "skill_version_id";
   mkCompositeIndex "idx_sfb_tenant_id" "skill_file_blobs" "id";
   mkCompositeIndex "idx_jobs_tenant_vk" "batch_jobs" "virtual_key_id";
   mkCompositeIndex "idx_tokens_tenant_scope" "temp_tokens" "scope";
   mkCompositeIndex "idx_mof_tenant_vk" "mcp_oauth_flows" "virtual_key_id";
   mkCompositeIndex "idx_mot_tenant_vk" "mcp_oauth_tokens" "virtual_key_id";
   mkCompositeIndex "idx_mphf_tenant_vk" "mcp_per_user_header_flows" "virtual_key_id";
   mkCompositeIndex "idx_mphc_tenant_vk" "mcp_per_user_header_credentials" "virtual_key_id";
   mkCompositeIndex "idx_ous_tenant_id" "oauth_user_sessions" "id";
   mkCompositeIndex "idx_out_tenant_vk" "oauth_user_tokens" "virtual_key_id";
   mkCompositeIndex "idx_emctg_tenant_id" "enterprise_mcp_tool_groups" "id";
   mkCompositeIndex "idx_emctgvk_tenant_group" "enterprise_mcp_tool_group_virtual_keys" "tool_group_id";
   mkCompositeIndex "idx_keys_tenant_key" CClassTable "key_id";
   mkCompositeIndex "idx_sessions_tenant_hash" SessionsTable "token_hash"].

(** The two CHECK conditions of sessions. *)
Definition principal_check : check_expr :=
  CheckOr (ColumnIsNull SessionPrincipalTypeColumn)
          (ColumnIn SessionPrincipalTypeColumn [PrincipalPlatformAdmin; PrincipalTenantUser]).
Definition ownership_check : check_expr :=
  CheckOr (CheckOr (ColumnIsNull SessionPrincipalTypeColumn)
    (CheckAnd (ColumnIn SessionPrincipalTypeColumn [PrincipalPlatformAdmin]) (ColumnIsNull tenant_id)))
    (CheckAnd (ColumnIn SessionPrincipalTypeColumn [PrincipalTenantUser]) (ColumnIsNotNull tenant_id)).

Section Migrate.
  Context `{Sql}.

(** [if err := checkIdentifier(name); err != nil { return err }] *)
Definition check_id (name : string) : M Pg unit :=
  match checkIdentifier name with Some e => throw e | None => mret tt end.

Fixpoint check_ids (names : list string) : M Pg unit :=
  match names with [] => mret tt | name :: names => check_id name;; check_ids names end.

(** Statements in order, the first failure wrapped. *)
Fixpoint exec_all (ctx : string) (stmts : list (M Pg unit)) : M Pg unit :=
  match stmts with [] => mret tt | s :: stmts => wrapping ctx s;; exec_all ctx stmts end.

(** ** tenantcolumn.go *)
Definition AddTenantColumn (table : string) : M Pg unit :=
  check_id table;;
  let index := tenantIndexName table in
  check_id index;;
  wrapping "migrate: add %s to %s: %w" (add_column table tenant_id);;
  wrapping "migrate: index %s on %s: %w" (create_index index table [tenant_id]).

Definition DropTenantColumn (table : string) : M Pg unit :=
  check_id table;;
  let index := tenantIndexName table in
  check_id index;;
  wrapping "migrate: drop index on %s: %w" (drop_index index);;
  wrapping "migrate: drop %s from %s: %w" (drop_column table tenant_id).

Definition SetTenantColumnNotNull (table : string) : M Pg unit :=
  check_id table;;
  wrapping "migrate: set %s NOT NULL on %s (unattributed rows block this): %w" (set_not_null table tenant_id).

Definition DropTenantColumnNotNull (table : string) : M Pg unit :=
  check_id table;;
  wrapping "migrate: drop NOT NULL on %s.%s: %w" (drop_not_null table tenant_id).

Definition unattributed (r : Row) : bool := bool_decide (value r tenant_id = None).

Definition CountUnattributed (table : string) : M Pg Z :=
  check_id table;;
  wrapping "migrate: count unattributed rows in %s: %w" (count_rows table [tenant_id] unattributed).

(** ** sessions.go *)
Definition installSessionConstraints : M Pg unit :=
  exec_all "migrate: sessions constraints (%q): %w"
    [drop_constraint SessionsTable sessionPrincipalCheck;
     add_constraint SessionsTable sessionPrincipalCheck (CheckThat principal_check);
     drop_constraint SessionsTable sessionOwnershipCheck;
     add_constraint SessionsTable sessionOwnershipCheck (CheckThat ownership_check)].

Definition MigrateSessions : M Pg unit :=
  exec_all "migrate: sessions columns (%q): %w"
    [add_column SessionsTable tenant_id; add_column SessionsTable SessionPrincipalTypeColumn;
     add_column SessionsTable SessionUserIDColumn];;
  wrapping "migrate: sessions principal index: %w"
    (create_index sessionPrincipalIndex SessionsTable [SessionPrincipalTypeColumn; tenant_id]);;
  installSessionConstraints.

Definition RollbackSessions : M Pg unit :=
  exec_all "migrate: rollback sessions (%q): %w"
    [drop_constraint SessionsTable sessionOwnershipCheck; drop_constraint SessionsTable sessionPrincipalCheck;
     drop_index sessionPrincipalIndex; drop_column SessionsTable SessionUserIDColumn;
     drop_column SessionsTable SessionPrincipalTypeColumn; drop_column SessionsTable tenant_id].

(** ** compositefk.go *)
Definition constraintExists (table name : string) : M Pg bool :=
  wrapping "migrate: look up constraint %s on %s: %w"
    (sql (fun w => (inr (bool_decide (is_Some (pg_constraints w !! (table, name)))), w))).

Definition columnIsNotNull (table column : string) : M Pg bool :=
  got ← wrapping "migrate: read nullability of %s.%s: %w" (sql (fun w => (inr (pg_columns w !! (table, column)), w)));
  match got with
  | None => throw (New "migrate: %s has no column %s (has its column migration run?)")
  | Some b => mret b
  end.

Definition TenantColumnIsNotNull (table : string) : M Pg bool :=
  check_id table;; columnIsNotNull table tenant_id.

Definition AddParentTenantKey (parent : string) : M Pg unit :=
  check_id parent;;
  let name := ParentKeyName parent in
  check_id name;;
  exists_ ← constraintExists parent name;
  if (exists_ : bool) then mret tt else
  wrapping "migrate: add %s to %s: %w" (add_constraint parent name (Unique [tenant_id; "id"])).

Definition DropParentTenantKey (parent : string) : M Pg unit :=
  check_id parent;;
  let name := ParentKeyName parent in
  check_id name;;
  wrapping "migrate: drop %s from %s: %w" (drop_constraint parent name).

Definition AddTenantFK (fk : TenantFK) : M Pg unit :=
  check_ids [fk_Name fk; fk_Child fk; fk_ChildColumn fk; fk_Parent fk];;
  match PolicyKindFor (fk_Parent fk) with
  | None => throw (New "migrate: FK %s references %s, which is not tenant-scoped")
  | Some _ =>
      notNull ← columnIsNotNull (fk_Child fk) tenant_id;
      if negb notNull
      then throw (Wrap "%w: %s.%s must be NOT NULL before %s is created, or MATCH SIMPLE leaves every unattributed row unchecked" ErrTenantColumnNullable) else
      exists_ ← constraintExists (fk_Child fk) (fk_Name fk);
      if (exists_ : bool) then mret tt else
      wrapping "migrate: add %s on %s: %w" (add_constraint (fk_Child fk) (fk_Name fk)
        (ForeignKey [tenant_id; fk_ChildColumn fk] (fk_Parent fk) [tenant_id; "id"]))
  end.

Definition DropTenantFK (fk : TenantFK) : M Pg unit :=
  check_id (fk_Child fk);; check_id (fk_Name fk);;
  wrapping "migrate: drop %s from %s: %w" (drop_constraint (fk_Child fk) (fk_Name fk)).

(** ** runner.go: the gate, and the migration sets *)
Definition assertBackfilled (table : string) (kind : PolicyKind) : M Pg unit :=
  if negb (bool_decide (kind = PolicyStrict)) then mret tt else
  wrapping "migrate: platform mode for %s backfill check: %w" (zoom on_conn EnablePlatformMode);;
  n ← CountUnattributed table;
  if 0 <? n then throw (Wrap "%w: %s has %d such row(s)" ErrBackfillRequired) else mret tt.

Record Migration := mkMigration { mg_ID : string; mg_Migrate : M Pg unit; mg_Rollback : M Pg unit }.

Definition columnMigration (table : string) : Migration :=
  mkMigration ("20260915-01-column-" +:+ table) (AddTenantColumn table) (DropTenantColumn table).

Definition policyMigration (table : string) : Migration :=
  mkMigration ("20260915-02-policy-" +:+ table)
    (match PolicyKindFor table with
     | None => throw (New "migrate: %s has no policy classification")
     | Some kind => assertBackfilled table kind;; zoom on_conn (InstallPolicy table kind)
     end)
    (zoom on_conn (RemovePolicy table)).

Definition sessionsMigration : Migration :=
  mkMigration "20260915-01-column-sessions" MigrateSessions RollbackSessions.

Definition Migrations : list Migration :=
  (columnMigration <$> BClassTables) ++ [columnMigration CClassTable] ++ [sessionsMigration] ++
  (policyMigration <$> TenantScopedTables).

Definition compositeIndexMigration (index : CompositeIndex) : Migration :=
  mkMigration ("20260915-01-index-" +:+ ci_Name index)
    (check_ids [ci_Name index; ci_Table index; ci_Column index];;
     wrapping "migrate: add composite index %s: %w"
       (create_index (ci_Name index) (ci_Table index) [tenant_id; ci_Column index]))
    (check_id (ci_Name index);; wrapping "migrate: drop composite index %s: %w" (drop_index (ci_Name index))).

Definition IndexMigrations : list Migration := compositeIndexMigration <$> CompositeIndexes.

Definition notNullMigration (table : string) : Migration :=
  mkMigration ("20260916-01-notnull-" +:+ table)
    (assertBackfilled table PolicyStrict;; SetTenantColumnNotNull table) (DropTenantColumnNotNull table).
Definition parentKeyMigration (parent : string) : Migration :=
  mkMigration ("20260916-02-parentkey-" +:+ parent) (AddParentTenantKey parent) (DropParentTenantKey parent).
Definition fkMigration (fk : TenantFK) : Migration :=
  mkMigration ("20260916-03-fk-" +:+ fk_Name fk) (AddTenantFK fk) (DropTenantFK fk).

Definition TighteningMigrations : list Migration :=
  (notNullMigration <$> BClassTables) ++ (parentKeyMigration <$> ParentTables) ++ (fkMigration <$> TenantFKs).

(** ** Upstream's migrator and store *)
Definition record_applied (id : string) : M Pg unit :=
  sql (fun w => (inr tt, set_applied ({[id]} ∪ pg_applied w) w)).

Definition run_migration (m : Migration) : M Pg unit :=
  Transaction (mg_Migrate m;; record_applied (mg_ID m)).

(** What a call of [Migrate] on a list does: pending migrations in order, each
    in its own transaction, until one fails; the bookkeeping may fail too. *)
Inductive migrated : list Migration -> Pg -> error + unit -> Pg -> Prop :=
| migrated_done w : migrated [] w (inr tt) w
| migrated_error ms w e : migrated ms w (inl e) w
| migrated_skip m ms w r w' : mg_ID m ∈ pg_applied w -> migrated ms w r w' -> migrated (m :: ms) w r w'
| migrated_step m ms w w1 r w' : mg_ID m ∉ pg_applied w -> outcome (run_migration m) w (inr tt) w1 ->
    migrated ms w1 r w' -> migrated (m :: ms) w r w'
| migrated_stop m ms w e w1 : mg_ID m ∉ pg_applied w -> outcome (run_migration m) w (inl e) w1 ->
    migrated (m :: ms) w (inl e) w1.

Class Migrator := {
  Migrate_ : list Migration -> M Pg unit;
  migrate_in_order : forall ms w r w', outcome (Migrate_ ms) w r w' -> migrated ms w r w' }.

Class MigrationStore := {
  RunMigration : M Pg unit -> M Pg unit;
  RefreshConnectionPool : M Pg unit;
  run_migration_runs : forall fn w r w', outcome (RunMigration fn) w r w' ->
    (exists e, r = inl e /\ w' = w) \/ outcome fn w r w';
  refresh_keeps : forall w r w', outcome RefreshConnectionPool w r w' -> w' = w }.

Section Run.
  Context `{!Migrator}.

Definition Apply : M Pg unit := wrapping "migrate: apply tenant migrations: %w" (Migrate_ Migrations).
Definition ApplyIndexes : M Pg unit := wrapping "migrate: apply tenant composite indexes: %w" (Migrate_ IndexMigrations).
Definition ApplyTightening : M Pg unit :=
  wrapping "migrate: apply tenant constraint tightening: %w" (Migrate_ TighteningMigrations).

(** [apply] through the store, which is then told to drop its cached plans. *)
Definition run_through (refreshing : string) (apply : M Pg unit) (store : option MigrationStore) : M Pg unit :=
  match store with
  | None => throw (New "migrate: store is nil")
  | Some store => RunMigration apply;; wrapping refreshing RefreshConnectionPool
  end.

Definition Run : option MigrationStore -> M Pg unit :=
  run_through "migrate: refresh connection pool after migration: %w" Apply.
Definition RunIndexes : option MigrationStore -> M Pg unit :=
  run_through "migrate: refresh connection pool after indexes: %w" ApplyIndexes.
Definition RunTightening : option MigrationStore -> M Pg unit :=
  run_through "migrate: refresh connection pool after tightening: %w" ApplyTightening.

End Run.

(** ** What an operator asks before a run *)
Definition Unattributed (ctx : option Context) : M Pg (gmap string Z) :=
  RunAcrossTenants ctx (foldl (fun (acc : M Pg (gmap string Z)) table =>
    out ← acc; n ← CountUnattributed table; mret (if 0 <? n then <[table := n]> out else out)) (mret ∅) BClassTables).

(** The pairs of a child row and a parent row with the id it points to, both
    visible, whose tenants differ. *)
Definition cross_pairs (w : Pg) (fk : TenantFK) (child parent : Relation) : list (Row * Row) :=
  let c := fun r => if bool_decide (value r (fk_ChildColumn fk) = None) then false else true in
  let visible := fun rel => where_ (reaches (pg_conn w) rel) (rl_rows rel) in
  List.filter (fun cp => bool_decide (value cp.2 "id" = value cp.1 (fk_ChildColumn fk)) && c cp.1 &&
                         negb (bool_decide (value cp.2 tenant_id = value cp.1 tenant_id)))
    (list_prod (visible child) (visible parent)).

Definition CrossTenantPairs (ctx : option Context) (fk : TenantFK) : M Pg Z :=
  check_ids [fk_Child fk; fk_ChildColumn fk; fk_Parent fk];;
  wrapping "migrate: count cross-tenant pairs for %s: %w" (RunAcrossTenants ctx (sql (fun w =>
    match tables w !! fk_Child fk, tables w !! fk_Parent fk with
    | Some child, Some parent =>
        if negb (has_columns w (fk_Child fk) [fk_ChildColumn fk; tenant_id] && has_columns w (fk_Parent fk) ["id"; tenant_id])
        then (inl ErrNoColumn, w) else (inr (Z.of_nat (length (cross_pairs w fk child parent))), w)
    | _, _ => (inl ErrNoRelation, w)
    end))).

End Migrate.
