(* ===== verification/MigrateSpec.v ===== *)
(** * What the tenant migrations establish

    The invariant of a database that only these migrations have changed: its
    catalogue is well formed, no tenant is bound on the migration connection,
    row-level security is forced only with one of the policies, the constraints
    under the names used here are the ones made here, and what is recorded as
    applied has been achieved.  Every run keeps it, whatever fails and wherever
    it stops, so that a successful run leaves what the request path relies on. *)
From S2P Require Import Prelude GoStrings Sql TenantScope Isolation Catalog Migrate.

(** ** Names *)
Definition tenant_indexes : list string := sessionPrincipalIndex :: (tenantIndexName <$> BClassTables ++ [CClassTable]).
Definition composite_indexes : list string := ci_Name <$> CompositeIndexes.
Definition created_constraints : list string :=
  [sessionPrincipalCheck; sessionOwnershipCheck] ++ (ParentKeyName <$> ParentTables) ++ (fk_Name <$> TenantFKs).

Definition shadowed_tables : list string := ["prompts"; "folders"; "skills"].

Lemma names_compute `{Sql} :
  forallb (fun n => bool_decide (checkIdentifier n = None)) (tenant_indexes ++ composite_indexes ++ created_constraints) = true /\
  bool_decide (NoDup (tenant_indexes ++ created_constraints)) && bool_decide (NoDup (composite_indexes ++ created_constraints)) = true /\
  bool_decide (NoDup (mg_ID <$> Migrations ++ IndexMigrations ++ TighteningMigrations)) = true /\
  List.filter (fun n => bool_decide (n ∈ composite_indexes)) tenant_indexes = tenantIndexName <$> shadowed_tables.
Proof. split_and!; vm_compute; reflexivity. Qed.

Lemma checkIdentifier_len n : checkIdentifier n = None -> (String.length n <= maxIdentifierLen)%nat.
Proof.
  unfold checkIdentifier. destruct (String.list_ascii_of_string n); [done|]. destruct (_ && _); [|done].
  destruct (maxIdentifierLen <? String.length n)%nat eqn:E; [done|]. intros _. by apply Nat.ltb_ge in E.
Qed.

(** Every index and constraint the migrations create has a name that is a safe
    identifier of at most 63 bytes, so that PostgreSQL truncates none; no two
    migrations share an identifier, so one record never stands for two; the
    names of each set of indexes are distinct, and distinct from those of the
    constraints.  But three composite indexes have the names of the tenant
    indexes of their tables: those of prompts, folders and skills, no others. *)
Theorem generated_names_safe `{Sql} :
  (forall n, n ∈ tenant_indexes ++ composite_indexes ++ created_constraints ->
     checkIdentifier n = None /\ (String.length n <= 63)%nat) /\
  NoDup (mg_ID <$> Migrations ++ IndexMigrations ++ TighteningMigrations) /\
  NoDup (tenant_indexes ++ created_constraints) /\ NoDup (composite_indexes ++ created_constraints) /\
  (forall n, n ∈ tenant_indexes /\ n ∈ composite_indexes <-> n ∈ tenantIndexName <$> ["prompts"; "folders"; "skills"]).
Proof.
  destruct names_compute as (H1 & [H2%bool_decide_eq_true H3%bool_decide_eq_true]%andb_true_iff & H4%bool_decide_eq_true & H5).
  split_and!; [|done..|].
  - intros n Hn. rewrite forallb_forall in H1. apply list_elem_of_In, H1, bool_decide_eq_true in Hn.
    split; [done|]. by apply checkIdentifier_len in Hn.
  - intros n. change ["prompts"; "folders"; "skills"] with shadowed_tables. rewrite <-H5, !list_elem_of_In, filter_In.
    by rewrite bool_decide_eq_true, <-!list_elem_of_In.
Qed.

Section Spec.
  Context `{Sql}.
  Implicit Types (w : Pg) (t c n : string) (rel : Relation).

(** ** The invariant *)
Definition our_constraints : list ((string * string) * constraint) :=
  [((SessionsTable, sessionPrincipalCheck), CheckThat principal_check);
   ((SessionsTable, sessionOwnershipCheck), CheckThat ownership_check)] ++
  ((fun p => ((p, ParentKeyName p), Unique [tenant_id; "id"])) <$> ParentTables) ++
  ((fun fk => ((fk_Child fk, fk_Name fk), ForeignKey [tenant_id; fk_ChildColumn fk] (fk_Parent fk) [tenant_id; "id"])) <$> TenantFKs).
(** By name; sealed, so that no tactic looks inside. *)
Lemma our_map_seal : seal (list_to_map our_constraints : gmap (string * string) constraint).
Proof. by eexists. Qed.
Definition our_map : gmap (string * string) constraint := unseal our_map_seal.

Lemma our_map_compute :
  let m : gmap (string * string) constraint := list_to_map our_constraints in
  forallb (fun kk => bool_decide (m !! kk.1 = Some kk.2)) our_constraints = true.
Proof. vm_compute. reflexivity. Qed.

Lemma our_map_lookup key k : (key, k) ∈ our_constraints -> our_map !! key = Some k.
Proof.
  intros Hin. pose proof our_map_compute as Hc. cbv zeta in Hc. rewrite forallb_forall in Hc.
  apply list_elem_of_In, Hc, bool_decide_eq_true in Hin. unfold our_map. rewrite (seal_eq our_map_seal). exact Hin.
Qed.

Definition ours w : Prop := forall key k k', pg_constraints w !! key = Some k -> our_map !! key = Some k' -> k = k'.

Definition governed_by (kind : PolicyKind) rel : Prop :=
  rl_enabled rel = true /\ rl_forced rel = true /\ rl_policy rel = Some (policyClauses kind).
Definition own_policy rel : Prop :=
  rl_enabled rel && rl_forced rel = true -> exists kind, rl_policy rel = Some (policyClauses kind).

Definition table_policed t w : Prop :=
  exists kind rel, PolicyKindFor t = Some kind /\ tables w !! t = Some rel /\ governed_by kind rel.

(** The tenant column of a table, with its index. *)
Definition column_in_place t w : Prop :=
  is_Some (pg_columns w !! (t, tenant_id)) /\ is_Some (pg_indexes w !! tenantIndexName t).

(** The columns, the index and the two checks of sessions. *)
Record sessions_in_place w : Prop := {
  sp_columns : forall c, c ∈ [tenant_id; SessionPrincipalTypeColumn; SessionUserIDColumn] ->
    is_Some (pg_columns w !! (SessionsTable, c));
  sp_index : is_Some (pg_indexes w !! sessionPrincipalIndex);
  sp_principal : pg_constraints w !! (SessionsTable, sessionPrincipalCheck) = Some (CheckThat principal_check);
  sp_ownership : pg_constraints w !! (SessionsTable, sessionOwnershipCheck) = Some (CheckThat ownership_check) }.

(** What each migration achieves, under its identifier. *)
Inductive fact : string -> (Pg -> Prop) -> Prop :=
| fact_column t : t ∈ BClassTables ++ [CClassTable] ->
    fact (mg_ID (columnMigration t)) (column_in_place t)
| fact_sessions : fact (mg_ID sessionsMigration) sessions_in_place
| fact_policy t : t ∈ TenantScopedTables -> fact (mg_ID (policyMigration t)) (table_policed t)
| fact_index ix : ix ∈ CompositeIndexes -> fact (mg_ID (compositeIndexMigration ix)) (fun w => is_Some (pg_indexes w !! ci_Name ix))
| fact_not_null t : t ∈ BClassTables ->
    fact (mg_ID (notNullMigration t)) (fun w => pg_columns w !! (t, tenant_id) = Some true)
| fact_parent p : p ∈ ParentTables ->
    fact (mg_ID (parentKeyMigration p)) (fun w =>
      pg_constraints w !! (p, ParentKeyName p) = Some (Unique [tenant_id; "id"]))
| fact_fk fk : fk ∈ TenantFKs ->
    fact (mg_ID (fkMigration fk)) (fun w => pg_constraints w !! (fk_Child fk, fk_Name fk) =
      Some (ForeignKey [tenant_id; fk_ChildColumn fk] (fk_Parent fk) [tenant_id; "id"])).

Record inv w : Prop := {
  inv_wf : wf w;
  inv_ours : ours w;
  inv_policies : forall t rel, tables w !! t = Some rel -> own_policy rel;
  inv_facts : forall id (P : Pg -> Prop), fact id P -> id ∈ pg_applied w -> P w }.

(** What one migration may do to another's work: nothing. *)
Record extends w w' : Prop := {
  ex_session : cn_session (pg_conn w') = cn_session (pg_conn w);
  ex_applied : pg_applied w' = pg_applied w;
  ex_tables : forall t rel, tables w !! t = Some rel -> exists rel', tables w' !! t = Some rel' /\
    rl_rows rel' = rl_rows rel /\ (own_policy rel -> own_policy rel') /\
    forall kind, PolicyKindFor t = Some kind -> governed_by kind rel -> governed_by kind rel';
  ex_domain : forall t rel', tables w' !! t = Some rel' -> is_Some (tables w !! t);
  ex_columns : forall tc, is_Some (pg_columns w !! tc) -> is_Some (pg_columns w' !! tc);
  ex_not_null : forall tc, pg_columns w !! tc = Some true -> pg_columns w' !! tc = Some true;
  ex_indexes : forall n ix, pg_indexes w !! n = Some ix -> pg_indexes w' !! n = Some ix;
  ex_constraints : forall key k, pg_constraints w !! key = Some k -> pg_constraints w' !! key = Some k;
  ex_ours : ours w -> ours w' }.

#[export] Instance extends_preorder : PreOrder extends.
Proof.
  split.
  - intros w. split; try done. intros t rel Hrel. by exists rel.
  - intros w1 w2 w3 [] []. split; try (by auto); try congruence.
    + intros t rel Hrel. destruct (ex_tables0 _ _ Hrel) as (r2 & H2 & E2 & O2 & G2).
      destruct (ex_tables1 _ _ H2) as (r3 & H3 & E3 & O3 & G3). exists r3. split_and!; [done|congruence|by auto|].
      intros kind Hk Hg. by apply G3, G2.
    + intros t rel' Ht. apply ex_domain1 in Ht as [r2 H2]. by eapply ex_domain0.
Qed.

Lemma extends_same w w' :
  cn_session (pg_conn w') = cn_session (pg_conn w) -> tables w' = tables w -> pg_applied w' = pg_applied w ->
  (forall tc, is_Some (pg_columns w !! tc) -> is_Some (pg_columns w' !! tc)) ->
  (forall tc, pg_columns w !! tc = Some true -> pg_columns w' !! tc = Some true) ->
  (forall n ix, pg_indexes w !! n = Some ix -> pg_indexes w' !! n = Some ix) ->
  pg_constraints w' = pg_constraints w -> extends w w'.
Proof.
  intros E1 E2 E3 E4 E5 Ei E6. split; [exact E1|exact E3| | |exact E4|exact E5|exact Ei| |].
  - intros t rel Hrel. rewrite E2. by exists rel.
  - intros t rel'. rewrite E2. by eexists.
  - intros key k. by rewrite E6.
  - unfold ours. by rewrite E6.
Qed.

Lemma fact_extends id (P : Pg -> Prop) w w' : fact id P -> extends w w' -> P w -> P w'.
Proof.
  intros Hf Hx.
  assert (Hi : forall n, is_Some (pg_indexes w !! n) -> is_Some (pg_indexes w' !! n)).
  { intros n [ix Hix]. exists ix. by apply (ex_indexes _ _ Hx). }
  destruct Hf as [t Ht| |t Ht|ix Hix|t Ht|p Hp|fk Hfk].
  - intros [? ?]. split; [by apply (ex_columns _ _ Hx)|by apply Hi].
  - intros [S1 S2 S3 S4]. split; [|by apply Hi|by apply (ex_constraints _ _ Hx)..].
    intros c Hc. by apply (ex_columns _ _ Hx), S1.
  - intros (kind & rel & Hk & Hrel & Hg). destruct (ex_tables _ _ Hx _ _ Hrel) as (rel' & Hrel' & _ & _ & Hg').
    exists kind, rel'. split_and!; [done|done|by apply Hg'].
  - apply Hi.
  - apply (ex_not_null _ _ Hx).
  - apply (ex_constraints _ _ Hx).
  - apply (ex_constraints _ _ Hx).
Qed.

(** ** What a successful call leaves

    Inside a transaction only success counts: an error rolls everything back. *)
Definition on_success {A} (m : M Pg A) w (Q : A -> Pg -> Prop) : Prop :=
  wp false m w (fun r w' => match r with inl _ => True | inr a => Q a w' end).

Lemma os_mono {A} (m : M Pg A) w (P Q : A -> Pg -> Prop) :
  on_success m w P -> (forall a w', P a w' -> Q a w') -> on_success m w Q.
Proof. intros Hm HPQ. eapply wp_mono; [exact Hm|]. intros [e|a] w'; [done|apply HPQ]. Qed.

Lemma os_bind {A B} (m : M Pg A) (k : A -> M Pg B) w Q :
  on_success m w (fun a w' => on_success (k a) w' Q) -> on_success (m ≫= k) w Q.
Proof. intros Hm. apply wp_bind. eapply wp_mono; [exact Hm|]. by intros [e|a] w'. Qed.

(** Two statements taken as one. *)
Lemma os_then {B} (m1 m2 : M Pg unit) (k : M Pg B) w Q :
  on_success (m1;; m2) w (fun _ w' => on_success k w' Q) -> on_success (m1;; m2;; k) w Q.
Proof.
  intros Hm sc Hsc. specialize (Hm sc Hsc). unfold mbind, M_bind in *.
  destruct (m1 w sc) as [[[e|[]] w1] sc1]; [done|]. destruct (m2 w1 sc1) as [[[e|[]] w2] sc2]; [done|].
  destruct Hm as [Hs Hm]. by apply Hm.
Qed.

Lemma os_wrapping {A} ctx (m : M Pg A) w Q : on_success m w Q -> on_success (wrapping ctx m) w Q.
Proof. intros Hm. apply wp_wrapping. eapply wp_mono; [exact Hm|]. by intros [e|a] w'. Qed.

Lemma os_ret {A} (a : A) w (Q : A -> Pg -> Prop) : Q a w -> on_success (mret a) w Q.
Proof. intros HQ. by apply wp_ret. Qed.

Lemma os_throw {A} e w (Q : A -> Pg -> Prop) : on_success (throw e) w Q.
Proof. by apply wp_throw. Qed.

Lemma os_check_id name (Q : unit -> Pg -> Prop) w : Q tt w -> on_success (check_id name) w Q.
Proof. intros HQ. unfold check_id. destruct (checkIdentifier name); [apply os_throw|by apply os_ret]. Qed.

Lemma os_check_ids names (Q : unit -> Pg -> Prop) w : Q tt w -> on_success (check_ids names) w Q.
Proof.
  intros HQ. induction names as [|n names IH]; simpl; [by apply os_ret|]. by apply os_bind, os_check_id.
Qed.

Lemma os_on_table t f w (Q : unit -> Pg -> Prop) :
  (forall rel w', tables w !! t = Some rel -> f rel w = inr w' -> Q tt w') -> on_success (on_table t f) w Q.
Proof.
  intros HQ. apply wp_on_table; [done|done|]. intros rel Hrel. destruct (f rel w) as [e|w'] eqn:E; [done|]. by eapply HQ.
Qed.

Lemma os_sql {A} (f : Pg -> (error + A) * Pg) w (Q : A -> Pg -> Prop) :
  (forall a w', f w = (inr a, w') -> Q a w') -> on_success (sql f) w Q.
Proof. intros HQ. apply wp_sql; [done|]. destruct (f w) as [[e|a] w'] eqn:E; [done|]. by apply HQ. Qed.

(** The same, together with well-formedness. *)
Lemma os_wf {A} (m : M Pg A) w (Q : A -> Pg -> Prop) :
  wp false m w (fun _ w' => wf w') -> on_success m w Q -> on_success m w (fun a w' => wf w' /\ Q a w').
Proof.
  intros H1 H2 sc Hsc. specialize (H1 sc Hsc). specialize (H2 sc Hsc).
  destruct (m w sc) as [[[e|a] w'] sc']; destruct H1, H2; auto.
Qed.

(** *** Statements extend *)
Lemma os_add_column t c w :
  on_success (add_column t c) w (fun _ w' => extends w w' /\ is_Some (pg_columns w' !! (t, c))).
Proof.
  apply os_on_table. intros rel w' Hrel [= <-]. destruct (pg_columns w !! (t, c)) as [b|] eqn:E.
  { split; [reflexivity|]. by rewrite E. }
  split; [|simpl; by rewrite lookup_insert_eq]. apply extends_same; try done; intros tc Htc; simpl;
    (destruct (decide (tc = (t, c))) as [->|Hne]; [exfalso; revert Htc; rewrite E; (discriminate || by intros [])|by rewrite lookup_insert_ne]).
Qed.

Lemma os_create_index n t cs w :
  on_success (create_index n t cs) w (fun _ w' => extends w w' /\
    pg_indexes w' !! n = Some (default (mkIndex t cs) (pg_indexes w !! n)) /\
    (is_Some (pg_indexes w !! n) -> w' = w)).
Proof.
  apply os_on_table. intros rel w' Hrel Hf. destruct (pg_indexes w !! n) as [ix|] eqn:E.
  - injection Hf as <-. split_and!; [reflexivity|done|done].
  - destruct (has_columns w t cs); [|done]. injection Hf as <-. split_and!.
    + apply extends_same; try done. intros n' ix' Hix. simpl. rewrite lookup_insert_ne; [done|]. intros ->. by rewrite E in Hix.
    + simpl. by rewrite lookup_insert_eq.
    + by intros [].
Qed.

Lemma os_set_not_null t c w :
  on_success (set_not_null t c) w (fun _ w' => extends w w' /\ pg_columns w' !! (t, c) = Some true).
Proof.
  apply os_on_table. intros rel w' Hrel Hf. destruct (pg_columns w !! (t, c)) eqn:E; [|done].
  destruct (forallb _ _); [|done]. injection Hf as <-. split; [|simpl; by rewrite lookup_insert_eq].
  apply extends_same; try done; intros tc Htc; simpl;
    (destruct (decide (tc = (t, c))) as [->|Hne]; [by rewrite lookup_insert_eq|by rewrite lookup_insert_ne]).
Qed.

Lemma extends_constraints w ks :
  (forall key k, pg_constraints w !! key = Some k -> ks !! key = Some k) ->
  (ours w -> ours (set_constraints ks w)) -> extends w (set_constraints ks w).
Proof.
  intros Hk Ho. split; try done. intros t rel Hrel. by exists rel.
Qed.

Lemma os_add_constraint t n k w :
  our_map !! (t, n) = Some k ->
  on_success (add_constraint t n k) w (fun _ w' => extends w w' /\ pg_constraints w' !! (t, n) = Some k).
Proof.
  intros Hour. apply os_on_table. intros rel w' Hrel Hf. destruct (_ || _); [done|].
  destruct (bool_decide (is_Some _)) eqn:E; [done|]. destruct (match k with ForeignKey _ _ _ => _ | _ => false end); [done|].
  destruct (satisfied w rel k); [|done]. injection Hf as <-. split; [|simpl; by rewrite lookup_insert_eq].
  apply bool_decide_eq_false in E. apply extends_constraints.
  - intros key k' Hk'. rewrite lookup_insert_ne; [done|]. intros <-. apply E. by eexists.
  - intros Ho key k1 k2. simpl. intros [[<- <-]|[_ Hk1]]%lookup_insert_Some Hk2; [congruence|exact (Ho _ _ _ Hk1 Hk2)].
Qed.

(** A constraint made anew under one of our names. *)
Lemma os_replace_constraint t n k w ctx :
  our_map !! (t, n) = Some k -> (match k with Unique _ => False | _ => True end) -> ours w ->
  on_success (wrapping ctx (drop_constraint t n);; wrapping ctx (add_constraint t n k)) w
    (fun _ w' => extends w w' /\ pg_constraints w' !! (t, n) = Some k).
Proof.
  intros Hour Hu Ho. apply os_bind, os_wrapping, os_on_table. intros rel w1 Hrel Hf.
  assert (E1 : w1 = set_constraints (delete (t, n) (pg_constraints w)) w).
  { destruct (pg_constraints w !! (t, n)) as [k0|] eqn:E.
    - pose proof (Ho _ _ _ E Hour) as ->. destruct k; [done|..]; by injection Hf as <-.
    - injection Hf as <-. rewrite delete_id by done. by destruct w. }
  subst w1. apply os_wrapping. eapply os_mono; [by apply os_add_constraint|]. intros _ w2 [Hx H2]. split; [|done].
  assert (Hd : forall key k', pg_constraints w !! key = Some k' -> pg_constraints w2 !! key = Some k').
  { intros key k' Hk'. destruct (decide (key = (t, n))) as [->|Hne].
    - rewrite H2. f_equal. symmetry. exact (Ho _ _ _ Hk' Hour).
    - apply (ex_constraints _ _ Hx). simpl. by rewrite lookup_delete_ne. }
  destruct Hx as [X1 X2 X3 X4 X5 X6 X7 _ X8]. split; [exact X1|exact X2|exact X3|exact X4|exact X5|exact X6|exact X7|exact Hd|].
  intros _. apply X8. intros key k1 k2. simpl. intros [_ Hk1]%lookup_delete_Some Hk2. exact (Ho _ _ _ Hk1 Hk2).
Qed.

(** ** What each migration achieves *)
Definition unbound_tx w : Prop :=
  is_Some (cn_local (pg_conn w)) /\ current_setting (pg_conn w) SettingName = EmptyString.

Record ready w : Prop := {
  rd_wf : wf w;
  rd_ours : ours w;
  rd_policies : forall t rel, tables w !! t = Some rel -> own_policy rel;
  rd_unbound : unbound_tx w }.

Definition achieves (m : M Pg unit) (P : Pg -> Prop) : Prop :=
  forall w, ready w -> on_success m w (fun _ w' => extends w w' /\ P w').

Lemma add_tenant_column_achieves t :
  achieves (AddTenantColumn t) (column_in_place t).
Proof.
  intros w _. unfold AddTenantColumn. apply os_bind, os_check_id, os_bind, os_check_id, os_bind, os_wrapping.
  eapply os_mono; [apply os_add_column|]. intros _ w1 [X1 C1]. apply os_wrapping.
  eapply os_mono; [apply os_create_index|]. intros _ w2 (X2 & I2 & _). split; [by etrans|].
  split; [by apply (ex_columns _ _ X2)|by eexists].
Qed.

Lemma sessions_achieve : achieves MigrateSessions sessions_in_place.
Proof.
  intros w [_ Ho _ _]. unfold MigrateSessions. apply os_bind. cbn [exec_all].
  apply os_bind, os_wrapping. eapply os_mono; [apply os_add_column|]. intros _ w1 [X1 C1].
  apply os_bind, os_wrapping. eapply os_mono; [apply os_add_column|]. intros _ w2 [X2 C2].
  apply os_bind, os_wrapping. eapply os_mono; [apply os_add_column|]. intros _ w3 [X3 C3].
  apply os_ret. apply os_bind, os_wrapping. eapply os_mono; [apply os_create_index|]. intros _ w4 (X4 & I4 & _).
  assert (X : extends w w4) by exact (transitivity X1 (transitivity X2 (transitivity X3 X4))).
  unfold installSessionConstraints. cbn [exec_all].
  assert (O1 : our_map !! (SessionsTable, sessionPrincipalCheck) = Some (CheckThat principal_check)) by (apply our_map_lookup; left).
  assert (O2 : our_map !! (SessionsTable, sessionOwnershipCheck) = Some (CheckThat ownership_check)) by (apply our_map_lookup; right; left).
  apply os_then. eapply os_mono; [apply (os_replace_constraint _ _ _ _ _ O1 I (ex_ours _ _ X Ho))|]. intros _ w6 [X6 C6].
  apply os_then. eapply os_mono; [apply (os_replace_constraint _ _ _ _ _ O2 I (ex_ours _ _ (transitivity X X6) Ho))|].
  intros _ w8 [X8 C8]. apply os_ret. split; [exact (transitivity X (transitivity X6 X8))|].
  assert (X48 : extends w4 w8) by exact (transitivity X6 X8).
  split; [|exists (default (mkIndex SessionsTable [SessionPrincipalTypeColumn; tenant_id]) (pg_indexes w3 !! sessionPrincipalIndex));
    by apply (ex_indexes _ _ X48)|by apply (ex_constraints _ _ X8)|done].
  intros c. rewrite !elem_of_cons. intros [->|[->|[->|Hc%elem_of_nil]]]; [..|done]; apply (ex_columns _ _ X48), (ex_columns _ _ X4).
  - by apply (ex_columns _ _ X3), (ex_columns _ _ X2).
  - by apply (ex_columns _ _ X3).
  - done.
Qed.

Lemma index_achieves ix : achieves (mg_Migrate (compositeIndexMigration ix)) (fun w => is_Some (pg_indexes w !! ci_Name ix)).
Proof.
  intros w _. cbn [mg_Migrate compositeIndexMigration]. apply os_bind, os_check_ids, os_wrapping.
  eapply os_mono; [apply os_create_index|]. intros _ w' (X & I & _). split; [done|by eexists].
Qed.

(** *** The backfill gate *)
Definition with_conn (c : Conn) w : Pg := fset on_conn c w.

Lemma extends_conn (conn : Conn) w :
  cn_session conn = cn_session (pg_conn w) -> cn_tables conn = tables w -> extends w (with_conn conn w).
Proof. intros E1 E2. by apply extends_same. Qed.

Definition platform_tx w : Prop :=
  unbound_tx w /\ current_setting (pg_conn w) PlatformModeSettingName = PlatformModeOn.

Lemma os_platform w : unbound_tx w ->
  on_success (zoom on_conn EnablePlatformMode) w (fun _ w' => extends w w' /\ tables w' = tables w /\
    pg_columns w' = pg_columns w /\ platform_tx w').
Proof.
  intros [[l El] Es]. unfold on_success. apply wp_zoom. unfold EnablePlatformMode, enablePlatformMode, set_config, read_setting.
  repeat wp_step. apply wp_sql; cbn [fst snd]; [done|]. rewrite El. simpl. repeat wp_step. apply wp_sql; cbn [fst snd]; [done|].
  destruct (current_setting_set (pg_conn w) PlatformModeSettingName PlatformModeOn l El) as [H1 H2].
  repeat wp_step; [done|]. split; [by apply (extends_conn (mkConn _ _ _))|]. split; [done|]. split; [done|]. split; [|done].
  split; [by eexists|]. simpl. by rewrite H2.
Qed.

Lemma reaches_platform w rel r : platform_tx w -> own_policy rel -> reaches (pg_conn w) rel r = true.
Proof.
  intros [[_ Es] Ep] Ho. unfold reaches, governed. destruct (rl_enabled rel && rl_forced rel) eqn:E; [|done].
  destruct (Ho E) as [kind ->]. rewrite (proj1 (policy_rule kind (current_setting (pg_conn w)) (rw_TenantID r))), Es, Ep.
  unfold may_read. reflexivity.
Qed.

Definition attributed t w : Prop := forall rel r, tables w !! t = Some rel -> r ∈ all_rows rel -> value r tenant_id <> None.

Lemma os_assertBackfilled t w : unbound_tx w -> (forall rel, tables w !! t = Some rel -> own_policy rel) ->
  on_success (assertBackfilled t PolicyStrict) w (fun _ w' => extends w w' /\ tables w' = tables w /\ attributed t w').
Proof.
  intros Hu Ho. unfold assertBackfilled. rewrite bool_decide_eq_true_2 by done. simpl.
  apply os_bind, os_wrapping. eapply os_mono; [by apply os_platform|]. intros _ w1 (X & Et & _ & Hp).
  apply os_bind. unfold CountUnattributed. apply os_bind, os_check_id, os_wrapping, os_sql. intros n w' Hn.
  destruct (tables w1 !! t) as [rel|] eqn:Erel; [|done]. destruct (negb _); [done|]. injection Hn as <- <-.
  destruct (0 <? _) eqn:E; [apply os_throw|]. apply os_ret. split; [done|]. split; [done|]. bools.
  intros rel' r Hrel' Hr. assert (rel' = rel) as -> by congruence.
  destruct (where_ _ (rl_rows rel)) as [|x l] eqn:Ew; [|simpl in E; lia]. rewrite where_nil in Ew.
  apply elem_of_all_rows in Hr as [i Hi]. specialize (Ew i r Hi). rewrite reaches_platform in Ew; [|done|apply Ho; congruence].
  unfold unattributed in Ew. simpl in Ew. by apply bool_decide_eq_false in Ew.
Qed.

Lemma scoped_strict t : t ∈ BClassTables -> PolicyKindFor t = Some PolicyStrict.
Proof.
  intros Ht. unfold PolicyKindFor. assert (Hall : forallb (fun t => negb (bool_decide (t = CClassTable)) &&
    negb (bool_decide (t = SessionsTable))) BClassTables = true) by reflexivity.
  rewrite forallb_forall in Hall. apply list_elem_of_In in Ht. specialize (Hall _ Ht). bools.
  rewrite !bool_decide_eq_false_2 by done. rewrite (proj2 (existsb_exists _ _)); [done|].
  exists t. split; [done|]. by apply bool_decide_eq_true.
Qed.

Lemma scoped_kind t : t ∈ TenantScopedTables -> exists kind, PolicyKindFor t = Some kind.
Proof.
  unfold TenantScopedTables. intros [Ht|Ht]%elem_of_app; [eexists; by apply scoped_strict|].
  apply elem_of_cons in Ht as [->|Ht%list_elem_of_singleton]; [by eexists|]. subst. by eexists.
Qed.

Lemma kind_scoped t kind : PolicyKindFor t = Some kind -> t ∈ TenantScopedTables.
Proof.
  unfold PolicyKindFor, TenantScopedTables. intros Hk. rewrite elem_of_app, elem_of_cons, list_elem_of_singleton.
  repeat case_bool_decide; [auto..|]. destruct (existsb _ _) eqn:E in Hk; [|done].
  apply existsb_exists in E as (x & Hx & <-%bool_decide_eq_true). left. by apply list_elem_of_In.
Qed.

Lemma os_install t kind w : PolicyKindFor t = Some kind ->
  on_success (zoom on_conn (InstallPolicy t kind)) w (fun _ w' => exists rel, tables w !! t = Some rel /\
    w' = with_conn (mkConn (cn_session (pg_conn w)) (cn_local (pg_conn w))
      (<[t := mkRelation (rl_rows rel) true true (Some (policyClauses kind))]> (tables w))) w).
Proof.
  intros Hk. unfold on_success. apply wp_zoom. unfold InstallPolicy. rewrite (scoped_tables_safe _ _ Hk). simpl.
  destruct (tables w !! t) as [rel|] eqn:Erel.
  - wp_step. wp_step. eapply wp_relation_f; [exact Erel|done|].
    wp_step. eapply wp_relation_f; [apply lookup_insert_eq|done|].
    wp_step. eapply wp_relation_f; [apply lookup_insert_eq|done|].
    eapply wp_relation_f; [apply lookup_insert_eq|done|]. simpl. exists rel. split; [done|]. by rewrite !insert_insert_eq.
  - wp_step. wp_step. unfold relation_f. apply wp_sql; [done|]. unfold tables in Erel. by rewrite Erel.
Qed.

Lemma extends_install t kind rel w : PolicyKindFor t = Some kind -> tables w !! t = Some rel ->
  let w' := with_conn (mkConn (cn_session (pg_conn w)) (cn_local (pg_conn w))
      (<[t := mkRelation (rl_rows rel) true true (Some (policyClauses kind))]> (tables w))) w in
  extends w w' /\ table_policed t w'.
Proof.
  intros Hk Hrel w'. split.
  - split; try done.
    + intros t' rel' Hrel'. unfold tables. simpl. destruct (decide (t' = t)) as [->|Hne].
      * rewrite lookup_insert_eq. eexists. split; [done|]. assert (rel' = rel) as -> by congruence. split; [done|].
        split; [intros _ _; by exists kind|]. intros kind' Hk' _. assert (kind' = kind) as -> by congruence. done.
      * rewrite lookup_insert_ne by done. by exists rel'.
    + intros t' rel' Ht'. destruct (decide (t' = t)) as [->|Hne]; [by eexists|].
      unfold tables in Ht'. simpl in Ht'. rewrite lookup_insert_ne in Ht' by done. by eexists.
  - exists kind. eexists. split; [done|]. split; [apply lookup_insert_eq|done].
Qed.

Lemma policy_achieves t : t ∈ TenantScopedTables ->
  achieves (mg_Migrate (policyMigration t)) (fun w => table_policed t w /\
    (PolicyKindFor t = Some PolicyStrict -> attributed t w)).
Proof.
  intros Ht w [Hw Ho Hp Hu]. destruct (scoped_kind _ Ht) as [kind Hk]. cbn [mg_Migrate policyMigration]. rewrite Hk. apply os_bind.
  apply (os_mono _ _ (fun _ w1 => extends w w1 /\ (kind = PolicyStrict -> attributed t w1))).
  - destruct (decide (kind = PolicyStrict)) as [->|Hne].
    + eapply os_mono; [apply os_assertBackfilled; [done|by apply Hp]|]. by intros _ w1 (X & _ & A).
    + unfold assertBackfilled. rewrite bool_decide_eq_false_2 by done. simpl. apply os_ret. split; [reflexivity|done].
  - intros _ w1 [X1 A1]. eapply os_mono; [by apply os_install|]. intros _ w2 (rel & Hrel & ->).
    destruct (extends_install t kind rel w1 Hk Hrel) as [X2 P2]. split; [exact (transitivity X1 X2)|]. split; [done|].
    intros [= ->] rel' r. unfold tables. simpl. rewrite lookup_insert_eq. intros [= <-] Hr. apply (A1 eq_refl rel); [done|].
    exact Hr.
Qed.

Lemma not_null_achieves t : t ∈ BClassTables ->
  achieves (mg_Migrate (notNullMigration t)) (fun w => pg_columns w !! (t, tenant_id) = Some true).
Proof.
  intros Ht w [Hw Ho Hp Hu]. cbn [mg_Migrate notNullMigration]. apply os_bind. eapply os_mono; [apply os_assertBackfilled; [done|by apply Hp]|].
  intros _ w1 (X1 & _ & _). unfold SetTenantColumnNotNull. apply os_bind, os_check_id, os_wrapping.
  eapply os_mono; [apply os_set_not_null|]. intros _ w2 [X2 C2]. split; [exact (transitivity X1 X2)|done].
Qed.

Lemma os_constraintExists t n w (Q : bool -> Pg -> Prop) :
  Q (bool_decide (is_Some (pg_constraints w !! (t, n)))) w -> on_success (constraintExists t n) w Q.
Proof. intros HQ. unfold constraintExists. apply os_wrapping, os_sql. by intros a w' [= <- <-]. Qed.

Lemma parent_achieves p : p ∈ ParentTables ->
  achieves (mg_Migrate (parentKeyMigration p)) (fun w => pg_constraints w !! (p, ParentKeyName p) = Some (Unique [tenant_id; "id"])).
Proof.
  intros Hp w [Hw Ho _ _]. cbn [mg_Migrate parentKeyMigration]. unfold AddParentTenantKey.
  assert (Hour : our_map !! (p, ParentKeyName p) = Some (Unique [tenant_id; "id"])).
  { apply our_map_lookup. unfold our_constraints. rewrite !elem_of_app. right. left. apply list_elem_of_fmap. by exists p. }
  apply os_bind, os_check_id, os_bind, os_check_id, os_bind, os_constraintExists. case_bool_decide as E.
  - apply os_ret. split; [reflexivity|]. destruct E as [k Ek]. by rewrite Ek, (Ho _ _ _ Ek Hour).
  - apply os_wrapping. by apply os_add_constraint.
Qed.

Lemma fk_achieves fk : fk ∈ TenantFKs ->
  achieves (mg_Migrate (fkMigration fk)) (fun w => pg_columns w !! (fk_Child fk, tenant_id) = Some true /\
    pg_constraints w !! (fk_Child fk, fk_Name fk) = Some (ForeignKey [tenant_id; fk_ChildColumn fk] (fk_Parent fk) [tenant_id; "id"])).
Proof.
  intros Hfk w [Hw Ho _ _]. cbn [mg_Migrate fkMigration]. unfold AddTenantFK. set (k := ForeignKey _ _ _).
  assert (Hour : our_map !! (fk_Child fk, fk_Name fk) = Some k).
  { apply our_map_lookup. unfold our_constraints. rewrite !elem_of_app. right. right. apply list_elem_of_fmap. by exists fk. }
  apply os_bind, os_check_ids. destruct (PolicyKindFor (fk_Parent fk)); [|apply os_throw].
  apply os_bind. unfold columnIsNotNull. apply os_bind, os_wrapping, os_sql. intros got w' [= <- <-].
  destruct (pg_columns w !! (fk_Child fk, tenant_id)) as [[]|] eqn:En; [|apply os_ret, os_throw|apply os_throw].
  apply os_ret. simpl. apply os_bind, os_constraintExists. case_bool_decide as E.
  - apply os_ret. split; [reflexivity|]. split; [done|]. destruct E as [k' Ek]. by rewrite Ek, (Ho _ _ _ Ek Hour).
  - apply os_wrapping. eapply os_mono; [by apply os_add_constraint|]. intros _ w2 [X2 C2]. split; [done|].
    split; [by apply (ex_not_null _ _ X2)|done].
Qed.

(** ** Well-formedness, whatever happens *)
Definition keeps_wf {A} (m : M Pg A) : Prop := forall w, wf w -> wp false m w (fun _ w' => wf w').

Lemma keeps_bind {A B} (m : M Pg A) (k : A -> M Pg B) : keeps_wf m -> (forall a, keeps_wf (k a)) -> keeps_wf (m ≫= k).
Proof. intros Hm Hk w Hw. apply wp_bind. eapply wp_mono; [by apply Hm|]. intros [e|a] w' Hw'; [done|by apply Hk]. Qed.

Lemma keeps_wrapping {A} ctx (m : M Pg A) : keeps_wf m -> keeps_wf (wrapping ctx m).
Proof. intros Hm w Hw. apply wp_wrapping. eapply wp_mono; [by apply Hm|]. by intros [e|a] w'. Qed.

Lemma keeps_ret {A} (a : A) : keeps_wf (mret a).
Proof. intros w Hw. by apply wp_ret. Qed.

Lemma keeps_throw {A} e : keeps_wf (throw e : M Pg A).
Proof. intros w Hw. by apply wp_throw. Qed.

Lemma keeps_sql {A} (f : Pg -> (error + A) * Pg) : (forall w, wf w -> wf (f w).2) -> keeps_wf (sql f).
Proof. intros Hf w Hw. apply wp_sql; [done|]. by apply Hf. Qed.

Lemma keeps_check_id name : keeps_wf (check_id name).
Proof. unfold check_id. destruct (checkIdentifier name); [apply keeps_throw|apply keeps_ret]. Qed.

Lemma wf_conn (conn : Conn) w : cn_tables conn = tables w -> wf w -> wf (with_conn conn w).
Proof.
  intros E [W1 W2 W3 W4 W5]. assert (Et : tables (with_conn conn w) = tables w) by done. split; try rewrite Et.
  - exact W1.
  - exact W2.
  - exact W3.
  - exact W4.
  - intros t n k Hk. eapply (constraint_ok_mono w); [done|done|by destruct k|by eapply W5].
Qed.

(** Rows and catalogue as they were, under new row-level security. *)
Lemma wf_security (conn : Conn) w :
  (forall t, rl_rows <$> cn_tables conn !! t = rl_rows <$> tables w !! t) -> wf w -> wf (with_conn conn w).
Proof.
  intros E [W1 W2 W3 W4 W5].
  assert (Hto : forall t rel, tables w !! t = Some rel -> exists rel', tables (with_conn conn w) !! t = Some rel' /\ rl_rows rel' = rl_rows rel).
  { intros t rel Hrel. specialize (E t). rewrite Hrel in E. apply fmap_Some in E as (rel' & E1 & E2). by exists rel'. }
  assert (Hfrom : forall t rel', tables (with_conn conn w) !! t = Some rel' -> exists rel, tables w !! t = Some rel /\ rl_rows rel' = rl_rows rel).
  { intros t rel' Hrel. specialize (E t). unfold tables in Hrel. simpl in Hrel. rewrite Hrel in E. symmetry in E.
    apply fmap_Some in E as (rel & Hr & Er). by exists rel. }
  split.
  - intros t c b Hb. apply W1 in Hb as [rel Hrel]. apply Hto in Hrel as (rel' & Hrel & _). by exists rel'.
  - intros t rel' r c Hrel' Hr Hv. apply Hfrom in Hrel' as (rel & Hrel & Er). eapply W2; [done| |done]. unfold all_rows in *. by rewrite <-Er.
  - intros t rel' r c Hb Hrel' Hr. apply Hfrom in Hrel' as (rel & Hrel & Er). eapply W3; [done..|]. unfold all_rows in *. by rewrite <-Er.
  - exact W4.
  - intros t n k Hk. destruct (W5 _ _ _ Hk) as [K1 K2 K3 (rel & K4 & K5)]. apply Hto in K4 as (rel' & K4 & Er). split; [done..|].
    exists rel'. split; [done|]. assert (Ea : all_rows rel' = all_rows rel) by (unfold all_rows; by rewrite Er).
    destruct k as [cs|cs p pcs|e]; simpl in *; rewrite Ea; [done| |done].
    rewrite forallb_forall in K5 |- *. intros r Hr. specialize (K5 r Hr). destruct (tuple r cs) as [tu|]; [|done].
    destruct (tables w !! p) as [prel|] eqn:Ep; [|done]. apply Hto in Ep as (prel' & Ep' & Ep).
    rewrite Ep'. unfold all_rows in *. by rewrite Ep.
Qed.

(** Statements on the connection that leave the rows. *)
Definition same_rows (conn conn' : Conn) : Prop :=
  forall t, rl_rows <$> cn_tables conn' !! t = rl_rows <$> cn_tables conn !! t.
Definition keeps_rows {A} (m : M Conn A) : Prop := forall conn, wp false m conn (fun _ conn' => same_rows conn conn').

Lemma keeps_conn {A} (m : M Conn A) : keeps_rows m -> keeps_wf (zoom on_conn m).
Proof. intros Hm w Hw. apply wp_zoom. eapply wp_mono; [apply Hm|]. intros r conn' E. by apply wf_security. Qed.

Lemma rows_bind {A B} (m : M Conn A) (k : A -> M Conn B) : keeps_rows m -> (forall a, keeps_rows (k a)) -> keeps_rows (m ≫= k).
Proof.
  intros Hm Hk conn. apply wp_bind. eapply wp_mono; [apply Hm|]. intros [e|a] c1 E1; [done|].
  eapply wp_mono; [apply Hk|]. intros r c2 E2 t. by rewrite E2, E1.
Qed.

Lemma rows_wrapping {A} ctx (m : M Conn A) : keeps_rows m -> keeps_rows (wrapping ctx m).
Proof. intros Hm conn. apply wp_wrapping. eapply wp_mono; [apply Hm|]. by intros [e|a]. Qed.

Lemma rows_throw {A} e : keeps_rows (throw e : M Conn A).
Proof. intros conn. by apply wp_throw. Qed.

Lemma rows_relation_f t g : (forall rel, rl_rows (g rel) = rl_rows rel) -> keeps_rows (relation_f t g).
Proof.
  intros Hg conn. unfold relation_f. apply wp_sql; [done|]. destruct (cn_tables conn !! t) as [rel|] eqn:E; [|done].
  intros t'. simpl. destruct (decide (t' = t)) as [->|Hne]; [|by rewrite lookup_insert_ne].
  rewrite lookup_insert_eq, E. simpl. by rewrite Hg.
Qed.

Lemma rows_policies t kind : keeps_rows (InstallPolicy t kind) /\ keeps_rows (RemovePolicy t).
Proof.
  unfold InstallPolicy, RemovePolicy. destruct (checkIdentifier t); [split; apply rows_throw|].
  split; apply rows_wrapping; repeat (apply rows_bind; [by apply rows_relation_f|intros _]); by apply rows_relation_f.
Qed.

Lemma rows_platform : keeps_rows EnablePlatformMode.
Proof.
  intros conn. unfold EnablePlatformMode, enablePlatformMode, set_config, read_setting. repeat wp_step.
  apply wp_sql; cbn [fst snd]; [done|]. repeat wp_step. apply wp_sql; cbn [fst snd]; [done|]. by repeat wp_step.
Qed.

Create HintDb schema.
#[local] Hint Resolve wp_add_column wp_create_index wp_drop_index wp_set_not_null wp_drop_not_null wp_add_constraint
  wp_drop_constraint wp_drop_column : schema.

Ltac keeps_statement :=
  lazymatch goal with
  | |- keeps_wf (wrapping _ _) => apply keeps_wrapping; keeps_statement
  | |- keeps_wf _ => intros ? ?; auto with schema
  end.

Lemma keeps_exec_all ctx stmts : Forall keeps_wf stmts -> keeps_wf (exec_all ctx stmts).
Proof.
  induction 1 as [|s stmts Hs _ IH]; simpl; [apply keeps_ret|]. apply keeps_bind; [by apply keeps_wrapping|by intros _].
Qed.

Lemma keeps_check_ids names : keeps_wf (check_ids names).
Proof. induction names; simpl; [apply keeps_ret|]. apply keeps_bind; [apply keeps_check_id|by intros _]. Qed.

Lemma keeps_gate t kind : keeps_wf (assertBackfilled t kind).
Proof.
  unfold assertBackfilled. destruct (negb _); [apply keeps_ret|].
  apply keeps_bind; [apply keeps_wrapping, keeps_conn, rows_platform|intros _]. apply keeps_bind.
  - unfold CountUnattributed. apply keeps_bind; [apply keeps_check_id|intros _]. apply keeps_wrapping, keeps_sql.
    intros w Hw. destruct (tables w !! t); [|done]. by destruct (negb _).
  - intros n. destruct (0 <? n); [apply keeps_throw|apply keeps_ret].
Qed.

Lemma keeps_constraintExists t n : keeps_wf (constraintExists t n).
Proof. apply keeps_wrapping, keeps_sql. by intros w Hw. Qed.

(** Each migration keeps a catalogue well formed, up and down. *)
Ltac keeps_step :=
  lazymatch goal with
  | |- keeps_wf (check_id _ ≫= _) => apply keeps_bind; [apply keeps_check_id|intros _]
  | |- keeps_wf (check_ids _ ≫= _) => apply keeps_bind; [apply keeps_check_ids|intros _]
  | |- keeps_wf (assertBackfilled _ _ ≫= _) => apply keeps_bind; [apply keeps_gate|intros _]
  | |- keeps_wf (constraintExists _ _ ≫= _) => apply keeps_bind; [apply keeps_constraintExists|intros ?]
  | |- keeps_wf (exec_all _ _ ≫= _) => apply keeps_bind; [|intros _]
  | |- keeps_wf (exec_all _ _) => apply keeps_exec_all; repeat constructor; keeps_statement
  | |- keeps_wf (wrapping _ _ ≫= _) => apply keeps_bind; [keeps_statement|intros _]
  | |- keeps_wf (if ?b then _ else _) => destruct b
  | |- keeps_wf (mret _) => apply keeps_ret
  | |- keeps_wf (throw _) => apply keeps_throw
  | |- keeps_wf (wrapping _ _) => keeps_statement
  end; cbv zeta.

Lemma columnMigration_keeps t : keeps_wf (mg_Migrate (columnMigration t)) /\ keeps_wf (mg_Rollback (columnMigration t)).
Proof. split; cbn [mg_Migrate mg_Rollback columnMigration]; [unfold AddTenantColumn|unfold DropTenantColumn]; repeat keeps_step. Qed.

Lemma sessionsMigration_keeps : keeps_wf (mg_Migrate sessionsMigration) /\ keeps_wf (mg_Rollback sessionsMigration).
Proof.
  split; cbn [mg_Migrate mg_Rollback sessionsMigration]; [unfold MigrateSessions, installSessionConstraints|unfold RollbackSessions];
    repeat keeps_step.
Qed.

Lemma indexMigration_keeps ix :
  keeps_wf (mg_Migrate (compositeIndexMigration ix)) /\ keeps_wf (mg_Rollback (compositeIndexMigration ix)).
Proof. split; cbn [mg_Migrate mg_Rollback compositeIndexMigration]; repeat keeps_step. Qed.

Lemma policyMigration_keeps t : keeps_wf (mg_Migrate (policyMigration t)) /\ keeps_wf (mg_Rollback (policyMigration t)).
Proof.
  split; cbn [mg_Migrate mg_Rollback policyMigration]; [|apply keeps_conn, rows_policies; exact PolicyStrict].
  destruct (PolicyKindFor t) as [kind|]; repeat keeps_step. apply keeps_conn, rows_policies.
Qed.

Lemma notNullMigration_keeps t : keeps_wf (mg_Migrate (notNullMigration t)) /\ keeps_wf (mg_Rollback (notNullMigration t)).
Proof.
  split; cbn [mg_Migrate mg_Rollback notNullMigration]; repeat keeps_step;
    [unfold SetTenantColumnNotNull|unfold DropTenantColumnNotNull]; repeat keeps_step.
Qed.

Lemma parentKeyMigration_keeps p : keeps_wf (mg_Migrate (parentKeyMigration p)) /\ keeps_wf (mg_Rollback (parentKeyMigration p)).
Proof.
  split; cbn [mg_Migrate mg_Rollback parentKeyMigration]; [unfold AddParentTenantKey|unfold DropParentTenantKey]; repeat keeps_step.
Qed.

Lemma fkMigration_keeps fk : keeps_wf (mg_Migrate (fkMigration fk)) /\ keeps_wf (mg_Rollback (fkMigration fk)).
Proof.
  split; cbn [mg_Migrate mg_Rollback fkMigration]; [unfold AddTenantFK|unfold DropTenantFK]; repeat keeps_step.
  apply keeps_bind; [|intros b; repeat keeps_step].
  unfold columnIsNotNull. apply keeps_bind; [by apply keeps_wrapping, keeps_sql|]. intros [b|]; repeat keeps_step.
Qed.

Lemma migration_keeps m : m ∈ Migrations ++ IndexMigrations ++ TighteningMigrations ->
  keeps_wf (mg_Migrate m) /\ keeps_wf (mg_Rollback m).
Proof.
  unfold Migrations, IndexMigrations, TighteningMigrations. rewrite !elem_of_app, !list_elem_of_fmap, !list_elem_of_singleton.
  intros [[(x & -> & _)|[->|[->|(x & -> & _)]]]|[(x & -> & _)|[(x & -> & _)|[(x & -> & _)|(x & -> & _)]]]].
  - apply columnMigration_keeps.
  - apply columnMigration_keeps.
  - apply sessionsMigration_keeps.
  - apply policyMigration_keeps.
  - apply indexMigration_keeps.
  - apply notNullMigration_keeps.
  - apply parentKeyMigration_keeps.
  - apply fkMigration_keeps.
Qed.

(** ** Runs *)
Definition idle w : Prop := clean (pg_conn w).

Lemma wp_pg_Transaction {A} h (fn : M Pg A) w (Q : error + A -> Pg -> Prop) :
  wp h fn (with_conn (begin_local (pg_conn w)).2 w) (fun r w1 => match r with
    | inl e => Q (inl e) w
    | inr a => (h = false -> forall msg, Q (inl (Driver msg)) w) /\
               Q (inr a) (with_conn (end_local (begin_local (pg_conn w)).1 (pg_conn w1)).2 w1)
    end) -> wp h (Transaction fn) w Q.
Proof.
  intros Hfn. unfold Transaction. apply wp_transaction. wp_step. wp_step. wp_step. wp_step. eapply wp_mono; [exact Hfn|].
  intros [e|a] w1; cbn; [done|]. intros [H1 H2]. wp_step. wp_step. wp_step. wp_step. by split.
Qed.

(** A transaction on an idle connection: nothing on error, and on success what
    its body left, on an idle connection again. *)
Lemma wp_idle_transaction {A} (fn : M Pg A) w (Q : A -> Pg -> Prop) : idle w ->
  (forall w0, w0 = with_conn (begin_local (pg_conn w)).2 w -> unbound_tx w0 ->
    on_success fn w0 (fun a w1 => cn_session (pg_conn w1) = cn_session (pg_conn w0) /\
      forall conn, cn_tables conn = tables w1 -> Q a (with_conn conn w1))) ->
  wp false (Transaction fn) w (fun r w' => match r with inl _ => w' = w | inr a => idle w' /\ Q a w' end).
Proof.
  intros Hi Hfn. destruct (clean_begin _ Hi) as [(Hs & Hl & _) Hn], (begin_scope (pg_conn w)) as (_ & Et & Es).
  apply wp_pg_Transaction. eapply wp_mono; [apply Hfn; [done|by split]|]. intros [e|a] w1; [done|]. intros [E1 HQ].
  split; [done|]. rewrite Hn. split; [|by apply HQ]. apply (clean_end (pg_conn w)); [done|]. by rewrite E1.
Qed.

Lemma fact_column_id t : mg_ID (columnMigration t) = "20260915-01-column-" +:+ t. Proof. done. Qed.

(** One identifier, one fact. *)
Lemma fact_unique id (P P' : Pg -> Prop) : fact id P -> fact id P' -> P = P'.
Proof.
  assert (Hs : forall t, t ∈ BClassTables ++ [CClassTable] -> t <> "sessions").
  { assert (Hall : forallb (fun t => negb (bool_decide (t = "sessions"))) (BClassTables ++ [CClassTable]) = true) by reflexivity.
    rewrite forallb_forall in Hall. intros t Ht%list_elem_of_In%Hall. by bools. }
  assert (Hn : forall a b, a ∈ TenantFKs -> b ∈ TenantFKs -> fk_Name a = fk_Name b -> a = b).
  { assert (Hall : forallb (fun a => forallb (fun b => negb (bool_decide (fk_Name a = fk_Name b)) ||
      (bool_decide (fk_Child a = fk_Child b) && bool_decide (fk_ChildColumn a = fk_ChildColumn b) &&
       bool_decide (fk_Parent a = fk_Parent b) && bool_decide (fk_Nullable a = fk_Nullable b))) TenantFKs) TenantFKs = true) by reflexivity.
    rewrite forallb_forall in Hall. intros a b Ha%list_elem_of_In%Hall Hb%list_elem_of_In E. rewrite forallb_forall in Ha.
    apply Ha, orb_true_iff in Hb as [Hb|Hb]; bools; [done|]. destruct a, b. simpl in *. by subst. }
  intros H1 H2. destruct H1 as [t Ht| |t Ht|ix Hix|t Ht|p Hp|fk Hfk]; inversion H2; subst; try done.
  - by destruct (Hs "sessions").
  - by destruct (Hs "sessions").
  - by rewrite (Hn fk0 fk).
Qed.

Definition sound (m : Migration) : Prop :=
  keeps_wf (mg_Migrate m) /\ exists P, fact (mg_ID m) P /\ achieves (mg_Migrate m) P.

Lemma migrations_sound m : m ∈ Migrations ++ IndexMigrations ++ TighteningMigrations -> sound m.
Proof.
  intros Hm. split; [by apply migration_keeps|].
  unfold Migrations, IndexMigrations, TighteningMigrations in Hm.
  rewrite !elem_of_app, !list_elem_of_fmap, !list_elem_of_singleton in Hm.
  destruct Hm as [[(x & -> & Hx)|[->|[->|(x & -> & Hx)]]]|[(x & -> & Hx)|[(x & -> & Hx)|[(x & -> & Hx)|(x & -> & Hx)]]]].
  - eexists. split; [apply fact_column; apply elem_of_app; by left|apply add_tenant_column_achieves].
  - eexists. split; [apply fact_column; apply elem_of_app; right; by left|apply add_tenant_column_achieves].
  - eexists. split; [apply fact_sessions|apply sessions_achieve].
  - eexists. split; [by apply fact_policy|]. intros w Hw. eapply os_mono; [by apply policy_achieves|]. by intros _ w' (X & Y & _).
  - eexists. split; [by apply fact_index|apply index_achieves].
  - eexists. split; [by apply fact_not_null|by apply not_null_achieves].
  - eexists. split; [by apply fact_parent|by apply parent_achieves].
  - eexists. split; [by apply fact_fk|]. intros w Hw. eapply os_mono; [by apply fk_achieves|]. by intros _ w' (X & _ & Y).
Qed.

Lemma ready_begin w : inv w -> forall w0, w0 = with_conn (begin_local (pg_conn w)).2 w -> unbound_tx w0 -> ready w0.
Proof.
  intros [I1 I2 I3 I4] w0 -> Hu. destruct (begin_scope (pg_conn w)) as (_ & Et & _).
  split; [by apply wf_conn|done| |done]. intros t rel. unfold tables. simpl. rewrite Et. apply I3.
Qed.

(** Facts are about tables and catalogue. *)
Lemma fact_same id (P : Pg -> Prop) w w' : fact id P -> tables w' = tables w -> pg_columns w' = pg_columns w ->
  pg_indexes w' = pg_indexes w -> pg_constraints w' = pg_constraints w -> P w -> P w'.
Proof.
  intros Hf E1 E2 Ei E3. destruct Hf; simpl; unfold column_in_place, table_policed; rewrite ?E1, ?E2, ?Ei, ?E3; try done.
  intros []. split; by rewrite ?E2, ?Ei, ?E3.
Qed.

Lemma run_one m w : sound m -> idle w -> inv w ->
  wp false (run_migration m) w (fun r w' => match r with
    | inl _ => w' = w
    | inr _ => idle w' /\ inv w' /\ pg_applied w' = {[mg_ID m]} ∪ pg_applied w
    end).
Proof.
  intros (Hk & P & Hf & Ha) Hi Hinv. unfold run_migration.
  eapply wp_mono; [apply (wp_idle_transaction _ w (fun _ w' => inv w' /\ pg_applied w' = {[mg_ID m]} ∪ pg_applied w)); [done|]|].
  2: { by intros [e|[]] w'. }
  intros w0 E0 Hu. pose proof (ready_begin w Hinv w0 E0 Hu) as Hr. destruct Hinv as [I1 I2 I3 I4].
  apply os_bind. eapply os_mono; [apply os_wf; [apply Hk, Hr|apply Ha, Hr]|]. intros _ w1 (W1 & X1 & P1).
  unfold record_applied. apply os_sql. intros [] w2 [= <-]. assert (Es := ex_session _ _ X1). assert (Ea := ex_applied _ _ X1).
  split; [done|]. intros conn Ec. split; [|simpl; rewrite Ea; by subst w0]. split.
  - apply wf_conn; [done|]. by apply wf_set_applied.
  - intros key k k' Hk1 Hk2. exact (ex_ours _ _ X1 (rd_ours _ Hr) key k k' Hk1 Hk2).
  - intros t rel Hrel. unfold tables in Hrel. simpl in Hrel. rewrite Ec in Hrel.
    destruct (ex_domain _ _ X1 _ _ Hrel) as [rel0 Hrel0]. destruct (ex_tables _ _ X1 _ _ Hrel0) as (rel' & Hrel' & _ & Ho & _).
    assert (rel' = rel) as -> by (unfold tables in *; simpl in *; congruence). by apply Ho, (rd_policies _ Hr t).
  - intros id P' Hf'. simpl. intros [Hid%elem_of_singleton|Hid]%elem_of_union.
    + subst id. rewrite (fact_unique _ _ _ Hf' Hf). by apply (fact_same _ _ w1 _ Hf).
    + simpl in Hid. apply (fact_same _ _ w1 _ Hf'); [done..|]. apply (fact_extends _ _ _ _ Hf' X1).
      assert (Hid0 : id ∈ pg_applied w) by (rewrite Ea in Hid; by subst w0).
      specialize (I4 _ _ Hf' Hid0). subst w0. apply (fact_same _ _ w _ Hf'); [|done..|done]. by destruct (begin_scope (pg_conn w)) as (_ & Et & _).
Qed.

(** A run of a list, up to its end or its first failure. *)
Lemma run_all ms w r w' : (forall m, m ∈ ms -> sound m) -> migrated ms w r w' -> idle w -> inv w ->
  idle w' /\ inv w' /\ pg_applied w ⊆ pg_applied w' /\
  (r = inr tt -> forall m, m ∈ ms -> mg_ID m ∈ pg_applied w').
Proof.
  intros Hs Hm. induction Hm as [w|ms w e|m ms w r w' Hin _ IH|m ms w w1 r w' Hin Ho _ IH|m ms w e w1 Hin Ho]; intros Hi Hv.
  - split_and!; try done. intros _ m Hm%elem_of_nil. done.
  - done.
  - destruct IH as (I1 & I2 & I3 & I4); [intros m' Hm'; apply Hs; by right|done|done|]. split_and!; try done.
    intros Er m' [->|Hm']%elem_of_cons; [by apply I3|by apply I4].
  - pose proof (wp_outcome _ _ _ _ _ (run_one m w (Hs m ltac:(left)) Hi Hv) Ho) as (J1 & J2 & J3).
    destruct IH as (I1 & I2 & I3 & I4); [intros m' Hm'; apply Hs; by right|done|done|].
    split_and!; try done; [set_solver|]. intros Er m' [->|Hm']%elem_of_cons; [apply I3; set_solver|by apply I4].
  - pose proof (wp_outcome _ _ _ _ _ (run_one m w (Hs m ltac:(left)) Hi Hv) Ho) as ->. done.
Qed.

Section Runs.
  Context `{!Migrator}.

Lemma outcome_wrapping {A} ctx (m : M Pg A) w r w' : outcome (wrapping ctx m) w r w' ->
  exists r0, outcome m w r0 w' /\ (match r0 with inl e => r = inl (Wrap ctx e) | inr a => r = inr a end).
Proof.
  intros (sc & sc' & E). unfold wrapping in E. destruct (m w sc) as [[[e|a] w1] sc1] eqn:Em; injection E as <- <- <-;
    eexists; (split; [by exists sc, sc1|done]).
Qed.

Lemma Migrations_sound m : m ∈ Migrations -> sound m.
Proof. intros Hm. apply migrations_sound, elem_of_app. by left. Qed.
Lemma IndexMigrations_sound m : m ∈ IndexMigrations -> sound m.
Proof. intros Hm. apply migrations_sound. rewrite !elem_of_app. auto. Qed.
Lemma TighteningMigrations_sound m : m ∈ TighteningMigrations -> sound m.
Proof. intros Hm. apply migrations_sound. rewrite !elem_of_app. auto. Qed.

(** Any outcome of a run of one of the sets, wrapped in its message. *)
Lemma run_outcome ctx ms w r w' : (forall m, m ∈ ms -> sound m) -> outcome (wrapping ctx (Migrate_ ms)) w r w' ->
  idle w -> inv w ->
  idle w' /\ inv w' /\ pg_applied w ⊆ pg_applied w' /\ (r = inr tt -> forall m, m ∈ ms -> mg_ID m ∈ pg_applied w').
Proof.
  intros Hs (r0 & Ho & Er)%outcome_wrapping Hi Hv. apply migrate_in_order in Ho.
  destruct (run_all _ _ _ _ Hs Ho Hi Hv) as (I1 & I2 & I3 & I4). split_and!; try done.
  intros ->. destruct r0 as [e|[]]; [done|]. by apply I4.
Qed.

Lemma applied_policed w : inv w -> (forall m, m ∈ Migrations -> mg_ID m ∈ pg_applied w) ->
  forall t, t ∈ TenantScopedTables -> table_policed t w.
Proof.
  intros Hv Ha t Ht. apply (inv_facts _ Hv (mg_ID (policyMigration t))); [by apply fact_policy|].
  apply Ha. unfold Migrations. rewrite !elem_of_app. right. right. right. apply list_elem_of_fmap. by exists t.
Qed.

Lemma applied_schema w : inv w -> (forall m, m ∈ Migrations -> mg_ID m ∈ pg_applied w) ->
  (forall t, t ∈ BClassTables ++ [CClassTable] -> column_in_place t w) /\ sessions_in_place w.
Proof.
  intros Hv Ha. split.
  - intros t Ht. apply (inv_facts _ Hv (mg_ID (columnMigration t))); [by apply fact_column|]. apply Ha. unfold Migrations.
    apply elem_of_app in Ht as [Ht| ->%list_elem_of_singleton]; rewrite !elem_of_app.
    + left. apply list_elem_of_fmap. by exists t.
    + right. left. by apply list_elem_of_singleton.
  - apply (inv_facts _ Hv (mg_ID sessionsMigration)); [apply fact_sessions|]. apply Ha. unfold Migrations. rewrite !elem_of_app.
    right. right. left. by apply list_elem_of_singleton.
Qed.

Lemma policed_of_tables w : (forall t, t ∈ TenantScopedTables -> table_policed t w) -> policed (pg_conn w).
Proof.
  intros Hp name kind rel Hk Hrel. destruct (Hp name (kind_scoped _ _ Hk)) as (kind' & rel' & Hk' & Hrel' & Hg).
  unfold tables in Hrel'. simplify_eq. exact Hg.
Qed.

(** The same through the store. *)
Lemma wp_run_through refreshing ctx ms store w : (forall m, m ∈ ms -> sound m) -> idle w -> inv w ->
  wp false (run_through refreshing (wrapping ctx (Migrate_ ms)) store) w (fun r w' =>
    idle w' /\ inv w' /\ pg_applied w ⊆ pg_applied w' /\ (r = inr tt -> forall m, m ∈ ms -> mg_ID m ∈ pg_applied w')).
Proof.
  intros Hs Hi Hv. unfold run_through. destruct store as [store|]; [|by wp_step].
  wp_step. eapply wp_mono; [apply wp_self|]. intros r w1 Ho. simpl in Ho. apply run_migration_runs in Ho.
  assert (H1 : idle w1 /\ inv w1 /\ pg_applied w ⊆ pg_applied w1 /\ (r = inr tt -> forall m, m ∈ ms -> mg_ID m ∈ pg_applied w1)).
  { destruct Ho as [(e & -> & ->)|Ho]; [done|]. by apply (run_outcome ctx ms). }
  destruct r as [e|[]]; [by destruct H1 as (? & ? & ? & _)|]. wp_step. eapply wp_mono; [apply wp_self|]. intros r2 w2 Ho2.
  apply refresh_keeps in Ho2. subst w2. destruct H1 as (J1 & J2 & J3 & J4). by destruct r2 as [e|[]].
Qed.

End Runs.

End Spec.
