(* ===== verification/TenantSchema.v ===== *)
(** * What a migrated database guarantees

    The tenant boundary as the schema enforces it once the migrations have run:
    a policy is never installed over rows nobody owns, no row points at another
    tenant's once the constraints are tightened, and the two kinds of session
    cannot reach each other's rows.  And one thing the schema does not get: three
    composite indexes.  [sample] is a database the migrations run on, with the
    simplest migrator and store, on which every theorem is evaluated. *)
From S2P Require Import Prelude GoStrings Sql TenantScope Isolation Catalog Migrate MigrateSpec.

Section Spec.
  Context `{Sql}.
  Implicit Types (w : Pg) (t c n : string) (rel : Relation).

(** ** Runs of the sets *)

(** The catalogue stays well formed through every migration of the three sets,
    applied or rolled back, under any driver failures: a row has values only in
    the columns of its table and in all those that are NOT NULL, indexes and
    constraints are about columns there are, every foreign key has the unique
    key it needs, and every constraint is met by every row. *)
Theorem migrations_keep_schema m w r w' :
  m ∈ Migrations ++ IndexMigrations ++ TighteningMigrations -> wf w ->
  outcome (mg_Migrate m) w r w' \/ outcome (mg_Rollback m) w r w' -> wf w'.
Proof.
  intros Hm Hw. destruct (migration_keeps m Hm) as [Hu Hd].
  intros [Ho|Ho]; [exact (wp_outcome _ _ _ _ _ (Hu w Hw) Ho)|exact (wp_outcome _ _ _ _ _ (Hd w Hw) Ho)].
Qed.

(** Every tenant-scoped table has its own policy, enabled and forced. *)
Definition all_policed w : Prop :=
  (forall t, t ∈ TenantScopedTables -> table_policed t w) /\ policed (pg_conn w).

(** C11. Applying the tenant migrations is safe to fail and to repeat: on a database
    only these migrations have changed, whatever fails and wherever it stops,
    the invariant holds afterwards, so that a later run resumes; and once a run
    succeeds, every tenant-scoped table exists with its own policy installed,
    enabled and forced -- which is what the isolation theorems ask for -- each
    of them but sessions has the tenant column and its index, sessions has its
    three columns, its index and both of its checks, every migration of the set
    is recorded, and applying again changes nothing. *)
Theorem apply_polices `{!Migrator} w r w' :
  idle w -> inv w -> outcome Apply w r w' ->
  idle w' /\ inv w' /\ pg_applied w ⊆ pg_applied w' /\
  (r = inr tt ->
     all_policed w' /\
     (forall t, t ∈ BClassTables ++ [CClassTable] -> column_in_place t w') /\
     sessions_in_place w' /\
     (forall m, m ∈ Migrations -> mg_ID m ∈ pg_applied w') /\
     forall r2 w2, outcome Apply w' r2 w2 -> w2 = w').
Proof.
  intros Hi Hv Ho. unfold Apply in Ho. destruct (run_outcome _ _ _ _ _ Migrations_sound Ho Hi Hv) as (I1 & I2 & I3 & I4).
  split_and!; try done. intros Er. specialize (I4 Er). pose proof (applied_policed _ I2 I4) as Hp.
  destruct (applied_schema _ I2 I4) as [Hc Hs]. split_and!; [|done|done|done|].
  - split; [done|by apply policed_of_tables].
  - clear Hp Hc Hs. intros r2 w2 (r0 & Ho2 & _)%outcome_wrapping. apply migrate_in_order in Ho2. clear -Ho2 I4.
    assert (Hs : forall m, m ∈ Migrations -> mg_ID m ∈ pg_applied w') by done. clear I4. revert Hs.
    induction Ho2 as [|ms w e|m ms w r w' Hin _ IH|m ms w w1 r w' Hin|m ms w e w1 Hin]; intros Hs; try done.
    + apply IH. intros m' Hm'. apply Hs. by right.
    + by destruct Hin; apply Hs; left.
    + by destruct Hin; apply Hs; left.
Qed.

(** ** The backfill gate *)
Lemma wp_platform h w : unbound_tx w ->
  wp h (zoom on_conn EnablePlatformMode) w (fun r w' => match r with
    | inl _ => h = false
    | inr _ => tables w' = tables w /\ pg_columns w' = pg_columns w /\ platform_tx w'
    end).
Proof.
  intros [[l El] Es]. apply wp_zoom. unfold EnablePlatformMode, enablePlatformMode, set_config, read_setting.
  repeat wp_step. apply wp_sql; cbn [fst snd]; [done|]. rewrite El. simpl. repeat wp_step. apply wp_sql; cbn [fst snd]; [done|].
  destruct (current_setting_set (pg_conn w) PlatformModeSettingName PlatformModeOn l El) as [H1 H2].
  rewrite H1, bool_decide_eq_true_2 by done. simpl. apply wp_ret. split; [done|]. split; [done|]. split; [|done].
  split; [by eexists|]. simpl. by rewrite H2.
Qed.

(** Whether some row of the table has no tenant. *)
Definition orphaned rel : bool := existsb unattributed (all_rows rel).

(** The gate counts every such row, however row-level security hides it. *)
Lemma wp_gate t w rel : PolicyKindFor t = Some PolicyStrict -> unbound_tx w ->
  tables w !! t = Some rel -> own_policy rel -> is_Some (pg_columns w !! (t, tenant_id)) ->
  wp true (assertBackfilled t PolicyStrict) w (fun res w' => tables w' = tables w /\
    if orphaned rel then exists e, res = inl e /\ errors_is e ErrBackfillRequired = true else res = inr tt).
Proof.
  intros Hk Hu Hrel Ho Hc. unfold assertBackfilled. rewrite bool_decide_eq_true_2 by done. simpl.
  wp_step. wp_step. eapply wp_mono; [by apply wp_platform|]. intros [e|[]] w1; [done|]. intros (Et & Ec & Hp).
  wp_step. unfold CountUnattributed, check_id. rewrite (scoped_tables_safe _ _ Hk). simpl. wp_step. wp_step. wp_step.
  apply wp_sql; [done|]. rewrite Et, Hrel. unfold has_columns. simpl. rewrite Ec, bool_decide_eq_true_2 by done. simpl.
  set (l := where_ _ (rl_rows rel)).
  assert (El : orphaned rel = (0 <? Z.of_nat (length l))).
  { apply eq_true_iff_eq. unfold orphaned. rewrite existsb_exists, Z.ltb_lt. split.
    - intros (r & Hr%list_elem_of_In & Hv). assert (Hin : r ∈ l); [|destruct l; [by apply elem_of_nil in Hin|simpl; lia]].
      apply elem_of_all_rows in Hr as [i Hi]. apply elem_of_where. exists i. split; [done|]. by rewrite reaches_platform.
    - destruct l as [|r l'] eqn:E; [simpl; lia|]. intros _. assert (Hin : r ∈ l) by (rewrite E; left).
      apply elem_of_where in Hin as (i & Hi & [_ Hv]%andb_true_iff). exists r. split; [|done].
      apply list_elem_of_In, elem_of_all_rows. by exists i. }
  rewrite <-El. destruct (orphaned rel); [apply wp_throw|apply wp_ret]; (split; [done|]); [by eexists|done].
Qed.

(** A row of the table that no tenant owns. *)
Definition unowned t w : Prop := exists rel r, tables w !! t = Some rel /\ r ∈ all_rows rel /\ rw_TenantID r = None.

Lemma unowned_orphaned t w rel : tables w !! t = Some rel -> unowned t w <-> orphaned rel = true.
Proof.
  intros Hrel. unfold orphaned. rewrite existsb_exists. split.
  - intros (rel' & r & Hrel' & Hr & Hn). assert (rel' = rel) as -> by congruence. exists r. split; [by apply list_elem_of_In|].
    unfold unattributed. by apply bool_decide_eq_true.
  - intros (r & Hr%list_elem_of_In & Hn). unfold unattributed in Hn. bools. by exists rel, r.
Qed.

(** The migration, when the database does not fail: the gate decides. *)
Lemma wp_policy_migration t w : PolicyKindFor t = Some PolicyStrict -> idle w -> inv w ->
  is_Some (pg_columns w !! (t, tenant_id)) ->
  wp true (run_migration (policyMigration t)) w (fun res w' =>
    (unowned t w /\ w' = w /\ exists e, res = inl e /\ errors_is e ErrBackfillRequired = true) \/ (~ unowned t w /\ res = inr tt)).
Proof.
  intros Hk Hi Hv [b Hb]. destruct (wf_columns _ (inv_wf _ Hv) _ _ _ Hb) as [rel Hrel].
  destruct (clean_begin _ Hi) as [Hu _], (begin_scope (pg_conn w)) as (_ & Et & _). pose proof (unowned_orphaned t w rel Hrel) as Huo.
  unfold run_migration. apply wp_pg_Transaction. wp_step. cbn [mg_Migrate policyMigration]. rewrite Hk. wp_step.
  assert (Hrel0 : tables (with_conn (begin_local (pg_conn w)).2 w) !! t = Some rel) by (unfold tables; simpl; by rewrite Et).
  eapply wp_mono; [apply (wp_gate t _ rel); try done|].
  - destruct Hu as (Hs & Hl & _). by split.
  - exact (inv_policies _ Hv _ _ Hrel).
  - intros res w1 [E1 Hg]. destruct (orphaned rel).
    + destruct Hg as (e & -> & He). left. split; [by apply Huo|]. split; [done|by exists e].
    + subst res. apply wp_zoom. eapply runs_wp; [eapply (install_policies _ t PolicyStrict rel); [done|]|].
      * change (tables w1 !! t = Some rel). by rewrite E1.
      * unfold record_applied. apply wp_sql; [done|]. simpl. split; [done|]. right. by rewrite Huo.
Qed.

(** C27. A strict policy is installed exactly over rows that tenants own.  The
    migration that installs one leaves the table policed, with no unattributed
    row; when it fails, for whatever reason, nothing has changed; and on a table
    with its tenant column, when the database does not fail, it is refused, with
    ErrBackfillRequired, just when the table holds a row without a tenant --
    visible to the connection or not, since the gate counts across tenants --
    and succeeds otherwise. *)
Theorem policy_gate t w :
  PolicyKindFor t = Some PolicyStrict -> idle w -> inv w ->
  (forall r w', outcome (run_migration (policyMigration t)) w r w' ->
     (r = inr tt /\ table_policed t w' /\ attributed t w') \/ (exists e, r = inl e /\ w' = w)) /\
  (is_Some (pg_columns w !! (t, tenant_id)) -> exists r w', runs (run_migration (policyMigration t)) w r w' /\
     (unowned t w <-> exists e, r = inl e /\ errors_is e ErrBackfillRequired = true) /\
     (~ unowned t w <-> r = inr tt /\ table_policed t w' /\ attributed t w') /\
     (unowned t w -> w' = w)).
Proof.
  intros Hk Hi Hv. pose proof (kind_scoped _ _ Hk) as Ht.
  assert (Hall : forall r w', outcome (run_migration (policyMigration t)) w r w' ->
     (r = inr tt /\ table_policed t w' /\ attributed t w') \/ (exists e, r = inl e /\ w' = w)).
  { intros r w' Ho. unfold run_migration in Ho. eapply wp_outcome in Ho.
    2: { apply (wp_idle_transaction _ w (fun _ w' => table_policed t w' /\ attributed t w')); [done|]. intros w0 E0 Hu.
         apply os_bind. eapply os_mono; [apply policy_achieves; [done|by eapply ready_begin]|].
         intros _ w1 (X1 & P1 & A1). specialize (A1 Hk). unfold record_applied. apply os_sql. intros [] w2 [= <-].
         split; [apply (ex_session _ _ X1)|]. intros conn Ec. split; [|unfold attributed; unfold tables; simpl; rewrite Ec; exact A1].
         destruct P1 as (kind & rel & P1 & P2 & P3). exists kind, rel. split_and!; [done|unfold tables; simpl; by rewrite Ec|done..]. }
    destruct r as [e|[]]; [right; by exists e|left]. by destruct Ho as [_ Ho]. }
  split; [exact Hall|]. intros Hc. destruct (wp_runs _ _ _ (wp_policy_migration t w Hk Hi Hv Hc)) as (r & w' & Hrun & Hcase).
  exists r, w'. split; [done|]. destruct Hcase as [(Hu & -> & e & -> & He)|[Hu ->]].
  - split_and!; [split; [by intros _; exists e|done]|split; [done|by intros []]|done].
  - split_and!; [split; [done|by intros (e & [=] & _)]| |done]. split; [|done]. intros _.
    destruct (Hall (inr tt) w') as [?|(e & [=] & _)]; [by exists [], []|done].
Qed.

(** ** Sessions *)

(** What a session row is: its principal type, when it has one. *)
Definition principal_of (r : Row) : option string := value r SessionPrincipalTypeColumn.

(** Both CHECK constraints hold of a row just when it is a legacy row, an
    administrator's without a tenant or a tenant user's with one. *)
Lemma session_checks r :
  eval_check r principal_check <> Some false -> eval_check r ownership_check <> Some false ->
  principal_of r = None \/
  (principal_of r = Some PrincipalPlatformAdmin /\ rw_TenantID r = None) \/
  (principal_of r = Some PrincipalTenantUser /\ is_Some (rw_TenantID r)).
Proof.
  unfold principal_check, ownership_check, principal_of. cbn [eval_check].
  change (value r tenant_id) with (rw_TenantID r). destruct (value r SessionPrincipalTypeColumn) as [p|]; [|by left].
  intros H1 H2. right.
  destruct (decide (p = PrincipalPlatformAdmin)) as [->|Ha].
  { left. split; [done|]. destruct (rw_TenantID r); [|done]. exfalso. by apply H2. }
  destruct (decide (p = PrincipalTenantUser)) as [->|Hu].
  { right. split; [done|]. destruct (rw_TenantID r); [by eexists|]. exfalso. by apply H2. }
  exfalso. apply H1. simpl. rewrite bool_decide_eq_false_2; [done|]. set_solver.
Qed.

(** The sessions table keeps the two consoles apart by itself.  Once its
    migration is applied, whatever rows are there: a transaction that has a
    tenant bound sees no administrator's session and only users' sessions of its
    own tenant, one with no tenant and no platform mode -- the administrators'
    console -- sees no tenant user's session, and neither can write one. *)
Theorem session_boundary w rel r :
  inv w -> mg_ID sessionsMigration ∈ pg_applied w -> mg_ID (policyMigration SessionsTable) ∈ pg_applied w ->
  tables w !! SessionsTable = Some rel -> r ∈ all_rows rel ->
  (forall t, t <> EmptyString -> in_scope t (pg_conn w) -> reaches (pg_conn w) rel r = true ->
     rw_TenantID r = Some t /\ principal_of r <> Some PrincipalPlatformAdmin) /\
  (in_scope EmptyString (pg_conn w) -> reaches (pg_conn w) rel r = true ->
     rw_TenantID r = None /\ principal_of r <> Some PrincipalTenantUser) /\
  (forall t, in_scope t (pg_conn w) -> may_write (pg_conn w) rel r = reaches (pg_conn w) rel r).
Proof.
  intros Hv Hs Hp Hrel Hr. destruct (inv_facts _ Hv _ _ fact_sessions Hs) as [_ _ K1 K2].
  destruct (inv_facts _ Hv _ _ (fact_policy SessionsTable (kind_scoped SessionsTable PolicyExclusive eq_refl)) Hp) as (kind & rel' & Hk & Hrel' & He & Hf & Hpol).
  assert (kind = PolicyExclusive) as -> by (revert Hk; by intros [= <-]). assert (rel' = rel) as -> by congruence.
  assert (Hc : forall e, constraint_ok w SessionsTable (CheckThat e) -> eval_check r e <> Some false).
  { intros e [_ _ _ (rel2 & Hrel2 & Hsat)]. assert (rel2 = rel) as -> by congruence. simpl in Hsat.
    rewrite forallb_forall in Hsat. apply list_elem_of_In, Hsat in Hr. by bools. }
  pose proof (session_checks r (Hc _ (wf_constraints _ (inv_wf _ Hv) _ _ _ K1)) (Hc _ (wf_constraints _ (inv_wf _ Hv) _ _ _ K2))) as Hcases.
  destruct (policy_rule PolicyExclusive (current_setting (pg_conn w)) (rw_TenantID r)) as [E1 _].
  assert (Er : reaches (pg_conn w) rel r = holds_for (current_setting (pg_conn w)) (rw_TenantID r) (policyClauses PolicyExclusive).1)
    by (unfold reaches, governed; by rewrite He, Hf, Hpol).
  assert (Ew : may_write (pg_conn w) rel r = reaches (pg_conn w) rel r)
    by (rewrite Er; unfold may_write, governed; by rewrite He, Hf, Hpol).
  rewrite Ew, Er, E1. clear Er E1 Ew.
  split; [|split; [|done]].
  - intros t Hne (Es & _ & _). rewrite Es. unfold may_read. unfold is_empty. rewrite bool_decide_eq_false_2 by done. intros Hread. bools.
    simpl in Hread. rewrite orb_false_r in Hread. bools. split; [done|]. destruct Hcases as [->|[[-> Hn]|[-> _]]]; [done|congruence|done].
  - intros (Es & _ & Hm). rewrite Es. unfold may_read. simpl. rewrite bool_decide_eq_false_2 by auto. simpl. intros Hn. bools.
    split; [done|]. destruct Hcases as [->|[[-> _]|[_ [? ?]]]]; [done|done|congruence].
Qed.

(** ** Composite keys *)
Definition unique_ids rel : Prop := forall r1 r2,
  r1 ∈ all_rows rel -> r2 ∈ all_rows rel -> value r1 "id" = value r2 "id" -> value r1 tenant_id = value r2 tenant_id.

Lemma tuple_pair r a b l : tuple r [a; b] = Some l <-> exists x y, value r a = Some x /\ value r b = Some y /\ l = [x; y].
Proof.
  unfold tuple. simpl. destruct (value r a), (value r b); simpl; split; try done; try (by intros (? & ? & ? & ? & ?)).
  - intros [= <-]. by eexists _, _.
  - by intros (? & ? & [= ->] & [= ->] & ->).
Qed.

(** C10. No row can point at another tenant's.  After the tightening succeeds, every
    table of the scheme holds only rows with a tenant, and for each of the 23
    edges a row whose pointer is set has a parent row with that id and its own
    tenant.  So where ids are unique in the parent, as its primary key makes
    them, the count of cross-tenant pairs an operator runs finds none, from any
    connection. *)
Theorem tightened_no_cross_tenant `{!Migrator} w w' :
  idle w -> inv w -> outcome ApplyTightening w (inr tt) w' ->
  (forall t rel r, t ∈ BClassTables -> tables w' !! t = Some rel -> r ∈ all_rows rel -> is_Some (rw_TenantID r)) /\
  forall fk, fk ∈ TenantFKs -> exists child parent,
    tables w' !! fk_Child fk = Some child /\ tables w' !! fk_Parent fk = Some parent /\
    (forall r id, r ∈ all_rows child -> value r (fk_ChildColumn fk) = Some id ->
       exists p, p ∈ all_rows parent /\ value p "id" = Some id /\ rw_TenantID p = rw_TenantID r) /\
    (unique_ids parent -> cross_pairs w' fk child parent = []).
Proof.
  intros Hi Hv Ho. destruct (run_outcome _ _ _ _ _ TighteningMigrations_sound Ho Hi Hv) as (_ & Hv' & _ & Ha).
  specialize (Ha eq_refl). pose proof (inv_wf _ Hv') as Hwf.
  assert (Hn : forall t rel r, t ∈ BClassTables -> tables w' !! t = Some rel -> r ∈ all_rows rel -> is_Some (rw_TenantID r)).
  { intros t rel r Ht Hrel Hr. apply (wf_not_null _ Hwf t rel r tenant_id); [|done|done].
    apply (inv_facts _ Hv' _ _ (fact_not_null t Ht)), Ha. unfold TighteningMigrations.
    rewrite !elem_of_app. left. apply list_elem_of_fmap. by exists t. }
  split; [done|]. intros fk Hfk.
  assert (Hin : mg_ID (fkMigration fk) ∈ pg_applied w').
  { apply Ha. unfold TighteningMigrations. rewrite !elem_of_app. right. right. apply list_elem_of_fmap. by exists fk. }
  destruct (wf_constraints _ Hwf _ _ _ (inv_facts _ Hv' _ _ (fact_fk fk Hfk) Hin)) as [_ Hpc _ (child & Hchild & Hsat)].
  destruct (wf_columns _ Hwf (fk_Parent fk) tenant_id (default false (pg_columns w' !! (fk_Parent fk, tenant_id)))) as [parent Hparent].
  { destruct (Hpc (fk_Parent fk, tenant_id)) as [b ->]; [left|done]. }
  assert (Hb : fk_Child fk ∈ BClassTables).
  { assert (Hall : forallb (fun fk => bool_decide (fk_Child fk ∈ BClassTables)) TenantFKs = true) by (vm_compute; reflexivity).
    rewrite forallb_forall in Hall. by apply list_elem_of_In, Hall, bool_decide_eq_true in Hfk. }
  assert (Hpoint : forall r id, r ∈ all_rows child -> value r (fk_ChildColumn fk) = Some id ->
    exists p, p ∈ all_rows parent /\ value p "id" = Some id /\ rw_TenantID p = rw_TenantID r).
  { intros r id Hr Hid. destruct (Hn _ _ _ Hb Hchild Hr) as [t Ht]. cbn [satisfied] in Hsat. rewrite forallb_forall in Hsat.
    pose proof (Hsat _ (proj1 (list_elem_of_In _ _) Hr)) as Hs. rewrite (proj2 (tuple_pair r tenant_id (fk_ChildColumn fk) [t; id])) in Hs.
    2: { exists t, id. split; [exact Ht|done]. }
    rewrite Hparent in Hs. apply existsb_exists in Hs as (p & Hp%list_elem_of_In & Ep%bool_decide_eq_true).
    apply tuple_pair in Ep as (x & y & E1 & E2 & [= -> ->]). exists p. split; [done|]. split; [done|]. by rewrite Ht. }
  exists child, parent. split_and!; [done|done|done|]. intros Hu. unfold cross_pairs.
  apply elem_of_nil_inv. intros [c p] [Hcp Hc]%list_elem_of_In%filter_In. apply in_prod_iff in Hcp as [Hc1 Hp1]. simpl in Hc. apply andb_true_iff in Hc as [[Eid Hset]%andb_true_iff Hne].
  assert (Hsub : forall rel r, In r (where_ (reaches (pg_conn w') rel) (rl_rows rel)) -> r ∈ all_rows rel).
  { intros rel r (k & Hk' & _)%list_elem_of_In%elem_of_where. apply elem_of_all_rows. by exists k. }
  apply Hsub in Hc1, Hp1.
  apply bool_decide_eq_true in Eid. apply negb_true_iff, bool_decide_eq_false in Hne.
  destruct (value c (fk_ChildColumn fk)) as [id|] eqn:Ec; [|done].
  destruct (Hpoint c id Hc1 Ec) as (p' & Hp' & Eid' & Et). apply Hne. change (value c tenant_id) with (rw_TenantID c).
  rewrite <-Et. by apply (Hu p p' Hp1 Hp'); congruence.
Qed.

(** ** What the composite indexes miss *)
Lemma shadowed_names ci : ci ∈ CompositeIndexes -> ci_Table ci ∈ shadowed_tables -> ci_Name ci = tenantIndexName (ci_Table ci).
Proof.
  assert (Hall : forallb (fun ci => negb (bool_decide (ci_Table ci ∈ shadowed_tables)) ||
    bool_decide (ci_Name ci = tenantIndexName (ci_Table ci))) CompositeIndexes = true) by (vm_compute; reflexivity).
  rewrite forallb_forall in Hall. intros Hci%list_elem_of_In%Hall Ht.
  apply orb_true_iff in Hci as [Hci|Hci]; bools; [by destruct Hci|done].
Qed.

(** The composite indexes of prompts, folders and skills are never made: their
    names are those of the single-column indexes the column migration of the
    same table created, so that CREATE INDEX IF NOT EXISTS does nothing, with
    success, in any later state; and rolling one of them back drops the index of
    the column migration instead. *)
Theorem composite_index_shadowed ci w w1 w2 :
  ci ∈ CompositeIndexes -> ci_Table ci ∈ ["prompts"; "folders"; "skills"] ->
  outcome (mg_Migrate (columnMigration (ci_Table ci))) w (inr tt) w1 -> extends w1 w2 ->
  is_Some (pg_indexes w2 !! tenantIndexName (ci_Table ci)) /\
  (forall r w3, outcome (mg_Migrate (compositeIndexMigration ci)) w2 r w3 -> w3 = w2) /\
  (forall w3, outcome (mg_Rollback (compositeIndexMigration ci)) w2 (inr tt) w3 ->
     pg_indexes w3 !! tenantIndexName (ci_Table ci) = None).
Proof.
  intros Hci Ht Ho Hx. pose proof (shadowed_names _ Hci Ht) as En.
  assert (Hix : is_Some (pg_indexes w1 !! tenantIndexName (ci_Table ci))).
  { assert (Hos : on_success (AddTenantColumn (ci_Table ci)) w (fun _ w' => is_Some (pg_indexes w' !! tenantIndexName (ci_Table ci)))).
    { unfold AddTenantColumn. apply os_bind, os_check_id, os_bind, os_check_id, os_bind, os_wrapping.
      eapply os_mono; [apply os_add_column|]. intros _ w' _. apply os_wrapping. eapply os_mono; [apply os_create_index|].
      intros _ w'' (_ & -> & _). by eexists. }
    exact (wp_outcome _ _ _ _ _ Hos Ho). }
  destruct Hix as [ix Hix]. apply (ex_indexes _ _ Hx) in Hix. split; [by eexists|]. split.
  - intros r w3 H3. apply (wp_outcome (mg_Migrate (compositeIndexMigration ci)) w2 (fun _ w' => w' = w2) r w3); [|exact H3].
    cbn [mg_Migrate compositeIndexMigration check_ids]. rewrite En. unfold check_id.
    repeat (wp_step; try (destruct (checkIdentifier _); [by apply wp_throw|])); apply wp_on_table; try done.
    intros rel Hrel. rewrite Hix. done.
  - intros w3 H3. assert (Hos : on_success (mg_Rollback (compositeIndexMigration ci)) w2
      (fun _ w' => pg_indexes w' !! tenantIndexName (ci_Table ci) = None)).
    { cbn [mg_Rollback compositeIndexMigration]. rewrite En. apply os_bind, os_check_id, os_wrapping, os_sql. intros [] w' [= <-].
      simpl. apply lookup_delete_eq. }
    exact (wp_outcome _ _ _ _ _ Hos H3).
Qed.

End Spec.

(** ** A database to run them on *)

(** The simplest migrator: the pending migrations in order. *)
Fixpoint run_pending `{Sql} (ms : list Migration) : M Pg unit :=
  match ms with
  | [] => mret tt
  | m :: ms =>
      w ← effect (fun w => (w, w));
      (if bool_decide (mg_ID m ∈ pg_applied w) then mret tt else run_migration m);; run_pending ms
  end.

Lemma run_pending_in_order `{Sql} ms w r w' : outcome (run_pending ms) w r w' -> migrated ms w r w'.
Proof.
  intros (sc & sc' & E). revert w sc E. induction ms as [|m ms IH]; intros w sc E; simpl in E.
  { injection E as <- <- <-. constructor. }
  unfold mbind, M_bind, effect in E. case_bool_decide as Hin.
  - apply migrated_skip; [done|]. exact (IH _ _ E).
  - destruct (run_migration m w sc) as [[[e|[]] w1] sc1] eqn:Em.
    + injection E as <- <- <-. apply migrated_stop; [done|]. by exists sc, sc1.
    + eapply migrated_step; [done|by exists sc, sc1|]. by eapply IH.
Qed.

Definition simple_migrator `{Sql} : Migrator := {| Migrate_ := run_pending; migrate_in_order := run_pending_in_order |}.

#[refine] Definition simple_store `{Sql} : MigrationStore := {| RunMigration := fun fn => fn; RefreshConnectionPool := mret tt |}.
Proof.
  - intros fn w r w' Ho. by right.
  - by intros w r w' (sc & sc' & [= <- <- <-]).
Defined.

Section Sample.
#[local] Existing Instances map_sql simple_migrator.

(** A table with rows and no row-level security yet. *)
Definition plain (l : list Row) : Relation := mkRelation (list_to_map (zip (seqZ 1 (Z.of_nat (length l))) l)) false false None.
Definition row (tenant : option string) (cols : list (string * string)) : Row := mkRow tenant (list_to_map cols).

(** What upstream's schema has before any migration: keys and pointers. *)
Definition upstream_columns : list (string * string) :=
  ((fun t => (t, "id")) <$> TenantScopedTables) ++
  ((fun ix => (ci_Table ix, ci_Column ix)) <$> CompositeIndexes) ++
  ((fun fk => (fk_Child fk, fk_ChildColumn fk)) <$> TenantFKs) ++
  [(SessionsTable, "token_hash"); (CClassTable, "key_id")].

(** A deployment in the middle of it: two tables have the column and are
    backfilled, so is sessions, with one row of each kind. *)
Definition backfilled_columns : list (string * string) :=
  [("prompts", tenant_id); ("folders", tenant_id); (SessionsTable, tenant_id); (SessionsTable, SessionPrincipalTypeColumn)].

Definition sample_tables (prompts : list Row) : gmap string Relation :=
  <["prompts" := plain prompts]>
  (<["folders" := plain [row (Some "acme") [("id", "f1")]; row (Some "other") [("id", "f2")]]]>
  (<[SessionsTable := plain [row None [("id", "s0")]; row None [("id", "s1"); (SessionPrincipalTypeColumn, PrincipalPlatformAdmin)];
                             row (Some "acme") [("id", "s2"); (SessionPrincipalTypeColumn, PrincipalTenantUser)]]]>
  (list_to_map ((fun t => (t, plain [])) <$> TenantScopedTables)))).

Definition sample_of (prompts : list Row) : Pg :=
  mkPg (mkConn ∅ None (sample_tables prompts))
    (list_to_map ((fun tc => (tc, false)) <$> upstream_columns ++ backfilled_columns)) ∅ ∅ ∅.

Definition sample : Pg := sample_of [row (Some "acme") [("id", "p1"); ("folder_id", "f1")]; row (Some "other") [("id", "p2")]].

(** With a row that nobody owns, and with a pointer across tenants. *)
Definition orphan : Row := row None [("id", "p3")].
Definition sample_orphan : Pg := sample_of [orphan].
Definition sample_crossed : Pg := sample_of [row (Some "acme") [("id", "p1"); ("folder_id", "f2")]].

(** Well-formedness of a database without constraints, by evaluation. *)
Definition plain_wf (w : Pg) : bool :=
  forallb (fun tc => bool_decide (is_Some (tables w !! tc.1.1)) && negb tc.2) (map_to_list (pg_columns w)) &&
  forallb (fun tr => forallb (fun r =>
    (bool_decide (rw_TenantID r = None) || bool_decide (is_Some (pg_columns w !! (tr.1, tenant_id)))) &&
    forallb (fun kv => bool_decide (is_Some (pg_columns w !! (tr.1, kv.1)))) (map_to_list (rw_Data r)))
    (all_rows tr.2)) (map_to_list (tables w)).

Lemma plain_wf_sound w : plain_wf w = true -> pg_indexes w = ∅ -> pg_constraints w = ∅ -> wf w.
Proof.
  intros [H1 H2]%andb_true_iff Hi Hc. rewrite forallb_forall in H1, H2.
  assert (Hcol : forall t c b, pg_columns w !! (t, c) = Some b -> is_Some (tables w !! t) /\ b = false).
  { intros t c b Hb. specialize (H1 ((t, c), b)). rewrite <-list_elem_of_In, elem_of_map_to_list in H1. specialize (H1 Hb). by bools. }
  split.
  - intros t c b Hb. by eapply Hcol.
  - intros t rel r c Hrel Hr [v Hv]. specialize (H2 (t, rel)). rewrite <-list_elem_of_In, elem_of_map_to_list in H2.
    specialize (H2 Hrel). rewrite forallb_forall in H2. apply list_elem_of_In, H2, andb_true_iff in Hr as [Ht Hd].
    unfold value in Hv. case_bool_decide as Ec.
    + subst c. apply orb_true_iff in Ht as [Ht|Ht]; bools; [congruence|done].
    + rewrite forallb_forall in Hd. specialize (Hd (c, v)). rewrite <-list_elem_of_In, elem_of_map_to_list in Hd. specialize (Hd Hv). by bools.
  - intros t rel r c Hb. by destruct (Hcol _ _ _ Hb).
  - intros n ix. by rewrite Hi, lookup_empty.
  - intros t n k. by rewrite Hc, lookup_empty.
Qed.

Definition plain_policies (w : Pg) : bool := forallb (fun tr => negb (rl_enabled tr.2)) (map_to_list (tables w)).

Lemma plain_inv w : plain_wf w && plain_policies w = true -> pg_indexes w = ∅ -> pg_constraints w = ∅ -> pg_applied w = ∅ -> inv w.
Proof.
  intros [H1 H2]%andb_true_iff Hi Hc Ha. split.
  - by apply plain_wf_sound.
  - intros key k k'. by rewrite Hc, lookup_empty.
  - intros t rel Hrel. unfold plain_policies in H2. rewrite forallb_forall in H2. specialize (H2 (t, rel)).
    rewrite <-list_elem_of_In, elem_of_map_to_list in H2. specialize (H2 Hrel). simpl in H2. intros He. bools. congruence.
  - intros id P _. by rewrite Ha, elem_of_empty.
Qed.

Lemma sample_evaluates :
  (plain_wf sample && plain_policies sample) && (plain_wf sample_orphan && plain_policies sample_orphan) &&
  (plain_wf sample_crossed && plain_policies sample_crossed) = true.
Proof. vm_compute. reflexivity. Qed.

Lemma samples_inv : inv sample /\ inv sample_orphan /\ inv sample_crossed.
Proof.
  destruct (andb_prop _ _ sample_evaluates) as [[E1 E2]%andb_prop E3].
  exact (conj (plain_inv sample E1 eq_refl eq_refl eq_refl) (conj (plain_inv sample_orphan E2 eq_refl eq_refl eq_refl)
    (plain_inv sample_crossed E3 eq_refl eq_refl eq_refl))).
Qed.

Lemma sample_of_idle l : idle (sample_of l).
Proof.
  unfold idle, clean, current_setting, sample_of. cbn [pg_conn cn_local cn_session]. rewrite !lookup_empty.
  split; [done|]. by split.
Qed.

(** The migrations run on the sample, all three sets; the first set stops at the
    orphan, and only the last at the crossed pointer. *)
Lemma apply_runs : result Apply sample = inr tt.
Proof. vm_compute. reflexivity. Qed.
Lemma tightening_runs : result ApplyTightening (after Apply sample) = inr tt.
Proof. vm_compute. reflexivity. Qed.
Lemma indexes_run : result ApplyIndexes (after Apply sample) = inr tt.
Proof. vm_compute. reflexivity. Qed.

Lemma samples_stop :
  match result Apply sample_orphan with inl e => errors_is e ErrBackfillRequired | inr _ => false end &&
  match result ApplyTightening (after Apply sample_crossed) with inl e => errors_is e ErrViolated | inr _ => false end = true.
Proof. vm_compute. reflexivity. Qed.

Lemma succeeds (m : M Pg unit) w : result m w = inr tt -> outcome m w (inr tt) (after m w).
Proof. intros E. pose proof (outcome_after m w) as Ho. by rewrite E in Ho. Qed.

Definition apply_succeeds := succeeds Apply sample apply_runs.
Definition tightening_succeeds := succeeds ApplyTightening (after Apply sample) tightening_runs.

(** The sample once migrated. *)
Lemma applied_sample : idle (after Apply sample) /\ inv (after Apply sample) /\
  forall m, m ∈ Migrations -> mg_ID m ∈ pg_applied (after Apply sample).
Proof.
  destruct (run_outcome _ _ _ _ _ Migrations_sound apply_succeeds (sample_of_idle _) (proj1 samples_inv)) as (I1 & I2 & _ & I4).
  split; [exact I1|]. split; [exact I2|]. exact (I4 eq_refl).
Qed.

Lemma sessions_in : sessionsMigration ∈ Migrations.
Proof. unfold Migrations. rewrite !elem_of_app. right. right. left. by apply list_elem_of_singleton. Qed.
Lemma sessions_policy_in : policyMigration SessionsTable ∈ Migrations.
Proof.
  unfold Migrations. rewrite !elem_of_app. right. right. right. apply list_elem_of_fmap. exists SessionsTable.
  split; [reflexivity|]. exact (kind_scoped SessionsTable PolicyExclusive eq_refl).
Qed.

Lemma sessions_after : exists rel r, tables (after Apply sample) !! SessionsTable = Some rel /\ r ∈ all_rows rel /\
  principal_of r = Some PrincipalTenantUser.
Proof.
  assert (E : match tables (after Apply sample) !! SessionsTable with
     | Some rel => existsb (fun r => bool_decide (principal_of r = Some PrincipalTenantUser)) (all_rows rel) | None => false end = true)
    by (vm_compute; reflexivity).
  destruct (tables (after Apply sample) !! SessionsTable) as [rel|]; [|done].
  apply existsb_exists in E as (r & Hr%list_elem_of_In & Hp%bool_decide_eq_true). by exists rel, r.
Qed.

Lemma ci_prompts_in : mkCompositeIndex "idx_prompts_tenant_id" "prompts" "id" ∈ CompositeIndexes.
Proof. unfold CompositeIndexes. do 8 right. left. Qed.
Lemma prompts_column_runs : result (mg_Migrate (columnMigration "prompts")) sample = inr tt.
Proof. vm_compute. reflexivity. Qed.

Lemma migrations_keep_schema_witness : wf (after Apply sample) /\ wf (after (mg_Rollback sessionsMigration) (after Apply sample)).
Proof.
  pose proof (inv_wf _ (proj1 (proj2 applied_sample))) as Hw. split; [exact Hw|].
  refine (migrations_keep_schema sessionsMigration _ _ _ _ Hw (or_intror (outcome_after _ _))).
  apply elem_of_app. left. exact sessions_in.
Defined.

Lemma apply_polices_witness : result Apply sample = inr tt /\ policed (pg_conn (after Apply sample)) /\
  sessions_in_place (after Apply sample).
Proof.
  split; [exact apply_runs|].
  destruct (apply_polices sample (inr tt) _ (sample_of_idle _) (proj1 samples_inv) apply_succeeds) as (_ & _ & _ & Hp).
  destruct (Hp eq_refl) as ([_ H1] & _ & H3 & _). split; [exact H1|exact H3].
Defined.

Lemma policy_gate_witness : exists r w', runs (run_migration (policyMigration "prompts")) sample_orphan r w' /\
  exists e, r = inl e /\ errors_is e ErrBackfillRequired = true.
Proof.
  destruct (proj2 (policy_gate "prompts" sample_orphan eq_refl (sample_of_idle _) (proj1 (proj2 samples_inv)))) as (r & w' & Hr & Hu & _).
  - apply (bool_decide_eq_true_1 (is_Some (pg_columns sample_orphan !! ("prompts", tenant_id)))). vm_compute. reflexivity.
  - exists r, w'. split; [exact Hr|]. apply Hu. exists (plain [orphan]), orphan.
    split; [exact (lookup_insert_eq _ _ _)|]. split; [left|reflexivity].
Defined.

Lemma session_boundary_witness : exists rel r, tables (after Apply sample) !! SessionsTable = Some rel /\
  r ∈ all_rows rel /\ principal_of r = Some PrincipalTenantUser /\
  (in_scope EmptyString (pg_conn (after Apply sample)) -> reaches (pg_conn (after Apply sample)) rel r = true ->
     rw_TenantID r = None /\ principal_of r <> Some PrincipalTenantUser).
Proof.
  destruct sessions_after as (rel & r & Hrel & Hr & Hp). exists rel, r. split; [exact Hrel|]. split; [exact Hr|]. split; [exact Hp|].
  destruct applied_sample as (_ & Hv & Ha).
  exact (proj1 (proj2 (session_boundary _ rel r Hv (Ha _ sessions_in) (Ha _ sessions_policy_in) Hrel Hr))).
Defined.

Definition prompts_edge : TenantFK := mkFK "fk_prompts_tenant_folder" "prompts" "folder_id" "folders" true.
Lemma prompts_edge_in : prompts_edge ∈ TenantFKs.
Proof. unfold TenantFKs. do 12 right. left. Qed.

Lemma tightened_no_cross_tenant_witness : exists child parent,
  tables (after ApplyTightening (after Apply sample)) !! "prompts" = Some child /\
  tables (after ApplyTightening (after Apply sample)) !! "folders" = Some parent /\
  (unique_ids parent -> cross_pairs (after ApplyTightening (after Apply sample)) prompts_edge child parent = []).
Proof.
  destruct applied_sample as (Hi & Hv & _).
  destruct (proj2 (tightened_no_cross_tenant _ _ Hi Hv tightening_succeeds) prompts_edge prompts_edge_in) as (child & parent & E1 & E2 & _ & E4).
  exists child, parent. split; [exact E1|]. split; [exact E2|exact E4].
Defined.

Definition ci_prompts : CompositeIndex := mkCompositeIndex "idx_prompts_tenant_id" "prompts" "id".

Lemma composite_index_shadowed_witness : exists w1, 
  is_Some (pg_indexes w1 !! "idx_prompts_tenant_id") /\
  forall r w3, outcome (mg_Migrate (compositeIndexMigration ci_prompts)) w1 r w3 -> w3 = w1.
Proof.
  exists (after (mg_Migrate (columnMigration "prompts")) sample).
  destruct (composite_index_shadowed ci_prompts sample _ _ ci_prompts_in (list_elem_of_here _ _)
    (succeeds _ _ prompts_column_runs) (reflexivity _)) as (H1 & H2 & _).
  split; [exact H1|exact H2].
Defined.
End Sample.
