(* ===== verification/Preflight.v ===== *)
(** * The row-level security preflight (internal/rls/preflight.go)

    What the gateway checks of its database before it serves, because each
    failure disables row-level security without an error: the dialect, the
    attributes of the role it connects with and of the roles it is a member of,
    and the state of every tenant-scoped table.  The server is the database of
    Catalog with its roles; what a role may read is what Isolation says of a
    table, unless the role is exempt. *)
From S2P Require Import Prelude GoStrings Sql Isolation Catalog.

(** A format with its arguments, as an operator is shown it. *)
Record message := Sprintf { ms_Format : string; ms_Args : list string }.

Definition RequiredDialect : string := "postgres".

Record Finding := mkFinding { fi_Check : string; fi_Detail : message; fi_Remedy : message }.

(** quoteIdent: the quotation mark, doubled inside. *)
Definition quote_mark : ascii := "034".
Fixpoint double_quotes (s : string) : string :=
  match s with
  | EmptyString => EmptyString
  | String c s => if bool_decide (c = quote_mark) then String c (String c (double_quotes s)) else String c (double_quotes s)
  end.
Definition quoteIdent (s : string) : string := String quote_mark (double_quotes s +:+ String quote_mark EmptyString).

Record Result := mkResult { rs_Dialect : string; rs_Role : string; rs_Findings : list Finding }.

Definition OK (r : Result) : bool := match rs_Findings r with [] => true | _ => false end.

(** The error of a run: its subject, how many findings, and each of them. *)
Record Report := mkReport { rp_Subject : message; rp_Problems : nat; rp_Lines : list (string * message * message) }.

Definition Err (r : Result) : option Report :=
  if OK r then None else
  let subject := if is_empty (rs_Role r) then Sprintf "dialect %q" [rs_Dialect r] else Sprintf "role %q" [rs_Role r] in
  Some (mkReport subject (length (rs_Findings r))
          ((fun f => (fi_Check f, fi_Detail f, fi_Remedy f)) <$> rs_Findings r)).

(** sort.SliceStable by Check. *)
Definition check_leb (a b : Finding) : bool := bool_decide (string_le (fi_Check a) (fi_Check b)).
Fixpoint insert_finding (f : Finding) (l : list Finding) : list Finding :=
  match l with
  | [] => [f]
  | g :: l' => if check_leb f g then f :: g :: l' else g :: insert_finding f l'
  end.
Definition sort_findings (l : list Finding) : list Finding := foldr insert_finding [] l.

Record tableState := mkState {
  ts_Name : string; ts_Enabled : bool; ts_Forced : bool; ts_Policies : Z; ts_Exists : bool }.

Definition table_findings (st : tableState) : list Finding :=
  let name := ts_Name st in
  if negb (ts_Exists st) then
    [mkFinding "table.missing" (Sprintf "table %q was not found in the current schema" [name])
       (Sprintf "run migrations first, or correct the tenant table list" [])]
  else
    (if negb (ts_Enabled st) then
      [mkFinding "table.rls_disabled" (Sprintf "table %q has no row-level security enabled" [name])
         (Sprintf "ALTER TABLE %s ENABLE ROW LEVEL SECURITY" [quoteIdent name])] else []) ++
    (if ts_Enabled st && negb (ts_Forced st) then
      [mkFinding "table.not_forced"
         (Sprintf "table %q has RLS enabled but not FORCED; its owner is exempt, and the runtime role IS the owner in Bifrost's default single-config pool setup" [name])
         (Sprintf "ALTER TABLE %s FORCE ROW LEVEL SECURITY" [quoteIdent name])] else []) ++
    (if ts_Exists st && (ts_Policies st =? 0) then
      [mkFinding "table.no_policy"
         (Sprintf "table %q has row-level security but zero policies; with RLS on and no policy the table reads as empty, which fails closed but breaks the feature" [name])
         (Sprintf "CREATE POLICY ... ON %s" [quoteIdent name])] else []).

(** ** The server *)
Record Role := mkRole { ro_Super : bool; ro_BypassRLS : bool; ro_MemberOf : list string }.

Definition exempt (r : Role) : bool := ro_Super r || ro_BypassRLS r.

Section Preflight.
  Context `{Sql}.

Record Server := mkServer { sv_Dialect : string; sv_User : string; sv_Roles : gmap string Role; sv_Db : Pg }.

Definition query {A} (f : Server -> A) : M Server A := sql (fun w => (inr (f w), w)).

(** The attributes of the current role, zero when pg_roles has no row for it. *)
Definition attributes (w : Server) : bool * bool :=
  match sv_Roles w !! sv_User w with Some r => (ro_Super r, ro_BypassRLS r) | None => (false, false) end.

(** The exempt roles the current one is a member of, as pg_auth_members has it. *)
Definition exempt_of (w : Server) (name : string) : bool :=
  match sv_Roles w !! name with Some r => exempt r | None => false end.
Definition memberships (w : Server) : list string :=
  match sv_Roles w !! sv_User w with Some r => List.filter (exempt_of w) (ro_MemberOf r) | None => [] end.

Definition checkRole (role : string) : M Server (list Finding) :=
  attrs ← wrapping "rls preflight: read role attributes: %w" (query attributes);
  let super := if (attrs.1 : bool) then
    [mkFinding "role.superuser"
       (Sprintf "role %q is a superuser; superusers bypass RLS entirely, and FORCE ROW LEVEL SECURITY does not constrain them" [role])
       (Sprintf "connect as a dedicated non-superuser role (see docs/rls-setup)" [])] else [] in
  let bypass := if (attrs.2 : bool) then
    [mkFinding "role.bypassrls" (Sprintf "role %q holds BYPASSRLS; every policy is ignored" [role])
       (Sprintf "ALTER ROLE %s NOBYPASSRLS" [quoteIdent role])] else [] in
  grantors ← wrapping "rls preflight: read role memberships: %w" (query memberships);
  match sort_strings grantors with
  | [] => mret (super ++ bypass)
  | g :: gs =>
      mret (super ++ bypass ++
        [mkFinding "role.bypass_reachable"
           (Sprintf "role %q is a member of RLS-exempt role(s) %s; SET ROLE to any of them disables every policy for that session"
              [role; String.concat ", " (g :: gs)])
           (Sprintf "REVOKE %s FROM %s" [quoteIdent g; quoteIdent role])])
  end.

(** The row of pg_class for a table, the zero state when there is none. *)
Definition inspect (name : string) (w : Server) : tableState :=
  match tables (sv_Db w) !! name with
  | Some rel => mkState name (rl_enabled rel) (rl_forced rel) (match rl_policy rel with Some _ => 1 | None => 0 end) true
  | None => mkState name false false 0 false
  end.

Fixpoint inspect_all (names : list string) (states : gmap string tableState) : M Server (gmap string tableState) :=
  match names with
  | [] => mret states
  | name :: names =>
      st ← wrapping "rls preflight: inspect table %q: %w" (query (inspect name));
      inspect_all names (<[name := st]> states)
  end.

Definition zero_state : tableState := mkState EmptyString false false 0 false.

Definition checkTables (tenantTables : list string) : M Server (list Finding) :=
  match tenantTables with
  | [] => mret [mkFinding "tables.empty" (Sprintf "no tenant tables supplied, so nothing was verified" [])
                  (Sprintf "pass the tenant-scoped table list from MAAS_TABLE_AUDIT.md" [])]
  | _ =>
      states ← inspect_all tenantTables ∅;
      mret (name ← tenantTables; table_findings (default zero_state (states !! name)))
  end.

Definition Check_ (tenantTables : list string) : M Server Result :=
  dialect ← effect (fun w => (sv_Dialect w, w));
  if negb (bool_decide (dialect = RequiredDialect)) then
    mret (mkResult dialect EmptyString [mkFinding "dialect.not_postgres"
      (Sprintf "connected to %q, but tenant isolation requires %q; row-level security does not exist on this backend, and Bifrost's own dbForUpdate silently omits FOR UPDATE off Postgres, so the virtual-key update transaction takes no row lock and raises no error (R36)" [dialect; RequiredDialect])
      (Sprintf "set config_store.type and logs_store.type to %s (both are selected independently; configuring one leaves the other on SQLite)" [quoteIdent RequiredDialect])])
  else
    role ← wrapping "rls preflight: read current_user: %w" (query sv_User);
    roles ← checkRole role;
    tables ← checkTables tenantTables;
    mret (mkResult dialect role (sort_findings (roles ++ tables))).

Definition Enforce (tenantTables : list string) : M Server (option Report) :=
  res ← Check_ tenantTables; mret (Err res).

(** ** What a role sees *)

(** A statement of an exempt role ignores every policy. *)
Definition exempted (w : Server) : bool := exempt_of w (sv_User w).
Definition visible (w : Server) (rel : Relation) (r : Row) : bool :=
  if exempted w then true else reaches (pg_conn (sv_Db w)) rel r.

(** SET ROLE reaches a role through any chain of memberships. *)
Inductive can_set_role (w : Server) : string -> string -> Prop :=
| set_role_member a b r : sv_Roles w !! a = Some r -> b ∈ ro_MemberOf r -> can_set_role w a b
| set_role_chain a b c : can_set_role w a b -> can_set_role w b c -> can_set_role w a c.

End Preflight.

(** ** What a pass means *)
Section Spec.
  Context `{Sql}.
  Implicit Types (w : Server) (t name : string).

(** Everything the isolation theorems assume of a deployment. *)
Record protected w (names : list string) : Prop := {
  pr_dialect : sv_Dialect w = "postgres";
  pr_role : exempted w = false;
  pr_members : forall r name, sv_Roles w !! sv_User w = Some r -> name ∈ ro_MemberOf r -> exempt_of w name = false;
  pr_names : names <> [];
  pr_tables : forall t, t ∈ names -> exists rel, tables (sv_Db w) !! t = Some rel /\
    rl_enabled rel = true /\ rl_forced rel = true /\ is_Some (rl_policy rel) }.

Lemma insert_finding_perm f l : insert_finding f l ≡ₚ f :: l.
Proof.
  induction l as [|g l IH]; simpl; [done|]. destruct (check_leb f g); [done|]. by rewrite IH, Permutation_swap.
Qed.

Lemma sort_findings_perm l : sort_findings l ≡ₚ l.
Proof. induction l as [|f l IH]; simpl; [done|]. by rewrite insert_finding_perm, IH. Qed.

Definition check_le (a b : Finding) : Prop := string_le (fi_Check a) (fi_Check b).

Lemma insert_finding_sorted f l : Sorted check_le l -> Sorted check_le (insert_finding f l).
Proof.
  induction 1 as [|g l Hs IH Hh]; simpl; [by repeat constructor|]. unfold check_leb. case_bool_decide as E.
  - constructor; [by constructor|by constructor].
  - constructor; [done|]. destruct (total string_le (fi_Check f) (fi_Check g)) as [|Hg]; [done|].
    destruct l as [|x l]; simpl; [by constructor|]. destruct (check_leb f x); constructor; [done|].
    by inversion Hh.
Qed.

Lemma sort_findings_sorted l : Sorted check_le (sort_findings l).
Proof. induction l as [|f l IH]; simpl; [constructor|]. by apply insert_finding_sorted. Qed.

(** Findings of one check stay in the order they were made. *)
Lemma sort_findings_stable c l :
  List.filter (fun f => bool_decide (fi_Check f = c)) (sort_findings l) = List.filter (fun f => bool_decide (fi_Check f = c)) l.
Proof.
  assert (Hins : forall f l, List.filter (fun f => bool_decide (fi_Check f = c)) (insert_finding f l) =
    List.filter (fun f => bool_decide (fi_Check f = c)) (f :: l)).
  { clear l. intros f l. induction l as [|g l IH]; [done|]. simpl insert_finding. unfold check_leb.
    case_bool_decide as E; [done|]. simpl in *. rewrite IH. clear IH.
    destruct (bool_decide (fi_Check f = c)) eqn:Ef, (bool_decide (fi_Check g = c)) eqn:Eg; try done.
    bools. destruct E. rewrite Ef, Eg. destruct (total string_le c c); done. }
  induction l as [|f l IH]; [done|]. simpl sort_findings. rewrite Hins. simpl. by rewrite IH.
Qed.

(** What is wrong with a server, as pairs of a check and what it is about. *)
Definition about (f : Finding) : string * string := (fi_Check f, hd EmptyString (ms_Args (fi_Detail f))).

Definition role_checks w : list (string * string) :=
  let user := sv_User w in
  match sv_Roles w !! user with
  | None => []
  | Some r => (if ro_Super r then [("role.superuser", user)] else []) ++ (if ro_BypassRLS r then [("role.bypassrls", user)] else []) ++
              (if existsb (exempt_of w) (ro_MemberOf r) then [("role.bypass_reachable", user)] else [])
  end.
Definition table_checks w t : list (string * string) :=
  match tables (sv_Db w) !! t with
  | None => [("table.missing", t)]
  | Some rel => (if rl_enabled rel then if rl_forced rel then [] else [("table.not_forced", t)] else [("table.rls_disabled", t)]) ++
                (match rl_policy rel with Some _ => [] | None => [("table.no_policy", t)] end)
  end.
Definition violations w (names : list string) : list (string * string) :=
  if negb (bool_decide (sv_Dialect w = RequiredDialect)) then [("dialect.not_postgres", sv_Dialect w)] else
  role_checks w ++ match names with [] => [("tables.empty", EmptyString)] | _ => t ← names; table_checks w t end.

Lemma table_findings_about w t : about <$> table_findings (inspect t w) = table_checks w t.
Proof.
  unfold table_findings, table_checks, inspect. destruct (tables (sv_Db w) !! t) as [rel|]; [|done]. simpl.
  by destruct (rl_enabled rel), (rl_forced rel), (rl_policy rel).
Qed.

Lemma wp_query {A B} h ctx (f : Server -> A) (k : A -> M Server B) w (Q : error + B -> Server -> Prop) :
  (h = false -> forall e, Q (inl e) w) -> wp h (k (f w)) w Q -> wp h (wrapping ctx (query f) ≫= k) w Q.
Proof.
  intros He Hk. wp_step. wp_step. unfold query. apply wp_sql; [|done]. intros Hh msg. by apply He.
Qed.

Lemma wp_checkRole h role w (Q : error + list Finding -> Server -> Prop) :
  (h = false -> forall e, Q (inl e) w) -> (forall l, (about <$> l) = role_checks w -> Q (inr l) w) ->
  role = sv_User w -> wp h (checkRole role) w Q.
Proof.
  intros He Hq ->. unfold checkRole. apply wp_query; [done|]. apply wp_query; [done|].
  assert (Hl : forall l, sort_strings l ≡ₚ l) by (intros l; apply merge_sort_Permutation).
  unfold attributes, memberships, role_checks in *. destruct (sv_Roles w !! sv_User w) as [r|].
  2: { change (sort_strings []) with (@nil string). cbv iota. wp_step. apply Hq. reflexivity. }
  assert (Hx : existsb (exempt_of w) (ro_MemberOf r) = match List.filter (exempt_of w) (ro_MemberOf r) with [] => false | _ => true end).
  { clear. induction (ro_MemberOf r) as [|x l IH]; [done|]. cbn [existsb List.filter]. rewrite IH. by destruct (exempt_of w x). }
  rewrite Hx in Hq. specialize (Hl (List.filter (exempt_of w) (ro_MemberOf r))).
  destruct (sort_strings _) as [|g gs].
  - apply Permutation_nil_l in Hl. rewrite <-Hl in Hq. simpl. wp_step. apply Hq.
    by destruct (ro_Super r), (ro_BypassRLS r).
  - destruct (List.filter _ _); [by apply Permutation_nil_r in Hl|]. simpl. wp_step. apply Hq.
    by destruct (ro_Super r), (ro_BypassRLS r).
Qed.

Lemma wp_inspect_all h names states w (Q : error + gmap string tableState -> Server -> Prop) :
  (h = false -> forall e, Q (inl e) w) ->
  Q (inr (foldl (fun st name => <[name := inspect name w]> st) states names)) w ->
  wp h (inspect_all names states) w Q.
Proof.
  intros He. revert states. induction names as [|name names IH]; intros states Hq; simpl; [by apply wp_ret|].
  apply wp_query; [done|]. by apply IH.
Qed.

Lemma inspected w names states name : name ∈ names ->
  (foldl (fun st name => <[name := inspect name w]> st) states names : gmap string tableState) !! name = Some (inspect name w).
Proof.
  induction names as [|x names IH] using rev_ind; [by intros ?%elem_of_nil|]. rewrite foldl_app. simpl.
  intros [Hin|E%list_elem_of_singleton]%elem_of_app; [|subst; apply lookup_insert_eq].
  destruct (decide (x = name)) as [->|Hne]; [apply lookup_insert_eq|]. rewrite lookup_insert_ne by done. by apply IH.
Qed.

Lemma wp_checkTables h names w (Q : error + list Finding -> Server -> Prop) :
  (h = false -> forall e, Q (inl e) w) ->
  (forall l, (about <$> l) = match names with [] => [("tables.empty", EmptyString)] | _ => t ← names; table_checks w t end -> Q (inr l) w) ->
  wp h (checkTables names) w Q.
Proof.
  intros He Hq. unfold checkTables. destruct names as [|n names]; [by apply wp_ret, Hq|].
  apply wp_bind, wp_inspect_all; [done|]. apply wp_ret, Hq. clear Hq.
  assert (Hall : forall l (states : gmap string tableState), (forall name, name ∈ l -> states !! name = Some (inspect name w)) ->
    about <$> (name ← l; table_findings (default zero_state (states !! name))) = (t ← l; table_checks w t)).
  { intros l states Hst. induction l as [|x l IH]; [done|]. rewrite !bind_cons, fmap_app, (Hst x) by left. simpl.
    rewrite table_findings_about. f_equal. apply IH. intros name Hn. apply Hst. by right. }
  apply Hall. intros name Hin. by apply inspected.
Qed.

Lemma table_checks_nil w t : table_checks w t = [] <->
  exists rel, tables (sv_Db w) !! t = Some rel /\ rl_enabled rel = true /\ rl_forced rel = true /\ is_Some (rl_policy rel).
Proof.
  unfold table_checks. destruct (tables (sv_Db w) !! t) as [rel|]; simpl.
  2: { split; [done|]. by intros (? & ? & _). }
  destruct (rl_enabled rel) eqn:E1, (rl_forced rel) eqn:E2, (rl_policy rel) eqn:E3; simpl; split; try done;
    try (intros (rel' & [= <-] & ? & ? & [? ?]); congruence).
  intros _. exists rel. by rewrite E3.
Qed.

Lemma role_checks_nil w : role_checks w = [] <-> exempted w = false /\
  forall r name, sv_Roles w !! sv_User w = Some r -> name ∈ ro_MemberOf r -> exempt_of w name = false.
Proof.
  unfold role_checks, exempted. unfold exempt_of at 2. destruct (sv_Roles w !! sv_User w) as [r|]; [|split; [split; [done|done]|done]].
  unfold exempt. destruct (ro_Super r), (ro_BypassRLS r); simpl; try (split; [done|by intros []]).
  destruct (existsb _ _) eqn:E.
  - split; [done|]. intros [_ Hm]. apply existsb_exists in E as (x & Hx%list_elem_of_In & Ex). by rewrite (Hm r x) in Ex.
  - split; [|done]. intros _. split; [done|]. intros r' name [= <-] Hn. apply not_true_iff_false. intros Ex.
    apply not_true_iff_false in E. apply E, existsb_exists. exists name. split; [by apply list_elem_of_In|done].
Qed.

Lemma violations_nil w names : violations w names = [] <-> protected w names.
Proof.
  unfold violations. case_bool_decide as Ed; simpl.
  2: { split; [done|]. by intros []. }
  rewrite app_nil, role_checks_nil. split.
  - intros [[Hr Hm] Hn]. destruct names as [|n names]; [done|]. split; try done. intros t Ht. apply table_checks_nil.
    revert Hn. generalize (n :: names) Ht. intros l Hin. induction l as [|x l IH]; [by apply elem_of_nil in Hin|].
    rewrite bind_cons, app_nil. intros [Hx Hl]. apply elem_of_cons in Hin as [->|Hin]; [done|by apply IH].
  - intros [P1 P2 P3 P4 P5]. split; [done|]. destruct names as [|n names]; [done|]. revert P5. generalize (n :: names). intros l P5.
    induction l as [|x l IH]; [done|]. rewrite bind_cons, (proj2 (table_checks_nil w x)) by (apply P5; left). simpl.
    apply IH. intros t Ht. apply P5. by right.
Qed.

Lemma wp_Check h names w (Q : error + Result -> Server -> Prop) :
  (h = false -> forall e, Q (inl e) w) ->
  (forall res raw, rs_Findings res = sort_findings raw -> (about <$> raw) = violations w names -> Q (inr res) w) ->
  wp h (Check_ names) w Q.
Proof.
  intros He Hq. unfold Check_, violations in *. wp_step. wp_step. case_bool_decide as Ed; simpl in *.
  2: { wp_step. eapply (Hq _ [_]); reflexivity. }
  apply wp_query; [done|]. apply wp_bind, wp_checkRole; [done| |done]. intros l1 E1. apply wp_bind, wp_checkTables; [done|].
  intros l2 E2. apply wp_ret. eapply Hq; [done|]. by rewrite fmap_app, E1, E2.
Qed.

Lemma Err_None res : Err res = None <-> rs_Findings res = [].
Proof. unfold Err, OK. by destruct (rs_Findings res). Qed.

(** A run: no change, and a pass exactly on a protected deployment. *)
Lemma wp_Enforce h names w (Q : error + option Report -> Server -> Prop) :
  (h = false -> forall e, Q (inl e) w) -> (forall rep, (rep = None <-> protected w names) -> Q (inr rep) w) ->
  wp h (Enforce names) w Q.
Proof.
  intros He Hq. unfold Enforce. apply wp_bind, wp_Check; [done|]. intros res raw Er Ea. apply wp_ret, Hq.
  rewrite Err_None, <-violations_nil, Er, <-Ea. split; intros E.
  - pose proof (sort_findings_perm raw) as Hp. rewrite E in Hp. apply Permutation_nil_l in Hp. by rewrite <-Hp.
  - by apply fmap_nil_inv in E as ->.
Qed.

(** When the database does not fail there is a report, and nothing has changed. *)
Lemma runs_Enforce w names : exists rep, runs (Enforce names) w (inr rep) w /\ (rep = None <-> protected w names).
Proof.
  assert (Hw : wp true (Enforce names) w (fun r w' => exists rep, r = inr rep /\ w' = w /\ (rep = None <-> protected w names)))
    by (apply wp_Enforce; [done|]; intros rep Hrep; by exists rep).
  apply wp_runs in Hw as (r & w' & Hr & rep & -> & -> & He). by exists rep.
Qed.

Lemma runs_result w names rep : result (Enforce names) w = inr rep -> runs (Enforce names) w (inr rep) w.
Proof. intros E. destruct (runs_Enforce w names) as (rep' & Hr & _). unfold result in E. rewrite Hr in E. by injection E as <-. Qed.

(** The preflight passes exactly on a protected deployment: the dialect is
    Postgres, the role is neither exempt nor a member of an exempt role, tables
    were named, and each exists with row-level security enabled, forced and a
    policy.  It changes nothing, and a query that fails is never a pass. *)
Theorem preflight_exact w names :
  (forall r w', outcome (Enforce names) w r w' -> w' = w /\ (r = inr None -> protected w names)) /\
  exists rep, runs (Enforce names) w (inr rep) w /\ (rep = None <-> protected w names).
Proof.
  split.
  - intros r w' Ho. apply (wp_outcome (Enforce names) w (fun r w' => w' = w /\ (r = inr None -> protected w names)) r w'); [|done].
    apply wp_Enforce; [done|]. intros rep Hrep. split; [done|]. intros [= ->]. by apply Hrep.
  - apply runs_Enforce.
Qed.

(** A refusal tells an operator everything at once: its lines, sorted by check,
    are exactly the violations there are -- of the role, then of each table in
    the order given, within one check -- and it counts them; off Postgres the one
    line is the dialect, which the report then names instead of a role. *)
Theorem preflight_reports w names rep w' :
  outcome (Enforce names) w (inr (Some rep)) w' ->
  let found := (fun l => (l.1.1, hd EmptyString (ms_Args l.1.2))) <$> rp_Lines rep in
  Sorted string_le found.*1 /\ found ≡ₚ violations w names /\
  (forall c, List.filter (fun p => bool_decide (p.1 = c)) found = List.filter (fun p => bool_decide (p.1 = c)) (violations w names)) /\
  rp_Problems rep = length (violations w names).
Proof.
  intros Ho found. assert (Hw : wp false (Enforce names) w (fun r _ => forall rep, r = inr (Some rep) ->
    exists raw, about <$> raw = violations w names /\ rp_Problems rep = length (sort_findings raw) /\
      rp_Lines rep = (fun f => (fi_Check f, fi_Detail f, fi_Remedy f)) <$> sort_findings raw)).
  { unfold Enforce. apply wp_bind, wp_Check; [done|]. intros res raw Er Ea. apply wp_ret. intros rep0 [= En]. exists raw.
    split; [done|]. unfold Err in En. destruct (OK res); [done|]. injection En as <-. simpl. by rewrite Er. }
  destruct (wp_outcome _ _ _ _ _ Hw Ho rep eq_refl) as (raw & Ea & El & Er).
  assert (Ef : found = about <$> sort_findings raw) by (unfold found; rewrite Er, <-list_fmap_compose; done).
  assert (Hfilter : forall c (l : list Finding), List.filter (fun p => bool_decide (p.1 = c)) (about <$> l) =
    about <$> List.filter (fun f => bool_decide (fi_Check f = c)) l).
  { intros c l. induction l as [|f l IH]; [done|]. rewrite fmap_cons. cbn [List.filter]. rewrite IH.
    change (about f).1 with (fi_Check f). by destruct (bool_decide (fi_Check f = c)). }
  clearbody found. subst found. split_and!.
  - rewrite <-list_fmap_compose. pose proof (sort_findings_sorted raw) as Hs. clear El Er. induction Hs as [|f l Hs IH Hh]; [constructor|].
    rewrite fmap_cons. constructor; [exact IH|]. destruct Hh; simpl; by constructor.
  - by rewrite sort_findings_perm, Ea.
  - intros c. rewrite Hfilter, sort_findings_stable, <-Hfilter. by rewrite Ea.
  - rewrite El, <-Ea, length_fmap. by apply Permutation_length, sort_findings_perm.
Qed.

(** After a pass, row-level security decides what the gateway's role sees: of
    every table named, exactly the rows its policy admits, although the role
    owns the table. *)
Theorem preflight_governs w names w' t rel r :
  outcome (Enforce names) w (inr None) w' -> t ∈ names -> tables (sv_Db w) !! t = Some rel ->
  exists policy, rl_policy rel = Some policy /\
    visible w rel r = holds_for (current_setting (pg_conn (sv_Db w))) (rw_TenantID r) policy.1.
Proof.
  intros Ho Ht Hrel.
  assert (Hw : wp false (Enforce names) w (fun r _ => r = inr None -> protected w names))
    by (apply wp_Enforce; [done|]; intros rep Hrep [= ->]; by apply Hrep).
  destruct (wp_outcome _ _ _ _ _ Hw Ho eq_refl) as [_ P2 _ _ P5]. destruct (P5 t Ht) as (rel' & Hrel' & E1 & E2 & [policy E3]).
  assert (rel' = rel) as -> by congruence. exists policy. split; [done|]. unfold visible, reaches, governed. by rewrite P2, E1, E2, E3.
Qed.

End Spec.

(** ** A deployment, and one the preflight is wrong about *)
Section Sample.
#[local] Existing Instance map_sql.

Definition policed_relation : Relation := mkRelation (list_to_map [(1, mkRow (Some "acme") ∅); (2, mkRow None ∅)]) true true (Some (policyClauses PolicyStrict)).
Definition one_table (rel : Relation) : Pg := mkPg (mkConn ∅ None {["prompts" := rel]}) ∅ ∅ ∅ ∅.

Definition sound_server : Server :=
  mkServer "postgres" "maas" {["maas" := mkRole false false ["readers"]; "readers" := mkRole false false []]} (one_table policed_relation).

(** A superuser with a table whose security is not forced. *)
Definition unsound_server : Server :=
  mkServer "postgres" "maas" {["maas" := mkRole true false ["postgres"]; "postgres" := mkRole true true []]}
    (one_table (mkRelation ∅ true false None)).

(** A member of a group that is a member of a superuser. *)
Definition indirect_server : Server :=
  mkServer "postgres" "maas"
    {["maas" := mkRole false false ["ops"]; "ops" := mkRole false false ["postgres"]; "postgres" := mkRole true false []]}
    (one_table policed_relation).

Lemma indirect_result : result (Enforce ["prompts"]) indirect_server = inr None.
Proof. vm_compute. reflexivity. Qed.

(** A pass does not mean that no exempt role is reachable: memberships are
    looked up one level deep, while SET ROLE follows any chain, so a member of a
    group of the superuser passes and can still turn every policy off. *)
Theorem preflight_misses_indirect :
  runs (Enforce ["prompts"]) indirect_server (inr None) indirect_server /\
  exists role r, can_set_role indirect_server (sv_User indirect_server) role /\
    sv_Roles indirect_server !! role = Some r /\ ro_Super r = true /\
    forall rel row, visible (mkServer (sv_Dialect indirect_server) role (sv_Roles indirect_server) (sv_Db indirect_server)) rel row = true.
Proof.
  split; [exact (runs_result _ _ _ indirect_result)|]. exists "postgres", (mkRole true false []). split_and!; [|reflexivity..].
  eapply set_role_chain; eapply set_role_member; [reflexivity|left|reflexivity|left].
Qed.

Lemma sound_runs : result (Enforce ["prompts"]) sound_server = inr None.
Proof. vm_compute. reflexivity. Qed.

Definition sound_passes : outcome (Enforce ["prompts"]) sound_server (inr None) (after (Enforce ["prompts"]) sound_server) :=
  match sound_runs in _ = r return outcome _ _ r _ with eq_refl => outcome_after _ _ end.

Lemma unsound_runs : exists rep, outcome (Enforce ["prompts"; "folders"]) unsound_server (inr (Some rep)) unsound_server.
Proof.
  assert (E : match result (Enforce ["prompts"; "folders"]) unsound_server with inr (Some _) => true | _ => false end = true)
    by (vm_compute; reflexivity).
  destruct (result (Enforce ["prompts"; "folders"]) unsound_server) as [e|[rep|]] eqn:Er; [done| |done].
  exists rep, [], []. exact (runs_result _ _ _ Er).
Qed.

Lemma preflight_reports_witness : exists rep,
  Sorted string_le ((fun l => (l.1.1, hd EmptyString (ms_Args l.1.2))) <$> rp_Lines rep).*1 /\
  rp_Problems rep = length [("role.superuser", "maas"); ("role.bypass_reachable", "maas"); ("table.not_forced", "prompts");
    ("table.no_policy", "prompts"); ("table.missing", "folders")].
Proof.
  destruct unsound_runs as [rep Ho]. exists rep.
  destruct (preflight_reports unsound_server ["prompts"; "folders"] rep _ Ho) as (H1 & _ & _ & H4).
  split; [exact H1|]. etransitivity; [exact H4|]. vm_compute. reflexivity.
Defined.

Lemma preflight_governs_witness : exists rel,
  tables (sv_Db sound_server) !! "prompts" = Some rel /\
  exists policy, rl_policy rel = Some policy /\
    visible sound_server rel (mkRow (Some "acme") ∅) =
      holds_for (current_setting (pg_conn (sv_Db sound_server))) (Some "acme") policy.1.
Proof.
  exists policed_relation. split; [reflexivity|].
  exact (preflight_governs sound_server ["prompts"] _ "prompts" policed_relation (mkRow (Some "acme") ∅) sound_passes
    (list_elem_of_here _ _) eq_refl).
Defined.
End Sample.
