(* ===== verification/RedisKV.v ===== *)
(** * The gateway's key-value store on Redis (internal/rediskv: config.go, store.go)

    Claims, leases and one-shot tokens that several nodes share.  The server is
    Redis's; a call is what the client makes of it, retries included: a command
    may be sent several times, and each time the request or the reply may be
    lost.  Values, their JSON form, the decoders, the secret variables and the
    rounding of an expiry to milliseconds belong to the gateway's libraries: they
    are the interface [KvRuntime]. *)
From S2P Require Import Prelude GoStrings Redis.

Definition ErrEmptyKey : error := New "kvstore: empty key".
Definition ErrNotFound : error := New "kvstore: not found".
Definition ErrInvalidTTL : error := New "kvstore: invalid ttl".

Class KvRuntime := {
  value : Type;
  raw_bytes : string -> value;                 (** a []byte as a value *)
  Marshal : value -> error + string;           (** sonic.Marshal *)
  SecretVar : Type;
  GetValue : SecretVar -> string;
  CoerceBool : option SecretVar -> bool -> bool;
  CoerceInt : option SecretVar -> Z -> Z;
  AppendCertsFromPEM : string -> bool;
  expiry_ms : Z -> Z;
  expiry_positive : forall d, 0 < d -> 0 < expiry_ms d;
  expiry_covers : forall d, 0 < d -> d < (expiry_ms d + 1) * 10 ^ 6 }.

Definition TypeDecoder `{KvRuntime} : Type := string -> error + value.

Definition defaultOpTimeout : Z := 2 * 10 ^ 9.
Definition DefaultKeyPrefix : string := "bifrost:kv:".

(** ** config.go *)
Section Config.
  Context `{KvRuntime}.

Record Config := mkConfig {
  cf_Addr : option SecretVar; cf_Username : option SecretVar; cf_Password : option SecretVar; cf_DB : option SecretVar;
  cf_UseTLS : option SecretVar; cf_InsecureSkipVerify : option SecretVar; cf_CACertPEM : option SecretVar;
  cf_ClusterMode : option SecretVar;
  cf_PoolSize : Z; cf_MaxActiveConns : Z; cf_MinIdleConns : Z; cf_MaxIdleConns : Z;
  cf_ConnMaxLifetime : Z; cf_ConnMaxIdleTime : Z; cf_DialTimeout : Z; cf_ReadTimeout : Z; cf_WriteTimeout : Z;
  cf_OpTimeout : Z; cf_KeyPrefix : string }.

(** [x != nil && x.GetValue() != EmptyString], and the value or the empty text. *)
Definition has_value (v : option SecretVar) : bool :=
  match v with Some x => negb (is_empty (GetValue x)) | None => false end.
Definition value_of (v : option SecretVar) : string := match v with Some x => GetValue x | None => EmptyString end.

Definition Validate (c : option Config) : option error :=
  match c with
  | None => Some (New "rediskv: config is required")
  | Some c =>
      if negb (has_value (cf_Addr c)) then Some (New "rediskv: addr is required") else
      if CoerceBool (cf_ClusterMode c) false && negb (CoerceInt (cf_DB c) 0 =? 0)
      then Some (New "rediskv: redis cluster mode does not support database selection (db must be 0)") else None
  end.

(** [tls_RootCAs]: the certificate added to those of the system. *)
Record TLSConfig := mkTLS { tls_InsecureSkipVerify : bool; tls_RootCAs : option string }.

Definition systemCertPoolWithCA (caCertPEM : string) : error + string :=
  if AppendCertsFromPEM caCertPEM then inr caCertPEM else inl (New "failed to parse CA certificate PEM").

Definition tls_config (c : Config) : error + option TLSConfig :=
  if CoerceBool (cf_UseTLS c) false then
    let insecure := CoerceBool (cf_InsecureSkipVerify c) false in
    if has_value (cf_CACertPEM c) then
      match systemCertPoolWithCA (value_of (cf_CACertPEM c)) with
      | inl e => inl (Wrap "rediskv: failed to configure TLS CA certificate: %w" e)
      | inr pool => inr (Some (mkTLS insecure (Some pool)))
      end
    else inr (Some (mkTLS insecure None))
  else inr None.

(** The options both kinds of client share, and the kind. *)
Inductive topology := Cluster (addrs : list string) | Standalone (addr : string) (db : Z).
Record Options := mkOptions {
  op_topology : topology; op_Username : string; op_Password : string; op_Protocol : Z; op_TLS : option TLSConfig;
  op_PoolSize : Z; op_MaxActiveConns : Z; op_MinIdleConns : Z; op_MaxIdleConns : Z;
  op_ConnMaxLifetime : Z; op_ConnMaxIdleTime : Z; op_DialTimeout : Z; op_ReadTimeout : Z; op_WriteTimeout : Z }.

Definition newClient (c : Config) : error + Options :=
  match tls_config c with
  | inl e => inl e
  | inr tls =>
      let username := value_of (cf_Username c) in
      let password := value_of (cf_Password c) in
      let addr := value_of (cf_Addr c) in
      let make := fun topo => mkOptions topo username password 3 tls (cf_PoolSize c) (cf_MaxActiveConns c) (cf_MinIdleConns c)
        (cf_MaxIdleConns c) (cf_ConnMaxLifetime c) (cf_ConnMaxIdleTime c) (cf_DialTimeout c) (cf_ReadTimeout c) (cf_WriteTimeout c) in
      inr (if CoerceBool (cf_ClusterMode c) false then make (Cluster [addr]) else make (Standalone addr (CoerceInt (cf_DB c) 0)))
  end.

(** ** store.go *)
Record Store := mkStore { st_opTimeout : Z; st_keyPrefix : string; st_decoders : gmap string TypeDecoder }.

Definition NewWithClient (opTimeout : Z) (keyPrefix : string) : Store :=
  mkStore (if opTimeout <=? 0 then defaultOpTimeout else opTimeout)
    (if is_empty keyPrefix then DefaultKeyPrefix else keyPrefix) ∅.

(** [ping]: what the server answers to PING; the client is closed when it fails. *)
Definition NewStore (c : option Config) (ping : Options -> option error) : error + Options * Store :=
  match Validate c, c with
  | Some e, _ => inl e
  | None, None => inl (New "rediskv: config is required")
  | None, Some c =>
      match newClient c with
      | inl e => inl e
      | inr client =>
          let opTimeout := if cf_OpTimeout c <=? 0 then defaultOpTimeout else cf_OpTimeout c in
          let keyPrefix := if is_empty (cf_KeyPrefix c) then DefaultKeyPrefix else cf_KeyPrefix c in
          match ping client with
          | Some e => inl (Wrap "rediskv: failed to connect to redis: %w" e)
          | None => inr (client, mkStore opTimeout keyPrefix ∅)
          end
      end
  end.

Definition k (s : Store) (key : string) : string := st_keyPrefix s +:+ key.

Definition RegisterDecoder (s : Store) (keyPrefix : string) (decoder : TypeDecoder) : Store :=
  mkStore (st_opTimeout s) (st_keyPrefix s) (<[keyPrefix := decoder]> (st_decoders s)).

(** The loop over the decoders, in the order [walk] the map gives them. *)
Definition better (key : string) (best : string * option TypeDecoder) (pd : string * TypeDecoder) : string * option TypeDecoder :=
  if has_prefix key pd.1 && (String.length best.1 <? String.length pd.1)%nat then (pd.1, Some pd.2) else best.
Definition best_decoder (key : string) (walk : list (string * TypeDecoder)) : option TypeDecoder :=
  (foldl (better key) (EmptyString, None) walk).2.

Definition decode_along (walk : list (string * TypeDecoder)) (key raw : string) : value :=
  match best_decoder key walk with
  | Some decoder => match decoder raw with inr v => v | inl _ => raw_bytes raw end
  | None => raw_bytes raw
  end.
Definition decodeValue (s : Store) (key raw : string) : value := decode_along (map_to_list (st_decoders s)) key raw.

(** ** Commands *)
Context `{!Redis}.

(** A command with the client's retries, each at a server instant, all within
    one time-out. *)
Fixpoint exchange {A} (ds : list (Z * delivery)) (f : Z -> script A) (s : server) : (error + A) * server :=
  match ds with
  | [] => (inl (Driver "context deadline exceeded"), s)
  | [(t, d)] => call d (f t) s
  | (t, Delivered) :: _ => f t s
  | (t, d) :: ds => exchange ds f (call d (f t) s).2
  end.

Definition get_cmd (key : string) (t : Z) : script (option string) := fun s => (get t key s, s).
(** GETDEL *)
Definition getdel_cmd (key : string) (t : Z) : script (option string) := fun s =>
  match get t key s with
  | inl e => (inl e, s)
  | inr None => (inr None, s)
  | inr (Some v) => (inr (Some v), (del t key s).2)
  end.
Definition px (ttl : Z) : option Z := if 0 <? ttl then Some (expiry_ms ttl) else None.
Definition set_cmd (key v : string) (ttl t : Z) : script unit := fun s =>
  match set_ t key v (px ttl) s with inl e => (inl e, s) | inr (_, s') => (inr tt, s') end.
Definition setnx_cmd (key v : string) (ttl t : Z) : script bool := fun s =>
  if exists_key t key s then (inr false, s) else
  match set_ t key v (px ttl) s with inl e => (inl e, s) | inr (_, s') => (inr true, s') end.
Definition del_cmd (key : string) (t : Z) : script Z := fun s => let '(n, s') := del t key s in (inr n, s').

(** ** Operations *)
Section Operations.
  Variables (st : Store) (ds : list (Z * delivery)).

Definition found (op key : string) (r : error + option string) : error + value :=
  match r with
  | inl e => inl (Wrap op e)
  | inr None => inl ErrNotFound
  | inr (Some raw) => inr (decodeValue st key raw)
  end.

Definition Get (key : string) (s : server) : (error + value) * server :=
  if is_empty key then (inl ErrEmptyKey, s) else
  let '(r, s') := exchange ds (get_cmd (k st key)) s in (found "rediskv: get %q: %w" key r, s').

Definition GetAndDelete (key : string) (s : server) : (error + value) * server :=
  if is_empty key then (inl ErrEmptyKey, s) else
  let '(r, s') := exchange ds (getdel_cmd (k st key)) s in (found "rediskv: getdel %q: %w" key r, s').

Definition wrapped {A} (ctx : string) (r : error + A) : error + A := match r with inl e => inl (Wrap ctx e) | inr a => inr a end.

Definition SetWithTTL (key : string) (v : value) (ttl : Z) (s : server) : (error + unit) * server :=
  if is_empty key then (inl ErrEmptyKey, s) else
  if ttl <? 0 then (inl ErrInvalidTTL, s) else
  match Marshal v with
  | inl e => (inl (Wrap "rediskv: marshal value for %q: %w" e), s)
  | inr payload => let '(r, s') := exchange ds (set_cmd (k st key) payload ttl) s in (wrapped "rediskv: set %q: %w" r, s')
  end.

Definition SetNXWithTTL (key : string) (v : value) (ttl : Z) (s : server) : (error + bool) * server :=
  if is_empty key then (inl ErrEmptyKey, s) else
  if ttl <? 0 then (inl ErrInvalidTTL, s) else
  match Marshal v with
  | inl e => (inl (Wrap "rediskv: marshal value for %q: %w" e), s)
  | inr payload => let '(r, s') := exchange ds (setnx_cmd (k st key) payload ttl) s in (wrapped "rediskv: setnx %q: %w" r, s')
  end.

Definition Delete (key : string) (s : server) : (error + bool) * server :=
  if is_empty key then (inl ErrEmptyKey, s) else
  let '(r, s') := exchange ds (del_cmd (k st key)) s in
  (match r with inl e => inl (Wrap "rediskv: delete %q: %w" e) | inr n => inr (0 <? n) end, s').

End Operations.
End Config.

(** ** What the operations promise *)
Section Spec.
  Context `{KvRuntime} `{!Redis}.
  Implicit Types (s : server) (key : string) (t : Z).

(** *** Decoders *)
Definition matches key (pd : string * TypeDecoder) : Prop := has_prefix key pd.1 = true /\ pd.1 <> EmptyString.

(** The longest prefix of the key that is not empty and has a decoder. *)
Definition longest key (walk : list (string * TypeDecoder)) (pd : string * TypeDecoder) : Prop :=
  pd ∈ walk /\ matches key pd /\ forall qd, qd ∈ walk -> matches key qd -> (String.length qd.1 <= String.length pd.1)%nat.

Lemma prefixes_agree key p q : has_prefix key p = true -> has_prefix key q = true -> String.length p = String.length q -> p = q.
Proof. intros [r1 ->]%has_prefix_spec [r2 E]%has_prefix_spec Hl. by apply sapp_inj in E as [-> _]. Qed.

Lemma slength_zero p : (String.length p = 0)%nat <-> p = EmptyString.
Proof. by destruct p. Qed.

(** The accumulator of the loop: the longest so far. *)
Lemma best_spec key walk : (forall pd qd, pd ∈ walk -> qd ∈ walk -> pd.1 = qd.1 -> pd = qd) ->
  match foldl (better key) (EmptyString, None) walk with
  | (p, None) => p = EmptyString /\ forall pd, pd ∈ walk -> ~ matches key pd
  | (p, Some d) => longest key walk (p, d)
  end.
Proof.
  induction walk as [|pd walk IH] using rev_ind; intros Hu; [split; [done|]; by intros ? ?%elem_of_nil|].
  specialize (IH ltac:(intros a b Ha Hb; apply Hu; apply elem_of_app; by left)). rewrite foldl_app. cbn [foldl].
  destruct (foldl (better key) (EmptyString, None) walk) as [p [d|]]; unfold better; cbn [fst snd].
  - destruct IH as (Hin & Hm & Hmax). destruct (has_prefix key pd.1) eqn:Ep, (String.length p <? String.length pd.1)%nat eqn:El; cbn [andb].
    1: { apply Nat.ltb_lt in El. destruct pd as [q d']. simpl in *. split; [|split].
      - apply elem_of_app. right. left.
      - split; [done|]. simpl. intros ->. simpl in El. lia.
      - intros qd [Hq|Hq%list_elem_of_singleton]%elem_of_app Hqm; [|by subst]. specialize (Hmax _ Hq Hqm). simpl in *. lia. }
    all: split; [apply elem_of_app; by left|]; split; [done|]; intros qd [Hq|Hq%list_elem_of_singleton]%elem_of_app Hqm; [by apply Hmax|subst qd];
      try (destruct Hqm; congruence); apply Nat.ltb_ge in El; simpl; lia.
  - destruct IH as [-> Hno]. destruct (has_prefix key pd.1) eqn:Ep, (String.length EmptyString <? String.length pd.1)%nat eqn:El; cbn [andb].
    1: { apply Nat.ltb_lt in El. destruct pd as [q d']. simpl in *. split; [|split].
      - apply elem_of_app. right. left.
      - split; [done|]. simpl. intros ->. simpl in El. lia.
      - intros qd [Hq|Hq%list_elem_of_singleton]%elem_of_app Hqm; [by destruct (Hno _ Hq Hqm)|by subst]. }
    all: split; [done|]; intros qd [Hq|Hq%list_elem_of_singleton]%elem_of_app Hqm; [by apply (Hno _ Hq)|subst qd]; destruct Hqm as [H1 H2]; try congruence;
      apply Nat.ltb_ge in El; simpl in El; apply H2, slength_zero; lia.
Qed.

(** Whatever order Go walks the map of decoders in, a value is decoded by the
    one registered for the longest matching prefix; the raw bytes are the value
    when none matches -- a decoder registered for the empty prefix never does --
    or when the decoder refuses them. *)
Theorem decoder_longest st key raw walk :
  walk ≡ₚ map_to_list (st_decoders st) ->
  decode_along walk key raw = decodeValue st key raw /\
  ((exists pd, longest key walk pd /\ decode_along walk key raw = match pd.2 raw with inr v => v | inl _ => raw_bytes raw end) \/
   ((forall pd, pd ∈ walk -> ~ matches key pd) /\ decode_along walk key raw = raw_bytes raw)).
Proof.
  intros Hp. assert (Hu : forall l, l ≡ₚ map_to_list (st_decoders st) -> forall pd qd : string * TypeDecoder, pd ∈ l -> qd ∈ l -> pd.1 = qd.1 -> pd = qd).
  { intros l Hl [p d] [q d'] H1 H2. rewrite Hl in H1, H2. apply elem_of_map_to_list in H1, H2. simpl. intros ->. congruence. }
  pose proof (best_spec key walk (Hu _ Hp)) as B1.
  pose proof (best_spec key (map_to_list (st_decoders st)) (Hu _ (reflexivity _))) as B2.
  unfold decodeValue, decode_along, best_decoder.
  destruct (foldl (better key) (EmptyString, None) walk) as [p1 [d1|]], (foldl (better key) (EmptyString, None) (map_to_list _)) as [p2 [d2|]]; simpl.
  - destruct B1 as (I1 & M1 & X1), B2 as (I2 & M2 & X2). assert (p1 = p2) as ->.
    { apply (prefixes_agree key); [apply M1|apply M2|]. apply Nat.le_antisymm; [by apply (X2 (p1, d1)); [rewrite <-Hp|]|by apply (X1 (p2, d2)); [rewrite Hp|]]. }
    assert (E : (p2, d1) = (p2, d2)) by (apply (Hu walk Hp); [done|by rewrite Hp|done]). injection E as ->.
    split; [done|]. left. by exists (p2, d2).
  - destruct B1 as (I1 & M1 & _), B2 as [_ B2]. destruct (B2 (p1, d1)); [by rewrite <-Hp|done].
  - destruct B2 as (I2 & M2 & _), B1 as [_ B1]. destruct (B1 (p2, d2)); [by rewrite Hp|done].
  - split; [done|]. right. by destruct B1.
Qed.

(** *** Commands of many nodes

    The server takes them one at a time, each at its instant, and each caller
    learns what the network lets through. *)
Fixpoint serve {A} (cmds : list (delivery * script A)) s : list (error + A) * server :=
  match cmds with
  | [] => ([], s)
  | (d, f) :: cmds => let '(r, s1) := call d f s in let '(rs, s2) := serve cmds s1 in (r :: rs, s2)
  end.

Lemma serve_cons {A} d (f : script A) cmds s :
  serve ((d, f) :: cmds) s = ((call d f s).1 :: (serve cmds (call d f s).2).1, (serve cmds (call d f s).2).2).
Proof. simpl. destruct (call d f s) as [r s1]. simpl. by destruct (serve cmds s1). Qed.

Lemma live_put_later t t' s key o j : t <= t' -> j <> key -> (forall e, o = Some e -> unexpired t e = true) ->
  live t' (put t key o s) j = live t' s j.
Proof. intros Ht Hj Ho. rewrite (live_later t t'), (live_later t t' s) by done. rewrite live_put by done. by rewrite decide_False. Qed.

Lemma live_put_self t t' s key o : t <= t' -> (forall e, o = Some e -> unexpired t e = true) ->
  live t' (put t key o s) key = match o with Some e => if unexpired t' e then Some e else None | None => None end.
Proof. intros Ht Ho. rewrite (live_later t t') by done. rewrite live_put by done. by rewrite decide_True. Qed.

Lemma live_gone t t' s key : t <= t' -> live t s key = None -> live t' s key = None.
Proof. intros Ht Hn. rewrite (live_later t t') by done. by rewrite Hn. Qed.

(** The expiry a SET leaves. *)
Definition deadline ttl t : option Z := (fun ms => t + ms) <$> px ttl.

Lemma deadline_ok ttl t v : unexpired t (RString v, deadline ttl t) = true.
Proof.
  unfold deadline, px, unexpired. destruct (0 <? ttl) eqn:E; simpl; [|done]. bools. pose proof (expiry_positive _ E).
  apply Z.ltb_lt. lia.
Qed.

Lemma set_cmd_eq key v ttl t s : set_cmd key v ttl t s = (inr tt, put t key (Some (RString v, deadline ttl t)) s).
Proof.
  unfold set_cmd, set_, deadline, px. destruct (0 <? ttl) eqn:E; simpl; [|done]. bools. pose proof (expiry_positive _ E).
  by rewrite (proj2 (Z.leb_gt _ _)) by lia.
Qed.

Lemma setnx_cmd_eq key v ttl t s :
  setnx_cmd key v ttl t s = if exists_key t key s then (inr false, s) else (inr true, put t key (Some (RString v, deadline ttl t)) s).
Proof.
  unfold setnx_cmd. destruct (exists_key t key s); [done|]. pose proof (set_cmd_eq key v ttl t s) as E. unfold set_cmd in E.
  destruct (set_ t key v (px ttl) s) as [e|[[] s']]; by simplify_eq.
Qed.

Lemma getdel_cmd_eq key t s : getdel_cmd key t s =
  match live t s key with
  | None => (inr None, s)
  | Some (RString v, _) => (inr (Some v), put t key None s)
  | Some (RZset _, _) => (inl WRONGTYPE, s)
  end.
Proof.
  unfold getdel_cmd, get, del, exists_key. destruct (live t s key) as [[[v|m] x]|] eqn:E; [|done|done]. by rewrite ?E.
Qed.

(** A history of commands on one key: instants that do not go back. *)
Definition in_order (t0 : Z) (times : list Z) : Prop := StronglySorted Z.le times /\ Forall (fun t => t0 <= t) times.

Lemma in_order_cons t0 t times : in_order t0 (t :: times) -> t0 <= t /\ in_order t times.
Proof. intros [Hs Hf]. inversion Hs; inversion Hf; subst. by split. Qed.

(** Once the key is gone no GETDEL finds it. *)
Lemma consumed_nothing key (cmds : list (Z * delivery)) t0 s : in_order t0 cmds.*1 -> live t0 s key = None ->
  Forall (fun r => forall v, r <> inr (Some v)) (serve ((fun td => (td.2, getdel_cmd key td.1)) <$> cmds) s).1.
Proof.
  revert t0 s. induction cmds as [|[t d] cmds IH]; intros t0 s Ho Hn; [constructor|].
  apply in_order_cons in Ho as [Ht Ho]. pose proof (live_gone t0 t s key Ht Hn) as Hn'.
  rewrite fmap_cons, serve_cons. cbn [fst snd].
  assert (E : (call d (getdel_cmd key t) s).2 = s) by (destruct d; simpl; try done; by rewrite getdel_cmd_eq, Hn').
  rewrite E. constructor; [|by eapply IH]. intros v. destruct d; simpl; try done. by rewrite getdel_cmd_eq, Hn'.
Qed.

(** A one-shot value is consumed at most once.  However many nodes send their
    GETDELs for a key, however often each retries and whatever replies are lost,
    while nobody sets the key again at most one command's reply carries the
    value; and the first command, if delivered, gets the value that is there. *)
Theorem consumed_once key (cmds : list (Z * delivery)) t0 s :
  in_order t0 cmds.*1 ->
  let replies := (serve ((fun td => (td.2, getdel_cmd key td.1)) <$> cmds) s).1 in
  (forall i j a b, replies !! i = Some (inr (Some a)) -> replies !! j = Some (inr (Some b)) -> i = j) /\
  (forall t rest v x, cmds = (t, Delivered) :: rest -> live t s key = Some (RString v, x) -> replies !! 0%nat = Some (inr (Some v))).
Proof.
  intros Ho. cbv zeta. split.
  2: { intros t rest v x -> Hl. rewrite fmap_cons, serve_cons. simpl. by rewrite getdel_cmd_eq, Hl. }
  revert t0 s Ho. induction cmds as [|[t d] cmds IH]; intros t0 s Ho i j a b; [done|].
  apply in_order_cons in Ho as [Ht Ho]. rewrite fmap_cons, serve_cons. cbn [fst snd].
  destruct (live t s key) as [[[v|m] x]|] eqn:Hl.
  - assert (Hrest : forall n c, (serve ((fun td => (td.2, getdel_cmd key td.1)) <$> cmds) (call d (getdel_cmd key t) s).2).1 !! n = Some (inr (Some c)) ->
      exists msg, d = RequestLost msg).
    { intros n c Hc. destruct d as [|msg|msg]; [|by exists msg|]; exfalso; simpl in Hc; rewrite getdel_cmd_eq, Hl in Hc; simpl in Hc;
        (pose proof (consumed_nothing key cmds t (put t key None s) Ho) as Hno; rewrite live_put_self in Hno by done;
         rewrite Forall_lookup in Hno; by eapply (Hno eq_refl)). }
    destruct i as [|i], j as [|j]; simpl; [done|..].
    + intros [= E] (msg & ->)%Hrest. done.
    + by intros (msg & ->)%Hrest [=].
    + intros H1 H2. f_equal. by eapply IH.
  - assert (E : call d (getdel_cmd key t) s = (match d with Delivered => inl WRONGTYPE | RequestLost m => inl (Driver m) | ReplyLost m => inl (Driver m) end, s))
      by (destruct d; simpl; rewrite ?getdel_cmd_eq, ?Hl; done).
    rewrite E. destruct i as [|i], j as [|j]; simpl; [done|by destruct d..|]. intros H1 H2. f_equal. by eapply IH.
  - assert (E : call d (getdel_cmd key t) s = (match d with Delivered => inr None | RequestLost m => inl (Driver m) | ReplyLost m => inl (Driver m) end, s))
      by (destruct d; simpl; rewrite ?getdel_cmd_eq, ?Hl; done).
    rewrite E. destruct i as [|i], j as [|j]; simpl; [done|by destruct d..|]. intros H1 H2. f_equal. by eapply IH.
Qed.

(** *** Claims *)

(** What is there until [x] is there still, or [x] has passed. *)
Definition expired (x : option Z) t : Prop := exists x', x = Some x' /\ x' <= t.
Definition kept_until key (x : option Z) t s : Prop := (exists e, live t s key = Some (e, x)) \/ expired x t.

Lemma expired_later x t t' : t <= t' -> expired x t -> expired x t'.
Proof. intros Ht (x' & -> & Hx). exists x'. split; [done|lia]. Qed.

Lemma kept_later key x t t' s : t <= t' -> kept_until key x t s -> kept_until key x t' s.
Proof.
  intros Ht [(e & He)|Hx]; [|right; by eapply expired_later].
  destruct (unexpired t' (e, x)) eqn:Eu; [left; exists e; rewrite (live_later t t') by done; by rewrite He, Eu|right].
  unfold unexpired in Eu. simpl in Eu. destruct x as [x|]; [|done]. bools. by exists x.
Qed.

(** The first delivered attempt ends an exchange; an attempt before it is as good
    as a call of its own. *)
Lemma exchange_cons {A} t d ds (f : Z -> script A) s :
  exchange ((t, d) :: ds) f s =
    if bool_decide (ds = []) || (match d with Delivered => true | _ => false end) then call d (f t) s
    else exchange ds f (call d (f t) s).2.
Proof. by destruct ds, d. Qed.

Lemma SetNX_attempts st a b ds key v ttl s :
  SetNXWithTTL st (a :: b :: ds) key v ttl s =
    (match a.2 with
     | Delivered => SetNXWithTTL st [a] key v ttl s
     | _ => SetNXWithTTL st (b :: ds) key v ttl (SetNXWithTTL st [a] key v ttl s).2
     end).
Proof.
  unfold SetNXWithTTL. destruct a as [t d]. destruct (is_empty key); [by destruct d|]. destruct (ttl <? 0); [by destruct d|].
  destruct (Marshal v) as [e|p]; [by destruct d|]. rewrite exchange_cons. simpl. destruct d; simpl; [done|done|].
  by destruct (setnx_cmd _ _ _ _ _).
Qed.

Lemma setnx_keeps key x p ttl t d s : kept_until key x t s ->
  kept_until key x t (call d (setnx_cmd key p ttl t) s).2 /\
  ((call d (setnx_cmd key p ttl t) s).1 = inr true -> d = Delivered /\ expired x t).
Proof.
  intros [(e & He)|Hx]; [|split; [by right|by destruct d]].
  assert (E : setnx_cmd key p ttl t s = (inr false, s)) by (rewrite setnx_cmd_eq; unfold exists_key; by rewrite He).
  destruct d; simpl; rewrite ?E; simpl; (split; [left; by exists e|done]).
Qed.

Lemma exchange_keeps key x p ttl ds : forall t0 t1 s, in_order t0 ds.*1 -> t0 <= t1 -> Forall (fun t => t <= t1) ds.*1 ->
  kept_until key x t0 s ->
  kept_until key x t1 (exchange ds (setnx_cmd key p ttl) s).2 /\
  ((exchange ds (setnx_cmd key p ttl) s).1 = inr true -> exists t, (t, Delivered) ∈ ds /\ expired x t).
Proof.
  induction ds as [|[t d] ds IH]; intros t0 t1 s Ho H01 Hle Hk; [by split; [eapply kept_later|]|].
  apply in_order_cons in Ho as [Ht Ho]. apply Forall_cons in Hle as [Ht1 Hle]. simpl in Ht1.
  destruct (setnx_keeps key x p ttl t d s) as [Hk' Hw]; [by eapply kept_later|]. rewrite exchange_cons.
  destruct (bool_decide (ds = []) || _).
  - split; [by eapply kept_later|]. intros E. destruct (Hw E) as [-> Hx]. exists t. split; [left|done].
  - destruct (IH t t1 (call d (setnx_cmd key p ttl t) s).2) as [A B]; [done..|]. split; [done|].
    intros E. destruct (B E) as (t' & Hin & Hx). exists t'. split; [by right|done].
Qed.

(** A claim that is won is the value that is there afterwards. *)
Lemma exchange_wins key p ttl ds : forall t0 s, in_order t0 ds.*1 ->
  (exchange ds (setnx_cmd key p ttl) s).1 = inr true ->
  exists t s2, (t, Delivered) ∈ ds /\ (exchange ds (setnx_cmd key p ttl) s).2 = put t key (Some (RString p, deadline ttl t)) s2.
Proof.
  induction ds as [|[t d] ds IH]; intros t0 s Ho; [done|]. apply in_order_cons in Ho as [_ Ho]. rewrite exchange_cons.
  destruct (bool_decide (ds = []) || _).
  - destruct d; [|done|done]. simpl. rewrite setnx_cmd_eq. destruct (exists_key t key s); [done|]. intros _.
    exists t, s. split; [left|done].
  - intros E. destruct (IH t _ Ho E) as (t' & s2 & Hin & Es). exists t', s2. split; [by right|done].
Qed.

(** Whether what was stored at [t] for [ttl] is there at [t']. *)
Definition lives ttl t t' : bool := (ttl =? 0) || (t' <? t + expiry_ms ttl).

Lemma live_stored ttl t t' key p s : 0 <= ttl -> t <= t' ->
  live t' (put t key (Some (RString p, deadline ttl t)) s) key =
    if lives ttl t t' then Some (RString p, deadline ttl t) else None.
Proof.
  intros Httl Ht. rewrite live_put_self by (try done; intros e [= <-]; apply deadline_ok).
  unfold lives, unexpired, deadline, px. simpl. destruct (0 <? ttl) eqn:E0; simpl; bools.
  - by rewrite (proj2 (Z.eqb_neq ttl 0)) by lia.
  - by rewrite (proj2 (Z.eqb_eq ttl 0)) by lia.
Qed.

Lemma kept_stored ttl t t' key p s : t <= t' -> kept_until key (deadline ttl t) t' (put t key (Some (RString p, deadline ttl t)) s).
Proof.
  intros Ht. apply (kept_later _ _ t); [done|]. left. exists (RString p).
  rewrite live_put_self by (try done; intros e [= <-]; apply deadline_ok). by rewrite deadline_ok.
Qed.

(** A call that says it won went through to the server. *)
Lemma SetNX_won st ds key v ttl s s' : SetNXWithTTL st ds key v ttl s = (inr true, s') ->
  key <> EmptyString /\ 0 <= ttl /\ exists p, Marshal v = inr p /\ exchange ds (setnx_cmd (k st key) p ttl) s = (inr true, s').
Proof.
  unfold SetNXWithTTL. destruct (is_empty key) eqn:Ek; [done|]. destruct (ttl <? 0) eqn:Et; [done|].
  destruct (Marshal v) as [e|p]; [done|]. destruct (exchange ds _ s) as [[e|b] s1] eqn:Ex; [done|]. intros [= -> ->].
  apply bool_decide_eq_false in Ek. apply Z.ltb_ge in Et. split; [done|]. split; [done|]. by exists p.
Qed.

Lemma SetNX_keeps st ds key v ttl x t0 t1 s :
  in_order t0 ds.*1 -> t0 <= t1 -> Forall (fun t => t <= t1) ds.*1 -> kept_until (k st key) x t0 s ->
  kept_until (k st key) x t1 (SetNXWithTTL st ds key v ttl s).2 /\
  ((SetNXWithTTL st ds key v ttl s).1 = inr true -> exists t, (t, Delivered) ∈ ds /\ expired x t).
Proof.
  intros Ho H01 Hle Hk. pose proof (kept_later _ _ _ _ _ H01 Hk) as Hk1. unfold SetNXWithTTL.
  destruct (is_empty key); [done|]. destruct (ttl <? 0); [done|]. destruct (Marshal v) as [e|p]; [done|].
  pose proof (exchange_keeps (k st key) x p ttl ds t0 t1 s Ho H01 Hle Hk) as [A B].
  destruct (exchange ds _ s) as [[e|b] s1]; simpl in *; [done|]. split; [done|]. intros [= ->]. by apply B.
Qed.

(** The calls of the nodes, one after another; the attempts of a call that others
    come between are calls of their own ([SetNX_attempts]). *)
Record claim := mkClaim { cl_store : Store; cl_attempts : list (Z * delivery); cl_value : value; cl_ttl : Z }.

Definition claim_one key (c : claim) s : (error + bool) * server :=
  SetNXWithTTL (cl_store c) (cl_attempts c) key (cl_value c) (cl_ttl c) s.

Fixpoint claim_all key (calls : list claim) s : list (error + bool) * server :=
  match calls with
  | [] => ([], s)
  | c :: calls => let '(r, s1) := claim_one key c s in let '(rs, s2) := claim_all key calls s1 in (r :: rs, s2)
  end.

Lemma claim_all_cons key c calls s :
  (claim_all key (c :: calls) s).1 = (claim_one key c s).1 :: (claim_all key calls (claim_one key c s).2).1.
Proof. simpl. destruct (claim_one key c s) as [r s1]. simpl. by destruct (claim_all key calls s1). Qed.

Definition instants (calls : list claim) : list Z := calls ≫= (fun c => (cl_attempts c).*1).

Lemma in_order_app t0 l l' : in_order t0 (l ++ l') ->
  in_order t0 l /\ exists t1, t0 <= t1 /\ Forall (fun t => t <= t1) l /\ in_order t1 l'.
Proof.
  revert t0. induction l as [|t l IH]; intros t0 Ho.
  { split; [split; constructor|]. exists t0. split; [lia|]. split; [constructor|exact Ho]. }
  pose proof Ho as [Hs _]. apply in_order_cons in Ho as [Ht Ho]. destruct (IH t Ho) as [[A1 A2] (t1 & B1 & B2 & B3)]. split.
  - split; [|constructor; [done|]; eapply Forall_impl; [exact A2|]; simpl; lia]. constructor; [done|].
    apply StronglySorted_inv in Hs as [_ Hs]. apply Forall_app in Hs as [Hs _]. done.
  - exists t1. split; [lia|]. split; [|done]. constructor; [done|exact B2].
Qed.

(** While the key is held no call wins it. *)
Lemma held prefix key x calls : Forall (fun c => st_keyPrefix (cl_store c) = prefix) calls ->
  forall t0 s, in_order t0 (instants calls) -> kept_until (prefix +:+ key) x t0 s ->
  forall i c, (claim_all key calls s).1 !! i = Some (inr true) -> calls !! i = Some c ->
  exists t, (t, Delivered) ∈ cl_attempts c /\ expired x t.
Proof.
  induction 1 as [|c calls Hc _ IH]; intros t0 s Ho Hk i ci; [done|]. rewrite claim_all_cons.
  unfold instants in Ho. rewrite bind_cons in Ho. apply in_order_app in Ho as [Ho (t1 & H01 & Hle & Ho1)].
  destruct (SetNX_keeps (cl_store c) (cl_attempts c) key (cl_value c) (cl_ttl c) x t0 t1 s) as [Hk1 Hw];
    [done..|by unfold k; rewrite Hc|]. unfold k in Hk1. rewrite Hc in Hk1.
  destruct i as [|i]; simpl; [|by apply (IH t1)]. intros [= E] [= <-]. by apply Hw.
Qed.

(** C29. A claim has one holder, for as long as it asked for.  (1) Of all the calls of
    SetNXWithTTL that nodes make for a key, in whatever order, with whatever
    values and times to live, retried or lost in any way, two can both answer
    that they won only when an attempt of the second reached the server after
    the whole time to live of the first, to the millisecond, had passed since
    its own; with no time to live, never.  (2) A call that answers it won has
    stored its own value: the same store reads it back, decoded, until the time
    to live has run out and not after, and a further claim by any store on that
    prefix is refused until then and won from then on. *)
Theorem claim_exclusive prefix key (calls : list claim) t0 s :
  Forall (fun c => st_keyPrefix (cl_store c) = prefix) calls -> in_order t0 (instants calls) ->
  let answers := (claim_all key calls s).1 in
  (forall i j ci cj, (i < j)%nat -> answers !! i = Some (inr true) -> answers !! j = Some (inr true) ->
     calls !! i = Some ci -> calls !! j = Some cj ->
     exists ti tj, (ti, Delivered) ∈ cl_attempts ci /\ (tj, Delivered) ∈ cl_attempts cj /\
       0 < cl_ttl ci /\ cl_ttl ci / 10 ^ 6 <= tj - ti) /\
  (forall c, c ∈ calls -> forall t1 s1 s2, in_order t1 (cl_attempts c).*1 -> claim_one key c s1 = (inr true, s2) ->
     exists payload t, Marshal (cl_value c) = inr payload /\ (t, Delivered) ∈ cl_attempts c /\ forall t', t <= t' ->
       (Get (cl_store c) [(t', Delivered)] key s2).1 =
         (if lives (cl_ttl c) t t' then inr (decodeValue (cl_store c) key payload) else inl ErrNotFound) /\
       forall st v p ttl, st_keyPrefix st = prefix -> Marshal v = inr p -> 0 <= ttl ->
         (SetNXWithTTL st [(t', Delivered)] key v ttl s2).1 = inr (negb (lives (cl_ttl c) t t'))).
Proof.
  intros Hpre Ho answers. split.
  - unfold answers. clear answers. revert t0 s Ho. induction Hpre as [|c calls Hc Hpre IH]; intros t0 s Ho i j ci cj Hij; [done|].
    rewrite claim_all_cons. unfold instants in Ho. rewrite bind_cons in Ho. apply in_order_app in Ho as [Ho (t1 & H01 & Hle & Ho1)].
    destruct j as [|j]; [lia|]. destruct i as [|i]; simpl; [|by intros; eapply (IH t1 _ Ho1 i j); [lia|..]].
    intros [= E] H2 [= <-] H4. destruct (claim_one key c s) as [r s1] eqn:Ec. simpl in E, H2. subst r.
    apply SetNX_won in Ec as (_ & Httl & p & Hm & Ex). pose proof (exchange_wins (k (cl_store c) key) p (cl_ttl c) _ t0 s Ho) as Hw.
    rewrite Ex in Hw. destruct (Hw eq_refl) as (t & s2 & Hin & Es). simpl in Es. subst s1. exists t.
    assert (Ht1 : t <= t1) by (rewrite Forall_forall in Hle; apply Hle, (list_elem_of_fmap_2 fst _ (t, Delivered)); exact Hin).
    pose proof (kept_stored (cl_ttl c) t t1 (k (cl_store c) key) p s2 Ht1) as Hk. unfold k in Hk, H2. rewrite Hc in Hk, H2.
    destruct (held prefix key _ calls Hpre t1 _ Ho1 Hk j cj H2 H4) as (tj & Hinj & x & Hx & Hxj). exists tj.
    split; [done|]. split; [done|]. unfold deadline, px in Hx. destruct (0 <? cl_ttl c) eqn:E0; simpl in Hx; [|done].
    injection Hx as <-. bools. split; [done|]. pose proof (expiry_covers (cl_ttl c) E0).
    pose proof (Z.div_lt_upper_bound (cl_ttl c) (10 ^ 6) (expiry_ms (cl_ttl c) + 1)). lia.
  - intros c Hin t1 s1 s2 Hoc Hone. rewrite Forall_forall in Hpre. specialize (Hpre _ Hin).
    apply SetNX_won in Hone as (Hk & Httl & payload & Hm & Ex).
    pose proof (exchange_wins (k (cl_store c) key) payload (cl_ttl c) _ t1 s1 Hoc) as Hw. rewrite Ex in Hw.
    destruct (Hw eq_refl) as (t & s3 & Hd & Es). simpl in Es. subst s2. exists payload, t. split; [done|]. split; [done|].
    intros t' Ht'. pose proof (live_stored (cl_ttl c) t t' (k (cl_store c) key) payload s3 Httl Ht') as El.
    assert (Ek : is_empty key = false) by (unfold is_empty; by apply bool_decide_eq_false_2). split.
    + unfold Get. rewrite Ek. simpl. unfold get_cmd, get. rewrite El. by destruct (lives _ _ _).
    + intros st v p ttl Hst Hv Ht0. unfold SetNXWithTTL. rewrite Ek, Hv, (proj2 (Z.ltb_ge _ _)) by lia. simpl. rewrite setnx_cmd_eq.
      unfold exists_key, k. rewrite Hst, <-Hpre. fold (k (cl_store c) key). rewrite El. by destruct (lives _ _ _).
Qed.

(** *** One value over time *)
Lemma exchange_set ds key p ttl t0 s s1 : in_order t0 ds.*1 -> exchange ds (set_cmd key p ttl) s = (inr tt, s1) ->
  exists t s2, (t, Delivered) ∈ ds /\ s1 = put t key (Some (RString p, deadline ttl t)) s2 /\
    forall t' j, t <= t' -> j <> key -> live t' s2 j = live t' s j.
Proof.
  revert t0 s. induction ds as [|[t d] ds IH]; intros t0 s Ho E; [done|]. apply in_order_cons in Ho as [_ Ho].
  assert (Hnow : d = Delivered -> exchange ((t, d) :: ds) (set_cmd key p ttl) s = set_cmd key p ttl t s) by (intros ->; by destruct ds).
  assert (Hd : d = Delivered \/ d <> Delivered) by (destruct d; auto). destruct Hd as [->|Hd].
  { rewrite Hnow, set_cmd_eq in E by done. injection E as <-. exists t, s. split; [left|]. by split. }
  destruct ds as [|x ds]; [by destruct d|].
  assert (E' : exchange (x :: ds) (set_cmd key p ttl) (call d (set_cmd key p ttl t) s).2 = (inr tt, s1)) by (by destruct d).
  destruct (IH t _ Ho E') as (t1 & s2 & Hin & -> & Hf). exists t1, s2. split; [by right|]. split; [done|].
  intros t' j Ht' Hj. rewrite Hf by done. destruct d as [|m|m]; [done|done|]. simpl. rewrite set_cmd_eq. simpl.
  apply live_put_later; [|done|intros e [= <-]; apply deadline_ok].
  destruct Ho as [_ Hfl]. rewrite Forall_forall in Hfl. etrans; [|exact Ht']. apply (Hfl t1).
  exact (list_elem_of_fmap_2 fst (x :: ds) (t1, Delivered) Hin).
Qed.

(** C30. What is stored is what is read.  After SetWithTTL reports success, through
    any retries and losses, every later Get returns the payload, decoded, until
    the time to live has run out, and reports ErrNotFound from then on; a
    GetAndDelete takes it, after which Get finds nothing; and no other key of the
    server is affected. *)
Theorem set_get_roundtrip st ds key v ttl t0 s s1 :
  in_order t0 ds.*1 -> SetWithTTL st ds key v ttl s = (inr tt, s1) ->
  exists payload t, Marshal v = inr payload /\ (t, Delivered) ∈ ds /\ forall t', t <= t' ->
    let lives := (ttl =? 0) || (t' <? t + expiry_ms ttl) in
    let got := if lives then inr (decodeValue st key payload) else inl ErrNotFound in
    Get st [(t', Delivered)] key s1 = (got, s1) /\
    (GetAndDelete st [(t', Delivered)] key s1).1 = got /\
    (lives = true -> forall t2, t' <= t2 ->
       (Get st [(t2, Delivered)] key (GetAndDelete st [(t', Delivered)] key s1).2).1 = inl ErrNotFound) /\
    (forall j, j <> k st key -> live t' s1 j = live t' s j).
Proof.
  intros Ho. unfold SetWithTTL. destruct (is_empty key) eqn:Ek; [done|]. destruct (ttl <? 0) eqn:Et; [done|].
  destruct (Marshal v) as [e|payload] eqn:Em; [done|]. destruct (exchange ds _ s) as [r s'] eqn:Ex. destruct r as [e|[]]; [done|].
  intros [= ->]. destruct (exchange_set _ _ _ _ _ _ _ Ho Ex) as (t & s2 & Hin & -> & Hf). exists payload, t. split; [done|]. split; [done|].
  intros t' Ht'. cbv zeta. bools.
  assert (El : live t' (put t (k st key) (Some (RString payload, deadline ttl t)) s2) (k st key) =
    if (ttl =? 0) || (t' <? t + expiry_ms ttl) then Some (RString payload, deadline ttl t) else None).
  { by apply live_stored; [lia|]. }
  unfold Get, GetAndDelete. rewrite Ek. simpl. unfold get_cmd, get. rewrite getdel_cmd_eq, El.
  destruct ((ttl =? 0) || (t' <? t + expiry_ms ttl)) eqn:Elive; simpl; split_and!; try done.
  - intros _ t2 Ht2. by rewrite live_put_self.
  - intros j Hj. rewrite live_put_later; [by apply Hf|done|done|intros e [= <-]; apply deadline_ok].
  - intros j Hj. rewrite live_put_later; [by apply Hf|done|done|intros e [= <-]; apply deadline_ok].
Qed.

(** A store is only made over a server that answered, for a configuration that
    can work: the address is there, a cluster never selects a database, TLS is
    on just when it was asked for, with the pinned certificate when one is given,
    and every operation has a positive time-out and a non-empty key prefix. *)
Theorem new_store_sound c ping client st :
  NewStore c ping = inr (client, st) ->
  exists cfg addr, c = Some cfg /\ cf_Addr cfg = Some addr /\ GetValue addr <> EmptyString /\ ping client = None /\
    0 < st_opTimeout st /\ st_keyPrefix st <> EmptyString /\ st_decoders st = ∅ /\
    op_topology client = (if CoerceBool (cf_ClusterMode cfg) false then Cluster [GetValue addr]
                          else Standalone (GetValue addr) (CoerceInt (cf_DB cfg) 0)) /\
    (CoerceBool (cf_ClusterMode cfg) false = true -> CoerceInt (cf_DB cfg) 0 = 0) /\
    (is_Some (op_TLS client) <-> CoerceBool (cf_UseTLS cfg) false = true) /\
    (forall tls pem, op_TLS client = Some tls -> cf_CACertPEM cfg = Some pem -> GetValue pem <> EmptyString ->
       tls_RootCAs tls = Some (GetValue pem) /\ AppendCertsFromPEM (GetValue pem) = true).
Proof.
  unfold NewStore. destruct c as [cfg|]; simpl; [|done].
  destruct (has_value (cf_Addr cfg)) eqn:Ea; simpl; [|done].
  destruct (CoerceBool (cf_ClusterMode cfg) false && negb (CoerceInt (cf_DB cfg) 0 =? 0)) eqn:Ec; [done|].
  unfold newClient. destruct (tls_config cfg) as [e|tls] eqn:Et; [done|]. destruct (ping _) eqn:Ep; [done|]. intros [= <- <-].
  destruct (cf_Addr cfg) as [addr|] eqn:Eaddr; [|done]. simpl in Ea. unfold is_empty in Ea. bools. exists cfg, addr. split; [done|]. split; [done|].
  split; [done|]. split; [done|]. simpl. split_and!.
  - destruct (cf_OpTimeout cfg <=? 0) eqn:Eop; bools; [done|done].
  - unfold is_empty. by case_bool_decide.
  - done.
  - by destruct (CoerceBool (cf_ClusterMode cfg) false).
  - intros Hc. rewrite Hc in Ec. simpl in Ec. by bools.
  - unfold tls_config in Et. destruct (CoerceBool (cf_UseTLS cfg) false).
    + destruct (has_value _); [destruct (systemCertPoolWithCA _) as [|]; [done|]|]; injection Et as <-;
        destruct (CoerceBool (cf_ClusterMode cfg) false); simpl; by (split; [done|by eexists]).
    + injection Et as <-. destruct (CoerceBool (cf_ClusterMode cfg) false); simpl; split; try done; by intros [].
  - intros tls' pem Htls Hpem Hne. assert (tls = Some tls') as -> by (by destruct (CoerceBool (cf_ClusterMode cfg) false)).
    unfold tls_config, systemCertPoolWithCA in Et. rewrite Hpem in Et. simpl in Et. unfold is_empty in Et.
    rewrite (bool_decide_eq_false_2 (GetValue pem = EmptyString)) in Et by done. simpl in Et.
    destruct (CoerceBool (cf_UseTLS cfg) false); [|done]. destruct (AppendCertsFromPEM _) eqn:Ecert; [|done]. by injection Et as <-.
Qed.
End Spec.

(** ** Concrete runs *)
#[refine] Definition text_runtime : KvRuntime := {|
  value := string; raw_bytes := fun s => s; Marshal := inr; SecretVar := string; GetValue := fun s => s;
  CoerceBool := fun v d => match v with Some s => bool_decide (s = "true") | None => d end;
  CoerceInt := fun v d => match v with Some s => default d (parse_int64 s) | None => d end;
  AppendCertsFromPEM := fun s => negb (is_empty s);
  expiry_ms := fun d => if d <? 10 ^ 6 then 1 else d / 10 ^ 6 |}.
Proof.
  - intros d Hd. destruct (d <? 10 ^ 6) eqn:E; bools; [done|]. apply Z.div_str_pos. lia.
  - intros d Hd. destruct (d <? 10 ^ 6) eqn:E; bools; [lia|].
    pose proof (Z.div_mod d (10 ^ 6) ltac:(lia)). pose proof (Z.mod_pos_bound d (10 ^ 6) ltac:(lia)). lia.
Defined.

Section Sample.
#[local] Existing Instances text_runtime map_redis.

Definition sample_store : Store :=
  RegisterDecoder (RegisterDecoder (NewWithClient 0 EmptyString) "job:" (fun raw => inr ("job " +:+ raw))) "job:lease:"
    (fun raw => if is_empty raw then inl (New "empty") else inr ("lease " +:+ raw)).

Lemma decoder_longest_witness : forall walk, walk ≡ₚ map_to_list (st_decoders sample_store) ->
  decode_along walk "job:lease:1" "n1" = "lease n1" /\ decode_along walk "job:2" "x" = "job x" /\ decode_along walk "other" "y" = "y".
Proof.
  intros walk Hp. rewrite (proj1 (decoder_longest sample_store "job:lease:1" "n1" walk Hp)).
  rewrite (proj1 (decoder_longest sample_store "job:2" "x" walk Hp)), (proj1 (decoder_longest sample_store "other" "y" walk Hp)).
  split_and!; vm_compute; reflexivity.
Defined.

(** Three nodes race for a one-shot value: one request is lost, one reply too. *)
Definition race : list (Z * delivery) := [(10, RequestLost "reset"); (11, Delivered); (12, Delivered); (12, ReplyLost "timeout")].
Definition loaded : server := (set_cmd "bifrost:kv:tok" "v" 0 5 no_server).2.

Lemma in_order_race : in_order 5 race.*1.
Proof. split; repeat constructor; simpl; lia. Qed.

Lemma consumed_once_witness :
  (serve ((fun td => (td.2, getdel_cmd "bifrost:kv:tok" td.1)) <$> race) loaded).1 !! 1%nat = Some (inr (Some "v")) /\
  forall i a, (serve ((fun td => (td.2, getdel_cmd "bifrost:kv:tok" td.1)) <$> race) loaded).1 !! i = Some (inr (Some a)) -> i = 1%nat.
Proof.
  assert (E : (serve ((fun td => (td.2, getdel_cmd "bifrost:kv:tok" td.1)) <$> race) loaded).1 !! 1%nat = Some (inr (Some "v")))
    by (vm_compute; reflexivity).
  split; [exact E|]. intros i a Hi. exact (proj1 (consumed_once "bifrost:kv:tok" race 5 loaded in_order_race) i 1%nat a "v" Hi E).
Defined.

(** Two nodes claim for two seconds; the second is refused while the first holds
    the key, and wins after that, its first request having been lost. *)
Definition claim_by (ds : list (Z * delivery)) (v : string) : claim := mkClaim sample_store ds v (2 * 10 ^ 9).
Definition claims : list claim :=
  [claim_by [(1000, Delivered)] "a"; claim_by [(2999, Delivered)] "b"; claim_by [(3100, RequestLost "reset"); (3200, Delivered)] "b"].

Lemma claim_exclusive_witness :
  (claim_all "lease" claims no_server).1 = [inr true; inr false; inr true] /\
  exists ti tj, (ti, Delivered) ∈ [(1000, Delivered)] /\ (tj, Delivered) ∈ [(3100, RequestLost "reset"); (3200, Delivered)] /\
    0 < 2 * 10 ^ 9 /\ 2 * 10 ^ 9 / 10 ^ 6 <= tj - ti.
Proof.
  assert (E : (claim_all "lease" claims no_server).1 = [inr true; inr false; inr true]) by (vm_compute; reflexivity).
  split; [exact E|].
  assert (Hp : Forall (fun c => st_keyPrefix (cl_store c) = DefaultKeyPrefix) claims) by (repeat constructor).
  assert (Ho : in_order 0 (instants claims)) by (vm_compute instants; split; repeat constructor; lia).
  refine (proj1 (claim_exclusive DefaultKeyPrefix "lease" claims 0 no_server Hp Ho) 0%nat 2%nat _ _ _ _ _ eq_refl eq_refl);
    [lia|rewrite E; reflexivity..].
Defined.

Definition lossy_set : list (Z * delivery) := [(100, ReplyLost "timeout"); (150, Delivered)].

Lemma set_get_roundtrip_witness : exists payload t, @Marshal text_runtime "n7" = inr payload /\ (t, Delivered) ∈ lossy_set /\
  (Get sample_store [(200, Delivered)] "job:lease:1" (SetWithTTL sample_store lossy_set "job:lease:1" "n7" (10 ^ 9) no_server).2).1 =
    (if (10 ^ 9 =? 0) || (200 <? t + @expiry_ms text_runtime (10 ^ 9)) then inr (decodeValue sample_store "job:lease:1" payload) else inl ErrNotFound).
Proof.
  assert (Ho : in_order 0 lossy_set.*1) by (split; repeat constructor; simpl; lia).
  assert (E : SetWithTTL sample_store lossy_set "job:lease:1" "n7" (10 ^ 9) no_server =
    (inr tt, (SetWithTTL sample_store lossy_set "job:lease:1" "n7" (10 ^ 9) no_server).2)) by (vm_compute; reflexivity).
  destruct (set_get_roundtrip sample_store lossy_set "job:lease:1" "n7" (10 ^ 9) 0 no_server _ Ho E) as (payload & t & Hm & Hin & Hall).
  exists payload, t. split; [exact Hm|]. split; [exact Hin|]. destruct (Hall 200) as (Hget & _).
  - apply elem_of_cons in Hin as [[=]|[= ->]%list_elem_of_singleton]. lia.
  - by rewrite Hget.
Defined.

Definition sample_config : Config :=
  mkConfig (Some "redis:6379") None (Some "secret") (Some "2") (Some "true") None (Some "PEM") None 0 0 0 0 0 0 0 0 0 0 EmptyString.
Definition sample_client : Options :=
  match newClient sample_config with inr o => o | inl _ => mkOptions (Cluster []) EmptyString EmptyString 0 None 0 0 0 0 0 0 0 0 0 end.

Lemma new_store_sound_witness : exists st,
  NewStore (Some sample_config) (fun _ => None) = inr (sample_client, st) /\ 0 < st_opTimeout st /\ st_keyPrefix st <> EmptyString.
Proof.
  exists (mkStore defaultOpTimeout DefaultKeyPrefix ∅). split; [reflexivity|].
  destruct (new_store_sound (Some sample_config) (fun _ => None) sample_client (mkStore defaultOpTimeout DefaultKeyPrefix ∅) eq_refl)
    as (cfg & addr & _ & _ & _ & _ & H1 & H2 & _).
  split; [exact H1|exact H2].
Defined.
End Sample.
