(* ===== verification/Settings.v ===== *)
(** * The settings of the two processes (cmd/maas-gateway/main.go, cmd/maas-api/main.go)

    What the gateway and the control plane read from their environments: the
    helpers, the configuration of the gateway's key-value store and that of the
    control plane with the defaults its constructor adds.  The environment maps
    names to values; parsing a duration and making a secret variable are the
    libraries'. *)
From S2P Require Import Prelude GoStrings Redis Cipher RedisKV InternalApi.

Definition Environment : Type := gmap string string.
Definition LookupEnv (e : Environment) (key : string) : option string := e !! key.
Definition Getenv (e : Environment) (key : string) : string := default EmptyString (e !! key).

Definition hour : Z := 3600 * 10 ^ 9.

(** ** The gateway's helpers *)
Definition env (e : Environment) (key fallback : string) : string :=
  let value := trim_space (Getenv e key) in if negb (is_empty value) then value else fallback.

Definition envOverride (e : Environment) (key fallback : string) : string :=
  match LookupEnv e key with Some value => value | None => fallback end.

Definition envInt (e : Environment) (key : string) (fallback : Z) : Z :=
  let value := trim_space (Getenv e key) in
  if negb (is_empty value) then
    match parse_int64 value with
    | Some parsed => if 0 <=? parsed then parsed else fallback
    | None => fallback
    end
  else fallback.

Definition splitCSV (value : string) : list string :=
  item ← split_byte "," value;
  let item := trim_space item in if negb (is_empty item) then [item] else [].

Section Settings.
  Context `{GoUnicode} `{KvRuntime} `{!Sha256}.
  Variables (ParseDuration : string -> error + Z) (NewSecretVar : string -> SecretVar).
  Implicit Types (e : Environment) (key fallback : string).

Definition envBool e key (fallback : bool) : bool :=
  let value := to_lower (trim_space (Getenv e key)) in
  if bool_decide (value ∈ ["1"; "true"; "yes"; "on"]) then true else
  if bool_decide (value ∈ ["0"; "false"; "no"; "off"]) then false else fallback.

Definition envDuration e key (fallback : Z) : Z :=
  let value := trim_space (Getenv e key) in
  if negb (is_empty value) then
    match ParseDuration value with
    | inr parsed => if 0 <? parsed then parsed else fallback
    | inl _ => fallback
    end
  else fallback.

Definition optionalSecretVar (value : string) : option SecretVar :=
  if is_empty (trim_space value) then None else Some (NewSecretVar value).

Definition optionalBoolSecretVar e key : option SecretVar :=
  match LookupEnv e key with
  | None => None
  | Some value => if is_empty (trim_space value) then None else Some (NewSecretVar value)
  end.

Definition runtimeKVConfig e : RedisKV.Config :=
  let sharedAddr := env e "MAAS_REDIS_ADDR" "redis:6379" in
  let sharedPassword := Getenv e "MAAS_REDIS_PASSWORD" in
  mkConfig
    (Some (NewSecretVar (env e "MAAS_KV_REDIS_ADDR" sharedAddr)))
    (optionalSecretVar (Getenv e "MAAS_KV_REDIS_USERNAME"))
    (optionalSecretVar (envOverride e "MAAS_KV_REDIS_PASSWORD" sharedPassword))
    (optionalSecretVar (Getenv e "MAAS_KV_REDIS_DB"))
    (optionalBoolSecretVar e "MAAS_KV_REDIS_USE_TLS")
    (optionalBoolSecretVar e "MAAS_KV_REDIS_INSECURE_SKIP_VERIFY")
    (optionalSecretVar (Getenv e "MAAS_KV_REDIS_CA_CERT_PEM"))
    (optionalBoolSecretVar e "MAAS_KV_REDIS_CLUSTER_MODE")
    0 0 0 0 0 0 0 0 0
    (envDuration e "MAAS_KV_REDIS_OP_TIMEOUT" (2 * 10 ^ 9))
    (env e "MAAS_KV_REDIS_KEY_PREFIX" DefaultKeyPrefix).

(** The settings of [wireMaaS]. *)
Definition gateway_token e : string := env e "MAAS_INTERNAL_TOKEN" "development-only-maas-internal-token".
Definition gateway_key_material e : string := env e "MAAS_KEY_ENCRYPTION_KEY" "development-only-maas-key-encryption-material".

(** ** The control plane's *)
Definition api_env e key fallback : string :=
  let value := Getenv e key in if negb (is_empty value) then value else fallback.

Record ApiConfig := mkApiConfig {
  ac_AdminUsername : string; ac_AdminPassword : string; ac_SessionLifetime : Z; ac_CORSOrigin : string;
  ac_KeyEncryptionKey : string; ac_GatewayInternalURL : string; ac_GatewayInternalToken : string }.

Definition session_lifetime e : Z :=
  let raw := Getenv e "MAAS_SESSION_LIFETIME" in
  if negb (is_empty raw) then match ParseDuration raw with inr parsed => parsed | inl _ => 12 * hour end else 12 * hour.

Definition api_config e : ApiConfig :=
  mkApiConfig (api_env e "MAAS_ADMIN_USERNAME" "admin") (api_env e "MAAS_ADMIN_PASSWORD" "change-me") (session_lifetime e)
    (api_env e "MAAS_CORS_ORIGIN" "http://localhost:3000")
    (api_env e "MAAS_KEY_ENCRYPTION_KEY" "development-only-maas-key-encryption-material")
    (api_env e "MAAS_GATEWAY_INTERNAL_URL" "http://maas-gateway:8080")
    (api_env e "MAAS_INTERNAL_TOKEN" "development-only-maas-internal-token").

(** httpapi.New: the configuration it keeps, with its cipher. *)
Definition NewApi (cfg : ApiConfig) : error + ApiConfig * Cipher :=
  let cfg := mkApiConfig (if is_empty (ac_AdminUsername cfg) then "admin" else ac_AdminUsername cfg) (ac_AdminPassword cfg)
    (if ac_SessionLifetime cfg <=? 0 then 12 * hour else ac_SessionLifetime cfg)
    (if is_empty (ac_CORSOrigin cfg) then "http://localhost:3000" else ac_CORSOrigin cfg)
    (ac_KeyEncryptionKey cfg) (ac_GatewayInternalURL cfg) (ac_GatewayInternalToken cfg) in
  match NewCipher (ac_KeyEncryptionKey cfg) with
  | inl e => inl e
  | inr cipher => inr (cfg, cipher)
  end.

(** ** What they give *)
Lemma env_nonempty e key fallback : fallback <> EmptyString -> env e key fallback <> EmptyString.
Proof. intros Hf. unfold env, is_empty. by case_bool_decide. Qed.

Lemma env_agrees e key fallback : blank fallback = false ->
  (api_env e key fallback = env e key fallback <-> trim_space (Getenv e key) = Getenv e key).
Proof.
  intros Hf. unfold api_env, env, is_empty. set (raw := Getenv e key). destruct (decide (raw = EmptyString)) as [->|Hr].
  { split; [done|]. intros _. by vm_compute. }
  rewrite (bool_decide_eq_false_2 (raw = EmptyString)) by done. simpl. case_bool_decide as Et; simpl.
  - split; [|congruence]. intros E. rewrite <-E in Hf. unfold blank in Hf. by rewrite Et in Hf.
  - by split.
Qed.

(** The two processes read one variable alike exactly when its value has no
    blanks around it: the gateway trims, the control plane does not.  So the
    gateway accepts the control plane's internal token just in that case, and
    just then do both derive one key for the stored secrets; a trailing newline
    in a shared value breaks each of the two. *)
Theorem processes_agree e :
  let exact key := trim_space (Getenv e key) = Getenv e key in
  (forall key fallback, blank fallback = false -> (api_env e key fallback = env e key fallback <-> exact key)) /\
  (token_ok (gateway_token e) (ac_GatewayInternalToken (api_config e)) = true <-> exact "MAAS_INTERNAL_TOKEN") /\
  (forall c1 c2, NewCipher (ac_KeyEncryptionKey (api_config e)) = inr c1 -> NewCipher (gateway_key_material e) = inr c2 ->
     (c1 = c2 <-> exact "MAAS_KEY_ENCRYPTION_KEY")).
Proof.
  cbv zeta. split; [intros; by apply env_agrees|]. split.
  - unfold token_ok. rewrite <-(env_agrees e "MAAS_INTERNAL_TOKEN" "development-only-maas-internal-token") by done.
    unfold gateway_token. unfold is_empty at 1. rewrite bool_decide_eq_false_2 by by apply env_nonempty. simpl.
    by rewrite bool_decide_eq_true.
  - intros c1 c2. unfold NewCipher. destruct (_ <? 32)%nat; [done|]. intros [= <-]. destruct (_ <? 32)%nat; [done|]. intros [= <-].
    rewrite <-(env_agrees e "MAAS_KEY_ENCRYPTION_KEY" "development-only-maas-key-encryption-material") by done.
    split; [|intros E; simpl; by rewrite E]. intros [= E%(inj sha256)]. exact E.
Qed.

Lemma envDuration_positive e key d : 0 < d -> 0 < envDuration e key d.
Proof using Type.
  clear NewSecretVar H0. intros Hd. unfold envDuration. destruct (negb _); [|done]. destruct (ParseDuration _) as [|p]; [done|].
  destruct (0 <? p) eqn:E; bools; lia.
Qed.

Lemma envInt_range e key n : 0 <= n -> int64_range n -> 0 <= envInt e key n /\ int64_range (envInt e key n).
Proof using Type.
  clear NewSecretVar ParseDuration H0. intros Hn Hr. unfold envInt. destruct (negb _); [|done]. destruct (parse_int64 _) as [p|] eqn:Ep; [|done].
  destruct (0 <=? p) eqn:E; bools; [|done]. split; [done|]. unfold parse_int64 in Ep.
  destruct (match trim_space _ with EmptyString => _ | _ => _ end) as [z|]; [|done].
  destruct (_ && _) eqn:Ez; [|done]. injection Ep as <-. unfold int64_range. bools. lia.
Qed.

(** Whatever the environment holds, the settings are usable: a number is never
    negative and fits the machine's integer, a duration is positive, the
    server's session lifetime too, and the gateway's token, key material and
    Redis addresses are never empty -- so that the guards against an empty token
    and against a missing Redis never act. *)
Theorem settings_in_range e :
  (forall key n, 0 <= n -> int64_range n -> 0 <= envInt e key n /\ int64_range (envInt e key n)) /\
  (forall key d, 0 < d -> 0 < envDuration e key d) /\
  (forall cfg c, NewApi (api_config e) = inr (cfg, c) -> 0 < ac_SessionLifetime cfg /\
     (32 <= String.length (ac_KeyEncryptionKey cfg))%nat) /\
  gateway_token e <> EmptyString /\ gateway_key_material e <> EmptyString /\ env e "MAAS_REDIS_ADDR" "redis:6379" <> EmptyString /\
  0 < cf_OpTimeout (runtimeKVConfig e) /\ cf_KeyPrefix (runtimeKVConfig e) <> EmptyString.
Proof.
  split_and!; try (by apply env_nonempty).
  - intros key n. apply envInt_range.
  - intros key d. apply envDuration_positive.
  - intros cfg c. unfold NewApi. destruct (NewCipher _) as [|c'] eqn:Ec; [done|]. intros [= <- <-]. simpl in *. split.
    + destruct (session_lifetime e <=? 0) eqn:E; bools; [|done]. done.
    + unfold NewCipher in Ec. destruct (_ <? 32)%nat eqn:E; [done|]. by apply Nat.ltb_ge in E.
  - by apply envDuration_positive.
Qed.

(** The key-value store's Redis is configured as asked: its own address if it
    has one, the shared one otherwise; its own password variable decides
    whenever it is set -- a blank one means no password -- and the shared
    password otherwise; every other option is absent exactly when its variable is
    blank. *)
Theorem kv_config_exact e :
  let cfg := runtimeKVConfig e in
  let variable key := if blank (Getenv e key) then None else Some (NewSecretVar (Getenv e key)) in
  cf_Addr cfg = Some (NewSecretVar (if blank (Getenv e "MAAS_KV_REDIS_ADDR") then
                        if blank (Getenv e "MAAS_REDIS_ADDR") then "redis:6379" else trim_space (Getenv e "MAAS_REDIS_ADDR")
                      else trim_space (Getenv e "MAAS_KV_REDIS_ADDR"))) /\
  cf_Password cfg = variable (if bool_decide (is_Some (e !! "MAAS_KV_REDIS_PASSWORD")) then "MAAS_KV_REDIS_PASSWORD" else "MAAS_REDIS_PASSWORD") /\
  cf_Username cfg = variable "MAAS_KV_REDIS_USERNAME" /\ cf_DB cfg = variable "MAAS_KV_REDIS_DB" /\
  cf_UseTLS cfg = variable "MAAS_KV_REDIS_USE_TLS" /\ cf_InsecureSkipVerify cfg = variable "MAAS_KV_REDIS_INSECURE_SKIP_VERIFY" /\
  cf_CACertPEM cfg = variable "MAAS_KV_REDIS_CA_CERT_PEM" /\ cf_ClusterMode cfg = variable "MAAS_KV_REDIS_CLUSTER_MODE".
Proof.
  assert (Hb : forall key, optionalBoolSecretVar e key = if blank (Getenv e key) then None else Some (NewSecretVar (Getenv e key))).
  { intros key. unfold optionalBoolSecretVar, LookupEnv, Getenv, blank. by destruct (e !! key). }
  cbv zeta. unfold runtimeKVConfig. simpl. rewrite !Hb. unfold env, blank.
  split; [f_equal; by repeat destruct (is_empty (trim_space _))|]. split; [|done].
  unfold envOverride, LookupEnv, optionalSecretVar, Getenv. destruct (e !! "MAAS_KV_REDIS_PASSWORD") as [v|] eqn:Ev.
  - rewrite bool_decide_eq_true_2 by by eexists. by rewrite Ev.
  - rewrite bool_decide_eq_false_2; [done|]. by intros [].
Qed.

(** What a flag and a list of terms can be. *)
Lemma splitCSV_spec value x : x ∈ splitCSV value <-> x <> EmptyString /\ x ∈ trim_space <$> split_byte "," value.
Proof.
  unfold splitCSV. rewrite list_elem_of_bind, list_elem_of_fmap. split.
  - intros (y & Hx & Hy). unfold is_empty in Hx. case_bool_decide as Ey; simpl in Hx; [by apply elem_of_nil in Hx|].
    apply list_elem_of_singleton in Hx as ->. split; [done|]. by exists y.
  - intros (Hne & y & -> & Hy). exists y. split; [|done]. unfold is_empty. rewrite bool_decide_eq_false_2 by done. by left.
Qed.

End Settings.
