(* ===== verification/Startup.v ===== *)
(** * Starting the gateway (cmd/maas-gateway/main.go)

    How the gateway comes up: it waits a bounded time for the control-plane
    database, brings the tenant schema up to date, refuses to serve when
    row-level security would not hold, and wires the plugins; and how it follows
    the configuration notifications until they end.  [wireMaaS] is the whole
    sequence with its error paths; a constructor or a call of a component that
    can fail without an effect here is [construct].  The third-party server, its
    store and the migrator are interfaces. *)
From S2P Require Import TenantUsage.
From S2P Require Import Prelude GoStrings Sql Redis Cipher ConfigBus TenantScope Isolation Catalog Migrate MigrateSpec TenantSchema Preflight RedisKV InternalApi Settings.

(** ** Waiting for the database

    One attempt: the errors of gorm.Open, of db.DB() and of the ping. *)
Record Dial := mkDial { dl_open : option error; dl_pool : option error; dl_ping : option error }.

Definition answers (d : Dial) : bool :=
  match dl_open d, dl_pool d, dl_ping d with None, None, None => true | _, _, _ => false end.

(** What [last] holds after a failed attempt. *)
Definition last_error (d : Dial) (last : option error) : option error :=
  match dl_open d with
  | Some err => Some err
  | None => match dl_pool d with Some _ => last | None => dl_ping d end
  end.

(** The loop, up to [limit] attempts: the attempt that answered, or the error.
    [wait attempt] is what the select gives after it: the context's error when
    it is done, nothing when the two seconds are over. *)
Fixpoint open_loop (fuel : nat) (limit : Z) (unavailable : string) (dial : Z -> Dial) (wait : Z -> option error)
    (attempt : Z) (last : option error) : option (error + Z) :=
  match fuel with
  | O => None
  | S fuel =>
      if limit <? attempt then
        Some (inl (match last with Some e => Wrap unavailable e | None => New unavailable end)) else
      if answers (dial attempt) then Some (inr attempt) else
      match wait attempt with
      | Some e => Some (inl e)
      | None => open_loop fuel limit unavailable dial wait (attempt + 1) (last_error (dial attempt) last)
      end
  end.

Definition openControlDatabase (dial : Z -> Dial) (wait : Z -> option error) : option (error + Z) :=
  open_loop 31 30 "maas-gateway: control database unavailable: %w" dial wait 1 None.

(** The control plane's (cmd/maas-api/main.go) is the same loop with 60. *)
Definition openDatabase (dial : Z -> Dial) (wait : Z -> option error) : option (error + Z) :=
  open_loop 61 60 "postgres unavailable: %w" dial wait 1 None.

(** ** Following notifications *)
Section Consumer.
  Context {E : Type}.
  Variable reload : E -> string -> Z -> option error * E.

(** What the select takes: the end of the context, a notification or an error,
    or the closing of either channel. *)
Inductive event :=
| ContextDone
| Notified (n : Notification)
| NotificationsClosed
| Failed (e : error)
| ErrorsClosed.

(** The two channel variables, [false] once nil, and the node. *)
Record Consumer := mkConsumer { cs_notifications : bool; cs_errs : bool; cs_node : @Reconciler E }.

(** An event of a nil channel is never taken. *)
Fixpoint consumeConfigNotifications (events : list event) (c : Consumer) : Consumer * bool :=
  if negb (cs_notifications c || cs_errs c) then (c, true) else
  match events with
  | [] => (c, false)
  | ContextDone :: _ => (c, true)
  | Notified n :: events =>
      consumeConfigNotifications events
        (if cs_notifications c
         then mkConsumer true (cs_errs c) (Observe reload (cs_node c) (nt_TenantID n) (nt_Generation n)).2 else c)
  | NotificationsClosed :: events => consumeConfigNotifications events (mkConsumer false (cs_errs c) (cs_node c))
  | Failed _ :: events => consumeConfigNotifications events c
  | ErrorsClosed :: events => consumeConfigNotifications events (mkConsumer (cs_notifications c) false (cs_node c))
  end.

End Consumer.

(** ** Wiring *)
Inductive Placement := PreBuiltin | PostBuiltin.

Section Wire.
  Context `{Sql} `{!Migrator} `{GoUnicode} `{KvRuntime} `{!Sha256}.

(** What start-up brings about: the database with its role, and what is open,
    running, installed or registered. *)
Record Boot := mkBoot {
  bt_server : Server; bt_controlDB : bool; bt_projection : bool; bt_redis : bool;
  bt_routes : bool; bt_filter : bool; bt_plugins : list (string * Placement * Z); bt_usage : option Plugin }.

Definition on_server : field Boot Server :=
  Field bt_server (fun s w => mkBoot s (bt_controlDB w) (bt_projection w) (bt_redis w) (bt_routes w) (bt_filter w) (bt_plugins w) (bt_usage w)).
Definition on_pg : field Boot Pg :=
  Field (fun w => sv_Db (bt_server w))
    (fun d w => fset on_server (mkServer (sv_Dialect (bt_server w)) (sv_User (bt_server w)) (sv_Roles (bt_server w)) d) w).

Definition set_resources (db projection redis : bool) (w : Boot) : Boot :=
  mkBoot (bt_server w) db projection redis (bt_routes w) (bt_filter w) (bt_plugins w) (bt_usage w).
Definition set_installed (routes filter : bool) (w : Boot) : Boot :=
  mkBoot (bt_server w) (bt_controlDB w) (bt_projection w) (bt_redis w) routes filter (bt_plugins w) (bt_usage w).
Definition set_usage (p : Plugin) (w : Boot) : Boot :=
  mkBoot (bt_server w) (bt_controlDB w) (bt_projection w) (bt_redis w) (bt_routes w) (bt_filter w) (bt_plugins w) (Some p).

Definition closeDB : M Boot unit := effect (fun w => (tt, set_resources false (bt_projection w) (bt_redis w) w)).
Definition cancelProjection : M Boot unit := effect (fun w => (tt, set_resources (bt_controlDB w) false (bt_redis w) w)).

Definition construct : M Boot unit := sql (fun w => (inr tt, w)).

(** SyncLoadedPlugin *)
Definition sync (name : string) (placement : Placement) (order : Z) : M Boot unit := sql (fun w =>
  (inr tt, mkBoot (bt_server w) (bt_controlDB w) (bt_projection w) (bt_redis w) (bt_routes w) (bt_filter w)
             (bt_plugins w ++ [(name, placement, order)]) (bt_usage w))).

(** [if err != nil { undo(); return nil, err }] *)
Definition or_undo {A} (undo : M Boot unit) (m : M Boot A) : M Boot A :=
  r ← attempt m; match r with inl e => undo;; throw e | inr a => mret a end.

Definition rls_refused : error := New "rls preflight failed: tenant isolation would NOT be enforced".

Section Process.
  Variables (e : Environment) (store : option MigrationStore) (decorated : bool)
    (dial : Z -> Dial) (wait : Z -> option error) (ParseDuration : string -> error + Z).

(** From the store to the routes: nothing to undo yet. *)
Definition prepare : M Boot unit :=
  match store with
  | None => throw (New "maas-gateway: Bifrost Postgres config store is required")
  | Some _ =>
      dialect ← effect (fun w => (sv_Dialect (bt_server w), w));
      if negb (bool_decide (dialect = "postgres")) then throw (New "maas-gateway: Bifrost config store must use Postgres") else
      (if envBool e "MAAS_RUN_DATA_MIGRATIONS" true then
         wrapping "maas-gateway: apply tenant migrations: %w" (zoom on_pg (Run store));;
         wrapping "maas-gateway: apply tenant indexes: %w" (zoom on_pg (RunIndexes store))
       else mret tt);;
      report ← wrapping "maas-gateway: %w" (zoom on_server (Enforce TenantScopedTables));
      match report with
      | Some _ => throw (Wrap "maas-gateway: %w" rls_refused)
      | None =>
          if negb decorated then throw (New "maas-gateway: Bifrost management store decorator was not installed")
          else effect (fun w => (tt, set_installed true (bt_filter w) w))
      end
  end.

Definition open_control : M Boot unit :=
  match openControlDatabase dial wait with
  | Some (inr _) => effect (fun w => (tt, set_resources true (bt_projection w) (bt_redis w) w))
  | Some (inl err) => throw err
  | None => throw (New "maas-gateway: control database unavailable")
  end.

(** From the model filter to the plugins of the request path. *)
Definition wire_plugins : M Boot unit :=
  or_undo closeDB (
    wrapping "maas-gateway: initialize model access filter: %w" construct;;
    effect (fun w => (tt, set_installed (bt_routes w) true w));;
    wrapping "maas-gateway: initialize tenant resolver: %w" construct;;
    construct;;
    wrapping "maas-gateway: register tenant authentication: %w" (sync "maas-tenantauth" PreBuiltin (-100));;
    match splitCSV (Getenv e "MAAS_GUARDRAIL_BLOCKED_TERMS") with
    | [] => mret tt
    | _ => wrapping "maas-gateway: register guardrails: %w" (sync "maas-guardrails" PostBuiltin 100)
    end).

(** The projector of virtual keys and its reconciler. *)
Definition wire_projection : M Boot unit :=
  or_undo closeDB (
    of_result (NewCipher (gateway_key_material e));;
    construct;;
    wrapping "maas-gateway: migrate key projection state: %w" construct;;
    wrapping "maas-gateway: locate governance runtime: %w" construct;;
    construct;; construct;; construct);;
  effect (fun w => (tt, set_resources (bt_controlDB w) true (bt_redis w) w));;
  attempt construct;; mret tt.

Definition wire_redis : M Boot unit :=
  if negb (is_empty (env e "MAAS_REDIS_ADDR" "redis:6379")) then
    effect (fun w => (tt, set_resources (bt_controlDB w) (bt_projection w) true w));;
    attempt construct;; mret tt
  else mret tt.

Definition wire_usage : M Boot unit :=
  if envBool e "MAAS_USAGE_ENFORCEMENT" true then
    or_undo (cancelProjection;; closeDB) (
      redis ← effect (fun w => (bt_redis w, w));
      if negb redis then throw (New "maas-gateway: Redis is required for usage enforcement") else
      construct;; construct;;
      plugin ← of_result (TenantUsage.New true (envDuration ParseDuration e "MAAS_CONCURRENCY_LEASE_TTL" (300 * 10 ^ 9))
        (envInt e "MAAS_PROVIDER_MAX_CONCURRENT" 0) (envInt e "MAAS_BILLING_MARKUP_BPS" 1000));
      effect (fun w => (tt, set_usage plugin w));;
      wrapping "maas-gateway: register tenant usage plugin: %w" (sync "maas-tenantusage" PostBuiltin (-100)))
  else mret tt.

Definition wireMaaS : M Boot unit :=
  prepare;; open_control;; wire_plugins;; wire_projection;; wire_redis;; wire_usage.

(** The function [wireMaaS] returns. *)
Definition cleanup : M Boot unit :=
  cancelProjection;; effect (fun w => (tt, set_resources (bt_controlDB w) (bt_projection w) false w));; closeDB.

End Process.
End Wire.

(** ** The waits end *)

(** No answer and no cancellation from attempt [a] up to, not with, [b]. *)
Definition in_vain (dial : Z -> Dial) (wait : Z -> option error) (a b : Z) : Prop :=
  forall c, a <= c < b -> answers (dial c) = false /\ wait c = None.

Definition last_of (dial : Z -> Dial) (last : option error) (attempts : list Z) : option error :=
  foldl (fun last c => last_error (dial c) last) last attempts.

(** How a wait of at most [limit] attempts can end. *)
Definition waited (limit : Z) (unavailable : string) dial wait (r : error + Z) : Prop :=
  match r with
  | inr a => 1 <= a <= limit /\ answers (dial a) = true /\ in_vain dial wait 1 a
  | inl e => (exists a, 1 <= a <= limit /\ wait a = Some e /\ answers (dial a) = false /\ in_vain dial wait 1 a) \/
             (in_vain dial wait 1 (limit + 1) /\
              e = match last_of dial None (seqZ 1 limit) with Some e => Wrap unavailable e | None => New unavailable end)
  end.

Lemma in_vain_extend dial wait a : answers (dial a) = false -> wait a = None -> in_vain dial wait 1 a -> in_vain dial wait 1 (a + 1).
Proof. intros H1 H2 Hv c Hc. destruct (decide (c = a)) as [->|Hne]; [done|]. apply Hv. lia. Qed.

Lemma open_loop_ends limit unavailable dial wait fuel attempt last :
  0 <= limit -> 1 <= attempt <= limit + 1 -> limit + 1 - attempt < Z.of_nat fuel -> in_vain dial wait 1 attempt ->
  last = last_of dial None (seqZ 1 (attempt - 1)) ->
  exists r, open_loop fuel limit unavailable dial wait attempt last = Some r /\ waited limit unavailable dial wait r.
Proof.
  intros Hl. revert attempt last. induction fuel as [|fuel IH]; intros attempt last Ha Hf Hv El; [lia|]. simpl.
  destruct (limit <? attempt) eqn:Elim; bools.
  { eexists. split; [done|]. right. assert (attempt = limit + 1) as -> by lia. split; [done|].
    by replace (limit + 1 - 1) with limit in El by lia; subst. }
  destruct (answers (dial attempt)) eqn:Ean.
  { eexists. split; [done|]. simpl. split; [lia|done]. }
  destruct (wait attempt) as [e|] eqn:Ew.
  { eexists. split; [done|]. left. exists attempt. split; [lia|done]. }
  apply IH; [lia|lia|by apply in_vain_extend|]. subst last. unfold last_of.
  replace (attempt + 1 - 1) with (attempt - 1 + 1) by lia. rewrite seqZ_app by lia. rewrite foldl_app. f_equal.
  replace (seqZ (1 + (attempt - 1)) 1) with [attempt]; [done|]. rewrite seqZ_cons, seqZ_nil by lia. f_equal. lia.
Qed.

(** C34. Neither process waits for its database for ever.  Whatever the dials and
    the waits give, the loop ends after at most 30 attempts in the gateway and
    60 in the control plane: with the first attempt that answers; or with the
    context's error, at the first wait it ends; or, after all attempts, with the
    last error there was.  An attempt that answers is never passed over. *)
Theorem database_waits_end dial wait :
  (exists r, openControlDatabase dial wait = Some r /\
     waited 30 "maas-gateway: control database unavailable: %w" dial wait r) /\
  (exists r, openDatabase dial wait = Some r /\ waited 60 "postgres unavailable: %w" dial wait r).
Proof.
  assert (Hv : in_vain dial wait 1 1) by (intros c Hc; lia).
  split; [refine (open_loop_ends 30 _ dial wait 31 1 None _ _ _ Hv eq_refl)|refine (open_loop_ends 60 _ dial wait 61 1 None _ _ _ Hv eq_refl)]; lia.
Qed.

(** ** Notifications are followed *)
Section Followed.
  Context {E : Type}.
  Variable reload : E -> string -> Z -> option error * E.
  Implicit Types (c : @Consumer E) (events : list event) (id : string).

Lemma observe_fence (r : @Reconciler E) id g j : Generation_of r j <= Generation_of (Observe reload r id g).2 j.
Proof.
  unfold Observe. destruct (_ || _); [done|]. destruct (g <=? Generation_of r id) eqn:Eg; [done|].
  destruct (reload (rc_env r) id g) as [[e|] env]; [done|]. unfold Generation_of at 2. simpl. bools.
  destruct (decide (j = id)) as [->|Hne]; [rewrite lookup_insert_eq; simpl; lia|by rewrite lookup_insert_ne].
Qed.

Lemma consumer_fence events c j :
  Generation_of (cs_node c) j <= Generation_of (cs_node (consumeConfigNotifications reload events c).1) j.
Proof.
  revert c. induction events as [|ev events IH]; intros [ns es node]; simpl; (destruct (negb _); [done|]); [done|].
  destruct ev as [|n| | |]; [done| |apply (IH (mkConsumer false es node))|apply (IH (mkConsumer ns es node))|apply (IH (mkConsumer ns false node))].
  etrans; [|apply IH]. destruct ns; [apply observe_fence|done].
Qed.

(** The consumer follows what it receives and stops when it should.  It returns
    exactly when the context ends or both channels are closed; no tenant's fence
    ever goes back; and when reloads succeed, a valid notification received
    before the end takes its tenant's fence to its generation at least. *)
Theorem notifications_followed events c :
  ((consumeConfigNotifications reload events c).2 = true <->
     ContextDone ∈ events \/ ((cs_notifications c = true -> NotificationsClosed ∈ events) /\ (cs_errs c = true -> ErrorsClosed ∈ events))) /\
  (forall j, Generation_of (cs_node c) j <= Generation_of (cs_node (consumeConfigNotifications reload events c).1) j) /\
  (forall before n after, events = before ++ Notified n :: after -> cs_notifications c = true ->
     ContextDone ∉ before -> NotificationsClosed ∉ before -> (forall env id g, (reload env id g).1 = None) ->
     nt_TenantID n <> EmptyString -> nt_Generation n <> 0 ->
     nt_Generation n <= Generation_of (cs_node (consumeConfigNotifications reload events c).1) (nt_TenantID n)).
Proof.
  split; [|split; [apply consumer_fence|]].
  - revert c. induction events as [|ev events IH]; intros [ns es node]; simpl.
    { destruct ns, es; set_solver. }
    destruct (negb (ns || es)) eqn:En.
    { destruct ns, es; try done. split; [|done]. intros _. by right. }
    destruct ev; simpl; rewrite ?IH, !elem_of_cons; simpl; [split; [|done]; intros _; left; by left|..];
      destruct ns, es; simpl; intuition congruence.
  - intros before n after -> Hn Hc Hcl Hr Ht Hg. revert c Hn. induction before as [|ev before IH]; intros [ns es node] Hn; simpl in Hn; subst ns.
    + simpl. etrans; [|apply consumer_fence]. simpl. unfold Observe, is_empty.
      rewrite bool_decide_eq_false_2 by done. rewrite (proj2 (Z.eqb_neq _ _)) by done. simpl.
      destruct (nt_Generation n <=? Generation_of node (nt_TenantID n)) eqn:E1; bools; [done|].
      specialize (Hr (rc_env node) (nt_TenantID n) (nt_Generation n)). destruct (reload _ _ _) as [o env]. simpl in Hr. subst o.
      simpl. unfold Generation_of. simpl. by rewrite lookup_insert_eq.
    + simpl. apply not_elem_of_cons in Hc as [Hc1 Hc]. apply not_elem_of_cons in Hcl as [Hl1 Hcl].
      destruct ev; try done; by apply IH.
Qed.
End Followed.

(** ** What start-up guarantees *)
Section Spec.
  Context `{Sql} `{!Migrator} `{GoUnicode} `{KvRuntime} `{!Sha256}.
  Variables (e : Environment) (store : option MigrationStore) (decorated : bool)
    (dial : Z -> Dial) (wait : Z -> option error) (ParseDuration : string -> error + Z).
  Implicit Types (w : Boot).

Lemma wp_or_undo {A} h undo (m : M Boot A) w Q :
  wp h m w (fun r w1 => match r with inl e => wp h (undo;; throw e) w1 Q | inr a => Q (inr a) w1 end) -> wp h (or_undo undo m) w Q.
Proof.
  intros Hm. unfold or_undo. wp_step. wp_step. eapply wp_mono; [exact Hm|]. intros [err|a] w1 Hw; [exact Hw|]. by apply wp_ret.
Qed.

Lemma wp_construct h {B} (k : unit -> M Boot B) w Q :
  (h = false -> forall msg, Q (inl (Driver msg)) w) -> wp h (k tt) w Q -> wp h (construct ≫= k) w Q.
Proof. intros He Hk. wp_step. unfold construct. apply wp_sql; [|done]. intros Hh msg. by apply He. Qed.

Lemma wp_closed {A} h err w (R : error + A -> Boot -> Prop) :
  R (inl err) (set_resources false (bt_projection w) (bt_redis w) w) -> wp h (closeDB;; throw err) w R.
Proof. intros HR. unfold closeDB. wp_step. wp_step. by wp_step. Qed.

Lemma wp_cancelled {A} h err w (R : error + A -> Boot -> Prop) :
  R (inl err) (set_resources false false (bt_redis w) w) -> wp h ((cancelProjection;; closeDB);; throw err) w R.
Proof. intros HR. unfold closeDB, cancelProjection. wp_step. wp_step. wp_step. wp_step. by wp_step. Qed.

(** One step of the sequence, on the way up or down. *)
Ltac wire_step :=
  first
    [ apply wp_closed; simpl
    | apply wp_cancelled; simpl
    | wp_step
    | apply wp_sql; [intros _ ?|]; simpl ].

(** The plugins a successful start registers, in this order. *)
Definition expected_plugins : list (string * Placement * Z) :=
  [("maas-tenantauth", PreBuiltin, -100)] ++
  (match splitCSV (Getenv e "MAAS_GUARDRAIL_BLOCKED_TERMS") with [] => [] | _ => [("maas-guardrails", PostBuiltin, 100)] end) ++
  (if envBool e "MAAS_USAGE_ENFORCEMENT" true then [("maas-tenantusage", PostBuiltin, -100)] else []).

Definition resources w : bool * bool := (bt_controlDB w, bt_projection w).

Lemma wp_open_control w (Q : error + unit -> Boot -> Prop) :
  (forall err, Q (inl err) w) -> Q (inr tt) (set_resources true (bt_projection w) (bt_redis w) w) -> wp false (open_control dial wait) w Q.
Proof.
  intros He Hq. unfold open_control. destruct (openControlDatabase dial wait) as [[err|a]|]; by wp_step.
Qed.

Lemma wp_wire_plugins w (Q : error + unit -> Boot -> Prop) :
  (forall err w', bt_server w' = bt_server w -> resources w' = (false, bt_projection w) -> Q (inl err) w') ->
  (forall w', w' = mkBoot (bt_server w) (bt_controlDB w) (bt_projection w) (bt_redis w) (bt_routes w) true
     (bt_plugins w ++ [("maas-tenantauth", PreBuiltin, -100)] ++
      match splitCSV (Getenv e "MAAS_GUARDRAIL_BLOCKED_TERMS") with [] => [] | _ => [("maas-guardrails", PostBuiltin, 100)] end) (bt_usage w) ->
     Q (inr tt) w') ->
  wp false (wire_plugins e) w Q.
Proof.
  intros He Hq. unfold wire_plugins, construct, sync. apply wp_or_undo. repeat wire_step; try (by apply He); apply Hq; simpl; by rewrite <-?app_assoc.
Qed.

Lemma wp_wire_projection w (Q : error + unit -> Boot -> Prop) :
  (forall err w', bt_server w' = bt_server w -> resources w' = (false, bt_projection w) -> Q (inl err) w') ->
  Q (inr tt) (set_resources (bt_controlDB w) true (bt_redis w) w) ->
  wp false (wire_projection e) w Q.
Proof.
  intros He Hq. unfold wire_projection, construct, of_result. wp_step. apply wp_or_undo.
  destruct (NewCipher _) as [err|c]; repeat wire_step; try exact Hq; by apply He.
Qed.

Lemma wp_wire_redis w (Q : error + unit -> Boot -> Prop) :
  Q (inr tt) (set_resources (bt_controlDB w) (bt_projection w) true w) -> wp false (wire_redis e) w Q.
Proof.
  intros Hq. unfold wire_redis, construct. unfold is_empty. rewrite bool_decide_eq_false_2 by by apply env_nonempty.
  simpl. repeat wire_step; exact Hq.
Qed.

Lemma wp_wire_usage w (Q : error + unit -> Boot -> Prop) : bt_redis w = true ->
  (forall err w', bt_server w' = bt_server w -> resources w' = (false, false) -> Q (inl err) w') ->
  (forall w' plugin, w' = mkBoot (bt_server w) (bt_controlDB w) (bt_projection w) (bt_redis w) (bt_routes w) (bt_filter w)
     (bt_plugins w ++ if envBool e "MAAS_USAGE_ENFORCEMENT" true then [("maas-tenantusage", PostBuiltin, -100)] else [])
     (if envBool e "MAAS_USAGE_ENFORCEMENT" true then Some plugin else bt_usage w) ->
     0 < TenantUsage.cf_LeaseTTL plugin -> 0 <= cf_ProviderMaxConcurrent plugin -> 0 <= cf_MarkupBasisPoints plugin ->
     Q (inr tt) w') ->
  wp false (wire_usage e ParseDuration) w Q.
Proof.
  intros Hr He Hq. unfold wire_usage, construct, sync. destruct (envBool e "MAAS_USAGE_ENFORCEMENT" true).
  2: { wp_step. apply (Hq w (mkPlugin true 1 0 0)); try done. rewrite app_nil_r. by destruct w. }
  pose proof (envDuration_positive ParseDuration e "MAAS_CONCURRENCY_LEASE_TTL" (300 * 10 ^ 9) ltac:(done)) as H1'.
  destruct (envInt_range e "MAAS_PROVIDER_MAX_CONCURRENT" 0) as [H2' _]; [done..|].
  destruct (envInt_range e "MAAS_BILLING_MARKUP_BPS" 1000) as [H3' _]; [done..|].
  apply wp_or_undo. wp_step. wp_step. rewrite Hr. simpl. unfold TenantUsage.New.
  rewrite (proj2 (Z.leb_gt _ _)), (proj2 (Z.ltb_ge _ _)), (proj2 (Z.ltb_ge (envInt _ _ 1000) _)) by done. simpl.
  repeat wire_step; try (by apply He). by eapply Hq.
Qed.

(** The database and its role after the sequence, and what is left open. *)
Definition started w (r : error + unit) w' : Prop :=
  match r with
  | inl _ => resources w' = (false, false)
  | inr _ => resources w' = (true, true) /\ bt_redis w' = true /\ bt_routes w' = true /\ bt_filter w' = true /\
      bt_plugins w' = bt_plugins w ++ expected_plugins /\
      (envBool e "MAAS_USAGE_ENFORCEMENT" true = true -> exists plugin, bt_usage w' = Some plugin /\ 0 < TenantUsage.cf_LeaseTTL plugin)
  end.

Lemma wp_rest w (Q : error + unit -> Boot -> Prop) : resources w = (false, false) -> bt_routes w = true ->
  (forall r w', bt_server w' = bt_server w -> started w r w' -> Q r w') ->
  wp false (open_control dial wait;; wire_plugins e;; wire_projection e;; wire_redis e;; wire_usage e ParseDuration) w Q.
Proof.
  intros Hres Hroutes Hq. injection Hres as Hdb Hpr. wp_step. apply wp_open_control.
  { intros err. apply Hq; [done|]. unfold started, resources. by rewrite Hdb, Hpr. }
  wp_step. apply wp_wire_plugins.
  { intros err w1 E1 E2. apply Hq; [done|]. simpl in *. by rewrite E2, Hpr. }
  intros w1 ->. wp_step. apply wp_wire_projection; simpl.
  { intros err w2 E1 E2. apply Hq; [done|]. simpl in *. by rewrite E2, Hpr. }
  wp_step. apply wp_wire_redis. simpl. apply wp_wire_usage; [done|..]; simpl.
  { intros err w3 E1 E2. by apply Hq. }
  intros w3 plugin -> P1 P2 P3. apply Hq; [done|]. unfold started, resources, expected_plugins. simpl. split_and!; try done.
  - by rewrite <-!app_assoc.
  - intros ->. by exists plugin.
Qed.
#[local] Arguments Run : simpl never.
#[local] Arguments RunIndexes : simpl never.

(** *** Before anything is opened *)
Definition same_boot w w' : Prop :=
  resources w' = resources w /\ bt_redis w' = bt_redis w /\ bt_filter w' = bt_filter w /\ bt_plugins w' = bt_plugins w /\ bt_usage w' = bt_usage w.

#[local] Instance same_boot_preorder : PreOrder same_boot.
Proof. split; [done|]. intros w1 w2 w3 (A1 & A2 & A3 & A4 & A5) (B1 & B2 & B3 & B4 & B5). repeat split; congruence. Qed.

Lemma wp_enforce w (Q : error + option Report -> Boot -> Prop) :
  (forall err, Q (inl err) w) -> (forall rep, (rep = None <-> protected (bt_server w) TenantScopedTables) -> Q (inr rep) w) ->
  wp false (zoom on_server (Enforce TenantScopedTables)) w Q.
Proof.
  intros He Hq. apply wp_zoom. assert (Ew : fset on_server (fget on_server w) w = w) by by destruct w.
  apply wp_Enforce; rewrite Ew; [intros _; exact He|exact Hq].
Qed.

Lemma wp_prepare_frame w :
  wp false (prepare e store decorated) w (fun r w' => same_boot w w' /\
    (r = inr tt -> bt_routes w' = true /\ protected (bt_server w') TenantScopedTables)).
Proof.
  unfold prepare. destruct store as [st|]; [|by wp_step]. wp_step. wp_step. case_bool_decide as Ed; simpl; [|by wp_step].
  assert (Hrest : forall w1, same_boot w w1 -> wp false
    (report ← wrapping "maas-gateway: %w" (zoom on_server (Enforce TenantScopedTables));
     match report with
     | Some _ => throw (Wrap "maas-gateway: %w" rls_refused)
     | None => if negb decorated then throw (New "maas-gateway: Bifrost management store decorator was not installed")
               else effect (fun w => (tt, set_installed true (bt_filter w) w))
     end) w1 (fun r w' => same_boot w w' /\ (r = inr tt -> bt_routes w' = true /\ protected (bt_server w') TenantScopedTables))).
  { intros w1 Hs. wp_step. wp_step. apply wp_enforce; [done|]. intros rep Hrep. destruct rep as [rep|]; [by wp_step|].
    destruct decorated; simpl; wp_step; [|done]. split; [exact Hs|]. intros _. split; [done|]. by apply Hrep. }
  destruct (envBool e "MAAS_RUN_DATA_MIGRATIONS" true); wp_step; [|wp_step; by apply Hrest].
  wp_step. wp_step. wp_step. apply wp_any. intros [err|[]] pg1; [done|].
  wp_step. wp_step. apply wp_any. intros [err|[]] pg2; [done|]. by apply Hrest.
Qed.

Lemma wp_prepare_policed w : envBool e "MAAS_RUN_DATA_MIGRATIONS" true = true ->
  idle (sv_Db (bt_server w)) -> inv (sv_Db (bt_server w)) ->
  wp false (prepare e store decorated) w (fun r w' => r = inr tt ->
    idle (sv_Db (bt_server w')) /\ inv (sv_Db (bt_server w')) /\ policed (pg_conn (sv_Db (bt_server w')))).
Proof.
  intros Em Hi Hv. unfold prepare. destruct store as [st|]; [|by wp_step]. wp_step. wp_step. case_bool_decide as Ed; simpl; [|by wp_step].
  rewrite Em. wp_step. wp_step. wp_step. wp_step. eapply wp_mono; [unfold Run, Apply; exact (wp_run_through _ _ Migrations (Some st) _ Migrations_sound Hi Hv)|].
  intros [err|[]] pg1; [done|]. intros (I1 & V1 & _ & A1). specialize (A1 eq_refl). simpl.
  wp_step. wp_step. eapply wp_mono; [unfold RunIndexes, ApplyIndexes; exact (wp_run_through _ _ IndexMigrations (Some st) _ IndexMigrations_sound I1 V1)|].
  intros [err|[]] pg2; [done|]. intros (I2 & V2 & A2 & _). simpl.
  wp_step. wp_step. apply wp_enforce; [done|]. intros rep _. destruct rep as [rep|]; [by wp_step|].
  destruct decorated; simpl; wp_step; [|done]. intros _. split; [done|]. split; [done|].
  apply policed_of_tables, applied_policed; [done|]. intros m Hm. by apply A2, A1.
Qed.
(** Start-up settles its resources.  If it fails, at whichever step and for
    whatever reason, the control database is closed and the projection stopped;
    if it succeeds both are up, with the internal routes, the model filter, and
    exactly the plugins the environment asks for, in order -- authentication
    before the built-in ones, then the guardrails if terms are blocked, then
    usage if it is enforced, on a positive lease -- and the clean-up function it
    returns releases everything. *)
Theorem start_up_settles w r w' :
  resources w = (false, false) -> outcome (wireMaaS e store decorated dial wait ParseDuration) w r w' ->
  started w r w' /\
  (forall r2 w2, outcome cleanup w' r2 w2 -> r2 = inr tt /\ resources w2 = (false, false) /\ bt_redis w2 = false).
Proof.
  intros Hres Ho. split.
  - apply (wp_outcome (wireMaaS e store decorated dial wait ParseDuration) w (started w) r w'); [|done]. unfold wireMaaS. apply wp_bind.
    eapply wp_mono; [apply wp_prepare_frame|]. intros [err|[]] w1 [(F1 & F2 & F3 & F4 & F5) Hp].
    + unfold started. by rewrite F1.
    + destruct (Hp eq_refl) as [Hroutes _]. apply wp_rest; [congruence|done|]. intros r1 w2 _ Hs.
      destruct r1 as [err|[]]; [done|]. destruct Hs as (S1 & S2 & S3 & S4 & S5 & S6). unfold started. rewrite F4 in S5. by split_and!.
  - intros r2 w2 Hc.
    apply (wp_outcome cleanup w' (fun r2 w2 => r2 = inr tt /\ resources w2 = (false, false) /\ bt_redis w2 = false) r2 w2); [|done].
    unfold cleanup, cancelProjection, closeDB. by repeat wp_step.
Qed.

(** C12. The gateway serves only isolated tenants.  When start-up succeeds with its
    migrations on, over a database only those migrations have changed, its role
    is exempt from no policy and every tenant-scoped table exists; and on every
    connection, whatever its settings, a row of such a table is visible exactly
    when the rule of its kind lets the bound tenant read it. *)
Theorem gateway_isolated w w' :
  resources w = (false, false) -> envBool e "MAAS_RUN_DATA_MIGRATIONS" true = true ->
  idle (sv_Db (bt_server w)) -> inv (sv_Db (bt_server w)) ->
  outcome (wireMaaS e store decorated dial wait ParseDuration) w (inr tt) w' ->
  exempted (bt_server w') = false /\
  forall t, t ∈ TenantScopedTables -> exists kind rel, PolicyKindFor t = Some kind /\ tables (sv_Db (bt_server w')) !! t = Some rel /\
    forall conn row, let s := mkServer (sv_Dialect (bt_server w')) (sv_User (bt_server w')) (sv_Roles (bt_server w')) (with_conn conn (sv_Db (bt_server w'))) in
      visible s rel row = may_read kind (current_setting conn SettingName)
        (bool_decide (current_setting conn PlatformModeSettingName = PlatformModeOn)) (rw_TenantID row).
Proof.
  intros Hres Em Hi Hv Ho.
  assert (Hw : wp false (wireMaaS e store decorated dial wait ParseDuration) w (fun r w' => r = inr tt ->
    protected (bt_server w') TenantScopedTables /\ policed (pg_conn (sv_Db (bt_server w'))))).
  { unfold wireMaaS. apply wp_bind. intros sc Hsc. pose proof (wp_prepare_frame w sc Hsc) as H1'.
    pose proof (wp_prepare_policed w Em Hi Hv sc Hsc) as H2'. destruct (prepare e store decorated w sc) as [[[err|[]] w1] sc1]; [by split; [|done]|].
    destruct H1' as [Hs1 [Hf Hp]], H2' as [_ Hpol]. split; [done|]. destruct (Hp eq_refl) as [Hroutes Hprot].
    destruct (Hpol eq_refl) as (_ & _ & Hpoliced). apply wp_rest; [by destruct Hf as (-> & _)|done|].
    intros r w2 E _ _. by rewrite E. }
  destruct (wp_outcome _ _ _ _ _ Hw Ho eq_refl) as [[_ P2 _ _ P5] Hpol]. split; [done|].
  intros t Ht. destruct (scoped_kind _ Ht) as [kind Hk]. destruct (P5 t Ht) as (rel & Hrel & _).
  destruct (Hpol t kind rel Hk Hrel) as (E1 & E2 & E3). exists kind, rel. split; [done|]. split; [done|]. intros conn row s.
  unfold visible. assert (exempted s = false) as -> by exact P2. unfold reaches, governed. rewrite E1, E2, E3.
  apply (policy_rule kind (current_setting conn) (rw_TenantID row)).
Qed.
End Spec.

(** ** A start *)
Section Sample.
#[local] Existing Instances map_sql simple_migrator ascii_unicode text_runtime id_sha.

Definition sample_boot : Boot :=
  mkBoot (mkServer "postgres" "maas" {["maas" := mkRole false false []]} sample) false false false false false [] None.
Definition sample_env : Environment := {["MAAS_GUARDRAIL_BLOCKED_TERMS" := " alpha ,,beta"]}.
Definition answering (_ : Z) : Dial := mkDial None None None.
Definition unparsed (_ : string) : error + Z := inl (New "time: invalid duration").
Definition sample_start : M Boot unit := wireMaaS sample_env (Some simple_store) true answering (fun _ => None) unparsed.

Lemma sample_migrates : envBool sample_env "MAAS_RUN_DATA_MIGRATIONS" true = true.
Proof. vm_compute. reflexivity. Qed.

Lemma sample_starts : result sample_start sample_boot = inr tt.
Proof. vm_compute. reflexivity. Qed.

Definition sample_outcome : outcome sample_start sample_boot (inr tt) (after sample_start sample_boot) :=
  match sample_starts in _ = r return outcome _ _ r _ with eq_refl => outcome_after _ _ end.

(** The driver's outcomes that fail the statement which makes the limiter. *)
Definition failing_limiter : schedule := replicate 509 None ++ [Some "semaphore"].

Lemma limiter_fails : let run := sample_start sample_boot failing_limiter in
  run.1.1 = inl (Driver "semaphore") /\ bt_controlDB run.1.2 = false /\ bt_projection run.1.2 = false /\ bt_redis run.1.2 = true.
Proof. vm_compute. by split_and!. Qed.

(** A failed start leaves the Redis client open: when the limiter of the usage
    plugin cannot be made, the database is closed and the projection stopped, but
    nothing closes the client made before. *)
Theorem failed_start_leaks_redis : exists w',
  outcome sample_start sample_boot (inl (Driver "semaphore")) w' /\
  bt_controlDB w' = false /\ bt_projection w' = false /\ bt_redis w' = true.
Proof.
  exists (sample_start sample_boot failing_limiter).1.2. destruct limiter_fails as (H1 & H2).
  split; [|exact H2]. exists failing_limiter, (sample_start sample_boot failing_limiter).2.
  destruct (sample_start sample_boot failing_limiter) as [[r w'] sc']. simpl in *. by subst.
Qed.

Lemma start_up_settles_witness :
  bt_plugins (after sample_start sample_boot) =
    [("maas-tenantauth", PreBuiltin, -100); ("maas-guardrails", PostBuiltin, 100); ("maas-tenantusage", PostBuiltin, -100)] /\
  resources (after sample_start sample_boot) = (true, true).
Proof.
  destruct (start_up_settles sample_env (Some simple_store) true answering (fun _ => None) unparsed sample_boot (inr tt) _ eq_refl sample_outcome)
    as [(H1 & _ & _ & _ & H2 & _) _].
  split; [exact H2|exact H1].
Defined.

Lemma gateway_isolated_witness : exempted (bt_server (after sample_start sample_boot)) = false /\
  exists kind rel, PolicyKindFor "prompts" = Some kind /\ tables (sv_Db (bt_server (after sample_start sample_boot))) !! "prompts" = Some rel.
Proof.
  destruct (gateway_isolated sample_env (Some simple_store) true answering (fun _ => None) unparsed sample_boot _ eq_refl sample_migrates
    (sample_of_idle _) (proj1 samples_inv) sample_outcome) as [H1 H2].
  split; [exact H1|]. destruct (H2 "prompts" (kind_scoped "prompts" PolicyStrict eq_refl)) as (kind & rel & Hk & Hrel & _).
  exists kind, rel. split; [exact Hk|exact Hrel].
Defined.
End Sample.
