(* ===== verification/DataPlane.v ===== *)
(** * The projection adapter (internal/bifrostprojection/virtualkey.go)

    How a control-plane snapshot of a key reaches the gateway: a row of its key
    table, written in the tenant's own transaction under row-level security, and
    then the entry of its in-process governance view.  The gateway's model hooks,
    its store and that view are third-party interfaces, with what this adapter
    relies on as their laws; together they discharge the interface [Target] that
    the projector of VirtualKey is proved against. *)
From S2P Require Import Prelude GoStrings Sql Lifecycle ControlPlane TenantScope Isolation ModelAccess TenantAuth VirtualKey.

(** ** The gateway's key model *)
Record TableVirtualKey := mkTableVirtualKey {
  tv_ID : string; tv_Name : string; tv_Description : string; tv_Value : string; tv_ValueHash : string;
  tv_EncryptionStatus : string; tv_IsActive : bool; tv_AllowAllProviders : bool; tv_ConfigHash : string;
  tv_CreatedAt : Z; tv_UpdatedAt : Z }.

(** [scan]: a row read into the model, its secret hook run. *)
Class VirtualKeyModel := {
  BeforeSave : TableVirtualKey -> error + TableVirtualKey;
  scan : gmap string string -> error + TableVirtualKey;
  time_text : Z -> string }.

(** The columns of the explicit INSERT. *)
Definition saved_columns `{VirtualKeyModel} (vk : TableVirtualKey) : gmap string string :=
  list_to_map
    [("id", tv_ID vk); ("name", tv_Name vk); ("description", tv_Description vk);
     ("value", tv_Value vk); ("value_hash", tv_ValueHash vk);
     ("encryption_status", tv_EncryptionStatus vk); ("is_active", "true");
     ("allow_all_providers", "true"); ("calendar_aligned", "false");
     ("config_hash", tv_ConfigHash vk);
     ("created_at", time_text (tv_CreatedAt vk)); ("updated_at", time_text (tv_UpdatedAt vk))].

(** id = ? *)
Definition has_key (id : string) (r : Row) : bool := bool_decide (rw_Data r !! "id" = Some id).

(** The primary key of the table is the identifier. *)
Definition primary (id : string) : Z := Z.pos (encode id).

(** What the adapter writes of a key and reads back. *)
Definition same_key (a b : TableVirtualKey) : Prop :=
  tv_ID a = tv_ID b /\ tv_Description a = tv_Description b /\ tv_Value a = tv_Value b /\ tv_ConfigHash a = tv_ConfigHash b.

(** A row that holds a key: under its identifier, read back as that key, active
    and found by the hash of its secret. *)
Record holds_key `{VirtualKeyModel} `{GatewayKeys} (vk : TableVirtualKey) (r : Row) : Prop := {
  hk_id : rw_Data r !! "id" = Some (tv_ID vk);
  hk_scan : exists got, scan (rw_Data r) = inr got /\ same_key got vk;
  hk_columns : kc_ID (cols r) = tv_ID vk /\ kc_IsActive (cols r) = Some true /\
    kc_ValueHash (cols r) = Some (HashSHA256 (tv_Value vk)) }.

Section Interface.
  Context `{Sql}.

(** A statement, or several, that gave the key table the rows [rows']. *)
Record rewrote (w : Conn) (rel : Relation) (rows' : table Z Row) (w' : Conn) : Prop := {
  rw_session : cn_session w' = cn_session w;
  rw_local : cn_local w' = cn_local w;
  rw_policed : policed w -> policed w';
  rw_keys : cn_tables w' !! keys_table = Some (mkRelation rows' (rl_enabled rel) (rl_forced rel) (rl_policy rel)) }.

(** The store of the gateway, inside the caller's transaction. *)
Class BifrostStore `{VirtualKeyModel} `{GatewayKeys} := {
  ErrNotFound : error;
  UpdateVirtualKey : TableVirtualKey -> M Conn unit;
  DeleteVirtualKey : string -> M Conn unit;
  save_holds : forall vk vk' tenant, BeforeSave vk = inr vk' -> tv_IsActive vk = true ->
    tv_ID vk' = tv_ID vk /\ holds_key vk (mkRow tenant (saved_columns vk'));
  update_saves : forall vk w w', outcome (UpdateVirtualKey vk) w (inr tt) w' -> tv_IsActive vk = true ->
    exists rel g, cn_tables w !! keys_table = Some rel /\
      rewrote w rel (update_rows (fun r => reaches w rel r && has_key (tv_ID vk) r) g (rl_rows rel)) w' /\
      forall r, rw_TenantID (g r) = rw_TenantID r /\ holds_key vk (g r);
  delete_removes : forall id w w', outcome (DeleteVirtualKey id) w (inr tt) w' ->
    exists rel, cn_tables w !! keys_table = Some rel /\
      rewrote w rel (delete_rows (fun r => reaches w rel r && has_key id r) (rl_rows rel)) w';
  delete_missing : forall id w e w', outcome (DeleteVirtualKey id) w (inl e) w' -> errors_is e ErrNotFound = true ->
    w' = w /\ forall rel k r, cn_tables w !! keys_table = Some rel -> rows (rl_rows rel) !! k = Some r ->
      reaches w rel r && has_key id r = false }.

End Interface.

(** The in-process view of the request path. *)
Class GovernanceStore := {
  view : Type;
  cached : view -> gmap string TableVirtualKey;
  UpdateVirtualKeyInMemory : TableVirtualKey -> view -> view;
  DeleteVirtualKeyInMemory : string -> view -> view;
  cached_update : forall k v, cached (UpdateVirtualKeyInMemory k v) = <[tv_ID k := k]> (cached v);
  cached_delete : forall id v, cached (DeleteVirtualKeyInMemory id v) = delete id (cached v) }.

(** ** The adapter *)
Section Adapter.
  Context `{Sql} `{VirtualKeyModel} `{GatewayKeys} `{!BifrostStore} `{GovernanceStore}.

Record Plane := mkPlane { pl_config : Conn; pl_runtime : view }.
Definition config_f : field Plane Conn := Field pl_config (fun c w => mkPlane c (pl_runtime w)).

(** governanceRuntime of cmd/maas-gateway/main.go *)
Definition runtime_UpsertVirtualKey (key : TableVirtualKey) : M Plane unit :=
  effect (fun w => (tt, mkPlane (pl_config w) (UpdateVirtualKeyInMemory key (pl_runtime w)))).
Definition runtime_DeleteVirtualKey (keyID : string) : M Plane unit :=
  effect (fun w => (tt, mkPlane (pl_config w) (DeleteVirtualKeyInMemory keyID (pl_runtime w)))).

Definition description_prefix : string := "Managed by MaaS control plane: ".
Definition hash_prefix : string := "maas:".

(** [created], [updated]: the two readings of the clock. *)
Definition virtual_key (p : Projection) (created updated : Z) : TableVirtualKey :=
  mkTableVirtualKey (pr_ID p) ("maas-" +:+ pr_ID p) (description_prefix +:+ pr_Name p) (pr_Secret p) EmptyString EmptyString
    true true (hash_prefix +:+ pretty (pr_Generation p)) created updated.

(** The body of the transaction: the key as it is stored afterwards. *)
Definition upsert_tx (vk : TableVirtualKey) (tenantID : string) : M Conn TableVirtualKey :=
  found ← wrapping "count projected virtual key: %w" (exec (Select keys_table (has_key (tv_ID vk))));
  (if (length found =? 0)%nat then
     saved ← wrapping "prepare virtual key: %w" (of_result (BeforeSave vk));
     wrapping "create projected virtual key: %w"
       (exec (Insert keys_table (primary (tv_ID saved)) (mkRow (Some tenantID) (saved_columns saved))));;
     mret tt
   else wrapping "update projected virtual key: %w" (UpdateVirtualKey vk));;
  wrapping "reload projected virtual key: %w" (
    stored ← exec (Select keys_table (has_key (tv_ID vk)));
    match stored with [] => throw ErrRecordNotFound | r :: _ => of_result (scan (rw_Data r)) end).

Definition Upsert (ctx : Context) (created updated : Z) (p : Projection) : M Plane unit :=
  if is_empty (pr_ID p) || is_empty (pr_TenantID p) || is_empty (pr_Secret p)
  then throw (New "bifrostprojection: incomplete virtual key projection") else
  scopedCtx ← of_result (ScopedContext ctx (pr_TenantID p));
  loaded ← zoom config_f (RunInTenantTx (Some scopedCtx) (upsert_tx (virtual_key p created updated) (pr_TenantID p)));
  runtime_UpsertVirtualKey loaded.

Definition delete_tx (keyID : string) : M Conn unit :=
  r ← attempt (DeleteVirtualKey keyID);
  match r with
  | inl e => if errors_is e ErrNotFound then mret tt else throw e
  | inr _ => mret tt
  end.

Definition Delete (ctx : Context) (tenantID keyID : string) : M Plane unit :=
  if is_empty tenantID || is_empty keyID then throw (New "bifrostprojection: tenant id and key id are required") else
  scopedCtx ← of_result (ScopedContext ctx tenantID);
  wrapping "delete projected virtual key: %w" (zoom config_f (RunInTenantTx (Some scopedCtx) (delete_tx keyID)));;
  runtime_DeleteVirtualKey keyID.

End Adapter.

(** ** What a call does *)
Section Spec.
  Context `{Sql} `{VirtualKeyModel} `{GatewayKeys} `{!BifrostStore} `{GovernanceStore}.
  Implicit Types (w : Conn) (t id : string) (rel : Relation) (vk : TableVirtualKey).

(** Rows sit under their identifier. *)
Definition keyed w : Prop := forall rel k r id,
  cn_tables w !! keys_table = Some rel -> rows (rl_rows rel) !! k = Some r -> rw_Data r !! "id" = Some id -> k = primary id.

Lemma primary_inj id id' : primary id = primary id' -> id = id'.
Proof. unfold primary. intros [= E]. by apply (inj encode) in E. Qed.

Lemma has_key_spec id r : has_key id r = true <-> rw_Data r !! "id" = Some id.
Proof. apply bool_decide_eq_true. Qed.

(** In a tenant's scope the key table shows and takes that tenant's rows only. *)
Lemma strict_rows t w rel r : policed w -> in_scope t w -> t <> EmptyString -> cn_tables w !! keys_table = Some rel ->
  reaches w rel r = bool_decide (rw_TenantID r = Some t).
Proof.
  intros Hp (Ht & _) Hne Hrel. destruct (Hp keys_table PolicyStrict rel) as (E1 & E2 & E3); [by vm_compute|done|].
  unfold reaches, governed. rewrite E1, E2, E3. cbn [andb].
  rewrite (proj1 (policy_rule PolicyStrict (current_setting w) (rw_TenantID r))), Ht.
  unfold may_read, is_empty. rewrite bool_decide_eq_false_2 by done. by rewrite orb_false_r.
Qed.

(** The table after its rows at one key were set or removed. *)
Definition keyed_rows w w' (f : gmap Z Row -> gmap Z Row) : Prop := exists rel rel',
  cn_tables w !! keys_table = Some rel /\ cn_tables w' !! keys_table = Some rel' /\
  rows (rl_rows rel') = f (rows (rl_rows rel)).

(** The effect of the projection's transaction. *)
Record upserted t vk loaded w w' : Prop := {
  us_session : cn_session w' = cn_session w;
  us_policed : policed w';
  us_rows : exists r, keyed_rows w w' <[primary (tv_ID vk) := r]> /\ rw_TenantID r = Some t /\ holds_key vk r;
  us_loaded : same_key loaded vk }.

Lemma rewrote_scope t w rel rows' w' : rewrote w rel rows' w' -> in_scope t w -> in_scope t w'.
Proof. intros [E1 E2 _ _]. unfold in_scope, current_setting. by rewrite E1, E2. Qed.

Lemma wp_insert_row h name k r w (Q : error + list Row -> Conn -> Prop) :
  (h = false -> forall msg, Q (inl (Driver msg)) w) -> (cn_tables w !! name = None -> Q (inl (Driver "relation does not exist")) w) ->
  (forall rel, cn_tables w !! name = Some rel -> may_write w rel r = false -> Q (inl ErrPolicy) w) ->
  (forall rel, cn_tables w !! name = Some rel -> is_Some (rows (rl_rows rel) !! k) -> Q (inl ErrDuplicateKey) w) ->
  (forall rel, cn_tables w !! name = Some rel -> rows (rl_rows rel) !! k = None ->
     Q (inr []) (mkConn (cn_session w) (cn_local w)
       (<[name := mkRelation (insert_row k r (rl_rows rel)) (rl_enabled rel) (rl_forced rel) (rl_policy rel)]> (cn_tables w)))) ->
  wp h (exec (Insert name k r)) w Q.
Proof.
  intros Hd Hn Hp Hk Hs. cbn [exec]. unfold on_relation. apply wp_sql; [done|].
  destruct (cn_tables w !! name) as [rel|] eqn:Er; [|by apply Hn].
  destruct (may_write w rel r) eqn:Em; cbn [negb]; [|by eapply Hp].
  destruct (rows (rl_rows rel) !! k) as [x|] eqn:Ek; [by eapply Hk|by apply Hs].
Qed.

Lemma policed_insert w name rel rows' : policed w -> cn_tables w !! name = Some rel ->
  policed (mkConn (cn_session w) (cn_local w)
    (<[name := mkRelation rows' (rl_enabled rel) (rl_forced rel) (rl_policy rel)]> (cn_tables w))).
Proof.
  intros Hp Hrel n kind rel' Hk. simpl. destruct (decide (n = name)) as [->|Hne]; [|rewrite lookup_insert_ne by done; by apply Hp].
  rewrite lookup_insert_eq. intros [= <-]. by apply (Hp _ _ _ Hk Hrel).
Qed.

(** Writing the key, before it is read back. *)
Definition stored_as t vk w w' : Prop :=
  cn_session w' = cn_session w /\ policed w' /\ in_scope t w' /\
  exists r, keyed_rows w w' <[primary (tv_ID vk) := r]> /\ rw_TenantID r = Some t /\ holds_key vk r.

Lemma wp_insert_key t vk w : policed w -> in_scope t w -> tv_IsActive vk = true ->
  wp false (saved ← wrapping "prepare virtual key: %w" (of_result (BeforeSave vk));
     wrapping "create projected virtual key: %w"
       (exec (Insert keys_table (primary (tv_ID saved)) (mkRow (Some t) (saved_columns saved))));; mret tt) w
   (fun r w' => match r with inl _ => True | inr _ => stored_as t vk w w' end).
Proof.
  intros Hp Hs Ha. wp_step. wp_step. destruct (BeforeSave vk) as [e|vk'] eqn:Eb; cbn [of_result]; wp_step; [done|].
  destruct (save_holds vk vk' (Some t) Eb Ha) as [Eid Hh]. wp_step. wp_step. apply wp_insert_row; [done..|].
  intros rel Hrel Hk. wp_step. split; [done|]. split; [by apply policed_insert|]. split; [exact Hs|].
  eexists. split; [|by split; [|exact Hh]]. eexists _, _. split; [exact Hrel|]. split; [apply lookup_insert_eq|].
  simpl. by rewrite rows_insert, Eid.
Qed.

Lemma wp_update_key t vk w rel r0 k0 : policed w -> keyed w -> in_scope t w -> t <> EmptyString -> tv_IsActive vk = true ->
  cn_tables w !! keys_table = Some rel -> rows (rl_rows rel) !! k0 = Some r0 -> reaches w rel r0 && has_key (tv_ID vk) r0 = true ->
  wp false (UpdateVirtualKey vk) w (fun r w' => match r with inl _ => True | inr _ => stored_as t vk w w' end).
Proof.
  intros Hp Hkd Hs Hne Ha Hrel Hk0 Hr0. eapply wp_mono; [apply wp_self|]. intros [e|[]] w' Ho; [done|].
  destruct (update_saves _ _ _ Ho Ha) as (rel1 & g & Hrel1 & Hw & Hg). assert (rel1 = rel) as -> by congruence.
  split; [apply Hw|]. split; [by apply (rw_policed _ _ _ _ Hw)|]. split; [by eapply rewrote_scope|].
  destruct (Hg r0) as [Et Hh]. bools. rewrite (strict_rows t) in * by done. bools.
  exists (g r0). split; [|split; [congruence|done]]. eexists _, _. split; [exact Hrel|]. split; [apply (rw_keys _ _ _ _ Hw)|]. simpl.
  match goal with E : has_key _ r0 = true |- _ => pose proof (proj1 (has_key_spec _ _) E) as Ei; rename E into Eh end.
  rewrite <-(Hkd _ _ _ _ Hrel Hk0 Ei). apply rows_update_unique; [done| |].
  - rewrite (strict_rows t), Eh, bool_decide_eq_true_2 by done. done.
  - intros k' r' Hk' Hr'. bools. match goal with E : has_key _ r' = true |- _ => apply has_key_spec in E; rename E into Ei' end.
    by rewrite (Hkd _ _ _ _ Hrel Hk' Ei'), (Hkd _ _ _ _ Hrel Hk0 Ei).
Qed.

Lemma stored_keyed vk w w' r : keyed w -> keyed_rows w w' <[primary (tv_ID vk) := r]> -> holds_key vk r -> keyed w'.
Proof.
  intros Hk (rel & rel' & Hr & Hr' & E) Hh rel2 k r2 id Hrel2 Hk2 Hid.
  assert (rel2 = rel') as -> by congruence. rewrite E, lookup_insert in Hk2. case_decide as Ek.
  - injection Hk2 as <-. rewrite (hk_id _ _ Hh) in Hid. injection Hid as <-. done.
  - by eapply Hk.
Qed.

Lemma wp_upsert_tx t vk w : policed w -> keyed w -> in_scope t w -> t <> EmptyString -> tv_IsActive vk = true ->
  wp false (upsert_tx vk t) w (fun r w' => match r with inl _ => True | inr loaded => upserted t vk loaded w w' end).
Proof.
  intros Hp Hk Hs Hne Ha. unfold upsert_tx. wp_step. wp_step. apply wp_select; [done|done|]. intros rel Hrel.
  set (found := where_ _ (rl_rows rel)). wp_step.
  apply (wp_mono _ _ _ (fun r w' => match r with inl _ => True | inr _ => stored_as t vk w w' end)).
  { destruct (_ =? _)%nat eqn:En; [by apply wp_insert_key|]. wp_step.
    destruct found as [|r0 l] eqn:Ef; [done|]. destruct (where_head _ _ _ _ Ef) as (k0 & Hk0 & Hr0).
    eapply wp_mono; [by eapply wp_update_key|]. by intros [e|[]] w'. }
  intros [e|[]] w1 Hst; [done|].
  destruct Hst as (E1 & Hp1 & Hs1 & r & Hrows & Et & Hh). pose proof (stored_keyed _ _ _ _ Hk Hrows Hh) as Hk1. wp_step. wp_step. apply wp_select; [done|done|]. intros rel1 Hrel1.
  destruct (where_ _ (rl_rows rel1)) as [|r1 l] eqn:Ew; [by wp_step|].
  destruct (where_head _ _ _ _ Ew) as (k1 & Hr1 & Hhas). bools.
  match goal with E : has_key _ r1 = true |- _ => apply has_key_spec in E; rename E into Ei end.
  pose proof (Hk1 _ _ _ _ Hrel1 Hr1 Ei) as ->.
  assert (r1 = r) as ->.
  { destruct Hrows as (ra & rb & _ & Hrb & Erows). assert (rb = rel1) as -> by congruence.
    rewrite Erows, lookup_insert_eq in Hr1. by injection Hr1. }
  destruct (hk_scan _ _ Hh) as (got & Eg & Hsame). rewrite Eg. cbn [of_result]. wp_step.
  split; [done|done| |done]. by exists r.
Qed.

(** A tenant transaction that failed left nothing, one that succeeded left the
    effect of its body on a clean connection. *)
Lemma wp_tenant_tx {A} ctx t (fn : M Conn A) w (P : A -> Conn -> Conn -> Prop) :
  FromContext ctx = t -> t <> EmptyString -> clean w -> policed w ->
  (forall w0, policed w0 -> in_scope t w0 -> cn_tables w0 = cn_tables w -> cn_session w0 = cn_session w ->
     wp false fn w0 (fun r w1 => match r with inl _ => True | inr a => cn_session w1 = cn_session w0 /\ policed w1 /\ P a w0 w1 end)) ->
  wp false (RunInTenantTx ctx fn) w (fun r w' => match r with
    | inl _ => w' = w
    | inr a => clean w' /\ policed w' /\ exists w0 w1, P a w0 w1 /\ cn_tables w0 = cn_tables w /\ cn_tables w' = cn_tables w1
    end).
Proof.
  intros Ec Hne Hc Hp Hfn. unfold RunInTenantTx. rewrite Ec. unfold is_empty. rewrite bool_decide_eq_false_2 by done.
  destruct (clean_begin w Hc) as [_ Hn], (begin_scope w) as (Hl & Et & Es). apply wp_Transaction. rewrite Hn.
  apply wp_bind, wp_bind_tenant; [done|done|done|]. intros w0 Et0 Es0 Hs0.
  assert (Hp0 : policed w0) by (intros n kind rel; rewrite Et0, Et; apply Hp).
  eapply wp_mono; [apply (Hfn w0); [done|done|congruence|congruence]|]. intros [e|a] w1; [done|]. intros (E1 & Hp1 & HP).
  split; [done|]. split; [apply (clean_end w); [done|congruence]|]. split; [done|]. exists w0, w1. split; [done|]. split; [congruence|done].
Qed.

(** Between calls. *)
Definition plane_ok (w : Plane) : Prop :=
  clean (pl_config w) /\ policed (pl_config w) /\ keyed (pl_config w) /\ is_Some (cn_tables (pl_config w) !! keys_table).

Lemma keyed_rows_tables w0 w1 w w' f : keyed_rows w0 w1 f -> cn_tables w0 = cn_tables w -> cn_tables w' = cn_tables w1 -> keyed_rows w w' f.
Proof. intros (ra & rb & E1 & E2 & E3) Ea Eb. exists ra, rb. by rewrite <-Ea, Eb. Qed.

Lemma keyed_of_tables w w' : cn_tables w' = cn_tables w -> keyed w -> keyed w'.
Proof. intros E Hk rel k r id. rewrite E. apply Hk. Qed.

Lemma scoped_names ctx t c : ScopedContext ctx t = inr c -> FromContext (Some c) = t /\ t <> EmptyString.
Proof.
  unfold ScopedContext, KeyScopeFor, WithTenant. destruct (is_empty t) eqn:E; [done|]. intros [= <-].
  unfold is_empty in E. by bools.
Qed.

(** ** The calls, seen from a node *)
Definition projected created updated (p : Projection) (w w' : Plane) : Prop := exists loaded,
  same_key loaded (virtual_key p created updated) /\ cached (pl_runtime w') = <[pr_ID p := loaded]> (cached (pl_runtime w)) /\
  (exists r, keyed_rows (pl_config w) (pl_config w') <[primary (pr_ID p) := r]> /\ rw_TenantID r = Some (pr_TenantID p) /\
     holds_key (virtual_key p created updated) r) /\ plane_ok w' /\
  pr_ID p <> EmptyString /\ pr_TenantID p <> EmptyString /\ pr_Secret p <> EmptyString.

Lemma wp_Upsert ctx created updated p (w : Plane) : plane_ok w ->
  wp false (Upsert ctx created updated p) w (fun r (w' : Plane) => match r with
    | inl _ => w' = w
    | inr _ => projected created updated p w w' end).
Proof.
  intros (Hc & Hp & Hk & Htab). unfold Upsert. wp_step; [by wp_step|]. wp_step.
  destruct (ScopedContext ctx (pr_TenantID p)) as [e|c] eqn:Ec; cbn [of_result]; wp_step; [done|].
  destruct (scoped_names _ _ _ Ec) as [Ef Hne]. wp_step. wp_step.
  eapply wp_mono; [apply (wp_tenant_tx _ (pr_TenantID p) _ _ (fun loaded w0 w1 =>
     keyed w0 /\ upserted (pr_TenantID p) (virtual_key p created updated) loaded w0 w1)); [done..|]|].
  { intros w0 Hp0 Hs0 Et Es. assert (Hk0 : keyed w0) by by eapply keyed_of_tables.
    eapply wp_mono; [by apply (wp_upsert_tx (pr_TenantID p))|]. intros [e|loaded] w1; [done|]. intros Hu.
    split; [apply Hu|]. split; [by eapply us_policed|]. done. }
  intros [e|loaded] c'; [intros ->; by destruct w|]. intros (Hc' & Hp' & w0 & w1 & [Hk0 Hu] & Et0 & Et').
  unfold runtime_UpsertVirtualKey. wp_step. pose proof (us_loaded _ _ _ _ _ Hu) as Hl.
  exists loaded. split; [done|]. split; [cbn [pl_runtime]; by rewrite cached_update, (proj1 Hl)|].
  destruct (us_rows _ _ _ _ _ Hu) as (r & Hrows & Ht & Hh). split.
  - exists r. split; [by eapply keyed_rows_tables|done].
  - split; [|unfold is_empty in *; by bools]. split; [done|]. split; [done|]. cbn [pl_config]. rewrite Et'.
    split; [|by destruct Hrows as (? & ? & _ & -> & _)]. apply (keyed_of_tables w1); [done|]. by eapply stored_keyed.
Qed.

(** The rows a deletion leaves. *)
Definition unprojected (t id : string) (w w' : Plane) : Prop :=
  cached (pl_runtime w') = delete id (cached (pl_runtime w)) /\ plane_ok w' /\
  forall rel, cn_tables (pl_config w) !! keys_table = Some rel -> exists rel', cn_tables (pl_config w') !! keys_table = Some rel' /\
    rows (rl_rows rel') = filter (fun kr => bool_decide (rw_TenantID kr.2 = Some t) && has_key id kr.2 = false) (rows (rl_rows rel)).

Lemma wp_delete_tx t id w : policed w -> keyed w -> in_scope t w -> t <> EmptyString ->
  wp false (delete_tx id) w (fun r w' => match r with inl _ => True | inr _ =>
    cn_session w' = cn_session w /\ policed w' /\ keyed w' /\
    (forall rel, cn_tables w !! keys_table = Some rel -> exists rel', cn_tables w' !! keys_table = Some rel' /\
      rows (rl_rows rel') = filter (fun kr => bool_decide (rw_TenantID kr.2 = Some t) && has_key id kr.2 = false) (rows (rl_rows rel)))
    end).
Proof.
  intros Hp Hk Hs Hne. unfold delete_tx. wp_step. wp_step. eapply wp_mono; [apply wp_self|].
  intros [e|[]] w' Ho.
  - wp_step; wp_step; [|done]. destruct (delete_missing _ _ _ _ Ho) as [-> Hnone]; [done|]. do 3 (split; [done|]).
    intros rel Hrel. exists rel. split; [done|]. symmetry. apply map_filter_id. intros k r Hr. simpl.
    rewrite <-(strict_rows t w rel r) by done. by eapply Hnone.
  - wp_step. destruct (delete_removes _ _ _ Ho) as (rel & Hrel & Hw). destruct Hw as [E1 E2 Hp' Hkeys]. do 2 (split; [auto|]).
    assert (Hrows : rows (rl_rows (mkRelation (delete_rows (fun r => reaches w rel r && has_key id r) (rl_rows rel))
        (rl_enabled rel) (rl_forced rel) (rl_policy rel))) =
      filter (fun kr => bool_decide (rw_TenantID kr.2 = Some t) && has_key id kr.2 = false) (rows (rl_rows rel))).
    { simpl. rewrite rows_delete. apply map_filter_ext. intros k r _. simpl. by rewrite (strict_rows t). }
    split.
    + intros rel2 k r i Hrel2 Hr Hi. assert (rel2 = mkRelation (delete_rows (fun r => reaches w rel r && has_key id r) (rl_rows rel))
        (rl_enabled rel) (rl_forced rel) (rl_policy rel)) as -> by congruence.
      rewrite Hrows in Hr. apply map_lookup_filter_Some in Hr as [Hr _]. by eapply Hk.
    + intros rel0 Hrel0. assert (rel0 = rel) as -> by congruence. eexists. split; [exact Hkeys|]. exact Hrows.
Qed.

Lemma wp_Delete ctx t id (w : Plane) : plane_ok w ->
  wp false (Delete ctx t id) w (fun r (w' : Plane) => match r with
    | inl _ => w' = w
    | inr _ => unprojected t id w w' end).
Proof.
  intros (Hc & Hp & Hk & rel0 & Hrel0). unfold Delete. wp_step; [by wp_step|]. wp_step.
  destruct (ScopedContext ctx t) as [e|c] eqn:Ec; cbn [of_result]; wp_step; [done|].
  destruct (scoped_names _ _ _ Ec) as [Ef Hne]. wp_step. wp_step. wp_step.
  eapply wp_mono; [apply (wp_tenant_tx _ t _ _ (fun _ w0 w1 => keyed w1 /\
    (forall rel, cn_tables w0 !! keys_table = Some rel -> exists rel', cn_tables w1 !! keys_table = Some rel' /\
      rows (rl_rows rel') = filter (fun kr => bool_decide (rw_TenantID kr.2 = Some t) && has_key id kr.2 = false) (rows (rl_rows rel))))); [done..|]|].
  { intros w0 Hp0 Hs0 Et Es. assert (Hk0 : keyed w0) by by eapply keyed_of_tables.
    eapply wp_mono; [by apply (wp_delete_tx t)|]. intros [e|[]] w1; [done|]. by intros (? & ? & ? & ?). }
  intros [e|[]] c'; [intros ->; by destruct w|]. intros (Hc' & Hp' & w0 & w1 & [Hk1 Hf] & Et0 & Et').
  unfold runtime_DeleteVirtualKey. wp_step. split; [cbn [pl_runtime]; by rewrite cached_delete|].
  rewrite Et0 in Hf. split; [|cbn [pl_config]; rewrite Et'; exact Hf].
  split; [done|]. split; [done|]. split; [by apply (keyed_of_tables w1)|]. cbn [pl_config]. rewrite Et'.
  by destruct (Hf _ Hrel0) as (? & -> & _).
Qed.

(** ** What a node serves *)
Definition config_generation (h : string) : Z :=
  match sdrop (String.length hash_prefix) h with
  | String "-" s => - default 0 (parse_digits 0 s)
  | s => default 0 (parse_digits 0 s)
  end.

(** The tenant of the row a key is stored in. *)
Definition key_tenant w id : string :=
  default EmptyString (rel ← cn_tables w !! keys_table; r ← rows (rl_rows rel) !! primary id; rw_TenantID r).

(** The snapshot a cached key came from. *)
Definition snapshot w id (k : TableVirtualKey) : Projection :=
  mkProjection (tv_ID k) (key_tenant w id) (sdrop (String.length description_prefix) (tv_Description k)) (tv_Value k)
    (config_generation (tv_ConfigHash k)).

Definition serving (w : Plane) : gmap string Projection :=
  map_imap (fun id k => Some (snapshot (pl_config w) id k)) (cached (pl_runtime w)).

Lemma lookup_serving (w : Plane) id : serving w !! id = snapshot (pl_config w) id <$> cached (pl_runtime w) !! id.
Proof. unfold serving. rewrite map_lookup_imap. by destruct (_ !! id). Qed.

Lemma config_generation_pretty z : config_generation (hash_prefix +:+ pretty z) = z.
Proof.
  unfold config_generation. rewrite sdrop_app. destruct z as [|p|p]; [done| |].
  - change (pretty (Z.pos p)) with (pretty_N_go (N.pos p) EmptyString).
    destruct (pretty_N_go_head p) as (c & s & E & Hc). pose proof (parse_pretty_N (N.pos p)) as Hp. rewrite E in *.
    destruct c as [[] [] [] [] [] [] [] []]; try done; by rewrite Hp.
  - change (- default 0 (parse_digits 0 (pretty_N_go (N.pos p) EmptyString)) = Z.neg p). by rewrite (parse_pretty_N (N.pos p)).
Qed.

(** A key read back is the snapshot it was written from. *)
Lemma snapshot_stored w loaded created updated p : same_key loaded (virtual_key p created updated) ->
  key_tenant w (pr_ID p) = pr_TenantID p -> snapshot w (pr_ID p) loaded = p.
Proof.
  intros (E1 & E2 & E3 & E4) Ht. unfold snapshot. rewrite Ht, E1, E2, E3, E4. cbn [virtual_key tv_ID tv_Description tv_Value tv_ConfigHash].
  rewrite sdrop_app, config_generation_pretty. by destruct p.
Qed.

Lemma projected_serves created updated p (w w' : Plane) : projected created updated p w w' ->
  serving w' = <[pr_ID p := p]> (serving w).
Proof.
  intros (loaded & Hl & Ec & (r & (rel & rel' & Hrel & Hrel' & Erows) & Ht & Hh) & _). apply map_eq. intros id.
  rewrite lookup_serving, Ec, !lookup_insert. case_decide as E.
  - subst id. simpl. f_equal. eapply snapshot_stored; [done|]. unfold key_tenant. rewrite Hrel'. simpl.
    rewrite Erows, lookup_insert_eq. simpl. by rewrite Ht.
  - rewrite lookup_serving. destruct (cached _ !! id) as [k|]; [|done]. simpl. f_equal. unfold snapshot. f_equal.
    unfold key_tenant. rewrite Hrel, Hrel'. simpl. rewrite Erows, lookup_insert_ne; [done|]. by intros ?%primary_inj.
Qed.

Lemma unprojected_serves t id (w w' : Plane) : plane_ok w -> unprojected t id w w' -> serving w' = delete id (serving w).
Proof.
  intros (_ & _ & Hk & rel & Hrel) (Ec & _ & Hf). destruct (Hf rel Hrel) as (rel' & Hrel' & Erows). apply map_eq. intros i.
  rewrite lookup_serving, Ec, !lookup_delete. case_decide as E; [done|].
  rewrite lookup_serving. destruct (cached _ !! i) as [k|]; [|done]. simpl. f_equal. unfold snapshot. f_equal.
  unfold key_tenant. rewrite Hrel, Hrel'. simpl. rewrite Erows, map_lookup_filter.
  destruct (rows (rl_rows rel) !! primary i) as [r|] eqn:Er; [|done]. simpl. case_guard as Eg; [done|]. exfalso. apply Eg.
  apply andb_false_iff. right. destruct (has_key id r) eqn:Eh; [|done]. apply has_key_spec in Eh.
  pose proof (Hk _ _ _ _ Hrel Er Eh) as ?%primary_inj. by subst.
Qed.

Lemma Upsert_serves ctx created updated p (w w' : Plane) r : plane_ok w -> outcome (Upsert ctx created updated p) w r w' ->
  plane_ok w' /\ match r with inr _ => serving w' = <[pr_ID p := p]> (serving w) | inl _ => w' = w end.
Proof.
  intros Hw Ho. pose proof (wp_outcome _ _ _ _ _ (wp_Upsert ctx created updated p w Hw) Ho) as Hr. simpl in Hr.
  destruct r as [e|[]]; [by subst|]. split; [by destruct Hr as (? & _ & _ & _ & ? & _)|by eapply projected_serves].
Qed.

Lemma Delete_serves ctx t id (w w' : Plane) r : plane_ok w -> outcome (Delete ctx t id) w r w' ->
  plane_ok w' /\ match r with inr _ => serving w' = delete id (serving w) | inl _ => w' = w end.
Proof.
  intros Hw Ho. pose proof (wp_outcome _ _ _ _ _ (wp_Delete ctx t id w Hw) Ho) as Hr. simpl in Hr.
  destruct r as [e|[]]; [by subst|]. split; [apply Hr|by eapply unprojected_serves].
Qed.

(** C23. The adapter implements the target its projector relies on.  What a node
    serves is read off its in-process view and its key table (identifier, name,
    secret and generation of the cached key, tenant of the row).  A snapshot
    upserted without an error is served from then on, under its identifier and
    with its own tenant, and every other key is served as before; a deletion
    without an error removes that key alone; a call that fails, in whichever
    statement, changes neither the table nor the view.  And the connection is
    left clean with its policies and its keys in place, whatever happened, so
    calls can follow one another. *)
Theorem adapter_implements_target ctx created updated p t id (w w' : Plane) r : plane_ok w ->
  (outcome (Upsert ctx created updated p) w r w' ->
     plane_ok w' /\ match r with inr _ => serving w' = <[pr_ID p := p]> (serving w) | inl _ => w' = w end) /\
  (outcome (Delete ctx t id) w r w' ->
     plane_ok w' /\ match r with inr _ => serving w' = delete id (serving w) | inl _ => w' = w end).
Proof. intros Hw. split; [by apply Upsert_serves|by apply Delete_serves]. Qed.

(** ** The adapter as the projector's target *)
Section AsTarget.
  Variables (ctx : Context) (clock : Plane -> Z * Z).

Definition Attached : Type := {s : Plane * list (option string) | plane_ok s.1}.

Definition keeps (m : M Plane unit) : Prop := forall (y y' : Plane) r, plane_ok y -> outcome m y r y' -> plane_ok y'.

Lemma outcome_under {A} (m : M Plane A) v sc : outcome m v (m v sc).1.1 (m v sc).1.2.
Proof. exists sc, (m v sc).2. by destruct (m v sc) as [[]]. Qed.

Definition attached_step (m : Plane -> M Plane unit) (Hm : forall v, keeps (m v)) (s : Attached) : option error * Attached :=
  let x := m (`s).1 (`s).1 (`s).2 in
  (match x.1.1 with inl e => Some e | inr _ => None end,
   (x.1.2, x.2) ↾ Hm _ _ _ _ (proj2_sig s) (outcome_under (m (`s).1) (`s).1 (`s).2)).

Lemma attached_step_outcome m Hm s : exists r y', outcome (m (`s).1) (`s).1 r y' /\
  (attached_step m Hm s).1 = match r with inl e => Some e | inr _ => None end /\ (proj1_sig (attached_step m Hm s).2).1 = y'.
Proof. eexists _, _. split; [apply outcome_under|done]. Qed.

Definition attached_upsert (p : Projection) : Attached -> option error * Attached :=
  attached_step (fun v => Upsert ctx (clock v).1 (clock v).2 p) (fun v (y y' : Plane) r Hw Ho => proj1 (Upsert_serves _ _ _ _ _ _ _ Hw Ho)).
Definition attached_delete (t id : string) : Attached -> option error * Attached :=
  attached_step (fun _ => Delete ctx t id) (fun _ (y y' : Plane) r Hw Ho => proj1 (Delete_serves _ _ _ _ _ _ Hw Ho)).

#[refine] Definition adapter_target : Target := {|
  tstate := Attached; served := fun s => serving (`s).1;
  VirtualKey.Upsert := attached_upsert; VirtualKey.Delete := attached_delete |}.
Proof.
  - intros p s. destruct (attached_step_outcome (fun v => Upsert ctx (clock v).1 (clock v).2 p)
      (fun v (y y' : Plane) r Hw Ho => proj1 (Upsert_serves _ _ _ _ _ _ _ Hw Ho)) s) as (r & y' & Ho & E1 & E2).
    unfold attached_upsert. destruct (attached_step _ _ s) as [e s']. simpl in *. subst.
    destruct (Upsert_serves _ _ _ _ _ _ _ (proj2_sig s) Ho) as [_ Hr]. destruct r; [left; by rewrite Hr|exact Hr].
  - intros t id s. destruct (attached_step_outcome (fun _ => Delete ctx t id)
      (fun _ (y y' : Plane) r Hw Ho => proj1 (Delete_serves _ _ _ _ _ _ Hw Ho)) s) as (r & y' & Ho & E1 & E2).
    unfold attached_delete. destruct (attached_step _ _ s) as [e s']. simpl in *. subst.
    destruct (Delete_serves _ _ _ _ _ _ (proj2_sig s) Ho) as [_ Hr]. destruct r; [left; by rewrite Hr|exact Hr].
Defined.

End AsTarget.

(** ** What the resolver finds *)
Definition only_at (value : string) (k : Z) w : Prop := forall rel k' r,
  cn_tables w !! keys_table = Some rel -> rows (rl_rows rel) !! k' = Some r -> value_hash_is value r = true -> k' = k.

(** The resolver's answer for a projected key. *)
Definition opened (p : Projection) (row : Row) (now : Z) : error + string :=
  if expired now (kc_ExpiresAt (cols row)) then inl (Wrap "%w: key is expired" ErrInvalidVirtualKey) else inr (pr_TenantID p).

Lemma verdict_projected p (aw : AuthDB) row owner now later : kc_ID (cols row) = pr_ID p -> pr_ID p <> EmptyString ->
  kc_IsActive (cols row) = Some true -> rw_TenantID row = Some (pr_TenantID p) -> pr_TenantID p <> EmptyString ->
  rows (au_registry aw) !! pr_TenantID p = Some owner -> CanServeTraffic (Some owner) later = true ->
  verdict aw row now later = opened p row now.
Proof.
  intros Ei Hi Ea Ht Hte Hown Hserve. unfold verdict, opened. rewrite Ei, Ea, Ht, expired_spec. unfold is_empty.
  rewrite !bool_decide_eq_false_2 by done. case_match; [done|]. destruct (pr_TenantID p) as [|c s]; [done|]. by rewrite Hown, Hserve.
Qed.

Lemma runs_resolve_projected ctx created updated p reader now later registry owner (w w' : Plane) : plane_ok w ->
  outcome (Upsert ctx created updated p) w (inr tt) w' ->
  only_at (pr_Secret p) (primary (pr_ID p)) (pl_config w) -> FromContext reader = EmptyString ->
  (forall t owner, rows registry !! t = Some owner -> tn_ID owner = t) ->
  rows registry !! pr_TenantID p = Some owner -> CanServeTraffic (Some owner) later = true ->
  exists row x, stored_key (pl_config w') row /\ kc_ID (cols row) = pr_ID p /\
    runs (ResolveVirtualKey (Some "postgres") reader (pr_Secret p) now later) (mkAuthDB (pl_config w') registry) (opened p row now) x.
Proof.
  intros Hw Ho Hu Hr Hreg Hown Hserve. pose proof (wp_outcome _ _ _ _ _ (wp_Upsert ctx created updated p w Hw) Ho) as Hp. simpl in Hp.
  destruct Hp as (loaded & _ & _ & (r & (rel & rel' & Hrel & Hrel' & Erows) & Ht & [Eid _ (Ei & Ea & Ev)]) & (Hc & Hpol & _) & Hi & Hte & Hs).
  cbn [virtual_key tv_ID tv_Value] in *.
  assert (Hat : rows (rl_rows rel') !! primary (pr_ID p) = Some r) by (rewrite Erows; apply lookup_insert_eq).
  assert (Hh : value_hash_is (pr_Secret p) r = true) by by apply bool_decide_eq_true_2.
  assert (Hu' : forall k' r', rows (rl_rows rel') !! k' = Some r' -> value_hash_is (pr_Secret p) r' = true -> k' = primary (pr_ID p)).
  { intros k' r'. rewrite Erows, lookup_insert. case_decide; [done|]. by apply Hu. }
  destruct (wp_runs _ _ _ (wp_verdict (pr_Secret p) now later reader (mkAuthDB (pl_config w') registry) rel' (primary (pr_ID p)) r
    Hc Hpol Hr Hs Hrel' Hat Hh Hu' Hreg)) as (v & x & Hrun & ->).
  exists r, x. split; [by exists rel', (primary (pr_ID p))|]. split; [done|].
  by rewrite <-(verdict_projected p (mkAuthDB (pl_config w') registry) r owner now later).
Qed.

Lemma deleted_unresolved ctx t id value reader now later registry (w w' : Plane) dialect r x : plane_ok w ->
  outcome (Delete ctx t id) w (inr tt) w' ->
  (forall row, stored_key (pl_config w) row -> opens value now row -> rw_TenantID row = Some t /\ has_key id row = true) ->
  outcome (ResolveVirtualKey dialect reader value now later) (mkAuthDB (pl_config w') registry) r x -> exists e, r = inl e.
Proof.
  intros Hw Ho Hopen Hx. pose proof (wp_outcome _ _ _ _ _ (wp_Delete ctx t id w Hw) Ho) as (_ & (Hc & _) & Hf).
  pose proof (wp_outcome _ _ _ _ _ (wp_ResolveVirtualKey dialect reader value now later (mkAuthDB (pl_config w') registry) Hc) Hx) as Hres.
  destruct r as [e|t']; [by exists e|]. exfalso.
  destruct Hres as (_ & _ & _ & row & owner & (rel' & k & Hrel' & Hk) & Hop & _). cbn [au_config] in *.
  destruct Hw as (_ & _ & _ & rel & Hrel). destruct (Hf rel Hrel) as (rel2 & Hrel2 & Erows).
  assert (rel2 = rel') as -> by congruence. rewrite Erows in Hk. apply map_lookup_filter_Some in Hk as [Hk Hno].
  destruct (Hopen row) as [Et Eh]; [by exists rel, k|done|]. simpl in Hno. by rewrite Eh, bool_decide_eq_true_2 in Hno.
Qed.

(** C24. What was projected is what requests are resolved to.  After an upsert
    that reported success, a resolver reading the same key table across all
    tenants answers the projected secret with the projected tenant, if that
    tenant may serve and the row carries no expiry that has passed, provided no
    other row stores the same hash; and after a deletion that reported success,
    whatever the schedule of driver failures, no secret that opened this
    tenant's key alone is resolved any more. *)
Theorem projection_reaches_resolver ctx created updated p t id value reader now later registry owner (w w' : Plane) :
  plane_ok w ->
  (outcome (Upsert ctx created updated p) w (inr tt) w' ->
   only_at (pr_Secret p) (primary (pr_ID p)) (pl_config w) -> FromContext reader = EmptyString ->
   (forall t owner, rows registry !! t = Some owner -> tn_ID owner = t) ->
   rows registry !! pr_TenantID p = Some owner -> CanServeTraffic (Some owner) later = true ->
   exists row x, stored_key (pl_config w') row /\ kc_ID (cols row) = pr_ID p /\
     runs (ResolveVirtualKey (Some "postgres") reader (pr_Secret p) now later) (mkAuthDB (pl_config w') registry)
       (opened p row now) x) /\
  (outcome (Delete ctx t id) w (inr tt) w' ->
   (forall row, stored_key (pl_config w) row -> opens value now row -> rw_TenantID row = Some t /\ has_key id row = true) ->
   forall dialect r x, outcome (ResolveVirtualKey dialect reader value now later) (mkAuthDB (pl_config w') registry) r x ->
   exists e, r = inl e).
Proof. intros Hw. split; [intros; by eapply runs_resolve_projected|intros; by eapply deleted_unresolved]. Qed.

End Spec.

(** ** A concrete gateway *)
Section Plain.
  Context `{Sql}.

(** A model that stores its columns in the clear, but for the hash. *)
Definition plain_columns (data : gmap string string) : KeyColumns :=
  mkKeyColumns (default EmptyString (data !! "id"))
    (match data !! "is_active" with Some "true" => Some true | Some _ => Some false | None => None end)
    None None (data !! "value_hash") None None.
Definition plain_gateway : GatewayKeys := {|
  HashSHA256 v := "h:" +:+ v; IsSecretRef _ := false; columns := plain_columns;
  ParseVirtualKeyFromFastHTTPRequest l := match l with (_, v) :: _ => Some v | [] => None end |}.
#[local] Existing Instance plain_gateway.

Definition hashed (vk : TableVirtualKey) : TableVirtualKey :=
  mkTableVirtualKey (tv_ID vk) (tv_Name vk) (tv_Description vk) (tv_Value vk) (HashSHA256 (tv_Value vk)) "plain_text"
    (tv_IsActive vk) (tv_AllowAllProviders vk) (tv_ConfigHash vk) (tv_CreatedAt vk) (tv_UpdatedAt vk).
Definition plain_scan (data : gmap string string) : TableVirtualKey :=
  let text name := default EmptyString (data !! name) in
  mkTableVirtualKey (text "id") (text "name") (text "description") (text "value") (text "value_hash") (text "encryption_status")
    (bool_decide (data !! "is_active" = Some "true")) true (text "config_hash") 0 0.
Definition plain_model : VirtualKeyModel := {|
  BeforeSave vk := inr (hashed vk); scan data := inr (plain_scan data); time_text := pretty |}.
#[local] Existing Instance plain_model.

Definition plain_missing : error := New "not found".
Definition resaved (vk : TableVirtualKey) (r : Row) : Row := mkRow (rw_TenantID r) (saved_columns (hashed vk)).
Definition plain_update (vk : TableVirtualKey) : M Conn unit :=
  exec (UpdateWhere keys_table (has_key (tv_ID vk)) (resaved vk));; mret tt.
Definition plain_delete (id : string) : M Conn unit :=
  found ← exec (Select keys_table (has_key id));
  match found with [] => throw plain_missing | _ :: _ => exec (DeleteWhere keys_table (has_key id));; mret tt end.

Lemma resaved_holds vk tenant : tv_IsActive vk = true -> holds_key vk (mkRow tenant (saved_columns (hashed vk))).
Proof.
  intros Ha. split.
  - reflexivity.
  - exists (plain_scan (saved_columns (hashed vk))). split; [done|]. done.
  - done.
Qed.

Lemma rewrote_table (w : Conn) rel rows' : cn_tables w !! keys_table = Some rel ->
  rewrote w rel rows' (mkConn (cn_session w) (cn_local w)
    (<[keys_table := mkRelation rows' (rl_enabled rel) (rl_forced rel) (rl_policy rel)]> (cn_tables w))).
Proof.
  intros Hrel. split; [done|done| |apply lookup_insert_eq]. intros Hp. by apply policed_insert.
Qed.

Lemma wp_plain_update vk (w : Conn) : tv_IsActive vk = true -> wp false (plain_update vk) w (fun r w' => match r with
  | inl _ => True
  | inr _ => exists rel g, cn_tables w !! keys_table = Some rel /\
      rewrote w rel (update_rows (fun r => reaches w rel r && has_key (tv_ID vk) r) g (rl_rows rel)) w' /\
      forall r, rw_TenantID (g r) = rw_TenantID r /\ holds_key vk (g r)
  end).
Proof.
  intros Ha. unfold plain_update. apply wp_bind. unfold exec, on_relation. apply wp_sql; [done|].
  destruct (cn_tables w !! keys_table) as [rel|] eqn:Hrel; [|done]. destruct (forallb _ _); [|done]. cbn [fst snd]. wp_step.
  exists rel, (resaved vk). split; [done|]. split; [by apply rewrote_table|]. intros r. split; [done|by apply resaved_holds].
Qed.

Lemma wp_plain_delete id (w : Conn) : wp false (plain_delete id) w (fun r w' => match r with
  | inr _ => exists rel, cn_tables w !! keys_table = Some rel /\
      rewrote w rel (delete_rows (fun r => reaches w rel r && has_key id r) (rl_rows rel)) w'
  | inl e => errors_is e plain_missing = true -> w' = w /\ forall rel k r, cn_tables w !! keys_table = Some rel ->
      rows (rl_rows rel) !! k = Some r -> reaches w rel r && has_key id r = false
  end).
Proof.
  unfold plain_delete. apply wp_bind, wp_select; [done|done|]. intros rel Hrel.
  destruct (where_ _ (rl_rows rel)) as [|r l] eqn:Ew.
  - wp_step. intros _. split; [done|]. intros rel' k r Hrel' Hk. assert (rel' = rel) as -> by congruence.
    exact (proj1 (where_nil _ _) Ew k r Hk).
  - apply wp_bind. unfold exec, on_relation. apply wp_sql; [done|]. rewrite Hrel. cbn [fst snd]. wp_step. exists rel.
    split; [done|by apply rewrote_table].
Qed.

#[refine] Definition plain_store : BifrostStore := {|
  ErrNotFound := plain_missing; UpdateVirtualKey := plain_update; DeleteVirtualKey := plain_delete |}.
Proof.
  - intros vk vk' tenant [= <-] Ha. split; [done|by apply resaved_holds].
  - intros vk w w' Ho Ha. exact (wp_outcome _ _ _ _ _ (wp_plain_update vk w Ha) Ho).
  - intros id w w' Ho. exact (wp_outcome _ _ _ _ _ (wp_plain_delete id w) Ho).
  - intros id w e w' Ho He. exact (wp_outcome _ _ _ _ _ (wp_plain_delete id w) Ho He).
Defined.
#[local] Existing Instance plain_store.

End Plain.

#[refine] Definition plain_view : GovernanceStore := {|
  view := gmap string TableVirtualKey; cached v := v;
  UpdateVirtualKeyInMemory k v := <[tv_ID k := k]> v; DeleteVirtualKeyInMemory id v := delete id v |}.
Proof. - done. - done. Defined.

(** ** Witnesses *)
Section Demo.
#[local] Existing Instances map_sql plain_gateway plain_model plain_store plain_view.

Definition demo_row : Row := mkRow (Some "t2") {["id" := "vk_2"; "is_active" := "true"; "value_hash" := "h:sk-2"]}.
Definition demo_relation : Relation := mkRelation {[primary "vk_2" := demo_row]} true true (Some (policyClauses PolicyStrict)).
Definition demo_plane : Plane := mkPlane (mkConn ∅ None {[ keys_table := demo_relation ]}) ∅.
Definition demo_projection : Projection := mkProjection "vk_1" "t1" "ci" "sk-1" 7.
Definition demo_upsert : M Plane unit := Upsert Background 100 101 demo_projection.
Definition demo_delete : M Plane unit := Delete Background "t2" "vk_2".

Lemma demo_plane_ok : plane_ok demo_plane.
Proof.
  split; [split; [reflexivity|split; [reflexivity|discriminate]]|]. split.
  - intros name kind rel Hk Hrel. simpl in Hrel. apply lookup_singleton_Some in Hrel as [<- <-]. injection Hk as <-. split_and!; reflexivity.
  - split; [|eexists; reflexivity]. intros rel k r id Hrel. simpl in Hrel. apply lookup_singleton_Some in Hrel as [_ <-].
    intros Hr. simpl in Hr. apply lookup_singleton_Some in Hr as [<- <-]. intros Hid. vm_compute in Hid. injection Hid as <-. reflexivity.
Qed.

Lemma demo_upsert_ok : result demo_upsert demo_plane = inr tt.
Proof. vm_compute. reflexivity. Qed.

Lemma demo_upserted : outcome demo_upsert demo_plane (inr tt) (after demo_upsert demo_plane).
Proof. rewrite <-demo_upsert_ok. apply outcome_after. Qed.

Lemma demo_delete_ok : result demo_delete demo_plane = inr tt.
Proof. vm_compute. reflexivity. Qed.

Lemma demo_deleted : outcome demo_delete demo_plane (inr tt) (after demo_delete demo_plane).
Proof. rewrite <-demo_delete_ok. apply outcome_after. Qed.

Definition demo_registry : gmap string Tenant := {["t1" := mkTenant "t1" "acme" "Acme" Lifecycle.StatusActive None 1 1 1]}.

Lemma adapter_implements_target_witness :
  serving (after demo_upsert demo_plane) = <["vk_1" := demo_projection]> (serving demo_plane) /\
  serving (after demo_delete demo_plane) = delete "vk_2" (serving demo_plane).
Proof.
  split.
  - exact (proj2 (proj1 (adapter_implements_target Background 100 101 demo_projection "t2" "vk_2" demo_plane
      (after demo_upsert demo_plane) (inr tt) demo_plane_ok) demo_upserted)).
  - exact (proj2 (proj2 (adapter_implements_target Background 100 101 demo_projection "t2" "vk_2" demo_plane
      (after demo_delete demo_plane) (inr tt) demo_plane_ok) demo_deleted)).
Defined.

Lemma demo_stored row : stored_key (pl_config demo_plane) row -> row = demo_row.
Proof.
  intros (rel & k & Hrel & Hk). simpl in Hrel. apply lookup_singleton_Some in Hrel as [_ <-]. simpl in Hk.
  by apply lookup_singleton_Some in Hk as [_ <-].
Qed.

Lemma projection_reaches_resolver_witness :
  (exists row x, stored_key (pl_config (after demo_upsert demo_plane)) row /\ kc_ID (cols row) = "vk_1" /\
     runs (ResolveVirtualKey (Some "postgres") (Some Background) "sk-1" 50 50)
       (mkAuthDB (pl_config (after demo_upsert demo_plane)) demo_registry) (opened demo_projection row 50) x) /\
  (forall r x, outcome (ResolveVirtualKey (Some "postgres") (Some Background) "sk-2" 50 50)
     (mkAuthDB (pl_config (after demo_delete demo_plane)) demo_registry) r x -> exists e, r = inl e).
Proof.
  split.
  - refine (proj1 (projection_reaches_resolver Background 100 101 demo_projection "t2" "vk_2" "sk-2" (Some Background) 50 50
      demo_registry (mkTenant "t1" "acme" "Acme" Lifecycle.StatusActive None 1 1 1) demo_plane (after demo_upsert demo_plane)
      demo_plane_ok) demo_upserted _ _ _ _ _).
    + intros rel k r Hrel Hr. rewrite (demo_stored r) by by exists rel, k. by vm_compute.
    + reflexivity.
    + assert (Hall : map_Forall (fun t owner => tn_ID owner = t) demo_registry) by (apply (bool_decide_unpack _); vm_compute; exact I).
      intros t owner Ho. exact (Hall t owner Ho).
    + reflexivity.
    + reflexivity.
  - refine (proj2 (projection_reaches_resolver Background 100 101 demo_projection "t2" "vk_2" "sk-2" (Some Background) 50 50
      demo_registry (mkTenant "t1" "acme" "Acme" Lifecycle.StatusActive None 1 1 1) demo_plane (after demo_delete demo_plane)
      demo_plane_ok) demo_deleted _ (Some "postgres")).
    intros row Hrow _. rewrite (demo_stored row Hrow). split; reflexivity.
Defined.

End Demo.
