(* ===== verification/ProviderKeys.v ===== *)
(** * The provider key store (internal/bifroststore/provider_keys.go)

    The wrapper the management API writes provider settings and keys through:
    those rows belong to no tenant, so each write runs in platform mode, in a
    transaction of its own or in the caller's, and never on a context that has
    a tenant.  The wrapped store and the models of its two tables are
    third-party interfaces. *)
From S2P Require Import Prelude GoStrings Sql TenantScope Isolation TenantAuth.

(** [touched]: what a model maintains beside the columns a statement sets. *)
Class ProviderModels := {
  provider_table : string;
  touched : gmap string string -> gmap string string;
  provider_not_scoped : PolicyKindFor provider_table = None;
  touched_others : forall data c, c <> "updated_at" -> touched data !! c = data !! c }.

(** Statements that leave the settings of the connection alone. *)
Definition keeps_settings `{Sql} (m : M Conn unit) : Prop := forall w r w',
  outcome m w r w' -> cn_session w' = cn_session w /\ cn_local w' = cn_local w.

(** The wrapped store, inside the transaction it is handed. *)
Class ProviderStore `{Sql} := {
  ProviderConfig : Type; SecretKey : Type;
  UpdateProvider : string -> ProviderConfig -> M Conn unit;
  CreateProviderKey : string -> SecretKey -> M Conn unit;
  UpdateProviderKey : string -> string -> SecretKey -> M Conn unit;
  DeleteProviderKey : string -> string -> M Conn unit;
  ErrNotFound : error;
  update_settings : forall provider config, keeps_settings (UpdateProvider provider config);
  create_key_settings : forall provider key, keeps_settings (CreateProviderKey provider key);
  update_key_settings : forall provider keyID key, keeps_settings (UpdateProviderKey provider keyID key);
  delete_key_settings : forall provider keyID, keeps_settings (DeleteProviderKey provider keyID) }.

Section Store.
  Context `{Sql} `{ProviderModels} `{!ProviderStore}.

Definition errNilTransaction : error := New "bifroststore: provider configuration write received a nil transaction".

(** [inner]: nil, a store without a database, a store. *)
Definition NewPlatformProviderKeyStore (inner : option (option unit)) : option error :=
  match inner with
  | None => Some (New "bifroststore: ConfigStore is required")
  | Some None => Some (New "bifroststore: ConfigStore database is required")
  | Some (Some _) => None
  end.

(** [txs]: the optional argument; the transaction handed in is the connection's. *)
Definition withPlatformTransaction (ctx : option Context) (txs : list (option unit)) (write : M Conn unit) : M Conn unit :=
  if negb (is_empty (FromContext ctx))
  then throw (Wrap "%w: tenant %q is resolved on this context" ErrPlatformModeWithTenant) else
  match txs with
  | [] => RunAcrossTenants ctx write
  | None :: _ => throw errNilTransaction
  | Some _ :: _ =>
      wrapping "bifroststore: enable platform mode for Provider configuration write: %w" EnablePlatformMode;; write
  end.

Definition column_is (c value : string) (r : Row) : bool := bool_decide (rw_Data r !! c = Some value).

Definition with_status (status description : string) (r : Row) : Row :=
  mkRow (rw_TenantID r) (touched (<["status" := status]> (<["description" := description]> (rw_Data r)))).

(** An UPDATE and the number of rows it affected. *)
Definition updates (name : string) (p : Row -> bool) (g : Row -> Row) : M Conn Z :=
  changed ← on_relation name (fun w rel =>
    let target := fun r => reaches w rel r && p r in
    if forallb (fun r => may_write w rel (g r)) (where_ target (rl_rows rel))
    then inr (where_ target (rl_rows rel), update_rows target g (rl_rows rel)) else inl ErrPolicy);
  mret (Z.of_nat (length changed)).

Definition updateStatusInTransaction (provider keyID status description : string) : M Conn unit :=
  affected ← (if negb (is_empty keyID) then updates CClassTable (column_is "key_id" keyID) (with_status status description)
              else if negb (is_empty provider) then updates provider_table (column_is "name" provider) (with_status status description)
              else throw (New "bifroststore: either keyID or provider must be non-empty"));
  if affected =? 0 then throw ErrNotFound else mret tt.

Definition UpdateStatus (ctx : option Context) (provider keyID status description : string) : M Conn unit :=
  withPlatformTransaction ctx [] (updateStatusInTransaction provider keyID status description).

(** The operations that take the caller's transactions. *)
Inductive provider_write :=
| WriteProvider (provider : string) (config : ProviderConfig)
| CreateKey (provider : string) (key : SecretKey)
| UpdateKey (provider keyID : string) (key : SecretKey)
| DeleteKey (provider keyID : string).

Definition inner_write (q : provider_write) : M Conn unit :=
  match q with
  | WriteProvider provider config => UpdateProvider provider config
  | CreateKey provider key => CreateProviderKey provider key
  | UpdateKey provider keyID key => UpdateProviderKey provider keyID key
  | DeleteKey provider keyID => DeleteProviderKey provider keyID
  end.

Definition write (ctx : option Context) (q : provider_write) (txs : list (option unit)) : M Conn unit :=
  withPlatformTransaction ctx txs (inner_write q).

End Store.

(** ** Where a write runs *)
Section Spec.
  Context `{Sql} `{ProviderModels} `{!ProviderStore}.
  Implicit Types (w : Conn).

(** Platform mode is on, the tables are those of [w] and so is the tenant binding. *)
Definition platform_scope w w0 : Prop :=
  cn_tables w0 = cn_tables w /\ cn_session w0 = cn_session w /\ current_setting w0 PlatformModeSettingName = PlatformModeOn /\
  current_setting w0 SettingName = current_setting w SettingName.

Lemma wp_EnablePlatformMode h w (Q : error + unit -> Conn -> Prop) : is_Some (cn_local w) ->
  (h = false -> forall e w', cn_tables w' = cn_tables w -> cn_session w' = cn_session w -> Q (inl e) w') ->
  (forall w', platform_scope w w' -> is_Some (cn_local w') -> Q (inr tt) w') -> wp h EnablePlatformMode w Q.
Proof.
  intros [l El] He HQ. unfold EnablePlatformMode, enablePlatformMode, set_config, read_setting. wp_step. wp_step.
  apply wp_sql; cbn [fst snd]; [intros; by apply He|]. rewrite El. simpl fmap. wp_step. wp_step.
  destruct (current_setting_set w PlatformModeSettingName PlatformModeOn l El) as [Hset Hother].
  apply wp_sql; cbn [fst snd]; [intros; by apply He|]. rewrite Hset. rewrite bool_decide_eq_true_2 by done. simpl.
  wp_step. apply HQ; [|by eexists]. split; [done|]. split; [done|]. split; [done|]. by apply Hother.
Qed.

Lemma inner_settings q : keeps_settings (inner_write q).
Proof.
  destruct q; simpl; [apply update_settings|apply create_key_settings|apply update_key_settings|apply delete_key_settings].
Qed.

(** In a transaction of its own. *)
Lemma wp_own_transaction ctx (fn : M Conn unit) w : clean w -> FromContext ctx = EmptyString -> keeps_settings fn ->
  wp false (withPlatformTransaction ctx [] fn) w (fun r w' => match r with
    | inl _ => w' = w
    | inr _ => clean w' /\ exists w0 w1, platform_scope w w0 /\ outcome fn w0 (inr tt) w1 /\ cn_tables w' = cn_tables w1
    end).
Proof.
  intros Hc Hctx Hs. unfold withPlatformTransaction, RunAcrossTenants. rewrite Hctx. change (negb (is_empty EmptyString)) with false. cbn iota.
  destruct (clean_begin w Hc) as [(Ht & Hl & _) Hn], (begin_scope w) as (_ & Et & Es).
  apply wp_Transaction. rewrite Hn. apply wp_bind, wp_EnablePlatformMode; [done|done|].
  intros w0 (E1 & E2 & E3 & E4) _. eapply wp_mono; [apply wp_self|]. intros [e|[]] w1 Ho; [done|]. split; [done|].
  split; [apply (clean_end w); [done|]; destruct (Hs _ _ _ Ho); congruence|]. exists w0, w1.
  split; [|by split]. split; [congruence|]. split; [congruence|]. split; [done|]. destruct Hc as (_ & Hw & _). congruence.
Qed.

(** In the caller's. *)
Lemma wp_callers_transaction ctx txs (fn : M Conn unit) w : is_Some (cn_local w) -> FromContext ctx = EmptyString -> keeps_settings fn ->
  wp false (withPlatformTransaction ctx (Some tt :: txs) fn) w (fun r w' => match r with
    | inl _ => True
    | inr _ => exists w0, platform_scope w w0 /\ outcome fn w0 (inr tt) w' /\ current_setting w' PlatformModeSettingName = PlatformModeOn
    end).
Proof.
  intros Hl Hctx Hs. unfold withPlatformTransaction. rewrite Hctx. change (negb (is_empty EmptyString)) with false. cbn iota. wp_step. wp_step.
  apply wp_EnablePlatformMode; [done|done|]. intros w0 Hsc _. eapply wp_mono; [apply wp_self|]. intros [e|[]] w1 Ho; [done|].
  exists w0. split; [done|]. split; [done|]. destruct (Hs _ _ _ Ho) as [E1 E2], Hsc as (_ & _ & Hm & _).
  unfold current_setting in *. by rewrite E1, E2.
Qed.

(** C38. A provider write never runs but in platform mode.  On a context that
    has a tenant, or handed a nil transaction, it is refused and nothing is
    changed.  Without a transaction it runs once, on the tables of the database,
    with platform mode on and no tenant bound, in a transaction that takes all
    of it or, on an error, nothing, and leaves the pooled connection clean.  In
    the caller's transaction it runs once with platform mode on there, a tenant
    the caller has bound staying bound; the mode is still on when it returns. *)
Theorem provider_writes_in_platform_mode ctx q txs w w' r : outcome (write ctx q txs) w r w' ->
  (FromContext ctx <> EmptyString -> w' = w /\ exists e, r = inl e /\ errors_is e ErrPlatformModeWithTenant = true) /\
  (FromContext ctx = EmptyString -> match txs with
   | [] => clean w -> match r with
       | inl _ => w' = w
       | inr _ => clean w' /\ exists w0 w1, platform_scope w w0 /\ current_setting w0 SettingName = EmptyString /\
           outcome (inner_write q) w0 (inr tt) w1 /\ cn_tables w' = cn_tables w1
       end
   | None :: _ => w' = w /\ r = inl errNilTransaction
   | Some _ :: _ => is_Some (cn_local w) -> r = inr tt -> exists w0, platform_scope w w0 /\
       outcome (inner_write q) w0 (inr tt) w' /\ current_setting w' PlatformModeSettingName = PlatformModeOn
   end).
Proof.
  intros Ho. split.
  - intros Hne. unfold write, withPlatformTransaction, is_empty in Ho. rewrite bool_decide_eq_false_2 in Ho by done.
    refine (wp_outcome _ _ (fun r w' => w' = w /\ exists e, r = inl e /\ errors_is e ErrPlatformModeWithTenant = true) _ _ _ Ho).
    wp_step. split; [done|]. by eexists.
  - intros Hctx. destruct txs as [|[[]|] txs].
    + intros Hc. pose proof (wp_outcome _ _ _ _ _ (wp_own_transaction ctx _ w Hc Hctx (inner_settings q)) Ho) as Hr.
      destruct r as [e|[]]; [done|]. destruct Hr as (Hc' & w0 & w1 & Hsc & Hi & Et). split; [done|]. exists w0, w1.
      split; [done|]. split; [|done]. destruct Hsc as (_ & _ & _ & ->), Hc as (_ & -> & _). done.
    + intros Hl ->. exact (wp_outcome _ _ _ _ _ (wp_callers_transaction ctx txs _ w Hl Hctx (inner_settings q)) Ho).
    + unfold write, withPlatformTransaction in Ho. rewrite Hctx in Ho. change (negb (is_empty EmptyString)) with false in Ho. cbn iota in Ho.
      refine (wp_outcome _ _ (fun r w' => w' = w /\ r = inl errNilTransaction) _ _ _ Ho). by wp_step.
Qed.

(** ** The health of a key *)
(** In platform mode with no tenant bound a table keeps nothing back. *)
Lemma platform_governs w name rel r : policed w -> cn_tables w !! name = Some rel ->
  (PolicyKindFor name = None -> rl_enabled rel && rl_forced rel = false) ->
  current_setting w SettingName = EmptyString -> current_setting w PlatformModeSettingName = PlatformModeOn ->
  reaches w rel r = true /\ may_write w rel r = true.
Proof.
  intros Hp Hrel Hfree Ht Hm. unfold reaches, may_write, governed. destruct (PolicyKindFor name) as [kind|] eqn:Ek.
  - destruct (Hp _ _ _ Ek Hrel) as (E1 & E2 & E3). rewrite E1, E2, E3. cbn [andb].
    destruct (policy_rule kind (current_setting w) (rw_TenantID r)) as [-> ->]. rewrite Ht, Hm. done.
  - by rewrite Hfree.
Qed.

Lemma wp_updates w name rel p g (Q : error + Z -> Conn -> Prop) : cn_tables w !! name = Some rel ->
  (forall r, reaches w rel r = true /\ may_write w rel r = true) ->
  Q (inr (Z.of_nat (length (where_ (fun r => reaches w rel r && p r) (rl_rows rel))))) (mkConn (cn_session w) (cn_local w)
    (<[name := mkRelation (update_rows (fun r => reaches w rel r && p r) g (rl_rows rel)) (rl_enabled rel) (rl_forced rel)
       (rl_policy rel)]> (cn_tables w))) ->
  wp true (updates name p g) w Q.
Proof.
  intros Hrel Hall HQ. unfold updates, on_relation. apply wp_bind, wp_sql; [done|]. rewrite Hrel.
  replace (forallb _ _) with true; [by apply wp_ret|]. symmetry. apply forallb_forall. intros r _. apply Hall.
Qed.

(** The rows an update of the status is for: a key by its identifier if there
    is one, otherwise a provider by its name. *)
Definition aimed_at (provider keyID name c value : string) : Prop :=
  keyID <> EmptyString /\ (name, c, value) = (CClassTable, "key_id", keyID) \/
  keyID = EmptyString /\ provider <> EmptyString /\ (name, c, value) = (provider_table, "name", provider).

(** A row with its health replaced. *)
Definition reported (status description : string) (r r' : Row) : Prop :=
  rw_TenantID r' = rw_TenantID r /\ rw_Data r' !! "status" = Some status /\ rw_Data r' !! "description" = Some description /\
  forall c, c ∉ ["status"; "description"; "updated_at"] -> rw_Data r' !! c = rw_Data r !! c.

Lemma with_status_reported status description r : reported status description r (with_status status description r).
Proof.
  unfold reported, with_status. simpl. rewrite !touched_others by done. split; [done|]. split; [apply lookup_insert_eq|].
  split; [rewrite lookup_insert_ne by done; apply lookup_insert_eq|]. intros c Hc. rewrite !not_elem_of_cons in Hc.
  destruct Hc as (Hc1 & Hc2 & Hc3 & _). rewrite touched_others by done. by rewrite !lookup_insert_ne.
Qed.

(** The table after the update, row by row. *)
Definition health_updated status description (c value : string) rel rel' : Prop :=
  rl_enabled rel' = rl_enabled rel /\ rl_forced rel' = rl_forced rel /\ rl_policy rel' = rl_policy rel /\
  forall k, match rows (rl_rows rel) !! k, rows (rl_rows rel') !! k with
    | Some r, Some r' => if column_is c value r then reported status description r r' else r' = r
    | None, None => True
    | _, _ => False
    end.

Lemma wp_status_in_transaction provider keyID status description w name c value rel :
  aimed_at provider keyID name c value -> cn_tables w !! name = Some rel ->
  (forall r, reaches w rel r = true /\ may_write w rel r = true) ->
  wp true (updateStatusInTransaction provider keyID status description) w (fun r w' =>
    cn_session w' = cn_session w /\ match r with
    | inl e => e = ErrNotFound /\ forall k r, rows (rl_rows rel) !! k = Some r -> column_is c value r = false
    | inr _ => (exists k r, rows (rl_rows rel) !! k = Some r /\ column_is c value r = true) /\
        exists rel', cn_tables w' = <[name := rel']> (cn_tables w) /\ health_updated status description c value rel rel'
    end).
Proof.
  intros Hat Hrel Hall. unfold updateStatusInTransaction. apply wp_bind.
  assert (Hstep : wp true (updates name (column_is c value) (with_status status description)) w (fun r w' => match r with
      | inl e => False
      | inr affected => wp true (if affected =? 0 then throw ErrNotFound else mret tt) w' (fun r w' =>
          cn_session w' = cn_session w /\ match r with
          | inl e => e = ErrNotFound /\ forall k r, rows (rl_rows rel) !! k = Some r -> column_is c value r = false
          | inr _ => (exists k r, rows (rl_rows rel) !! k = Some r /\ column_is c value r = true) /\
              exists rel', cn_tables w' = <[name := rel']> (cn_tables w) /\ health_updated status description c value rel rel'
          end) end)).
  { eapply wp_updates; [exact Hrel|done|]. set (p := fun r => reaches w rel r && column_is c value r).
    assert (Ep : forall r, p r = column_is c value r) by (intros r; unfold p; by rewrite (proj1 (Hall r))).
    destruct (where_ p (rl_rows rel)) as [|r0 l] eqn:Ew.
    - apply wp_throw. split; [done|]. split; [done|]. intros k r Hk. rewrite <-Ep. by apply (proj1 (where_nil _ _) Ew k).
    - apply where_head in Ew as (k0 & Hk0 & Hp0). rewrite Ep in Hp0. apply wp_ret. split; [done|]. split; [by exists k0, r0|].
      eexists. split; [done|]. do 3 (split; [done|]). intros k. simpl. rewrite rows_update, lookup_fmap.
      destruct (rows (rl_rows rel) !! k) as [r|]; [|done]. simpl. rewrite Ep.
      destruct (column_is c value r); [apply with_status_reported|done]. }
  unfold is_empty. destruct Hat as [(Hne & [= -> -> ->])|(-> & Hne & [= -> -> ->])].
  - rewrite bool_decide_eq_false_2 by done. cbn [negb]. eapply wp_mono; [exact Hstep|]. by intros [].
  - rewrite bool_decide_eq_true_2, bool_decide_eq_false_2 by done. cbn [negb]. eapply wp_mono; [exact Hstep|]. by intros [].
Qed.

(** Reporting the health of a provider or of one of its keys, when the
    database answers: the rows of the key (or, without a key identifier, of the
    provider) get the new status and description, whichever tenant they belong
    to, and nothing else is changed in them or in any other row or table; when
    there is no such row the error says so and the database is as before.  The
    connection goes back to the pool clean. *)
Theorem update_status_exact ctx provider keyID status description w name c value rel :
  clean w -> policed w -> FromContext ctx = EmptyString -> aimed_at provider keyID name c value ->
  cn_tables w !! name = Some rel -> (PolicyKindFor name = None -> rl_enabled rel && rl_forced rel = false) ->
  exists r w', runs (UpdateStatus ctx provider keyID status description) w r w' /\ clean w' /\ match r with
    | inl e => e = ErrNotFound /\ w' = w /\ forall k r, rows (rl_rows rel) !! k = Some r -> column_is c value r = false
    | inr _ => (exists k r, rows (rl_rows rel) !! k = Some r /\ column_is c value r = true) /\
        exists rel', cn_tables w' = <[name := rel']> (cn_tables w) /\ health_updated status description c value rel rel'
    end.
Proof.
  intros Hc Hp Hctx Hat Hrel Hfree. apply wp_runs. unfold UpdateStatus, withPlatformTransaction, RunAcrossTenants. rewrite Hctx.
  change (negb (is_empty EmptyString)) with false. cbn iota.
  destruct (clean_begin w Hc) as [(Ht & Hl & _) Hn], (begin_scope w) as (_ & Et & Es). apply wp_Transaction. rewrite Hn.
  apply wp_bind, wp_EnablePlatformMode; [done|done|]. intros w0 (E1 & E2 & E3 & E4) _.
  assert (Hp0 : policed w0) by (intros n kind rel'; rewrite E1, Et; apply Hp).
  eapply wp_mono; [apply (wp_status_in_transaction _ _ _ _ _ name c value rel Hat); [congruence|]|].
  - intros r. apply (platform_governs w0 name); [done|congruence|done|congruence|done].
  - intros [e|[]] w1 (Hs1 & Hr); [split; [done|by destruct Hr]|]. split; [done|].
    split; [apply (clean_end w); [done|congruence]|]. destruct Hr as [Hex (rel' & Ew & Hh)]. split; [done|]. exists rel'.
    split; [|done]. change (cn_tables w1 = <[name:=rel']> (cn_tables w)). congruence.
Qed.

End Spec.

(** ** Witnesses *)
Section Plain.
  Context `{Sql}.

Lemma on_relation_settings name f : keeps_settings (on_relation name f;; mret tt).
Proof.
  intros w r w' Ho. refine (wp_outcome _ _ (fun r w' => cn_session w' = cn_session w /\ cn_local w' = cn_local w) _ _ _ Ho).
  apply wp_bind. unfold on_relation. apply wp_sql; [done|]. destruct (cn_tables w !! name) as [rel|]; [|done].
  destruct (f w rel) as [e|[l rows']]; [done|]. by apply wp_ret.
Qed.

#[refine] Definition plain_providers : ProviderStore := {|
  ProviderConfig := string; SecretKey := string; ErrNotFound := New "not found";
  UpdateProvider provider config := exec (UpdateWhere "config_providers" (column_is "name" provider)
    (fun r => mkRow (rw_TenantID r) (<["config" := config]> (rw_Data r))));; mret tt;
  CreateProviderKey provider key := exec (Insert CClassTable 9 (mkRow None {["key_id" := key; "provider" := provider]}));; mret tt;
  UpdateProviderKey provider keyID key := exec (UpdateWhere CClassTable (column_is "key_id" keyID)
    (fun r => mkRow (rw_TenantID r) (<["value" := key]> (rw_Data r))));; mret tt;
  DeleteProviderKey provider keyID := exec (DeleteWhere CClassTable (column_is "key_id" keyID));; mret tt |}.
Proof. all: intros; apply on_relation_settings. Defined.
End Plain.

#[refine] Definition plain_models : ProviderModels := {|
  provider_table := "config_providers"; touched data := <["updated_at" := "now"]> data |}.
Proof. - reflexivity. - intros data c Hc. by rewrite lookup_insert_ne. Defined.

Section Demo.
#[local] Existing Instances map_sql plain_models plain_providers.

Definition key_rows : gmap Z Row := {[1 := mkRow None {["key_id" := "k1"; "status" := "new"]}; 2 := mkRow (Some "t1") {["key_id" := "k2"]}]}.
Definition key_relation : Relation := mkRelation key_rows true true (Some (policyClauses PolicyPool)).
Definition key_conn : Conn := mkConn ∅ None {[ CClassTable := key_relation ]}.

Lemma key_clean : clean key_conn.
Proof. split; [reflexivity|split; [reflexivity|discriminate]]. Qed.

Lemma key_policed : policed key_conn.
Proof.
  intros name kind rel Hk Hrel. simpl in Hrel. apply lookup_singleton_Some in Hrel as [<- <-]. injection Hk as <-. split_and!; reflexivity.
Qed.

Definition key_created : M Conn unit := write (Some Background) (CreateKey "openai" "k3") [].

Lemma key_created_ok : result key_created key_conn = inr tt.
Proof. vm_compute. reflexivity. Qed.

Lemma provider_writes_in_platform_mode_witness :
  clean (after key_created key_conn) /\ exists w0 w1, platform_scope key_conn w0 /\ current_setting w0 SettingName = EmptyString /\
    outcome (inner_write (CreateKey "openai" "k3")) w0 (inr tt) w1 /\ cn_tables (after key_created key_conn) = cn_tables w1.
Proof.
  pose proof (outcome_after key_created key_conn) as Ho. rewrite key_created_ok in Ho.
  exact (proj2 (provider_writes_in_platform_mode (Some Background) (CreateKey "openai" "k3") [] key_conn _ _ Ho) eq_refl key_clean).
Defined.

Lemma update_status_exact_witness : exists r w', runs (UpdateStatus (Some Background) "openai" "k1" "healthy" "ok") key_conn r w' /\
  clean w' /\ match r with
    | inl e => e = ErrNotFound /\ w' = key_conn /\ forall k r, key_rows !! k = Some r -> column_is "key_id" "k1" r = false
    | inr _ => (exists k r, key_rows !! k = Some r /\ column_is "key_id" "k1" r = true) /\
        exists rel', cn_tables w' = <[CClassTable := rel']> (cn_tables key_conn) /\
          health_updated "healthy" "ok" "key_id" "k1" key_relation rel'
    end.
Proof.
  apply (update_status_exact (Some Background) "openai" "k1" "healthy" "ok" key_conn CClassTable "key_id" "k1" key_relation
    key_clean key_policed).
  - reflexivity.
  - left. split; [discriminate|reflexivity].
  - reflexivity.
  - discriminate.
Defined.

End Demo.
