(* ===== verification/Guardrails.v ===== *)
(** * The guardrails plugin (plugins/guardrails/plugin.go)

    A content policy on both sides of a call: a checker for what comes in and
    one for what goes out, run on the raw bodies of the transport and on the
    JSON text of the gateway's own requests, responses and stream chunks.  The
    gateway's types are third-party; what is used of their encoding is that
    [json.Marshal] escapes the characters of HTML. *)
From S2P Require Import Prelude GoStrings InternalApi Settings.

Definition ErrBlocked : error := New "guardrails: content blocked".

Inductive Direction := DirectionInput | DirectionOutput.
Definition Checker : Type := Direction -> string -> option error.

Definition html_bytes : list ascii := ["<"%char; ">"%char; "&"%char].

Class LLMTypes := {
  BifrostRequest : Type; BifrostResponse : Type; BifrostStreamChunk : Type;
  marshal_request : BifrostRequest -> error + string;
  marshal_response : BifrostResponse -> error + string;
  marshal_chunk : BifrostStreamChunk -> error + string;
  request_escaped : forall req s c, marshal_request req = inr s -> c ∈ html_bytes -> index_byte s c = None;
  response_escaped : forall resp s c, marshal_response resp = inr s -> c ∈ html_bytes -> index_byte s c = None;
  chunk_escaped : forall chunk s c, marshal_chunk chunk = inr s -> c ∈ html_bytes -> index_byte s c = None }.

(** A nil checker checks nothing. *)
Record Plugin := New_ { pg_input : option Checker; pg_output : option Checker }.

(** The refusals; the message is the text of the error. *)
Record HTTPResponse := mkHTTPResponse { hr_StatusCode : Z; hr_ContentType : string; hr_Type : string; hr_Message : error }.
Record BifrostError := mkBifrostError { be_StatusCode : option Z; be_Type : option string; be_Message : error; be_AllowFallbacks : option bool }.

Definition rejectResponse (err : error) : HTTPResponse := mkHTTPResponse 422 "application/json" "content_policy" err.
Definition bifrostError (err : error) : BifrostError := mkBifrostError (Some 422) (Some "content_policy") err (Some false).

(** ** The hooks *)
Section Hooks.
  Context `{LLMTypes}.
  Implicit Types (p : option Plugin).

Definition input_of p : option Checker := p ≫= pg_input.
Definition output_of p : option Checker := p ≫= pg_output.

Definition HTTPTransportPreHook p (req : option string) : option HTTPResponse :=
  match input_of p, req with
  | Some check, Some body => rejectResponse <$> check DirectionInput body
  | _, _ => None
  end.

Definition HTTPTransportPostHook p (resp : option string) : option error :=
  match output_of p, resp with
  | Some check, Some body => check DirectionOutput body
  | _, _ => None
  end.

Definition HTTPTransportStreamChunkHook p (chunk : option BifrostStreamChunk) : option BifrostStreamChunk * option error :=
  match output_of p, chunk with
  | Some check, Some c =>
      match marshal_chunk c with
      | inl err => (None, Some (Wrap "guardrails: encode stream chunk: %w" err))
      | inr body => match check DirectionOutput body with Some err => (None, Some err) | None => (chunk, None) end
      end
  | _, _ => (chunk, None)
  end.

Definition PreLLMHook p (req : option BifrostRequest) : option BifrostRequest * option BifrostError * option error :=
  match input_of p, req with
  | Some check, Some r =>
      match marshal_request r with
      | inl err => (req, None, Some (Wrap "guardrails: encode request: %w" err))
      | inr body =>
          match check DirectionInput body with Some err => (req, Some (bifrostError err), None) | None => (req, None, None) end
      end
  | _, _ => (req, None, None)
  end.

Definition PostLLMHook p (resp : option BifrostResponse) (bifrostErr : option BifrostError) :
    option BifrostResponse * option BifrostError * option error :=
  match bifrostErr, output_of p, resp with
  | None, Some check, Some r =>
      match marshal_response r with
      | inl err => (None, Some (bifrostError err), None)
      | inr body =>
          match check DirectionOutput body with Some err => (None, Some (bifrostError err), None) | None => (resp, None, None) end
      end
  | _, _, _ => (resp, bifrostErr, None)
  end.

End Hooks.

Ltac open_hook := unfold HTTPTransportPreHook, HTTPTransportPostHook, HTTPTransportStreamChunkHook, PreLLMHook, PostLLMHook,
  input_of, output_of; cbn [mbind option_bind pg_input pg_output].

Section Decided.
  Context `{LLMTypes}.

(** The checkers decide.  With a plugin that has them, a body, request,
    response or chunk passes a hook exactly when it could be encoded and its
    checker accepts what it encodes to; everything else is refused: the
    transport is answered 422 or given the error, a response or a chunk is
    withheld (never handed on beside an error) and a refused call may not fall
    back to another model.  The one thing that is handed on is a request that
    cannot be encoded, with an error but without a refusal.  An error that is
    already there is passed on, and without a plugin or a checker nothing is
    touched. *)
Theorem hooks_decide p (check_in check_out : Checker) : p = Some (New_ (Some check_in) (Some check_out)) ->
  (forall body, HTTPTransportPreHook p (Some body) = None <-> check_in DirectionInput body = None) /\
  (forall body resp, HTTPTransportPreHook p (Some body) = Some resp -> hr_StatusCode resp = 422) /\
  (forall body, HTTPTransportPostHook p (Some body) = check_out DirectionOutput body) /\
  (forall c, let '(c', e) := HTTPTransportStreamChunkHook p (Some c) in
     match c', e with
     | Some c', None => c' = c /\ exists body, marshal_chunk c = inr body /\ check_out DirectionOutput body = None
     | None, Some e => forall body, marshal_chunk c = inr body -> check_out DirectionOutput body = Some e
     | _, _ => False
     end) /\
  (forall r, let '(r', refusal, e) := PreLLMHook p (Some r) in r' = Some r /\
     match refusal, e with
     | None, None => exists body, marshal_request r = inr body /\ check_in DirectionInput body = None
     | Some b, None => be_AllowFallbacks b = Some false /\ be_StatusCode b = Some 422 /\
         exists body, marshal_request r = inr body /\ check_in DirectionInput body = Some (be_Message b)
     | None, Some _ => exists err, marshal_request r = inl err
     | Some _, Some _ => False
     end) /\
  (forall r, let '(r', refusal, e) := PostLLMHook p (Some r) None in e = None /\
     match r', refusal with
     | Some r', None => r' = r /\ exists body, marshal_response r = inr body /\ check_out DirectionOutput body = None
     | None, Some b => be_AllowFallbacks b = Some false /\ be_StatusCode b = Some 422
     | _, _ => False
     end) /\
  (forall resp b, PostLLMHook p resp (Some b) = (resp, Some b, None)).
Proof.
  intros ->. split_and!.
  - intros body. open_hook. destruct (check_in _ _); done.
  - intros body resp. open_hook. destruct (check_in _ _); intros Hr; by simplify_eq/=.
  - done.
  - intros c. open_hook. destruct (marshal_chunk c) as [err|body]; [done|].
    destruct (check_out _ body) eqn:E; [by intros ? [= <-]|]. split; [done|]. by exists body.
  - intros r. open_hook. destruct (marshal_request r) as [err|body]; [split; [done|by exists err]|].
    destruct (check_in _ body) eqn:E; (split; [done|]); [do 2 (split; [done|])|]; by exists body.
  - intros r. open_hook. destruct (marshal_response r) as [err|body]; [done|].
    destruct (check_out _ body) eqn:E; (split; [done|]); [done|]. split; [done|]. by exists body.
  - done.
Qed.

End Decided.

(** ** Keywords *)
Section Keywords.
  Context `{GoUnicode}.

Definition needles (blocked : list string) : list string :=
  word ← blocked; if negb (is_empty (trim_space word)) then [to_lower word] else [].

Definition KeywordChecker (blocked : list string) : Checker := fun _ body =>
  let lower := to_lower body in
  if existsb (contains lower) (needles blocked) then Some (Wrap "%w: matched blocked content" ErrBlocked) else None.

(** The plugin the gateway registers. *)
Definition configured (e : Environment) : option Plugin :=
  match splitCSV (Getenv e "MAAS_GUARDRAIL_BLOCKED_TERMS") with
  | [] => None
  | blocked => Some (New_ (Some (KeywordChecker blocked)) (Some (KeywordChecker blocked)))
  end.

Lemma needles_spec blocked n : n ∈ needles blocked <-> exists word, word ∈ blocked /\ trim_space word <> EmptyString /\ n = to_lower word.
Proof.
  unfold needles. rewrite list_elem_of_bind. split.
  - intros (word & Hn & Hw). unfold is_empty in Hn. case_bool_decide; simpl in Hn; [by apply elem_of_nil in Hn|].
    apply list_elem_of_singleton in Hn as ->. by exists word.
  - intros (word & Hw & Hne & ->). exists word. split; [|done]. unfold is_empty. rewrite bool_decide_eq_false_2 by done. by left.
Qed.

Lemma KeywordChecker_spec blocked d body :
  (KeywordChecker blocked d body = None <->
   forall word, word ∈ blocked -> trim_space word <> EmptyString -> ~ occurs_in (to_lower word) (to_lower body)) /\
  (forall e, KeywordChecker blocked d body = Some e -> errors_is e ErrBlocked = true).
Proof.
  unfold KeywordChecker. destruct (existsb _ _) eqn:E.
  - split; [|by intros e [= <-]]. split; [done|]. intros Hno. exfalso. apply existsb_exists in E as (n & Hn & Hc).
    apply list_elem_of_In, needles_spec in Hn as (word & Hw & Hne & ->). by apply (Hno word), contains_spec.
  - split; [|done]. split; [|done]. intros _ word Hw Hne Hc%contains_spec.
    assert (Ht : existsb (contains (to_lower body)) (needles blocked) = true).
    { apply existsb_exists. exists (to_lower word). split; [|done]. apply list_elem_of_In, needles_spec. by exists word. }
    congruence.
Qed.

(** What a gateway blocks.  With blocked terms configured, a body passes the
    transport hooks exactly when no term occurs in it, case aside: the terms
    are the items of the variable between commas, trimmed, the empty ones left
    out, so a stray comma does not block everything.  Without a term there is
    no plugin, and a refusal is always the content policy's. *)
Theorem configured_blocks e body :
  let terms := filter (fun t => t <> EmptyString) (trim_space <$> split_byte "," (Getenv e "MAAS_GUARDRAIL_BLOCKED_TERMS")) in
  (configured e = None <-> terms = []) /\
  (HTTPTransportPreHook (configured e) (Some body) = None <-> forall t, t ∈ terms -> ~ occurs_in (to_lower t) (to_lower body)) /\
  (HTTPTransportPostHook (configured e) (Some body) = None <-> forall t, t ∈ terms -> ~ occurs_in (to_lower t) (to_lower body)) /\
  (forall err, HTTPTransportPostHook (configured e) (Some body) = Some err -> errors_is err ErrBlocked = true).
Proof.
  intros terms.
  assert (Hin : forall t, t ∈ splitCSV (Getenv e "MAAS_GUARDRAIL_BLOCKED_TERMS") <-> t ∈ terms).
  { intros t. unfold terms. rewrite list_elem_of_filter. apply splitCSV_spec. }
  assert (Hfix : forall t, t ∈ terms -> trim_space t <> EmptyString).
  { intros t. unfold terms. rewrite list_elem_of_filter, list_elem_of_fmap. intros (Hne & y & -> & _). by rewrite trim_space_idem. }
  assert (Hchk : forall d, KeywordChecker (splitCSV (Getenv e "MAAS_GUARDRAIL_BLOCKED_TERMS")) d body = None <->
      forall t, t ∈ terms -> ~ occurs_in (to_lower t) (to_lower body)).
  { intros d. rewrite (proj1 (KeywordChecker_spec _ d body)). setoid_rewrite Hin. split; [|by intros Hno word Hw _; apply Hno].
    intros Hno t Ht. apply Hno; [done|by apply Hfix]. }
  assert (Hnil : splitCSV (Getenv e "MAAS_GUARDRAIL_BLOCKED_TERMS") = [] <-> terms = []).
  { split; intros E; apply elem_of_nil_inv; intros t Ht; apply Hin in Ht; rewrite E in Ht; by apply elem_of_nil in Ht. }
  unfold configured. destruct (splitCSV _) as [|t0 l] eqn:Es.
  - assert (terms = []) as Et by by apply Hnil. split; [done|]. rewrite Et. simpl.
    split; [split; [|done]|split; [split; [|done]|done]]; intros _ t Ht; by apply elem_of_nil in Ht.
  - split; [split; [done|]; intros E; by apply Hnil in E|]. rewrite <-(Hchk DirectionInput) at 1. rewrite <-(Hchk DirectionOutput).
    split; [|split; [done|apply KeywordChecker_spec]].
    open_hook. by destruct (KeywordChecker _ _ _).
Qed.

End Keywords.

(** ** What the encoding hides *)
Section Hidden.
  Context `{LLMTypes} `{GoUnicode}.

(** The characters json.Marshal escapes are not in what is checked. *)
Definition html_term (term : string) : Prop := exists c a b, c ∈ html_bytes /\ to_lower term = a +:+ String c b.

Lemma lower_html c d : c ∈ html_bytes -> lower_byte d = c -> d = c.
Proof.
  intros Hc. unfold lower_byte. destruct ((65 <=? nat_of_ascii d)%nat && (nat_of_ascii d <=? 90)%nat) eqn:E; [|done].
  intros <-. exfalso. apply andb_true_iff in E as [E1%Nat.leb_le E2%Nat.leb_le].
  unfold html_bytes in Hc. rewrite !elem_of_cons in Hc.
  assert (Hn : nat_of_ascii (ascii_of_nat (nat_of_ascii d + 32)) = (nat_of_ascii d + 32)%nat) by (apply nat_ascii_embedding; lia).
  destruct Hc as [E|[E|[E|[]%elem_of_nil]]]; rewrite E in Hn; vm_compute (nat_of_ascii _) in Hn at 1; lia.
Qed.

Lemma lower_occurs c s a b : c ∈ html_bytes -> ascii_lower s = a +:+ String c b -> index_byte s c <> None.
Proof.
  intros Hc. revert s. induction a as [|x a IH]; intros [|d s]; try done.
  - change (ascii_lower (String d s)) with (String (lower_byte d) (ascii_lower s)). intros [= E _].
    apply (lower_html c) in E as ->; [|done]. simpl. by rewrite bool_decide_eq_true_2.
  - change (ascii_lower (String d s)) with (String (lower_byte d) (ascii_lower s)). intros [= _ E].
    specialize (IH _ E). simpl. case_bool_decide; [done|]. by destruct (index_byte s c).
Qed.

Lemma html_term_missed blocked d body : (forall word, word ∈ blocked -> html_term word) -> is_ascii body = true ->
  (forall c, c ∈ html_bytes -> index_byte body c = None) -> KeywordChecker blocked d body = None.
Proof.
  intros Hw Ha Hno. apply KeywordChecker_spec. intros word Hin _ (x & y & E). destruct (Hw word Hin) as (c & a & b & Hc & Et).
  rewrite (to_lower_ascii _ Ha), Et, <-sapp_assoc in E. apply (lower_occurs c body (x +:+ a) (b +:+ y)); [done| |by apply Hno].
  rewrite E, !sapp_assoc. done.
Qed.

(** Terms the gateway's own hooks never see: [json.Marshal] writes the
    characters <, > and & as escapes, so with terms that contain one of them
    every request, response and chunk that encodes to ASCII passes the three
    hooks of the model calls, although the transport hooks refuse a body in
    which such a term occurs. *)
Theorem escaped_terms_never_match blocked : (forall word, word ∈ blocked -> html_term word) ->
  let p := Some (New_ (Some (KeywordChecker blocked)) (Some (KeywordChecker blocked))) in
  (forall r body, marshal_request r = inr body -> is_ascii body = true -> PreLLMHook p (Some r) = (Some r, None, None)) /\
  (forall r body, marshal_response r = inr body -> is_ascii body = true -> PostLLMHook p (Some r) None = (Some r, None, None)) /\
  (forall c body, marshal_chunk c = inr body -> is_ascii body = true -> HTTPTransportStreamChunkHook p (Some c) = (Some c, None)) /\
  (forall body word, word ∈ blocked -> trim_space word <> EmptyString -> occurs_in (to_lower word) (to_lower body) ->
     HTTPTransportPreHook p (Some body) <> None).
Proof.
  intros Hw. cbv zeta. split_and!.
  - intros r body E Ha. open_hook. rewrite E, html_term_missed; [done|done|done|]. intros c Hc. by eapply request_escaped.
  - intros r body E Ha. open_hook. rewrite E, html_term_missed; [done|done|done|]. intros c Hc. by eapply response_escaped.
  - intros r body E Ha. open_hook. rewrite E, html_term_missed; [done|done|done|]. intros c Hc. by eapply chunk_escaped.
  - intros body word Hin Hne Hocc. open_hook. destruct (KeywordChecker blocked DirectionInput body) eqn:E; [done|].
    by destruct (proj1 (proj1 (KeywordChecker_spec blocked DirectionInput body)) E word Hin Hne).
Qed.

End Hidden.

(** ** Witnesses *)
(** Texts in quotes; [json_escape] writes the characters of HTML as escapes. *)
Fixpoint json_escape (s : string) : string :=
  match s with
  | EmptyString => EmptyString
  | String c s' =>
      (if bool_decide (c ∈ html_bytes) then "\u00" +:+ hex_encode (String c EmptyString) else String c EmptyString) +:+ json_escape s'
  end.

Lemma json_escape_escaped s c : c ∈ html_bytes -> index_byte (json_escape s) c = None.
Proof.
  intros Hc. induction s as [|d s IH]; [done|]. cbn [json_escape]. apply index_byte_app_none; [|done].
  case_bool_decide as Hd.
  - unfold html_bytes in Hc, Hd. rewrite !elem_of_cons in Hc, Hd.
    destruct Hc as [->|[->|[->|[]%elem_of_nil]]], Hd as [->|[->|[->|[]%elem_of_nil]]]; reflexivity.
  - simpl. rewrite bool_decide_eq_false_2; [done|]. by intros ->.
Qed.

Definition plain_json (s : string) : error + string := inr (String "034" (json_escape s) +:+ String "034" EmptyString).

Lemma quote_escaped c s : c ∈ html_bytes -> index_byte s c = None -> index_byte (String "034" s) c = None.
Proof.
  intros Hc Hs. simpl. rewrite bool_decide_eq_false_2; [by rewrite Hs|].
  intros <-. unfold html_bytes in Hc. rewrite !elem_of_cons in Hc. by destruct Hc as [?|[?|[?|[]%elem_of_nil]]].
Qed.

Lemma plain_json_escaped s t c : plain_json s = inr t -> c ∈ html_bytes -> index_byte t c = None.
Proof.
  intros [= <-] Hc. change (index_byte (String "034" (json_escape s +:+ String "034" EmptyString)) c = None).
  apply quote_escaped, index_byte_app_none; [done|by apply json_escape_escaped|by apply quote_escaped].
Qed.

Definition text_types : LLMTypes := {|
  BifrostRequest := string; BifrostResponse := string; BifrostStreamChunk := string;
  marshal_request := plain_json; marshal_response := plain_json; marshal_chunk := plain_json;
  request_escaped := plain_json_escaped; response_escaped := plain_json_escaped; chunk_escaped := plain_json_escaped |}.

Section Demo.
#[local] Existing Instances text_types ascii_unicode.

Definition demo_guard : option Plugin := Some (New_ (Some (KeywordChecker ["Secret"])) (Some (KeywordChecker ["<script>"]))).

Lemma hooks_decide_witness :
  (HTTPTransportPreHook demo_guard (Some "a seCRet") = None <-> KeywordChecker ["Secret"] DirectionInput "a seCRet" = None) /\
  KeywordChecker ["Secret"] DirectionInput "a seCRet" <> None.
Proof.
  split; [|vm_compute; discriminate].
  exact (proj1 (hooks_decide demo_guard (KeywordChecker ["Secret"]) (KeywordChecker ["<script>"]) eq_refl) "a seCRet").
Defined.

Lemma escaped_terms_never_match_witness :
  PostLLMHook (Some (New_ (Some (KeywordChecker ["<script>"])) (Some (KeywordChecker ["<script>"])))) (Some "x <script> y") None =
    (Some "x <script> y", None, None) /\
  HTTPTransportPreHook (Some (New_ (Some (KeywordChecker ["<script>"])) (Some (KeywordChecker ["<script>"])))) (Some "x <script> y") <> None.
Proof.
  assert (Hw : forall word, word ∈ ["<script>"] -> html_term word).
  { intros word Hin. apply list_elem_of_singleton in Hin as ->. exists "<"%char, EmptyString, "script>". split; [by left|reflexivity]. }
  pose proof (escaped_terms_never_match ["<script>"] Hw) as (_ & H2 & _ & H4). split.
  - exact (H2 "x <script> y" _ eq_refl eq_refl).
  - apply (H4 "x <script> y" "<script>"); [by left|discriminate|]. exists "x ", " y". reflexivity.
Defined.

(** A term spread over two chunks of a stream passes chunk by chunk. *)
Example split_term_passes :
  let p := Some (New_ None (Some (KeywordChecker ["secret"]))) in
  map (fun c => HTTPTransportStreamChunkHook p (Some c)) ["sec"; "ret"] = [(Some "sec", None); (Some "ret", None)] /\
  HTTPTransportStreamChunkHook p (Some "secret") = (None, Some (Wrap "%w: matched blocked content" ErrBlocked)).
Proof. vm_compute. split; reflexivity. Qed.

End Demo.
