(* ===== verification/TenantFunding.v ===== *)
(** * Tenant funding (internal/governance/tenantstore.go)

    The limits a request is charged against: those the wrapped governance store
    reports for the permit's holder, and then the tenant's own.  The wrapped
    store, the permits and the limits are third-party interfaces, and what the
    control plane knows of a tenant's funding is the source's own interface. *)
From S2P Require Import Prelude GoStrings TenantScope.

Definition LimitHolderTenant : string := "tenant".

(** [limit_held]: one limit of a holder, given its kind, identifier and name. *)
Class Grants := {
  Permit : Type; Limit : Type;
  inner_HolderLimits : Permit -> list Limit * list Limit;
  limit_held : string -> string -> string -> string -> string -> string -> Limit;
  LimitsHeldBy : string -> string -> string -> string -> string -> list string -> list Limit;
  held_by : forall kind id name a b ids, LimitsHeldBy kind id name a b ids = limit_held kind id name a b <$> ids }.

Record TenantLimits := mkTenantLimits {
  BudgetIDs : string -> list string; RateLimitIDs : string -> list string; DisplayName : string -> string }.

Section Funding.
  Context `{Grants}.

Definition HolderLimits (tenants : option TenantLimits) (ctx : option Context) (permit : Permit) : list Limit * list Limit :=
  let '(budgets, rateLimits) := inner_HolderLimits permit in
  let id := FromContext ctx in
  match tenants with
  | None => (budgets, rateLimits)
  | Some tenants =>
      if is_empty id then (budgets, rateLimits) else
      let name := DisplayName tenants id in
      let budgets' := match BudgetIDs tenants id with
        | [] => budgets
        | ids => budgets ++ LimitsHeldBy LimitHolderTenant id name EmptyString EmptyString ids
        end in
      let rateLimits' := match RateLimitIDs tenants id with
        | [] => rateLimits
        | ids => rateLimits ++ LimitsHeldBy LimitHolderTenant id name EmptyString EmptyString ids
        end in
      (budgets', rateLimits')
  end.

Definition tenant_limit (tenants : TenantLimits) (id limit : string) : Limit :=
  limit_held LimitHolderTenant id (DisplayName tenants id) EmptyString EmptyString limit.

Lemma appended (l : list Limit) tenants id ids :
  match ids with
  | [] => l
  | x :: xs => l ++ LimitsHeldBy LimitHolderTenant id (DisplayName tenants id) EmptyString EmptyString (x :: xs)
  end = l ++ (tenant_limit tenants id <$> ids).
Proof. destruct ids; [by rewrite app_nil_r|]. by rewrite held_by. Qed.

(** The tenant is an additional payer: whatever it takes of a limit to let
    a request through, the request has it of every limit reported exactly when
    it has it of every limit of the key's own holders and of each of the
    tenant's, so that neither an exhausted tenant nor an exhausted key is made
    up for by the other; a request without a tenant, or a store without tenant
    limits, is charged as before; and the inherited limits come first, in their
    order. *)
Theorem tenant_is_additional_payer tenants ctx permit (has_headroom : Limit -> Prop) :
  let '(budgets, rateLimits) := HolderLimits tenants ctx permit in
  let inherited := inner_HolderLimits permit in
  (exists tail tail', budgets = inherited.1 ++ tail /\ rateLimits = inherited.2 ++ tail') /\
  (FromContext ctx = EmptyString \/ tenants = None -> (budgets, rateLimits) = inherited) /\
  (forall t, tenants = Some t -> FromContext ctx <> EmptyString ->
     (Forall has_headroom budgets <-> Forall has_headroom inherited.1 /\
        forall limit, limit ∈ BudgetIDs t (FromContext ctx) -> has_headroom (tenant_limit t (FromContext ctx) limit)) /\
     (Forall has_headroom rateLimits <-> Forall has_headroom inherited.2 /\
        forall limit, limit ∈ RateLimitIDs t (FromContext ctx) -> has_headroom (tenant_limit t (FromContext ctx) limit))).
Proof.
  unfold HolderLimits. destruct (inner_HolderLimits permit) as [b r]. cbn [fst snd]. destruct tenants as [t|].
  - unfold is_empty. case_bool_decide as Ei.
    + split; [exists [], []; by rewrite !app_nil_r|]. split; [done|]. by intros t' _ [].
    + rewrite !appended. split; [by eexists _, _|]. split; [by intros []|]. intros t' [= <-] _.
      rewrite !Forall_app, !Forall_fmap, !Forall_forall. done.
  - split; [exists [], []; by rewrite !app_nil_r|]. split; [done|]. done.
Qed.

End Funding.
