(* ===== verification/BusLoops.v ===== *)
(** * The loops of the configuration bus (internal/configbus: redis.go, reconcile.go)

    The goroutine behind a subscription, with its channels and the consumer at
    their other end, as a step relation; and the periodic reconciler, as a
    function of what wakes it.  The consumer is the one of Startup. *)
From S2P Require Import Prelude GoStrings Sql ConfigBus Startup.

(** ** The subscription *)

(** [Offering]: in the select that sends on the unbuffered channel.  [Failing]:
    sending the last error on the error channel.  [Stopped]: the deferred calls
    have closed the client's subscription and both channels. *)
Inductive phase := Receiving | Offering (n : Notification) | Failing (e : error) | Stopped.

(** [sb_buffer]: the one slot of the error channel.  [sb_received]: the messages
    of the client, decoded; [sb_lost]: the error it ended with; [sb_seen]: what
    the consumer took from its select. *)
Record Subscription := mkSub {
  sb_phase : phase; sb_buffer : option error; sb_done : bool; sb_consumer : bool;
  sb_received : list (error + Notification); sb_lost : option error; sb_seen : list event }.

Definition DefaultChannel : string := "bifrost:maas:config-changes".

(** The channel the notifier uses. *)
Definition NewRedisNotifier (client : option unit) (channel : string) : error + string :=
  match client with
  | None => inl (New "configbus: redis client is required")
  | Some _ => inr (if is_empty channel then DefaultChannel else channel)
  end.

(** [client]: nil or not; [first]: what the first Receive returned. *)
Definition Subscribe (client : option unit) (first : option error) : error + Subscription :=
  match client with
  | None => inl (New "configbus: redis notifier is nil")
  | Some _ =>
      match first with
      | Some err => inl (Wrap "configbus: subscribe notification: %w" err)
      | None => inr (mkSub Receiving None false true [] None [])
      end
  end.

Definition set_phase (p : phase) (s : Subscription) : Subscription :=
  mkSub p (sb_buffer s) (sb_done s) (sb_consumer s) (sb_received s) (sb_lost s) (sb_seen s).

(** A message: a notification is offered; an error is put in the slot if that
    is free and dropped otherwise. *)
Definition on_message (m : error + Notification) (s : Subscription) : Subscription :=
  match receive m with
  | (Some n, _) => mkSub (Offering n) (sb_buffer s) (sb_done s) (sb_consumer s) (sb_received s ++ [m]) (sb_lost s) (sb_seen s)
  | (None, err) =>
      mkSub Receiving (match sb_buffer s with Some e => Some e | None => err end)
        (sb_done s) (sb_consumer s) (sb_received s ++ [m]) (sb_lost s) (sb_seen s)
  end.

(** The client gave up. *)
Definition on_error (err : error) (s : Subscription) : Subscription :=
  if sb_done s then set_phase Stopped s
  else let e := Wrap "configbus: receive notification: %w" err in
       mkSub (Failing e) (sb_buffer s) (sb_done s) (sb_consumer s) (sb_received s) (Some e) (sb_seen s).

Definition saw (ev : event) (p : phase) (buffer : option error) (consumer : bool) (s : Subscription) : Subscription :=
  mkSub p buffer (sb_done s) consumer (sb_received s) (sb_lost s) (sb_seen s ++ [ev]).

(** The steps of the goroutine and of its consumer, one at a time: what happens
    without the client or the context. *)
Inductive own_step : Subscription -> Subscription -> Prop :=
| step_failed e s : sb_phase s = Failing e -> sb_buffer s = None ->
    own_step s (mkSub Stopped (Some e) (sb_done s) (sb_consumer s) (sb_received s) (sb_lost s) (sb_seen s))
| step_abandoned n s : sb_phase s = Offering n -> sb_done s = true -> own_step s (set_phase Stopped s)
| step_handed_on n s : sb_phase s = Offering n -> sb_consumer s = true ->
    own_step s (saw (Notified n) Receiving (sb_buffer s) true s)
| step_reported e s : sb_buffer s = Some e -> sb_consumer s = true -> own_step s (saw (Failed e) (sb_phase s) None true s)
| step_out_closed s : sb_phase s = Stopped -> sb_consumer s = true -> NotificationsClosed ∉ sb_seen s ->
    own_step s (saw NotificationsClosed Stopped (sb_buffer s) true s)
| step_errs_closed s : sb_phase s = Stopped -> sb_buffer s = None -> sb_consumer s = true -> ErrorsClosed ∉ sb_seen s ->
    own_step s (saw ErrorsClosed Stopped None true s)
| step_consumer_done s : sb_done s = true -> sb_consumer s = true ->
    own_step s (saw ContextDone (sb_phase s) (sb_buffer s) false s)
| step_consumer_ended s : NotificationsClosed ∈ sb_seen s -> ErrorsClosed ∈ sb_seen s -> sb_consumer s = true ->
    own_step s (mkSub (sb_phase s) (sb_buffer s) (sb_done s) false (sb_received s) (sb_lost s) (sb_seen s)).

Inductive step : Subscription -> Subscription -> Prop :=
| step_own s s' : own_step s s' -> step s s'
| step_message m s : sb_phase s = Receiving -> step s (on_message m s)
| step_error err s : sb_phase s = Receiving -> step s (on_error err s)
| step_cancel s : step s (mkSub (sb_phase s) (sb_buffer s) true (sb_consumer s) (sb_received s) (sb_lost s) (sb_seen s)).

(** ** What the consumer gets *)
Definition valid_of (l : list (error + Notification)) : list Notification := omap (fun m => (receive m).1) l.
Definition invalid_of (l : list (error + Notification)) : list error := omap (fun m => (receive m).2) l.
Definition notified (l : list event) : list Notification := omap (fun ev => match ev with Notified n => Some n | _ => None end) l.
Definition failures (l : list event) : list error := omap (fun ev => match ev with Failed e => Some e | _ => None end) l.
Definition listed (o : option error) : list error := match o with Some e => [e] | None => [] end.

Definition pending (s : Subscription) : list Notification := match sb_phase s with Offering n => [n] | _ => [] end.
Definition failing (s : Subscription) : list error := match sb_phase s with Failing e => [e] | _ => [] end.

Record faithful (s : Subscription) : Prop := {
  fa_valid : exists dropped, valid_of (sb_received s) = notified (sb_seen s) ++ pending s ++ dropped /\
    (length dropped <= 1)%nat /\ (dropped <> [] -> sb_phase s = Stopped /\ sb_done s = true);
  fa_errors : failures (sb_seen s) ++ listed (sb_buffer s) ++ failing s `sublist_of` invalid_of (sb_received s) ++ listed (sb_lost s);
  fa_stopped : sb_phase s = Stopped -> sb_done s = true \/ is_Some (sb_lost s);
  fa_lost : is_Some (sb_lost s) -> sb_phase s = Stopped \/ exists e, sb_phase s = Failing e;
  fa_failing : (exists e, sb_phase s = Failing e) -> is_Some (sb_lost s) }.

Lemma notified_app l l' : notified (l ++ l') = notified l ++ notified l'.
Proof. apply omap_app. Qed.
Lemma failures_app l l' : failures (l ++ l') = failures l ++ failures l'.
Proof. apply omap_app. Qed.
Lemma valid_app l l' : valid_of (l ++ l') = valid_of l ++ valid_of l'.
Proof. apply omap_app. Qed.
Lemma invalid_app l l' : invalid_of (l ++ l') = invalid_of l ++ invalid_of l'.
Proof. apply omap_app. Qed.

Lemma faithful_saw s ev p buffer consumer :
  faithful s -> notified [ev] ++ (match p with Offering n => [n] | _ => [] end) = pending s ->
  failures [ev] ++ listed buffer ++ (match p with Failing e => [e] | _ => [] end) = listed (sb_buffer s) ++ failing s ->
  (p = Stopped <-> sb_phase s = Stopped) -> ((exists e, p = Failing e) <-> exists e, sb_phase s = Failing e) ->
  faithful (saw ev p buffer consumer s).
Proof.
  intros [(d & Ev & Hl & Hd) He Hs Hlost Hfl] En Ef Hst Hfa. split; simpl.
  - exists d. rewrite Ev, <-En, notified_app, <-!app_assoc. split; [done|]. split; [done|]. intros Hne. by rewrite Hst; apply Hd.
  - unfold failing. simpl. rewrite failures_app, <-app_assoc, Ef. done.
  - rewrite Hst. exact Hs.
  - intros Hsome. destruct (Hlost Hsome) as [H|H]; [left; by apply Hst|right; by apply Hfa].
  - intros H. by apply Hfl, Hfa.
Qed.

Lemma nothing_dropped s d : (d <> [] -> sb_phase s = Stopped /\ sb_done s = true) -> sb_phase s <> Stopped -> d = @nil Notification.
Proof. intros Hd Hp. destruct d; [done|]. destruct Hp. by apply Hd. Qed.

Lemma faithful_own s s' : faithful s -> own_step s s' -> faithful s'.
Proof.
  intros Hf Hstep. destruct Hstep as [e s Hp Hb|n s Hp Hdone|n s Hp Hc|e s Hb Hc|s Hp Hc Hn|s Hp Hb Hc Hn|s Hdone Hc|s H1 H2 Hc].
  - destruct Hf as [(d & Ev & Hl & Hd) He Hs Hlost Hfl]. pose proof (nothing_dropped s d Hd ltac:(congruence)) as ->.
    unfold pending, failing in *. rewrite Hp in Ev, He. split; simpl.
    + by exists [].
    + rewrite Hb in He. exact He.
    + intros _. right. apply Hfl. by exists e.
    + by left.
    + by intros [].
  - destruct Hf as [(d & Ev & Hl & Hd) He Hs Hlost Hfl]. pose proof (nothing_dropped s d Hd ltac:(congruence)) as ->.
    unfold pending, failing in *. rewrite Hp in Ev, He. split; simpl; [by exists [n]|done|by left|by left|by intros []].
  - apply faithful_saw; [done|..]; unfold pending, failing; rewrite Hp; [done|done|done|by split; intros []].
  - apply faithful_saw; [done| |by rewrite Hb|done|done]. done.
  - apply faithful_saw; [done|..]; unfold pending, failing; rewrite ?Hp; [done|done|done|by split; intros []].
  - apply faithful_saw; [done|..]; unfold pending, failing; rewrite ?Hp, ?Hb; [done|done|done|by split; intros []].
  - by apply faithful_saw.
  - destruct Hf as [H3 H4 H5 H6 H7]. by split.
Qed.

Lemma faithful_message m s : sb_phase s = Receiving -> faithful s -> faithful (on_message m s).
Proof.
  intros Hp [(d & Ev & Hl & Hd) He Hs Hlost Hfl]. pose proof (nothing_dropped s d Hd ltac:(congruence)) as ->.
  assert (Hno : sb_lost s = None) by (destruct (sb_lost s); [destruct (Hlost ltac:(done)) as [|[]]; congruence|done]).
  unfold pending, failing in *. rewrite Hp in *. rewrite Hno in He. simpl in *. rewrite !app_nil_r in *.
  unfold on_message. destruct (receive m) as [[n|] e] eqn:Er;
    split; simpl; rewrite ?valid_app, ?invalid_app; simpl; rewrite ?Er, ?Hno; simpl; try done; try by intros [].
  - exists []. by rewrite Ev.
  - assert (e = None) as -> by (unfold receive in Er; repeat case_match; congruence). simpl. by rewrite !app_nil_r.
  - exists []. by rewrite !app_nil_r, Ev.
  - rewrite !app_nil_r. destruct (sb_buffer s) as [b|]; simpl in *; [by apply sublist_inserts_r|].
    rewrite app_nil_r in He. destruct e; simpl; rewrite ?app_nil_r; [|done]. by apply sublist_app.
Qed.

Lemma faithful_error err s : sb_phase s = Receiving -> faithful s -> faithful (on_error err s).
Proof.
  intros Hp [(d & Ev & Hl & Hd) He Hs Hlost Hfl]. pose proof (nothing_dropped s d Hd ltac:(congruence)) as ->.
  assert (Hno : sb_lost s = None) by (destruct (sb_lost s); [destruct (Hlost ltac:(done)) as [|[]]; congruence|done]).
  unfold pending, failing in *. rewrite Hp in Ev, He. unfold on_error. destruct (sb_done s) eqn:Edone; split; simpl.
  - by exists [].
  - done.
  - by left.
  - by left.
  - by intros [].
  - by exists [].
  - rewrite Hno in He. simpl in He. rewrite !app_nil_r in He. rewrite app_assoc. by apply sublist_app.
  - done.
  - intros _. right. by eexists.
  - done.
Qed.

Lemma faithful_step s s' : faithful s -> step s s' -> faithful s'.
Proof.
  intros Hf Hst. destruct Hst as [s0 s1 Ho|m s0 Hp|err s0 Hp|s0]; [by eapply faithful_own|by apply faithful_message|by apply faithful_error|].
  destruct Hf as [(d & Ev & Hl & Hd) He Hs Hlost Hfl]. split; simpl; [|done|by left|done|done].
  exists d. split; [done|]. split; [done|]. intros Hne. by destruct (Hd Hne).
Qed.

Definition subscribed : Subscription := mkSub Receiving None false true [] None [].

Lemma faithful_reach s : rtc step subscribed s -> faithful s.
Proof.
  intros Hr. refine (rtc_ind_r faithful subscribed _ _ s Hr); [|intros; by eapply faithful_step].
  split; [|constructor|done|by intros []|by intros []]. exists []. split; [done|]. split; [simpl; lia|]. by intros [].
Qed.

(** C31. What a subscription hands on.  In every state it can reach, whatever the
    client delivers, however the consumer's reads are ordered among it and
    whenever the context ends: the valid messages received so far are those the
    consumer has been given, in order and without gap or repetition, then the
    one being offered; at most one more is missing, and only once the context
    has ended.  What the consumer sees of errors are errors of malformed
    messages, in order, some of them dropped while one was unread, and last the
    error the client ended with.  And a malformed message never ends the
    subscription: it stops for the end of the context or of the client only. *)
Theorem subscription_faithful s : rtc step subscribed s ->
  (exists dropped, valid_of (sb_received s) = notified (sb_seen s) ++ pending s ++ dropped /\
     (length dropped <= 1)%nat /\ (dropped <> [] -> sb_done s = true)) /\
  failures (sb_seen s) `sublist_of` invalid_of (sb_received s) ++ listed (sb_lost s) /\
  (sb_phase s = Stopped -> sb_done s = true \/ is_Some (sb_lost s)).
Proof.
  intros [(d & Ev & Hl & Hd) He Hs _ _]%faithful_reach. split; [|split; [|done]].
  - exists d. split; [done|]. split; [done|]. intros Hne. by apply Hd.
  - etrans; [|exact He]. by apply sublist_inserts_r.
Qed.

(** ** It ends when it should *)
#[global] Instance notification_eq_dec : EqDecision Notification.
Proof. solve_decision. Defined.
#[global] Instance event_eq_dec : EqDecision event.
Proof. solve_decision. Defined.

Definition unseen (ev : event) (l : list event) : nat := if decide (ev ∈ l) then 0%nat else 1%nat.
Definition left_to_do (s : Subscription) : nat :=
  ((match sb_phase s with Offering _ => 1 | Failing _ => 2 | _ => 0 end) + (match sb_buffer s with Some _ => 1 | None => 0 end) +
   (unseen NotificationsClosed (sb_seen s) + unseen ErrorsClosed (sb_seen s)) + (if sb_consumer s then 1 else 0))%nat.

Lemma unseen_snoc ev ev' l : (unseen ev (l ++ [ev']) <= unseen ev l)%nat.
Proof. unfold unseen. repeat case_decide; try lia. exfalso. set_solver. Qed.

Lemma unseen_now ev l : ev ∉ l -> unseen ev (l ++ [ev]) = 0%nat /\ unseen ev l = 1%nat.
Proof. intros Hn. unfold unseen. rewrite decide_True by set_solver. by rewrite decide_False. Qed.

Lemma own_step_decreases s s' : own_step s s' -> (left_to_do s' < left_to_do s)%nat.
Proof.
  unfold left_to_do. intros Hst.
  destruct Hst as [e s Hp Hb|n s Hp Hdone|n s Hp Hc|e s Hb Hc|s Hp Hc Hn|s Hp Hb Hc Hn|s Hdone Hc|s H1 H2 Hc]; simpl; rewrite ?Hp, ?Hb, ?Hc;
    repeat match goal with |- context [unseen ?e (?l ++ [?x])] => first
      [ assert_fails (unify e x); pose proof (unseen_snoc e x l); generalize dependent (unseen e (l ++ [x])); intros
      | destruct (unseen_now e l Hn) as [-> ->] ] end; lia.
Qed.

(** A subscription whose consumer reads is never stuck.  As long as the
    consumer is there, some step of its own is possible, unless the goroutine
    waits for the client with nothing to report and the context not ended; and
    its own steps cannot go on for ever, each leaves less to do.  So every
    notification is handed on, every error in the slot is reported, and after
    the goroutine has stopped, or the context has ended, the consumer returns. *)
Theorem subscription_never_stuck s : rtc step subscribed s ->
  (sb_consumer s = true -> (exists s', own_step s s') \/
     sb_phase s = Receiving /\ sb_buffer s = None /\ sb_done s = false) /\
  (forall s', own_step s s' -> (left_to_do s' < left_to_do s)%nat) /\ (left_to_do s <= 6)%nat.
Proof.
  intros _. split; [|split; [by apply own_step_decreases|]].
  - intros Hc. destruct (sb_buffer s) as [b|] eqn:Eb; [left; eexists; by eapply step_reported|].
    destruct (sb_phase s) as [|n|e|] eqn:Ep.
    + destruct (sb_done s) eqn:Ed; [left; eexists; by eapply step_consumer_done|by right].
    + left. eexists. by eapply step_handed_on.
    + left. eexists. by eapply step_failed.
    + left. destruct (decide (NotificationsClosed ∈ sb_seen s)) as [H1|H1]; [|eexists; by eapply step_out_closed].
      destruct (decide (ErrorsClosed ∈ sb_seen s)) as [H2|H2]; [|eexists; by eapply step_errs_closed].
      eexists. by eapply step_consumer_ended.
  - unfold left_to_do, unseen. repeat case_match; repeat case_decide; simpl; lia.
Qed.

(** The last send is not guarded by the context: with an error unread in the
    slot and the consumer gone, the goroutine stays in it for good. *)
Definition blocked (s : Subscription) : Prop :=
  (exists e, sb_phase s = Failing e) /\ is_Some (sb_buffer s) /\ sb_consumer s = false.

Lemma blocked_stays s s' : blocked s -> step s s' -> blocked s'.
Proof.
  intros ([e0 Hp0] & [b Hb0] & Hc0) Hst. destruct Hst as [s s' Ho|m s Hp|err s Hp|s]; [|congruence..|by split; [by exists e0|]].
  destruct Ho; congruence.
Qed.

(** A subscription can leak.  There is a run in which a malformed message is
    still unread when the client fails, and then the context ends and its
    consumer returns: from there on, whatever happens, the goroutine never
    leaves its last send, so neither the client's subscription nor the channels
    are ever closed. *)
Theorem blocked_sender_leaks : exists s, rtc step subscribed s /\ sb_done s = true /\ sb_consumer s = false /\
  forall s', rtc step s s' -> sb_phase s' <> Stopped /\ sb_phase s' <> Receiving.
Proof.
  set (s1 := on_message (inl (New "json")) subscribed). set (s2 := on_error (New "connection reset") s1).
  set (s3 := mkSub (sb_phase s2) (sb_buffer s2) true (sb_consumer s2) (sb_received s2) (sb_lost s2) (sb_seen s2)).
  exists (saw ContextDone (sb_phase s3) (sb_buffer s3) false s3). split; [|split; [done|split; [done|]]].
  - apply rtc_l with s1; [by apply step_message|]. apply rtc_l with s2; [by apply step_error|].
    apply rtc_l with s3; [apply step_cancel|]. apply rtc_once, step_own. by apply step_consumer_done.
  - intros s' Hr. assert (Hb : blocked s').
    { refine (rtc_ind_r blocked _ _ _ s' Hr); [|intros; by eapply blocked_stays]. split; [by eexists|]. split; [by eexists|done]. }
    destruct Hb as ([e ->] & _). done.
Qed.

(** ** The periodic reconciler *)
Section Run.
  Context {E : Type}.
  Variable reload : E -> string -> Z -> option error * E.

Definition NewReconciler (source : option unit) (callback : option unit) (env : E) : error + @Reconciler E :=
  match source, callback with
  | None, _ => inl (New "configbus: generation source is required")
  | Some _, None => inl (New "configbus: reload callback is required")
  | Some _, Some _ => inr (mkReconciler ∅ env)
  end.

(** What a select of Run takes: the timer or a tick, with what the source lists
    then, or the end of the context, with its error. *)
Inductive wake := Fired (listing : error + list Generation) | Ended (err : error).

(** The callback's calls are recorded; [None]: no callback, or a nil one. *)
Definition reportReconcileError (err : error) (onError : option (list error)) : option (list error) :=
  (fun calls => calls ++ [err]) <$> onError.

Definition pass (listing : error + list Generation) (r : @Reconciler E) (onError : option (list error)) :
    @Reconciler E * option (list error) :=
  match Reconcile reload r listing with
  | (Some err, r') => (r', reportReconcileError err onError)
  | (None, r') => (r', onError)
  end.

(** The loop on the ticker: what it returned, if it did. *)
Fixpoint ticks (wakes : list wake) (r : @Reconciler E) (onError : option (list error)) :
    option error * @Reconciler E * option (list error) :=
  match wakes with
  | [] => (None, r, onError)
  | Ended err :: _ => (Some err, r, onError)
  | Fired listing :: rest => let '(r', calls) := pass listing r onError in ticks rest r' calls
  end.

Definition Run (interval : Z) (wakes : list wake) (r : @Reconciler E) (onError : option (list error)) :
    option error * @Reconciler E * option (list error) :=
  if interval <=? 0 then (Some (New "configbus: reconciliation interval must be positive"), r, onError) else
  match wakes with
  | [] => (None, r, onError)
  | Ended err :: _ => (Some err, r, onError)
  | Fired listing :: rest => let '(r', calls) := pass listing r onError in ticks rest r' calls
  end.

Lemma Run_ticks interval wakes r onError : 0 < interval -> Run interval wakes r onError = ticks wakes r onError.
Proof. intros Hi. unfold Run. rewrite (proj2 (Z.leb_gt _ _) Hi). by destruct wakes as [|[|] ?]. Qed.

(** The listings up to the end of the context. *)
Fixpoint listings (wakes : list wake) : list (error + list Generation) :=
  match wakes with
  | Fired listing :: rest => listing :: listings rest
  | _ => []
  end.

Lemma ticks_app before wakes r onError : (forall err, Ended err ∉ before) ->
  ticks (before ++ wakes) r onError = let '(_, r', calls) := ticks before r onError in ticks wakes r' calls.
Proof.
  revert r onError. induction before as [|[l|err] before IH]; intros r onError Hb; simpl; [done| |].
  - destruct (pass l r onError) as [r' calls]. apply IH. intros err Hin. by apply (Hb err); right.
  - by destruct (Hb err); left.
Qed.

Lemma observe_grows r id g j : Generation_of r j <= Generation_of (Observe reload r id g).2 j.
Proof.
  unfold Observe. destruct (_ || _); [done|]. destruct (g <=? _) eqn:Eg; [done|]. destruct (reload _ id g) as [[e|] env]; [done|].
  unfold Generation_of in *. simpl. rewrite lookup_insert. case_decide; [subst; simpl; bools; lia|done].
Qed.

Lemma observe_all_grows rows : forall r err j, Generation_of r j <= Generation_of (observe_all reload r err rows).2 j.
Proof.
  induction rows as [|n rows IH]; intros r err j; simpl; [done|].
  pose proof (observe_grows r (gn_TenantID n) (gn_Generation n) j).
  destruct (Observe reload r (gn_TenantID n) (gn_Generation n)) as [e r']. etrans; [exact H|apply IH].
Qed.

Lemma pass_grows listing r onError j : Generation_of r j <= Generation_of (pass listing r onError).1 j.
Proof.
  unfold pass, Reconcile. destruct listing as [e|rows]; [done|]. pose proof (observe_all_grows rows r None j).
  by destruct (observe_all reload r None rows) as [[e|] r'].
Qed.

Lemma ticks_grows wakes : forall r onError j, Generation_of r j <= Generation_of (ticks wakes r onError).1.2 j.
Proof.
  induction wakes as [|[l|err] wakes IH]; intros r onError j; simpl; [done| |done].
  pose proof (pass_grows l r onError j). destruct (pass l r onError) as [r' calls]. etrans; [exact H|apply IH].
Qed.

(** What is done up to some wake is not undone after it. *)
Lemma ticks_prefix_grows before after : forall r onError j,
  Generation_of (ticks before r onError).1.2 j <= Generation_of (ticks (before ++ after) r onError).1.2 j.
Proof.
  induction before as [|[l|err] before IH]; intros r onError j; simpl; [apply ticks_grows| |done].
  destruct (pass l r onError) as [r' calls]. apply IH.
Qed.

(** A pass leaves alone the tenants it is not about. *)
Lemma observe_other r id g j : j <> id -> Generation_of (Observe reload r id g).2 j = Generation_of r j.
Proof.
  intros Hj. unfold Observe. destruct (_ || _); [done|]. destruct (g <=? _); [done|].
  destruct (reload _ id g) as [[e|] env]; [done|]. unfold Generation_of. simpl. by rewrite lookup_insert_ne.
Qed.

Lemma observe_all_others rows : forall r err j, j ∉ gn_TenantID <$> rows ->
  Generation_of (observe_all reload r err rows).2 j = Generation_of r j.
Proof.
  induction rows as [|n rows IH]; intros r err j; simpl; [done|]. intros [Hn Hr]%not_elem_of_cons.
  pose proof (observe_other r (gn_TenantID n) (gn_Generation n) j Hn).
  destruct (Observe reload r (gn_TenantID n) (gn_Generation n)) as [e r']. simpl in *. by rewrite IH.
Qed.

Lemma observe_all_app rows rows' : forall r err,
  observe_all reload r err (rows ++ rows') =
    let '(err', r') := observe_all reload r err rows in observe_all reload r' err' rows'.
Proof.
  induction rows as [|n rows IH]; intros r err; simpl; [done|].
  by destruct (Observe reload r (gn_TenantID n) (gn_Generation n)) as [e r'].
Qed.

(** The fence of a tenant after a pass: where it was, or the listed generation
    when that is newer and its reload, from what the pass has made of the node
    until then, succeeds. *)
Definition reloaded (met held : @Reconciler E) (n : Generation) : Z :=
  if gn_Generation n <=? Generation_of held (gn_TenantID n) then Generation_of held (gn_TenantID n) else
  match (reload (rc_env met) (gn_TenantID n) (gn_Generation n)).1 with
  | None => gn_Generation n
  | Some _ => Generation_of held (gn_TenantID n)
  end.

Lemma pass_exact before_n n after_n r onError :
  gn_TenantID n <> EmptyString -> gn_Generation n <> 0 -> gn_TenantID n ∉ gn_TenantID <$> before_n ++ after_n ->
  Generation_of (pass (inr (before_n ++ n :: after_n)) r onError).1 (gn_TenantID n) =
    reloaded (observe_all reload r None before_n).2 r n.
Proof.
  intros Ht Hg Hn. rewrite fmap_app in Hn. apply not_elem_of_app in Hn as [Hb Ha].
  assert (Ep : Generation_of (pass (inr (before_n ++ n :: after_n)) r onError).1 (gn_TenantID n) =
    Generation_of (observe_all reload r None (before_n ++ n :: after_n)).2 (gn_TenantID n)).
  { unfold pass. simpl. by destruct (observe_all reload r None (before_n ++ n :: after_n)) as [[e|] r']. }
  rewrite Ep, observe_all_app. pose proof (observe_all_others before_n r None _ Hb) as Eb.
  destruct (observe_all reload r None before_n) as [err' met]. simpl in Eb |- *.
  pose proof (observe_all_others after_n) as Eo.
  destruct (Observe reload met (gn_TenantID n) (gn_Generation n)) as [e r'] eqn:Eobs. rewrite Eo by done.
  unfold Observe, is_empty in Eobs. rewrite bool_decide_eq_false_2, (proj2 (Z.eqb_neq _ _)) in Eobs by done. cbn [orb] in Eobs.
  rewrite Eb in Eobs. unfold reloaded. destruct (_ <=? _); [by simplify_eq|].
  destruct (reload (rc_env met) (gn_TenantID n) (gn_Generation n)) as [[e'|] env]; simplify_eq; [done|].
  unfold Generation_of. simpl. by rewrite lookup_insert_eq.
Qed.

End Run.

(** The errors of the passes, in order. *)
Section Passes.
  Context {E : Type}.
  Variable reload : E -> string -> Z -> option error * E.

Fixpoint pass_errors (l : list (error + list Generation)) (r : @Reconciler E) : list error :=
  match l with
  | [] => []
  | listing :: rest => let '(err, r') := Reconcile reload r listing in listed err ++ pass_errors rest r'
  end.

Lemma ticks_reports wakes : forall r calls, (ticks reload wakes r (Some calls)).2 = Some (calls ++ pass_errors (listings wakes) r).
Proof.
  induction wakes as [|[l|err] wakes IH]; intros r calls; simpl; [by rewrite app_nil_r| |by rewrite app_nil_r].
  unfold pass. destruct (Reconcile reload r l) as [[e|] r']; simpl; rewrite IH; simpl; by rewrite <-?app_assoc.
Qed.

Lemma ticks_returns wakes : forall r onError err,
  (ticks reload wakes r onError).1.1 = Some err <-> exists before rest, wakes = before ++ Ended err :: rest /\ forall e, Ended e ∉ before.
Proof.
  induction wakes as [|[l|e] wakes IH]; intros r onError err; simpl.
  - split; [done|]. intros (before & rest & Ew & _). by destruct before.
  - destruct (pass reload l r onError) as [r' calls]. rewrite IH. split.
    + intros (before & rest & -> & Hb). exists (Fired l :: before), rest. split; [done|]. intros e Hin.
      apply elem_of_cons in Hin as [|Hin]; [done|by apply (Hb e)].
    + intros ([|b before] & rest & Ew & Hb); [done|]. injection Ew as <- ->. exists before, rest. split; [done|].
      intros e Hin. by apply (Hb e); right.
  - split.
    + intros [= <-]. exists [], wakes. split; [done|]. intros e' Hin. by apply elem_of_nil in Hin.
    + intros ([|b before] & rest & Ew & Hb); injection Ew as <- ?; [by subst|]. by destruct (Hb e); left.
Qed.

(** The log of the reloads that succeeded and the fence agree, whatever wakes
    the loop. *)
Lemma ticks_fenced wakes : forall (r : @Reconciler (E * list (string * Z))) onError, fenced r ->
  fenced (ticks (logged reload) wakes r onError).1.2.
Proof.
  induction wakes as [|[l|err] wakes IH]; intros r onError Hf; simpl; [done| |done].
  assert (Hp : fenced (pass (logged reload) l r onError).1).
  { unfold pass, Reconcile. destruct l as [e|rows]; [done|]. pose proof (proj1 (observe_all_fenced reload rows None r Hf)) as H1.
    by destruct (observe_all (logged reload) r None rows) as [[e|] r']. }
  destruct (pass (logged reload) l r onError) as [r' calls]. by apply IH.
Qed.

(** C32. The periodic reconciler does not give up, and makes up for what failed.
    Whatever the reload callback does, failing or not as it pleases, with a
    positive interval: (1) the loop returns just when the context ends, with the
    context's error, however many passes failed before; (2) its callback is
    given the errors of the passes that failed, in order, and without one they
    are swallowed; (3) what a node has reached it keeps; (4) at each tick whose
    listing names a newer generation of a tenant, the node's fence for that
    tenant becomes that generation just when that one reload succeeds then --
    whatever failed or was lost in the ticks before, and whatever the other
    tenants' reloads do in this one -- and stays where it was when it fails, so
    that the next tick tries again; and (5) the fence is at all times the last
    generation whose reload succeeded, each loaded once and in increasing order.
    An interval that is not positive is refused before anything runs. *)
Theorem reconciler_heals interval wakes r calls :
  (0 < interval ->
    (forall err, (Run reload interval wakes r calls).1.1 = Some err <->
       exists before rest, wakes = before ++ Ended err :: rest /\ forall e, Ended e ∉ before) /\
    (forall seen, calls = Some seen -> (Run reload interval wakes r calls).2 = Some (seen ++ pass_errors (listings wakes) r)) /\
    (forall before after, wakes = before ++ after -> forall j,
       Generation_of (Run reload interval before r calls).1.2 j <= Generation_of (Run reload interval wakes r calls).1.2 j) /\
    (forall before before_n n after_n rest, wakes = before ++ Fired (inr (before_n ++ n :: after_n)) :: rest ->
       (forall e, Ended e ∉ before) -> gn_TenantID n <> EmptyString -> gn_Generation n <> 0 ->
       gn_TenantID n ∉ gn_TenantID <$> before_n ++ after_n ->
       let held := (Run reload interval before r calls).1.2 in
       Generation_of (Run reload interval (before ++ [Fired (inr (before_n ++ n :: after_n))]) r calls).1.2 (gn_TenantID n) =
         reloaded reload (observe_all reload held None before_n).2 held n) /\
    (forall rl : @Reconciler (E * list (string * Z)), fenced rl -> fenced (Run (logged reload) interval wakes rl calls).1.2)) /\
  (interval <= 0 -> exists err, Run reload interval wakes r calls = (Some err, r, calls)).
Proof.
  split; [|intros Hi; unfold Run; rewrite (proj2 (Z.leb_le _ _) Hi); by eexists].
  intros Hi. rewrite !Run_ticks by done. split_and!.
  - apply ticks_returns.
  - intros seen ->. apply ticks_reports.
  - intros before after -> j. rewrite Run_ticks by done. apply ticks_prefix_grows.
  - intros before before_n n after_n rest _ Hb Ht Hg Hn held. unfold held. rewrite !Run_ticks, ticks_app by done.
    destruct (ticks reload before r calls) as [[x r'] calls']. cbn [fst snd ticks].
    rewrite <-(pass_exact reload before_n n after_n r' calls') by done.
    by destruct (pass reload _ r' calls') as [r2 calls2].
  - intros rl Hf. rewrite Run_ticks by done. by apply ticks_fenced.
Qed.

End Passes.

(** ** Witnesses *)
Definition sample_note : Notification := mkNotification "t1" 3.
Definition sample_offered : Subscription := on_message (inr sample_note) (on_message (inl (New "json")) subscribed).
Definition sample_subscription : Subscription := saw (Notified sample_note) Receiving (sb_buffer sample_offered) true sample_offered.

Lemma sample_reached : rtc step subscribed sample_subscription.
Proof.
  apply rtc_l with (on_message (inl (New "json")) subscribed); [by apply step_message|].
  apply rtc_l with sample_offered; [by apply step_message|]. apply rtc_once, step_own. by apply step_handed_on.
Qed.

Lemma subscription_faithful_witness : exists dropped,
  [sample_note] = notified (sb_seen sample_subscription) ++ pending sample_subscription ++ dropped /\
  (length dropped <= 1)%nat /\ (dropped <> [] -> sb_done sample_subscription = true).
Proof. exact (proj1 (subscription_faithful sample_subscription sample_reached)). Defined.

Lemma subscription_never_stuck_witness : (exists s', own_step sample_subscription s') \/
  sb_phase sample_subscription = Receiving /\ sb_buffer sample_subscription = None /\ sb_done sample_subscription = false.
Proof. exact (proj1 (subscription_never_stuck sample_subscription sample_reached) eq_refl). Defined.

(** A callback whose first two reloads fail, the third succeeds. *)
Definition sample_reload (tries : Z) (id : string) (g : Z) : option error * Z :=
  (if tries <? 2 then Some (New "snapshot unavailable") else None, tries + 1).
Definition sample_rows : list Generation := [mkGeneration "t1" 4 0].
Definition sample_before : list wake := [Fired (inl (New "down")); Fired (inr sample_rows); Fired (inr sample_rows)].
Definition sample_wakes : list wake := sample_before ++ [Fired (inr sample_rows); Ended (New "canceled")].
Definition sample_node : @Reconciler Z := mkReconciler ∅ 0.

Lemma reconciler_heals_witness :
  (Run sample_reload 15 sample_wakes sample_node (Some [])).1.1 = Some (New "canceled") /\
  Generation_of (Run sample_reload 15 sample_before sample_node (Some [])).1.2 "t1" = 0 /\
  Generation_of (Run sample_reload 15 (sample_before ++ [Fired (inr sample_rows)]) sample_node (Some [])).1.2 "t1" = 4 /\
  (Run sample_reload 15 sample_wakes sample_node (Some [])).2 =
    Some [New "down"; New "snapshot unavailable"; New "snapshot unavailable"].
Proof.
  destruct (proj1 (reconciler_heals sample_reload 15 sample_wakes sample_node (Some [])) eq_refl) as (H1 & H2 & _ & H4 & _).
  assert (Hb : forall e, Ended e ∉ sample_before).
  { intros e Hin. vm_compute in Hin. repeat (apply elem_of_cons in Hin as [Hin|Hin]; [discriminate|]). by apply elem_of_nil in Hin. }
  split; [|split; [vm_compute; reflexivity|split; [|exact (H2 [] eq_refl)]]].
  - apply H1. exists (sample_before ++ [Fired (inr sample_rows)]), []. split; [reflexivity|]. intros e Hin.
    apply elem_of_app in Hin as [Hin|Hin%list_elem_of_singleton]; [by apply (Hb e)|discriminate].
  - refine (H4 sample_before [] (mkGeneration "t1" 4 0) [] [Ended (New "canceled")] eq_refl Hb _ _ _); [discriminate|discriminate|].
    apply not_elem_of_nil.
Defined.
