(* ===== verification/RegistrySchema.v ===== *)
(** * The schema of the tenant registry (internal/controlplane/store.go)

    [Migrate] and the CHECK constraint that keeps the status of a tenant inside
    the state machine whoever writes it, over the catalogue.  What gorm's
    AutoMigrate does to the table is a parameter. *)
From S2P Require Import Prelude GoStrings Sql TenantScope Isolation Catalog Lifecycle.

Definition tenants_table : string := "tenants".
Definition statusConstraintName : string := "tenants_status_check".

Definition lower_case (c : ascii) : bool := let n := nat_of_ascii c in ((97 <=? n) && (n <=? 122))%nat.

(** ^[a-z][a-z0-9_]*$ *)
Definition safeStatusLiteral (s : string) : bool :=
  match String.list_ascii_of_string s with
  | c :: rest => lower_case c && forallb (fun c => lower_case c || is_digit c || bool_decide (c = "_"%char)) rest
  | [] => false
  end.

Section Schema.
  Context `{Sql}.
  (** gorm's AutoMigrate of the tenants table. *)
  Variable AutoMigrate : M Pg unit.

(** The literals of the constraint, as far as they are safe. *)
Fixpoint status_literals (l : list Status) : error + list string :=
  match l with
  | [] => inr []
  | st :: rest =>
      if negb (safeStatusLiteral st) then inl (New "controlplane: status %q is not a safe SQL literal") else
      match status_literals rest with inl e => inl e | inr literals => inr (st :: literals) end
  end.

Definition status_check (literals : list string) : constraint := CheckThat (ColumnIn "status" literals).

(** Two statements, each committed by itself. *)
Definition installStatusConstraint : M Pg unit :=
  literals ← of_result (status_literals AllStatuses);
  wrapping "controlplane: drop status constraint: %w" (drop_constraint tenants_table statusConstraintName);;
  wrapping "controlplane: add status constraint: %w" (add_constraint tenants_table statusConstraintName (status_check literals)).

Definition Migrate : M Pg unit :=
  wrapping "controlplane: migrate tenants: %w" AutoMigrate;; installStatusConstraint.

Lemma status_literals_all : status_literals AllStatuses = inr AllStatuses.
Proof. vm_compute. reflexivity. Qed.

(** The constraint and the predicate of the state machine are the same set. *)
Lemma status_check_spec r : eval_check r (ColumnIn "status" AllStatuses) = Some false <->
  exists s, value r "status" = Some s /\ Status_Valid s = false.
Proof.
  simpl. destruct (value r "status") as [s|]; [|split; [done|by intros (? & ? & _)]]. split.
  - intros [= E]. exists s. split; [done|]. bools. unfold Status_Valid. rewrite !bool_decide_eq_false_2; [done|..];
      intros ->; apply E; unfold AllStatuses; set_solver.
  - intros (s' & [= <-] & Hv). f_equal. apply bool_decide_eq_false_2. intros Hin. unfold AllStatuses in Hin.
    rewrite !elem_of_cons in Hin. destruct Hin as [->|[->|[->|[->|[->|[]%elem_of_nil]]]]]; discriminate.
Qed.

(** A status outside the state machine, in some row. *)
Definition strays (rel : Relation) : Prop := exists r s, r ∈ all_rows rel /\ value r "status" = Some s /\ Status_Valid s = false.

Lemma satisfied_status w rel : satisfied w rel (status_check AllStatuses) = true <-> ~ strays rel.
Proof.
  unfold satisfied, status_check. rewrite forallb_forall. split.
  - intros Hall (r & s & Hr & Hs). assert (Hc : eval_check r (ColumnIn "status" AllStatuses) = Some false)
      by (apply status_check_spec; by exists s).
    apply list_elem_of_In, Hall in Hr. rewrite Hc in Hr. done.
  - intros Hno r Hr. apply negb_true_iff, bool_decide_eq_false_2. intros (s & Hs)%status_check_spec. apply Hno.
    exists r, s. split; [by apply list_elem_of_In|done].
Qed.

Lemma forallb_false {A} (f : A -> bool) l : forallb f l = false -> exists x, x ∈ l /\ f x = false.
Proof.
  induction l as [|x l IH]; simpl; [done|]. destruct (f x) eqn:Ef; [|intros _; exists x; by split; [left|]].
  intros Hl. destruct (IH Hl) as (y & Hy & Hf). exists y. by split; [right|].
Qed.

Lemma unsatisfied_status w rel : satisfied w rel (status_check AllStatuses) = false -> strays rel.
Proof.
  unfold satisfied, status_check. intros (r & Hr & E)%forallb_false. apply negb_false_iff, bool_decide_eq_true in E.
  apply status_check_spec in E as (s & Hs). by exists r, s.
Qed.

(** Every status a database with the constraint holds is one of the machine's. *)
Definition guarded (w : Pg) : Prop := pg_constraints w !! (tenants_table, statusConstraintName) = Some (status_check AllStatuses).

Lemma guarded_valid w rel r s : wf w -> guarded w -> tables w !! tenants_table = Some rel -> r ∈ all_rows rel ->
  value r "status" = Some s -> Status_Valid s = true.
Proof.
  intros Hw Hg Hrel Hr Hs. destruct (wf_constraints w Hw _ _ _ Hg) as [_ _ _ (rel' & Hrel' & Hsat)].
  assert (rel' = rel) as -> by congruence. apply satisfied_status in Hsat. destruct (Status_Valid s) eqn:Ev; [done|].
  destruct Hsat. by exists r, s.
Qed.

Lemma wp_installStatusConstraint h w : wf w -> wp h installStatusConstraint w (fun r w' => wf w' /\ (r = inr tt -> guarded w')).
Proof.
  intros Hw. unfold installStatusConstraint. apply wp_bind. rewrite status_literals_all. apply wp_ret, wp_bind, wp_wrapping.
  eapply wp_mono; [by apply wp_drop_constraint|]. intros [e|u] w1 Hw1; [done|]. apply wp_wrapping.
  intros sc Hsc. pose proof (wp_add_constraint h tenants_table statusConstraintName (status_check AllStatuses) w1 Hw1 sc Hsc) as Ha.
  assert (Hb : wp h (add_constraint tenants_table statusConstraintName (status_check AllStatuses)) w1
      (fun r w' => r = inr tt -> guarded w')).
  { apply wp_on_table; [done|done|]. intros rel Hrel. destruct (_ || _); [done|]. case_bool_decide; [done|].
    unfold status_check. destruct (satisfied _ _ _); [|done]. intros _. unfold guarded. simpl. apply lookup_insert_eq. }
  specialize (Hb sc Hsc). destruct (add_constraint _ _ _ w1 sc) as [[r w'] sc'].
  destruct Ha as [? Ha], Hb as [_ Hb]. split; [done|]. destruct r as [e|[]]; [done|]. split; [done|]. by intros _; apply Hb.
Qed.

(** The database is the last line for the status of a tenant.  Whatever
    AutoMigrate does that keeps the schema well formed, and whichever statement
    fails: once Migrate has succeeded the constraint is there, for exactly the
    statuses of the state machine, whatever constraint of that name there was
    before, and in every well-formed database that has it, the one after Migrate
    and any later one, no row has a status the state machine does not know. *)
Theorem registry_status_guarded w w' r : wf w -> (forall w0 r0 w1, wf w0 -> outcome AutoMigrate w0 r0 w1 -> wf w1) ->
  outcome (Migrate) w r w' ->
  wf w' /\ (r = inr tt -> guarded w' /\ forall w2 rel row s, w2 = w' \/ wf w2 /\ guarded w2 ->
    tables w2 !! tenants_table = Some rel -> row ∈ all_rows rel -> value row "status" = Some s -> Status_Valid s = true).
Proof.
  intros Hw Ha Ho. assert (Hwp : wp false Migrate w (fun r w' => wf w' /\ (r = inr tt -> guarded w'))).
  { unfold Migrate. apply wp_bind, wp_wrapping. eapply wp_mono; [apply wp_self|]. intros [e|u] w1 Ho1; [by split; [eapply Ha|]|].
    apply wp_installStatusConstraint. by eapply Ha. }
  destruct (wp_outcome _ _ _ _ _ Hwp Ho) as [Hw' Hg]. split; [done|]. intros E. specialize (Hg E). split; [done|].
  intros w2 rel row s Hw2. destruct Hw2 as [->|[Hw2 Hg2]]; by apply guarded_valid.
Qed.

(** Re-installing is not atomic.  When the database answers, the constraint
    is replaced just when every row has a status of the state machine; when one
    has not, the statement that drops the old constraint has taken effect and
    the one that adds the new has failed, so the table is left with none. *)
Theorem reinstall_exact w rel : tables w !! tenants_table = Some rel ->
  has_columns w tenants_table ["status"] = true ->
  match pg_constraints w !! (tenants_table, statusConstraintName) with Some (Unique _) => False | _ => True end ->
  exists r w', runs installStatusConstraint w r w' /\ tables w' = tables w /\
    match r with
    | inr _ => ~ strays rel /\ guarded w'
    | inl e => strays rel /\ errors_is e ErrViolated = true /\ pg_constraints w' !! (tenants_table, statusConstraintName) = None
    end.
Proof.
  intros Hrel Hcol Hold. apply wp_runs. unfold installStatusConstraint. apply wp_bind. rewrite status_literals_all.
  apply wp_ret, wp_bind, wp_wrapping. unfold drop_constraint. apply wp_on_table; [done|congruence|]. intros rel0 Hrel0.
  assert (rel0 = rel) as -> by congruence. set (w1 := set_constraints (delete (tenants_table, statusConstraintName) (pg_constraints w)) w).
  assert (Hnext : forall w0, tables w0 = tables w -> has_columns w0 tenants_table ["status"] = true ->
      pg_constraints w0 !! (tenants_table, statusConstraintName) = None ->
      wp true (wrapping "controlplane: add status constraint: %w" (add_constraint tenants_table statusConstraintName (status_check AllStatuses)))
        w0 (fun r w' => tables w' = tables w /\ match r with
          | inr _ => ~ strays rel /\ guarded w'
          | inl e => strays rel /\ errors_is e ErrViolated = true /\ pg_constraints w' !! (tenants_table, statusConstraintName) = None
          end)).
  { intros w0 Ht Hc Hn. apply wp_wrapping. unfold add_constraint. apply wp_on_table; [done|congruence|]. intros rel0' Hrel0'.
    assert (rel0' = rel) as -> by congruence. change (own_columns (status_check AllStatuses)) with ["status"]. rewrite Hc, Hn.
    cbn [negb orb parent_columns status_check forallb]. rewrite bool_decide_eq_false_2 by by intros [].
    fold (status_check AllStatuses). destruct (satisfied w0 rel (status_check AllStatuses)) eqn:Es.
    - split; [done|]. split; [by eapply satisfied_status|]. apply lookup_insert_eq.
    - split; [done|]. split; [by eapply unsatisfied_status|]. by split. }
  destruct (pg_constraints w !! (tenants_table, statusConstraintName)) as [k|] eqn:Ek; [|by apply Hnext].
  assert (E : match k with Unique cs => referenced w tenants_table cs | _ => false end = false) by by destruct k. rewrite E.
  apply Hnext; [done|done|]. apply lookup_delete_eq.
Qed.

End Schema.

(** ** Witnesses *)
Section Demo.
#[local] Existing Instance map_sql.

Definition tenant_row (status : string) : Row := mkRow None {["status" := status]}.
Definition registry_relation (status : string) : Relation := mkRelation ({[1 := tenant_row status]} : gmap Z Row) false false None.
Definition registry_pg (status : string) : Pg :=
  mkPg (mkConn ∅ None {[tenants_table := registry_relation status]}) {[(tenants_table, "status") := true]} ∅ ∅ ∅.

Lemma registry_rows status r : r ∈ all_rows (registry_relation status) -> r = tenant_row status.
Proof. intros (i & Hi)%elem_of_all_rows. simpl in Hi. by apply lookup_singleton_Some in Hi as [_ <-]. Qed.

Lemma registry_pg_wf status : wf (registry_pg status).
Proof.
  split.
  - intros t c b Hb. simpl in Hb. apply lookup_singleton_Some in Hb as [[= <- <-] _]. eexists. apply lookup_singleton_eq.
  - intros t rel r c Hrel Hr [v Hv]. unfold tables in Hrel; simpl in Hrel. apply lookup_singleton_Some in Hrel as [<- <-]. apply registry_rows in Hr as ->.
    unfold value in Hv. case_bool_decide; [done|]. simpl in Hv. apply lookup_singleton_Some in Hv as [<- _].
    eexists. apply lookup_singleton_eq.
  - intros t rel r c Hb Hrel Hr. unfold tables in Hrel; simpl in Hb, Hrel. apply lookup_singleton_Some in Hb as [[= <- <-] _]. apply lookup_singleton_Some in Hrel as [_ <-].
    apply registry_rows in Hr as ->. by eexists.
  - intros n ix Hix. simpl in Hix. by rewrite lookup_empty in Hix.
  - intros t n k Hk. simpl in Hk. by rewrite lookup_empty in Hk.
Qed.

Definition registry_migrate : M Pg unit := Migrate (mret tt).

Lemma registry_migrated : result registry_migrate (registry_pg StatusTrial) = inr tt.
Proof. vm_compute. reflexivity. Qed.

Lemma registry_status_guarded_witness : guarded (after registry_migrate (registry_pg StatusTrial)).
Proof.
  pose proof (outcome_after registry_migrate (registry_pg StatusTrial)) as Ho. rewrite registry_migrated in Ho.
  refine (proj1 (proj2 (registry_status_guarded (mret tt) (registry_pg StatusTrial) _ _ (registry_pg_wf StatusTrial) _ Ho) eq_refl)).
  intros w0 r0 w1 Hw0 Ho0. exact (wp_outcome (mret tt) w0 (fun _ w => wf w) r0 w1 (wp_ret _ _ _ _ Hw0) Ho0).
Defined.

Lemma reinstall_exact_witness : exists r w', runs installStatusConstraint (registry_pg "frozen") r w' /\
  tables w' = tables (registry_pg "frozen") /\ match r with
    | inr _ => ~ strays (registry_relation "frozen") /\ guarded w'
    | inl e => strays (registry_relation "frozen") /\ errors_is e ErrViolated = true /\
        pg_constraints w' !! (tenants_table, statusConstraintName) = None
    end.
Proof.
  apply (reinstall_exact (registry_pg "frozen") (registry_relation "frozen")).
  - reflexivity.
  - vm_compute. reflexivity.
  - exact I.
Defined.

End Demo.
