(* ===== verification/KeyErrors.v ===== *)
(** * What is kept of a projection error (internal/virtualkey/projector.go)

    The text of a failed projection is stored beside the key, where operators
    and tenants read it: the secret is replaced, line breaks and tabs become
    blanks and the text is cut at 500 bytes.  [text] is an error's message. *)
From S2P Require Import Prelude GoStrings Sql Redis Cipher VirtualKey.

(** ** UTF-8 *)
Definition byte_in (lo hi : nat) (c : ascii) : bool := let n := nat_of_ascii c in ((lo <=? n) && (n <=? hi))%nat.
Definition cont : ascii -> bool := byte_in 128 191.

(** The length of the rune a text starts with; [None] where it is not one. *)
Definition rune_width (s : string) : option nat :=
  match s with
  | String a s1 =>
      if byte_in 0 127 a then Some 1%nat else
      match s1 with
      | String b s2 =>
          if byte_in 194 223 a && cont b then Some 2%nat else
          match s2 with
          | String c s3 =>
              if (byte_in 224 224 a && byte_in 160 191 b || byte_in 225 236 a && cont b || byte_in 237 237 a && byte_in 128 159 b ||
                  byte_in 238 239 a && cont b) && cont c then Some 3%nat else
              match s3 with
              | String d _ =>
                  if (byte_in 240 240 a && byte_in 144 191 b || byte_in 241 243 a && cont b || byte_in 244 244 a && byte_in 128 143 b) &&
                     cont c && cont d then Some 4%nat else None
              | EmptyString => None
              end
          | EmptyString => None
          end
      | EmptyString => None
      end
  | EmptyString => None
  end.

Fixpoint valid_go (fuel : nat) (s : string) : bool :=
  match fuel, s with
  | S fuel, String _ _ => match rune_width s with Some n => valid_go fuel (sdrop n s) | None => false end
  | _, _ => true
  end.
Definition valid_utf8 (s : string) : bool := valid_go (String.length s) s.

(** U+FFFD *)
Definition rune_error : string := of_bytes [239%nat; 191%nat; 189%nat].

(** ** The text that is stored *)
(** strings.ReplaceAll of a text that is not empty: from the left, without
    looking into what was put in. *)
Fixpoint replace_go (fuel : nat) (s old new : string) : string :=
  match fuel, s with
  | S fuel, String c s' =>
      if has_prefix s old then new +:+ replace_go fuel (sdrop (String.length old) s) old new
      else String c (replace_go fuel s' old new)
  | _, _ => s
  end.
Definition ReplaceAll (s old new : string) : string := replace_go (String.length s) s old new.

Definition line_bytes : list ascii := ["010"%char; "013"%char; "009"%char].

(** strings.Map: bytes that are no rune come back as U+FFFD. *)
Fixpoint blanks_go (fuel : nat) (s : string) : string :=
  match fuel, s with
  | S fuel, String c s' =>
      match rune_width s with
      | Some 1%nat => String (if bool_decide (c ∈ line_bytes) then " "%char else c) (blanks_go fuel s')
      | Some n => stake n s +:+ blanks_go fuel (sdrop n s)
      | None => rune_error +:+ blanks_go fuel s'
      end
  | _, _ => EmptyString
  end.
Definition map_blanks (s : string) : string := blanks_go (String.length s) s.

Definition sanitizedError (text : error -> string) (err : option error) (secret : string) : string :=
  match err with
  | None => EmptyString
  | Some e =>
      let message := text e in
      let message := if is_empty secret then message else ReplaceAll message secret "[redacted]" in
      let message := map_blanks message in
      if (500 <? String.length message)%nat then stake 500 message else message
  end.

(** The length of the text is fuel enough: more changes nothing. *)
Lemma sdrop_length n s : (1 <= n)%nat -> s <> EmptyString -> (String.length (sdrop n s) < String.length s)%nat.
Proof.
  intros Hn Hs. destruct s as [|c s], n as [|n]; [done|done|lia|]. simpl. assert (H : (String.length (sdrop n s) <= String.length s)%nat).
  { revert n Hn. induction s as [|d s IH]; intros [|n] Hn; simpl; try lia. specialize (IH ltac:(done) n ltac:(lia)). lia. }
  lia.
Qed.

Lemma replace_fuel old new : old <> EmptyString -> forall f f' s, (String.length s <= f)%nat -> (String.length s <= f')%nat ->
  replace_go f s old new = replace_go f' s old new.
Proof.
  intros Hold f. induction f as [|f IH]; intros [|f'] [|c s] Hf Hf'; try done; try (simpl in *; lia). cbn [replace_go].
  assert (Hl : (String.length (sdrop (String.length old) (String c s)) < String.length (String c s))%nat)
    by (apply sdrop_length; [destruct old; simpl; [done|lia]|done]).
  simpl String.length in *. destruct (has_prefix (String c s) old); f_equal; apply IH; lia.
Qed.

Lemma blanks_fuel f : forall f' s, (String.length s <= f)%nat -> (String.length s <= f')%nat -> blanks_go f s = blanks_go f' s.
Proof.
  induction f as [|f IH]; intros [|f'] [|c s] Hf Hf'; try done; try (simpl in *; lia). cbn [blanks_go].
  assert (Hl : forall n, (String.length (sdrop (S n) (String c s)) < String.length (String c s))%nat)
    by (intros n; apply sdrop_length; [lia|done]).
  assert (El : String.length (String c s) = S (String.length s)) by done. rewrite El in *.
  destruct (rune_width (String c s)) as [[|[|n]]|] eqn:En; f_equal; try (apply IH; lia).
  - exfalso. revert En. unfold rune_width. by repeat case_match.
  - pose proof (Hl (S n)). apply IH; lia.
Qed.

(** ** The secret is not in it *)

(** Printable ASCII without brackets, and not a part of the replacement. *)
Definition plain_byte (c : ascii) : bool := graphic c && negb (bool_decide (c = "["%char)) && negb (bool_decide (c = "]"%char)).
Fixpoint all_plain (s : string) : bool := match s with EmptyString => true | String c s' => plain_byte c && all_plain s' end.
Definition secret_like (s : string) : Prop := s <> EmptyString /\ all_plain s = true /\ contains "[redacted]" s = false.

Lemma prefix_cons c d s p : has_prefix (String c s) (String d p) = true <-> c = d /\ has_prefix s p = true.
Proof.
  rewrite !has_prefix_spec. split.
  - intros [r E]. change (String d p +:+ r) with (String d (p +:+ r)) in E. injection E as -> ->. split; [done|]. by exists r.
  - intros (-> & r & ->). by exists r.
Qed.

Lemma prefix_nil s : has_prefix s EmptyString = true.
Proof. by apply (has_prefix_app EmptyString s). Qed.

(** A text without ']' that starts before one ends before it. *)
Lemma prefix_before a t x : all_plain x = true -> has_prefix (a +:+ String "]" t) x = true -> has_prefix a x = true.
Proof.
  revert x. induction a as [|c a IH]; intros [|d x] Hx; try by rewrite prefix_nil.
  - change (EmptyString +:+ String "]" t) with (String "]" t). intros [<- _]%prefix_cons. by vm_compute in Hx.
  - change (String c a +:+ String "]" t) with (String c (a +:+ String "]" t)). cbn [all_plain] in Hx. bools.
    intros [-> Hp]%prefix_cons. apply prefix_cons. split; [done|]. by apply IH.
Qed.

Lemma contains_before a t x : all_plain x = true -> contains t x = false -> contains a x = false ->
  x <> EmptyString -> contains (a +:+ String "]" t) x = false.
Proof.
  intros Hx Ht. induction a as [|c a IH]; intros Ha Hne.
  - change (EmptyString +:+ String "]" t) with (String "]" t). cbn [contains]. rewrite Ht, orb_false_r.
    destruct (has_prefix (String "]" t) x) eqn:E; [|done]. exfalso. by apply (prefix_before EmptyString t x Hx), has_prefix_spec in E as [[] E]; destruct x.
  - change (String c a +:+ String "]" t) with (String c (a +:+ String "]" t)). cbn [contains] in *.
    apply orb_false_iff in Ha as [Hp Hc]. rewrite (IH Hc Hne), orb_false_r.
    destruct (has_prefix (String c (a +:+ String "]" t)) x) eqn:E; [|done].
    by rewrite (prefix_before (String c a) t x Hx E) in Hp.
Qed.

Lemma replace_prefix old y : all_plain y = true -> forall fuel s,
  has_prefix (replace_go fuel s old "[redacted]") y = true -> has_prefix s y = true.
Proof.
  induction y as [|d y IH]; intros Hy fuel s; [intros _; apply prefix_nil|]. cbn [all_plain] in Hy. apply andb_true_iff in Hy as [Hd Hy].
  destruct fuel as [|fuel], s as [|c s]; cbn [replace_go]; try done.
  destruct (has_prefix (String c s) old); [|].
  - intros [<- _]%prefix_cons. done.
  - intros [-> Hp]%prefix_cons. apply prefix_cons. split; [done|]. by eapply IH.
Qed.

Lemma replaced x : secret_like x -> forall fuel s, (String.length s <= fuel)%nat -> contains (replace_go fuel s x "[redacted]") x = false.
Proof.
  intros (Hne & Hx & Hr) fuel. induction fuel as [|fuel IH]; intros [|c s] Hl; cbn [replace_go];
    [by destruct x|by simpl in Hl; lia|by destruct x|].
  destruct (has_prefix (String c s) x) eqn:E.
  - change ("[redacted]" +:+ ?t) with ("[redacted" +:+ String "]" t). apply contains_before; [done| | |done].
    + apply IH. apply has_prefix_spec in E as [r Er]. rewrite Er, sdrop_app. apply (f_equal String.length) in Er.
      rewrite slength_app in Er. simpl in *. destruct x; [done|]. simpl in Er. lia.
    + destruct (contains "[redacted" x) eqn:Ec; [|done]. apply contains_spec in Ec as (a & b & Ea).
      rewrite <-Hr. symmetry. apply contains_spec. exists a, (b +:+ "]"). change "[redacted]" with ("[redacted" +:+ "]"). by rewrite Ea, !sapp_assoc.
  - cbn [contains]. rewrite IH by (simpl in Hl; lia). rewrite orb_false_r.
    destruct (has_prefix (String c (replace_go fuel s x "[redacted]")) x) eqn:Ep; [|done].
    pose proof (replace_prefix x x Hx (S fuel) (String c s)) as Hpre. cbn [replace_go] in Hpre. rewrite E in Hpre. by specialize (Hpre Ep).
Qed.

(** Bytes that no plain text has. *)
Definition high (s : string) : Prop := forall c, index_byte s c <> None -> (128 <= nat_of_ascii c)%nat.

Lemma high_cons c s : (128 <= nat_of_ascii c)%nat -> high s -> high (String c s).
Proof. intros Hc Hs d. simpl. case_bool_decide as E; [by subst|]. intros Hd. apply Hs. by destruct (index_byte s d). Qed.

Lemma high_nil : high EmptyString.
Proof. by intros d. Qed.

Lemma high_head c s : high (String c s) -> (128 <= nat_of_ascii c)%nat.
Proof. intros Hs. apply Hs. simpl. by rewrite bool_decide_eq_true_2. Qed.

Lemma high_tail c s : high (String c s) -> high s.
Proof. intros Hs d Hd. apply Hs. simpl. case_bool_decide; [done|]. by destruct (index_byte s d). Qed.

Lemma high_not_plain c : (128 <= nat_of_ascii c)%nat -> plain_byte c = false.
Proof. intros Hc. unfold plain_byte, graphic. rewrite (proj2 (Nat.leb_gt (nat_of_ascii c) 126)) by lia. by rewrite andb_false_r. Qed.

Lemma cont_high c : cont c = true -> (128 <= nat_of_ascii c)%nat.
Proof. unfold cont, byte_in. intros [H _]%andb_true_iff. by apply Nat.leb_le in H. Qed.

Lemma byte_in_high lo hi c : (128 <= lo)%nat -> byte_in lo hi c = true -> (128 <= nat_of_ascii c)%nat.
Proof. unfold byte_in. intros Hl [H _]%andb_true_iff. apply Nat.leb_le in H. lia. Qed.

(** A rune is one ASCII byte or high bytes. *)
Lemma rune_width_high s n : rune_width s = Some n -> n = 1%nat \/ (1 < n)%nat /\ high (stake n s).
Proof.
  unfold rune_width. destruct s as [|a [|b [|c [|d s]]]]; try done; repeat case_match; intros [= <-]; auto; right; (split; [lia|]);
    repeat match goal with H : _ && _ = true |- _ => apply andb_true_iff in H as [? ?] | H : _ || _ = true |- _ => apply orb_true_iff in H as [?|?] end;
    simpl; repeat match goal with |- high (String _ _) => apply high_cons | |- high EmptyString => apply high_nil end; try (by apply cont_high); (by eapply byte_in_high; [|done]; lia).
Qed.

(** Skipping high bytes does not skip a plain text. *)
Lemma contains_high a t x : high a -> x <> EmptyString -> all_plain x = true -> contains (a +:+ t) x = contains t x.
Proof.
  intros Ha Hne Hx. induction a as [|c a IH]; [done|]. change (String c a +:+ t) with (String c (a +:+ t)). cbn [contains].
  rewrite IH by by eapply high_tail. destruct (has_prefix (String c (a +:+ t)) x) eqn:E; [|done]. exfalso.
  destruct x as [|d x]; [done|]. apply prefix_cons in E as [<- _]. cbn [all_plain] in Hx.
  by rewrite (high_not_plain c (high_head _ _ Ha)) in Hx.
Qed.

Lemma prefix_high a t y : high a -> a <> EmptyString -> all_plain y = true -> has_prefix (a +:+ t) y = true -> y = EmptyString.
Proof.
  intros Ha Hne Hy E. destruct a as [|c a], y as [|d y]; try done. apply prefix_cons in E as [<- _]. cbn [all_plain] in Hy.
  by rewrite (high_not_plain c (high_head _ _ Ha)) in Hy.
Qed.

Lemma contains_sdrop n s x : contains (sdrop n s) x = true -> contains s x = true.
Proof.
  revert n. induction s as [|c s IH]; intros [|n]; try done. intros H%IH. cbn [contains]. by rewrite H, orb_true_r.
Qed.

Lemma rune_error_high : high rune_error.
Proof.
  unfold rune_error. cbn [of_bytes]. do 3 (apply high_cons; [apply Nat.leb_le; vm_compute; reflexivity|]). apply high_nil.
Qed.

(** What a step of the map puts out. *)
Lemma blanks_cases fuel c s' :
  (exists d, blanks_go (S fuel) (String c s') = String d (blanks_go fuel s') /\ (d = " "%char \/ d = c /\ c ∉ line_bytes)) \/
  (exists a rest, blanks_go (S fuel) (String c s') = a +:+ blanks_go fuel rest /\ a <> EmptyString /\ high a /\
     exists n, rest = sdrop n (String c s')).
Proof.
  cbn [blanks_go]. destruct (rune_width (String c s')) as [n|] eqn:En.
  - destruct (rune_width_high _ _ En) as [->|[Hn Hh]].
    + left. eexists. split; [done|]. case_bool_decide; auto.
    + right. exists (stake n (String c s')), (sdrop n (String c s')). destruct n as [|[|n]]; [lia|lia|].
      split; [done|]. split; [done|]. split; [done|]. by exists (S (S n)).
  - right. exists rune_error, s'. split; [done|]. split; [done|]. split; [apply rune_error_high|]. by exists 1%nat.
Qed.

Lemma blanks_prefix y : all_plain y = true -> forall fuel s, has_prefix (blanks_go fuel s) y = true -> has_prefix s y = true.
Proof.
  induction y as [|d y IH]; intros Hy fuel s; [intros _; apply prefix_nil|]. pose proof Hy as Hdy.
  cbn [all_plain] in Hy. apply andb_true_iff in Hy as [Hd Hy]. destruct fuel as [|fuel], s as [|c s]; try done.
  destruct (blanks_cases fuel c s) as [(e & -> & He)|(a & rest & -> & Hne & Ha & _)].
  - intros [-> Hp]%prefix_cons. destruct He as [->|[-> _]]; [by vm_compute in Hd|]. apply prefix_cons. split; [done|]. by eapply IH.
  - intros Hp. by apply prefix_high in Hp.
Qed.

Lemma blanks_contains x : x <> EmptyString -> all_plain x = true -> forall fuel s,
  contains (blanks_go fuel s) x = true -> contains s x = true.
Proof.
  intros Hne Hx fuel. induction fuel as [|fuel IH]; intros [|c s]; [by destruct x|by destruct x|by destruct x|].
  pose proof (blanks_prefix x Hx (S fuel) (String c s)) as Hpre.
  destruct (blanks_cases fuel c s) as [(e & E & _)|(a & rest & E & _ & Ha & n & ->)]; rewrite E in *.
  - intros H. cbn [contains] in H |- *. apply orb_true_iff in H as [H|H]; [by rewrite Hpre|]. by rewrite (IH _ H), orb_true_r.
  - rewrite contains_high by done. intros H%IH. by apply contains_sdrop in H.
Qed.

Lemma blanks_lines c : c ∈ line_bytes -> forall fuel s, index_byte (blanks_go fuel s) c = None.
Proof.
  intros Hc fuel. assert (Hlow : (nat_of_ascii c < 128)%nat).
  { unfold line_bytes in Hc. rewrite !elem_of_cons in Hc. destruct Hc as [->|[->|[->|[]%elem_of_nil]]]; apply Nat.ltb_lt; vm_compute; reflexivity. }
  induction fuel as [|fuel IH]; intros [|d s]; [done..|].
  destruct (blanks_cases fuel d s) as [(e & -> & He)|(a & rest & -> & _ & Ha & _)].
  - simpl. rewrite bool_decide_eq_false_2; [by rewrite IH|]. intros ->. destruct He as [->|[-> Hno]]; [|done].
    unfold line_bytes in Hc. rewrite !elem_of_cons in Hc. by destruct Hc as [?|[?|[?|[]%elem_of_nil]]].
  - apply index_byte_app_none; [|done]. destruct (index_byte a c) eqn:E; [|done]. exfalso.
    assert (128 <= nat_of_ascii c)%nat by (apply Ha; by rewrite E). lia.
Qed.

Lemma stake_prefix n s x : has_prefix (stake n s) x = true -> has_prefix s x = true.
Proof.
  revert n x. induction s as [|c s IH]; intros [|n] [|d x]; try done; try (intros _; apply prefix_nil).
  cbn [stake]. intros [-> Hp]%prefix_cons. apply prefix_cons. split; [done|]. by eapply IH.
Qed.

Lemma stake_contains n s x : x <> EmptyString -> contains (stake n s) x = true -> contains s x = true.
Proof.
  intros Hne. revert n. induction s as [|c s IH]; intros [|n]; [by destruct x|by destruct x|by destruct x|].
  pose proof (stake_prefix (S n) (String c s) x) as Hp. cbn [stake contains] in *.
  intros [H|H]%orb_true_iff; [by rewrite Hp|]. by rewrite (IH n H), orb_true_r.
Qed.

Lemma stake_length n s : (String.length (stake n s) <= n)%nat.
Proof. revert n. induction s as [|c s IH]; intros [|n]; simpl; try lia. specialize (IH n). lia. Qed.

Lemma stake_lines n s c : index_byte s c = None -> index_byte (stake n s) c = None.
Proof.
  revert n. induction s as [|d s IH]; intros [|n]; try done. simpl. case_bool_decide; [done|].
  destruct (index_byte s c) eqn:E; [done|]. by rewrite IH.
Qed.

(** The generated secrets are of that kind. *)
Lemma b64_char_plain n : plain_byte (b64_char n) = true.
Proof.
  destruct (decide (n < 63)%nat) as [Hn|Hn]; [do 63 (destruct n as [|n]; [vm_compute; reflexivity|]); lia|].
  unfold b64_char. rewrite !(proj2 (Nat.ltb_ge n _)) by lia. by rewrite (proj2 (Nat.eqb_neq n 62)) by lia.
Qed.

Lemma all_plain_b64 s : all_plain (b64_encode s) = true.
Proof.
  induction s as [|a|a b|a b c s IH] using triples_ind; cbn [b64_encode all_plain]; rewrite ?b64_char_plain; done.
Qed.

Lemma generated_secret_like b secret : randomSecret (inr b) = inr secret -> secret_like secret.
Proof.
  unfold randomSecret. intros E. assert (secret = "sk-bf-" +:+ b64_encode b) as -> by congruence.
  split; [done|]. split; [exact (all_plain_b64 b)|reflexivity].
Qed.

(** C28. What is stored of an error.  Whatever the message, the stored text has
    at most 500 bytes and no line break or tab, and the secret of the key does
    not occur in it, for every secret the store generates, and for any printable
    ASCII text without brackets that is not a part of the replacement itself:
    neither the replacement, nor the blanks, nor the cut can put it together
    again.  The projector gives it the secret when it brings a key to the data
    plane; when it takes one away it has none to give, and redacts nothing. *)
Theorem stored_error_safe text e secret :
  let m := sanitizedError text (Some e) secret in
  (String.length m <= 500)%nat /\
  (forall c, c ∈ line_bytes -> index_byte m c = None) /\
  (secret_like secret -> contains m secret = false) /\
  (forall b, randomSecret (inr b) = inr secret -> contains m secret = false).
Proof.
  cbv zeta. assert (Hlike : secret_like secret -> contains (sanitizedError text (Some e) secret) secret = false).
  { intros Hs. pose proof Hs as (Hne & Hp & _). destruct (contains _ secret) eqn:E; [|done]. exfalso. unfold sanitizedError in E.
    unfold is_empty in E. rewrite bool_decide_eq_false_2 in E by done.
    assert (Hc : contains (map_blanks (ReplaceAll (text e) secret "[redacted]")) secret = true)
      by (destruct (500 <? _)%nat; [by eapply stake_contains|done]).
    apply blanks_contains in Hc; [|done|done]. unfold ReplaceAll in Hc. by rewrite replaced in Hc. }
  split; [|split; [|split; [done|intros b Hb; by eapply Hlike, generated_secret_like]]].
  - unfold sanitizedError. destruct (500 <? _)%nat eqn:E; [apply stake_length|by apply Nat.ltb_ge in E].
  - intros c Hc. unfold sanitizedError. destruct (500 <? _)%nat; [apply stake_lines|]; by apply blanks_lines.
Qed.

(** The message of an error without formatting. *)
Definition plain_text (e : error) : string := match e with New msg | Driver msg => msg | _ => EmptyString end.

Fixpoint repeated (n : nat) (s : string) : string := match n with O => EmptyString | S n => s +:+ repeated n s end.

(** The cut does not respect runes: a message in good UTF-8 whose 500th byte
    is inside a rune is stored as a text that is not UTF-8 any more, which a
    UTF-8 database refuses. *)
Theorem cut_splits_rune :
  let message := repeated 499 "a" +:+ of_bytes [195%nat; 169%nat] in
  valid_utf8 message = true /\ valid_utf8 (sanitizedError plain_text (Some (New message)) EmptyString) = false.
Proof. vm_compute. split; reflexivity. Qed.

Lemma stored_error_safe_witness :
  contains (sanitizedError plain_text (Some (New "upsert of sk-bf-YWJj failed")) "sk-bf-YWJj") "sk-bf-YWJj" = false /\
  sanitizedError plain_text (Some (New "upsert of sk-bf-YWJj failed")) "sk-bf-YWJj" = "upsert of [redacted] failed".
Proof.
  split; [|vm_compute; reflexivity].
  exact (proj2 (proj2 (proj2 (stored_error_safe plain_text (New "upsert of sk-bf-YWJj failed") "sk-bf-YWJj"))) "abc" eq_refl).
Defined.
